(* ===== verification/_CoqProject ===== *)
-Q . S2P
Prelude.v
CInt.v
CString.v
PageAlloc.v
Pmm.v
Heap.v
Vmm.v
Sync.v
Sched.v
Io.v
Keyboard.v
Mouse.v
BlockAlloc.v
HeapAlloc.v
Vfs.v
VfsOps.v
VfsLive.v
VfsBoot.v
Mem.v
Start.v
Framebuffer.v
Adaptive.v
Wm.v
Log.v
Pe.v
Interrupts.v
Timer.v
Isr.v
Rtc.v
Pci.v
Security.v
Cpu.v
Services.v
Syscall.v
Cursor.v
Terminal.v
Shell.v
Messages.v
Commands.v
Programs.v
Apps.v
Desktop.v
Render.v
Main.v
Boot.v
System.v
