(* ===== verification/Prelude.v ===== *)
(** * H3OS: a verification of the kernel and its services

    H3OS is a hobby operating system in C: a hybrid kernel with memory management, a
    cooperative scheduler, port-level drivers, a RAM file system, a PE32+ loader, a
    compositing window manager, and a desktop with a terminal and small applications.  This
    library models its parts as executable functions
    and proves what makes each of them correct.  File names below are relative to src/.

    ** How C is modelled

    - Integers are [Z], reduced at the C type by the functions of [CInt.v] wherever the
      code converts, stores or computes in that type and the value could leave it.
    - Memory is a finite map from addresses to bytes ([CString.v], [Mem.v]); static
      arrays are lists with bounds ([arr_get], [arr_set]); static variables of a file are
      the fields of a record that every operation takes and returns.  A pointer into a
      static table is the index of the entry, or [None] for NULL.
    - A C function returns an [outcome] (this file): [Done], [Panicked] for a call of
      [kpanic], [Fault] for an access outside an object, [Spin] for a loop that is still
      running when the fuel of the model is used up.  The theorems say [returns m Q]: the
      function returns, and [Q] holds of the result; so they exclude faults and endless
      loops.  Where a loop is not structural, the fuel is given in the definition and
      proved to be enough (the length of a string, the slots of a table, the longer side
      of a line, the size of a relocation directory over 8, 65 digits), or is an argument
      with a lower bound in the theorem (polls of a device, length of a ready queue).
    - Devices are instances of the port class of [Io.v].  What a driver relies on of its
      device is a class of laws (the UART in [Log.v], the 8259 pair in [Interrupts.v],
      the 8254 in [Timer.v], the CMOS in [Rtc.v], configuration space in [Pci.v]), each
      with a concrete device that satisfies them.
    - What the initialisations log ([KLOG_*]) is in [Messages.v], and [Boot.v] logs it in
      the order of the code; so is the panic of an exception.  The diagnostics of other calls (out of memory in
      [heap.c], also during the boot, a rejected image, a shutdown) are left out of the
      models of their components.

    ** Files

    - [Prelude.v]: outcomes, arrays, loops and their invariant rules, counting, tactics.
    - [CInt.v]: [sdk/include/h3os/types.h].  [CString.v]: [kernel/core/string.c], every
      routine: copying with overlap, comparison, search, number conversion.
    - [PageAlloc.v], [BlockAlloc.v]: the interfaces of the page allocator and of the heap
      to their clients, as classes with laws and a concrete instance each.
    - [Pmm.v]: [memory/pmm.c], the page bitmap and the Multiboot2 memory map; it
      implements [PageAlloc.v].  [Heap.v]: [memory/heap.c], the block list with its
      headers in memory.  [HeapAlloc.v]: that heap, with its early region only, implements
      [BlockAlloc.v].  [Vmm.v]: [memory/vmm.c], four levels of page tables.
    - [Sync.v]: [kernel/sync/sync.c], spinlocks, and mutexes and semaphores as atomic
      steps of any number of threads.  [Sched.v]: [kernel/core/sched.c].
    - [Io.v]: port access.  [Keyboard.v], [Mouse.v], [Cursor.v]: [drivers/keyboard],
      [drivers/mouse].  [Timer.v], [Rtc.v], [Pci.v]: the drivers of these names.
    - [Interrupts.v]: [kernel/arch/x86_64/idt.c], [gdt.c].  [Cpu.v]: [cpu.c].  [Isr.v]:
      [isr.asm], the stubs as instructions over the registers and the stack, around the
      dispatcher of [Interrupts.v].  [Start.v]: [boot/boot.asm], the tables of [Vmm.v] and
      the way to [kernel_main].
    - [Vfs.v], [VfsOps.v], [VfsLive.v], [VfsBoot.v]: [filesystem/vfs/vfs.c]; the first has
      the operations and the tree they keep, the second the theorems about what each of them
      does, the third shows that they keep the file system well formed in any order and at
      any path, the last has the tree that [vfs_init] builds.
    - [Mem.v]: wide loads and stores.  [Framebuffer.v]: [drivers/framebuffer].
      [Adaptive.v]: [kernel/core/adaptive.c].  [Wm.v]: [window_manager/wm.c].
    - [Log.v]: [kernel/core/log.c].  [Pe.v]: [loader/pe.c].
    - [Security.v]: [security/security.c].  [Services.v]: [kernel/core/ipc.c], [power.c],
      [network/net.c], [filesystem/fat32/fat32.c], [loader/pe_seed.c].
    - [Syscall.v]: [kernel/syscall/syscall.c].
    - [Terminal.v], [Shell.v]: [applications/terminal/terminal.c]; the screen and the input
      line, then the commands.  [Commands.v]: no command but a program can
      fail.  [Programs.v]: neither can a program the loader can take.
      [Apps.v]: the other applications, and the dispatch of the callbacks of windows.
    - [Desktop.v]: [desktop/desktop.c], clicks and drawing.  [Render.v]: every drawing call
      of the kernel returns and stays on the surface, at any coordinates.
    - [Main.v], [Boot.v]: [kernel/core/main.c], the event loop and [kernel_main].
      [Messages.v]: every message of the boot, with its format and its arguments.
    - [System.v]: the boot and the event loop together, with all the components below them.

    ** How the parts interact

    The heap calls the page allocator through [PageAlloc.v]; so do the page tables, the
    framebuffer and the loader, whose theorems hold for any allocator with its laws; the
    bitmap of [Pmm.v] is one.  The file system and the loader call the heap through
    [BlockAlloc.v], which the early heap implements.  The scheduler takes the lock of
    [Sync.v].  The window manager reads the pointer of [Mouse.v], the screen of [Framebuffer.v] and the limits of
    [Adaptive.v].  The system calls run on [Sched.v], [Timer.v] and [Log.v]; the sample
    of [Services.v] is written by [Vfs.v] and run by [Pe.v].  The commands of [Shell.v]
    drive the file system, the loader, whose image prints on the screen of [Terminal.v],
    and the power ports.  [Desktop.v] opens the windows of [Apps.v] in the table of [Wm.v]
    and draws all of them; [Main.v] hands the keys and the pointer to both, and lets
    interrupts of the keyboard, the mouse and the timer arrive in between; [Boot.v] runs the
    initialisations in the order of the code and gives [Main.v] its first state.  What
    opening, snapping and clicking keep is a contract of [Desktop.v] ([contract]), which
    [System.v] meets with the state that drawing ([Render.v]) and typing ([Commands.v]) need.

    ** What the theorems show

    - The system: after a boot every frame returns, whatever is typed (within the lengths
      of buffers), run, pointed at and drawn, and every state in between is well formed
      ([system_keeps_running]).
    - Strings: [memmove] with overlap, [strcmp], and [utoa] as a round trip.
    - Memory: [pmm_init] hands out usable pages only; allocation is first fit, and
      freeing undoes it; [kmalloc] returns a fresh block that fits and [kfree] keeps the
      list coalesced; mapping and unmapping change exactly one page.
    - Concurrency: no interleaving of steps lets a semaphore hand out more than it has or
      two threads into a mutex.  From [sched_init] on the scheduler follows a plan
      ([sched_follows_plan]): slots are given out in order; a yield of idle alone changes
      nothing, so that the kernel, which creates no task, can go on for ever
      ([sched_idle_runs_on]); with a second task the first yield runs it and the second hangs.
    - Input: the key ring is a queue of 255 characters; letters get the right case; the
      pointer stays on the screen whatever bytes arrive.
    - Files: [vfs_init] builds the boot tree over any lawful heap, with the texts of the
      files for which it gets a block; a created node is found
      at its path, a write is read back, an unlinked node is unreachable, and in each case
      everything else stays as it was.  Calls in any order, with paths that need not exist
      but fit the buffers of [vfs.c] ([fitting]), return and keep the tree, the contents and
      the heap consistent.
    - Windows: after any events the count is right and the focus is on a shown window
      with the only mark ([consistent]), and after events without a press on the taskbar
      button of the window that is being dragged also the converse holds ([coherent]); the
      hit test agrees with the drawing order, except where that press has left a window
      that is shown but not drawn ([ghost]); snapping tiles the work area; maximising and restoring is a round trip.
    - Drawing: a rectangle paints exactly its visible pixels; the line loop ends at the
      second point and moves one pixel at a time.  A whole desktop, with windows at any
      position, is drawn without touching a byte outside the surfaces, where names and the
      working directory fit the lines they are drawn in ([desk_room]).
    - Log: after the boot the ring ends with the transcript of all initialisations, line by
      line, with the values found, the time read from the clock among them
      ([kernel_log_holds]).
    - Loader: probing accepts exactly the files with well-formed headers, Windows programs
      among them ([windows_file_accepted]); relocation moves exactly the
      words of the table; a run enters an image that was loaded inside its memory.
    - Boot code and stubs: [kernel_main] is entered in long mode with the first GiB mapped
      to itself; an interrupt reaches the dispatcher with its frame, and the interrupted
      code gets back every register and its stack.
    - Devices: which interrupt lines get through, the programmed timer rate, the decoded
      date, and the devices the PCI scan finds; the permission check.
    - Terminal: the screen shows the newest rows of an endless page; a typed line is echoed
      and run; what [cat] and [cp] do; a line is served, also one that runs a
      program the loader can take, and changes files only if its command is one that does.
    - Desktop: what is drawn on the taskbar and in the start menu is what a click there
      does; what the wallpaper paints.  From the boot on, pointer and desktop keys in any
      order keep the windows and the terminal well formed, and every step returns.
      [kernel_main] gets there from what the boot loader leaves.  A frame handles the
      waiting keys in order, and its wait ends when ticks arrive.

    Some theorems show behaviour that is not what the code means to do: coalescing of
    blocks of different regions, the scheduler that hangs on the second yield with a second
    task, the window that a press on the taskbar during a drag leaves marked without the focus,
    Windows programs the loader accepts against its documentation, the
    rename that fails on files with content, the interrupt of the mouse that is masked,
    the timer at 18 Hz, years before 2000, the state of a maximised window that is lost,
    the copy that reports a failure, the two exceptions with
    an error code the stubs do not expect, the icons that are hit through windows, the wallpaper
    that streaks, the press that is lost while a frame is drawn.

    ** Not modelled

    - The linker script, the segment registers and the descriptor table of the trampoline;
      the addresses of the stubs, the tables and the stack are parameters.  What compiled C
      code does to registers is a parameter of [Isr.v] that keeps the calling convention.
    - The TLB, caches and memory ordering beyond the atomic operations; [lgdt], [lidt].
    - What the image of the loader does: a parameter of [pe_run].  Interrupt handlers are
      parameters of [Interrupts.v]; [Main.v] delivers those of the keyboard, the mouse and
      the timer directly.
    - The heap of [Boot.v] grows no region beyond its arena: with more than one region the
      coalescing of [Heap.v] breaks the laws the file system relies on.
    - Programs are a parameter ([processor]): they change the memory they are loaded to,
      which is apart from that of the screen, and call the table of [Pe.v].  The frames of
      [System.v] exclude images the loader does not check or that need relocation, programs
      for which there are no free pages (the loader then tries the heap), and names for which the code has no room ([tame]): names of 20 characters in the file
      manager, directories whose path does not leave room for the prompt, long package names
      ([h3pkg_install_overflows], [prompt_overflows]).  [VfsLive.v] has the two bounds on
      names and the working directory as a class ([Room]): its theorem holds up to what
      [vfs.c] has room for (names of 126, a directory of 125, paths of 127), [desk_room] is
      the smaller bound of the desktop (19 and 25).
    - An interrupt between the two calls of [mouse_get] in a frame; the second load of
      [count] in [semaphore_wait], behind the lock; the return address that the call of
      [kernel_main] pushes.  Signed overflow in drawing, undefined in C, wraps around.
    - [g_search_len] of the desktop, which nothing reads; interrupts that arrive while the
      keys of a frame are handled (they count as arriving before the frame or while it is
      drawn).
    - [graphics], [filesystem/ext2] and [filesystem/h3fs] have declarations only; [tools],
      [docs] and [tests] have no kernel code. *)
From Stdlib Require Import ZArith Lia Bool.
From stdpp Require Import base tactics option list numbers.

#[global] Open Scope Z_scope.

(** ** Outcomes of C code

    [Done a]: the code returned [a].  [Panicked]: it called [kpanic], which
    never returns.  [Fault]: it accessed memory outside the object it was
    given (undefined behaviour in C).  [Spin]: the loop was still running when
    the fuel of the model ran out. *)
Inductive outcome (A : Type) : Type :=
  | Done (a : A)
  | Panicked
  | Fault
  | Spin.
Arguments Done {A} a.
Arguments Panicked {A}.
Arguments Fault {A}.
Arguments Spin {A}.

#[global] Instance outcome_ret : MRet outcome := @Done.
#[global] Instance outcome_bind : MBind outcome := fun A B f m =>
  match m with
  | Done a => f a
  | Panicked => Panicked
  | Fault => Fault
  | Spin => Spin
  end.

Section Outcome.
Context {A B : Type}.

Lemma bind_Done (a : A) (f : A -> outcome B) : (Done a ≫= f) = f a.
Proof. reflexivity. Qed.

Lemma bind_Done_inv (m : outcome A) (f : A -> outcome B) b :
  (m ≫= f) = Done b -> exists a, m = Done a /\ f a = Done b.
Proof. destruct m; simpl; intros H; try discriminate; eauto. Qed.

(** The value of a [Done], by which postconditions are stated. *)
Definition returns (m : outcome A) (Q : A -> Prop) : Prop :=
  exists a, m = Done a /\ Q a.

Lemma returns_Done (a : A) (Q : A -> Prop) : Q a -> returns (Done a) Q.
Proof. intros; exists a; auto. Qed.

Lemma returns_mono (m : outcome A) (Q Q' : A -> Prop) :
  returns m Q -> (forall a, Q a -> Q' a) -> returns m Q'.
Proof. intros (a & -> & HQ) HQ'. exists a. auto. Qed.

Lemma returns_is (m : outcome A) a : returns m (eq a) -> m = Done a.
Proof. intros (b & -> & ->). reflexivity. Qed.

Lemma returns_eq (m : outcome A) (Q : A -> Prop) a :
  returns m Q -> m = Done a -> Q a.
Proof. intros (b & -> & HQ) [= <-]. exact HQ. Qed.
End Outcome.

Lemma returns_bind {A B : Type} (m : outcome A) (f : A -> outcome B) Q :
  returns m (fun a => returns (f a) Q) -> returns (m ≫= f) Q.
Proof. intros (a & -> & HQ). exact HQ. Qed.

(** ** Arrays with C bounds: an access outside the array is a [Fault]. *)
Section Arrays.
Context {A : Type}.
Implicit Types l : list A.

Definition arr_get l (i : Z) : outcome A :=
  if i <? 0 then Fault
  else match l !! Z.to_nat i with Some x => Done x | None => Fault end.

Definition arr_set l (i : Z) (x : A) : outcome (list A) :=
  if (i <? 0) || (Z.of_nat (length l) <=? i) then Fault
  else Done (<[Z.to_nat i := x]> l).

Lemma arr_get_Done l i x :
  arr_get l i = Done x <-> 0 <= i /\ l !! Z.to_nat i = Some x.
Proof.
  unfold arr_get. destruct (Z.ltb_spec i 0) as [Hi|Hi].
  - split; [discriminate | intros [? _]; lia].
  - destruct (l !! Z.to_nat i); split.
    + intros [= ->]; auto.
    + intros [_ [= ->]]; auto.
    + discriminate.
    + intros [_ [=]].
Qed.

Lemma arr_get_in l i :
  0 <= i < Z.of_nat (length l) -> exists x, arr_get l i = Done x.
Proof.
  intros Hi. destruct (lookup_lt_is_Some_2 l (Z.to_nat i)) as [x Hx]; [lia|].
  exists x. apply arr_get_Done. auto with lia.
Qed.

Lemma arr_set_Done l i x :
  0 <= i < Z.of_nat (length l) -> arr_set l i x = Done (<[Z.to_nat i := x]> l).
Proof.
  intros Hi. unfold arr_set.
  destruct (Z.ltb_spec i 0); [lia|].
  destruct (Z.leb_spec (Z.of_nat (length l)) i); [lia|]. reflexivity.
Qed.
End Arrays.

(** ** Loops

    [for_to lo hi body] is [for (i = lo; i < hi; i++) body(i)]; [for_ret] is the
    same loop with a body that may leave it ([inr]); [loop] is a general
    [while] loop with fuel. *)
Section Loops.
Context {S R : Type}.

Fixpoint for_n (n : nat) (i : Z) (body : Z -> S -> outcome S) (s : S) : outcome S :=
  match n with
  | O => Done s
  | Datatypes.S n' => s' ← body i s; for_n n' (i + 1) body s'
  end.

Definition for_to (lo hi : Z) (body : Z -> S -> outcome S) (s : S) : outcome S :=
  for_n (Z.to_nat (hi - lo)) lo body s.

Fixpoint for_ret_n (n : nat) (i : Z) (body : Z -> S -> outcome (S + R)) (s : S)
    : outcome (S + R) :=
  match n with
  | O => Done (inl s)
  | Datatypes.S n' =>
      r ← body i s;
      match r with
      | inl s' => for_ret_n n' (i + 1) body s'
      | inr x => Done (inr x)
      end
  end.

Definition for_ret (lo hi : Z) (body : Z -> S -> outcome (S + R)) (s : S)
    : outcome (S + R) :=
  for_ret_n (Z.to_nat (hi - lo)) lo body s.

Fixpoint loop (fuel : nat) (step : S -> outcome (S + R)) (s : S) : outcome R :=
  match fuel with
  | O => Spin
  | Datatypes.S f =>
      r ← step s;
      match r with
      | inl s' => loop f step s'
      | inr x => Done x
      end
  end.

Lemma loop_S fuel step s :
  loop (Datatypes.S fuel) step s =
  r ← step s; match r with inl s' => loop fuel step s' | inr x => Done x end.
Proof. reflexivity. Qed.

Lemma for_ret_n_S n i body s :
  for_ret_n (Datatypes.S n) i body s =
  r ← body i s; match r with inl s' => for_ret_n n (i + 1) body s' | inr x => Done (inr x) end.
Proof. reflexivity. Qed.

Lemma for_n_inv (I : Z -> S -> Prop) (body : Z -> S -> outcome S) n :
  forall i s,
    I i s ->
    (forall j s, i <= j < i + Z.of_nat n -> I j s -> returns (body j s) (I (j + 1))) ->
    returns (for_n n i body s) (I (i + Z.of_nat n)).
Proof.
  induction n as [|n IH]; intros i s HI Hbody; cbn [for_n].
  - apply returns_Done. rewrite Z.add_0_r. exact HI.
  - apply returns_bind. eapply returns_mono; [apply Hbody; [lia|exact HI]|].
    intros s' HI'. replace (i + Z.of_nat (Datatypes.S n)) with (i + 1 + Z.of_nat n) by lia.
    apply IH; [exact HI'|]. intros j t Hj HIj. apply Hbody; [lia|exact HIj].
Qed.

(** The invariant rule of [for_to]. *)
Lemma for_to_inv (I : Z -> S -> Prop) (Q : S -> Prop) (body : Z -> S -> outcome S) lo hi s :
  lo <= hi ->
  I lo s ->
  (forall j s, lo <= j < hi -> I j s -> returns (body j s) (I (j + 1))) ->
  (forall s, I hi s -> Q s) ->
  returns (for_to lo hi body s) Q.
Proof.
  intros Hle HI Hbody HQ. unfold for_to. eapply returns_mono; [|exact HQ].
  replace (I hi) with (I (lo + Z.of_nat (Z.to_nat (hi - lo)))) by (f_equal; lia).
  apply for_n_inv; [exact HI|]. intros j t Hj. apply Hbody. lia.
Qed.

Lemma for_to_ge (body : Z -> S -> outcome S) lo hi s :
  hi <= lo -> for_to lo hi body s = Done s.
Proof. intros H. unfold for_to. replace (Z.to_nat (hi - lo)) with O by lia. reflexivity. Qed.

(** The same rule when the range may be empty the wrong way round. *)
Lemma for_to_inv_max (I : Z -> S -> Prop) (Q : S -> Prop) (body : Z -> S -> outcome S) lo hi s :
  I lo s ->
  (forall j s, lo <= j < hi -> I j s -> returns (body j s) (I (j + 1))) ->
  (forall s, I (Z.max lo hi) s -> Q s) ->
  returns (for_to lo hi body s) Q.
Proof.
  intros HI Hbody HQ. destruct (Z.le_gt_cases lo hi) as [Hle|Hgt].
  - apply (for_to_inv I); [exact Hle|exact HI|exact Hbody|].
    intros t Ht. apply HQ. rewrite Z.max_r by exact Hle. exact Ht.
  - rewrite for_to_ge by lia. apply returns_Done, HQ. rewrite Z.max_l by lia. exact HI.
Qed.

(** The invariant rule of [for_ret]: [I] holds as long as the loop runs, [Q]
    of the value it leaves with. *)
Lemma for_ret_inv (I : Z -> S -> Prop) (Q : R -> Prop) body lo hi s :
  lo <= hi ->
  I lo s ->
  (forall j s, lo <= j < hi -> I j s ->
     returns (body j s) (fun r => match r with inl s' => I (j + 1) s' | inr x => Q x end)) ->
  returns (for_ret lo hi body s)
    (fun r => match r with inl s' => I hi s' | inr x => Q x end).
Proof.
  intros Hle. unfold for_ret. remember (Z.to_nat (hi - lo)) as n eqn:Hn.
  revert lo s Hle Hn. induction n as [|n IH]; intros lo s Hle Hn HI Hbody; cbn [for_ret_n].
  - apply returns_Done. replace hi with lo by lia. exact HI.
  - apply returns_bind. eapply returns_mono; [apply Hbody; [lia|exact HI]|].
    intros [s'|x] Hr.
    + apply IH; [lia|lia|exact Hr|]. intros j t Hj. apply Hbody. lia.
    + apply returns_Done. exact Hr.
Qed.

(** A loop that does nothing before the first index that leaves it. *)
Lemma for_ret_hit body (m : outcome R) k lo hi s :
  lo <= k < hi ->
  (forall i, lo <= i < k -> body i s = Done (inl s)) ->
  body k s = (r ← m; Done (inr r)) ->
  for_ret lo hi body s = (r ← m; Done (inr r)).
Proof.
  intros Hk Hmiss Hhit. unfold for_ret. remember (Z.to_nat (hi - lo)) as n eqn:Hn.
  revert lo Hk Hmiss Hn. induction n as [|n IH]; intros lo Hk Hmiss Hn; [lia|].
  rewrite for_ret_n_S. destruct (Z.eq_dec lo k) as [->|Hne].
  - rewrite Hhit. destruct m; reflexivity.
  - rewrite Hmiss by lia. cbn [mbind outcome_bind]. apply IH; [lia| |lia]. intros i Hi. apply Hmiss. lia.
Qed.

Lemma for_ret_miss body lo hi s :
  (forall i, lo <= i < hi -> body i s = Done (inl s)) -> for_ret lo hi body s = Done (inl s).
Proof.
  unfold for_ret. intros Hmiss. remember (Z.to_nat (hi - lo)) as n eqn:Hn.
  revert lo Hmiss Hn. induction n as [|n IH]; intros lo Hmiss Hn; [reflexivity|].
  rewrite for_ret_n_S, Hmiss by lia. cbn [mbind outcome_bind]. apply IH; [|lia]. intros i Hi. apply Hmiss. lia.
Qed.

(** Total correctness of [loop]: an invariant and a decreasing measure. *)
Lemma loop_total (I : S -> Prop) (Q : R -> Prop) (measure : S -> nat) step :
  (forall s, I s ->
     returns (step s)
       (fun r => match r with
                 | inl s' => I s' /\ (measure s' < measure s)%nat
                 | inr x => Q x
                 end)) ->
  forall fuel s, I s -> (measure s < fuel)%nat -> returns (loop fuel step s) Q.
Proof.
  intros Hstep fuel. induction fuel as [|f IH]; intros s HI Hf; [lia|].
  cbn [loop]. apply returns_bind. eapply returns_mono; [apply Hstep, HI|].
  intros [s'|x]; cbn.
  - intros [HI' Hm]. apply IH; [exact HI'|lia].
  - apply returns_Done.
Qed.

(** A loop whose step always continues within [I] never ends. *)
Lemma loop_spin (I : S -> Prop) step :
  (forall s, I s -> returns (step s) (fun r => exists s', r = inl s' /\ I s')) ->
  forall fuel s, I s -> loop fuel step s = Spin.
Proof.
  intros Hstep fuel. induction fuel as [|f IH]; intros s HI; [reflexivity|].
  cbn [loop]. destruct (Hstep s HI) as (r & -> & s' & -> & HI').
  rewrite bind_Done. apply IH, HI'.
Qed.
End Loops.

(** ** Counting: the number of [p] with [0 <= p < n] that satisfy [f]. *)
Section Counting.
Implicit Types f g : Z -> bool.

Fixpoint cnt f (n : nat) : Z :=
  match n with
  | O => 0
  | S k => cnt f k + (if f (Z.of_nat k) then 1 else 0)
  end.

Lemma cnt_bounds f n : 0 <= cnt f n <= Z.of_nat n.
Proof. induction n as [|n IH]; simpl cnt; [lia|]. destruct (f _); lia. Qed.

Lemma cnt_ext f g n : (forall p, 0 <= p < Z.of_nat n -> f p = g p) -> cnt f n = cnt g n.
Proof.
  induction n as [|n IH]; intros H; simpl; [reflexivity|].
  rewrite IH, H by (intros; try apply H; lia). reflexivity.
Qed.

(** Adding one element adds one; [f] and [g] may differ at [p] only. *)
Lemma cnt_add f g n p :
  0 <= p < Z.of_nat n -> f p = false -> g p = true ->
  (forall q, 0 <= q < Z.of_nat n -> q <> p -> g q = f q) ->
  cnt g n = cnt f n + 1.
Proof.
  induction n as [|n IH]; intros Hp Hf Hg Heq; [lia|]. simpl cnt.
  destruct (decide (p = Z.of_nat n)) as [->|Hne].
  - rewrite Hf, Hg. rewrite (cnt_ext g f); [lia|]. intros q Hq. apply Heq; lia.
  - rewrite IH by (intros; try apply Heq; lia || assumption).
    rewrite (Heq (Z.of_nat n)) by lia. lia.
Qed.

Lemma cnt_all f n : (forall p, 0 <= p < Z.of_nat n -> f p = true) -> cnt f n = Z.of_nat n.
Proof.
  induction n as [|n IH]; intros H; simpl cnt; [reflexivity|].
  rewrite IH by (intros; apply H; lia). rewrite H by lia. lia.
Qed.

(** [f] holds on a prefix of length [a] only. *)
Lemma cnt_prefix f n a :
  0 <= a <= Z.of_nat n ->
  (forall p, 0 <= p < Z.of_nat n -> f p = (p <? a)) -> cnt f n = a.
Proof.
  induction n as [|n IH]; intros Ha H; simpl cnt; [lia|].
  rewrite (H (Z.of_nat n)) by lia. destruct (Z.ltb_spec (Z.of_nat n) a).
  - rewrite cnt_all; [lia|]. intros p Hp. rewrite H by lia. lia.
  - rewrite IH; [lia|lia|]. intros p Hp. apply H. lia.
Qed.

Lemma cnt_pos f n p : 0 <= p < Z.of_nat n -> f p = true -> 1 <= cnt f n.
Proof.
  induction n as [|n IH]; intros Hp Hf; [lia|]. simpl cnt.
  destruct (decide (p = Z.of_nat n)) as [->|Hne].
  - rewrite Hf. pose proof (cnt_bounds f n). lia.
  - assert (1 <= cnt f n) by (apply IH; [lia|exact Hf]). destruct (f (Z.of_nat n)); lia.
Qed.
End Counting.

(** ** Automation *)

(** Inverts the hypotheses of the form [(m ≫= f) = Done _]. *)
Ltac inv_done :=
  repeat match goal with
    | H : (_ ≫= _) = Done _ |- _ =>
        let a := fresh "a" in let Ha := fresh "Ha" in
        apply bind_Done_inv in H; destruct H as (a & Ha & H)
    | H : mret _ = Done _ |- _ => injection H as H
    | H : Done _ = Done _ |- _ => injection H as H
    end.

(** Destructs the comparisons of [Z] that the goal branches on. *)
Ltac case_cmp :=
  match goal with
  | |- context [?a <? ?b] => destruct (Z.ltb_spec a b)
  | |- context [?a <=? ?b] => destruct (Z.leb_spec a b)
  | |- context [?a =? ?b] => destruct (Z.eqb_spec a b)
  end.

Create HintDb outcome.
#[export] Hint Resolve returns_Done : outcome.
