(* ===== verification/CInt.v ===== *)
(** * Machine integers and the macros of [sdk/include/h3os/types.h]

    A C integer of width [w] is a [Z] reduced by the function of its type. *)
From Stdlib Require Import ZArith Lia Bool.
From stdpp Require Import base tactics numbers.
From S2P Require Import Prelude.

(** ** Conversions to the integer types *)
Definition u8 (z : Z) : Z := z mod 2 ^ 8.
Definition u16 (z : Z) : Z := z mod 2 ^ 16.
Definition u32 (z : Z) : Z := z mod 2 ^ 32.
Definition u64 (z : Z) : Z := z mod 2 ^ 64.
Definition i8 (z : Z) : Z := (z + 2 ^ 7) mod 2 ^ 8 - 2 ^ 7.
Definition i32 (z : Z) : Z := (z + 2 ^ 31) mod 2 ^ 32 - 2 ^ 31.
Definition i64 (z : Z) : Z := (z + 2 ^ 63) mod 2 ^ 64 - 2 ^ 63.

(** [H3OS_ALIGN_UP(x, a)] and [H3OS_ALIGN_DOWN(x, a)] at type [u64]. *)
Definition ALIGN_UP (x a : Z) : Z := Z.land (u64 (x + (a - 1))) (Z.lnot (a - 1)).
Definition ALIGN_DOWN (x a : Z) : Z := Z.land x (Z.lnot (a - 1)).

Definition PAGE_SIZE : Z := 4096.

(** ** Ranges *)
Lemma u8_range z : 0 <= u8 z < 256.
Proof. apply Z.mod_pos_bound; lia. Qed.
Lemma u16_range z : 0 <= u16 z < 65536.
Proof. apply Z.mod_pos_bound; lia. Qed.
Lemma u32_range z : 0 <= u32 z < 4294967296.
Proof. apply Z.mod_pos_bound; lia. Qed.
Lemma u64_range z : 0 <= u64 z < 2 ^ 64.
Proof. apply Z.mod_pos_bound; lia. Qed.
Lemma i32_range z : - 2 ^ 31 <= i32 z < 2 ^ 31.
Proof. unfold i32. pose proof (Z.mod_pos_bound (z + 2 ^ 31) (2 ^ 32)). lia. Qed.

Lemma u8_small z : 0 <= z < 256 -> u8 z = z.
Proof. apply Z.mod_small. Qed.
Lemma u16_small z : 0 <= z < 65536 -> u16 z = z.
Proof. apply Z.mod_small. Qed.
Lemma u32_small z : 0 <= z < 4294967296 -> u32 z = z.
Proof. apply Z.mod_small. Qed.
Lemma u64_small z : 0 <= z < 2 ^ 64 -> u64 z = z.
Proof. apply Z.mod_small. Qed.
Lemma i32_small z : - 2 ^ 31 <= z < 2 ^ 31 -> i32 z = z.
Proof. intros. unfold i32. rewrite Z.mod_small; lia. Qed.
Lemma i64_small z : - 2 ^ 63 <= z < 2 ^ 63 -> i64 z = z.
Proof. intros. unfold i64. rewrite Z.mod_small; lia. Qed.

(** ** Masks *)
Lemma land_lnot_pow2 x k :
  0 <= k -> Z.land x (Z.lnot (2 ^ k - 1)) = x / 2 ^ k * 2 ^ k.
Proof.
  intros Hk. replace (2 ^ k - 1) with (Z.ones k) by (rewrite Z.ones_equiv; lia).
  rewrite <- Z.ldiff_land, Z.ldiff_ones_r by exact Hk.
  rewrite Z.shiftl_mul_pow2, Z.shiftr_div_pow2 by exact Hk. reflexivity.
Qed.

Lemma ALIGN_DOWN_page x : ALIGN_DOWN x PAGE_SIZE = x / 4096 * 4096.
Proof. apply (land_lnot_pow2 x 12). lia. Qed.

Lemma ALIGN_UP_page x :
  0 <= x -> x + 4095 < 2 ^ 64 -> ALIGN_UP x PAGE_SIZE = (x + 4095) / 4096 * 4096.
Proof.
  intros. unfold ALIGN_UP. rewrite u64_small by (unfold PAGE_SIZE; lia).
  apply (land_lnot_pow2 (x + 4095) 12). lia.
Qed.

(** A single bit tested by a mask. *)
Lemma land_bit_test b k :
  0 <= k -> negb (Z.land b (Z.shiftl 1 k) =? 0) = Z.testbit b k.
Proof.
  intros Hk. rewrite Z.shiftl_1_l.
  destruct (Z.testbit b k) eqn:E.
  - apply negb_true_iff, Z.eqb_neq. intros H0.
    apply (f_equal (fun z => Z.testbit z k)) in H0.
    rewrite Z.land_spec, E, Z.pow2_bits_true, Z.bits_0 in H0 by exact Hk. discriminate.
  - apply negb_false_iff, Z.eqb_eq. apply Z.bits_inj'. intros j Hj.
    rewrite Z.land_spec, Z.bits_0. destruct (Z.eq_dec j k) as [->|Hne].
    + rewrite E. reflexivity.
    + rewrite Z.pow2_bits_false by lia. apply andb_false_r.
Qed.

Create Rewrite HintDb cint.
#[export] Hint Rewrite u8_small u16_small u32_small u64_small i32_small i64_small
  using lia : cint.
