(* ===== verification/CString.v ===== *)
(** * Kernel strings and memory: [kernel/core/string.c]

    Memory is a finite map from addresses to bytes; an access to an address it
    does not hold is a [Fault].  Each routine of [string.c] is translated loop
    by loop, and the rest of the development uses the list-level functions of
    the last section, which the routines are proved to implement. *)
From Stdlib Require Import ZArith Lia Bool.
From Stdlib Require String Ascii.
From stdpp Require Import base tactics option list numbers gmap.
From S2P Require Import Prelude CInt.

(** ** Byte memory *)
Abbreviation mem := (gmap Z Z).

Definition ld (m : mem) (p : Z) : outcome Z :=
  match m !! p with Some v => Done v | None => Fault end.

Definition st (m : mem) (p v : Z) : outcome mem :=
  match m !! p with Some _ => Done (<[p := v]> m) | None => Fault end.

(** ** The routines *)
Definition memset (m : mem) (dst c n : Z) : outcome mem :=
  for_to 0 n (fun i m => st m (dst + i) (u8 c)) m.

Definition copy_byte (m : mem) (d s : Z) : outcome mem :=
  v ← ld m s; st m d v.

Definition memcpy (m : mem) (dst src n : Z) : outcome mem :=
  for_to 0 n (fun i m => copy_byte m (dst + i) (src + i)) m.

Definition memmove (m : mem) (dst src n : Z) : outcome mem :=
  if dst <? src then
    for_to 0 n (fun i m => copy_byte m (dst + i) (src + i)) m
  else
    for_to 0 n (fun i m => copy_byte m (dst + (n - 1 - i)) (src + (n - 1 - i))) m.

Definition memcmp (m : mem) (a b n : Z) : outcome Z :=
  r ← for_ret 0 n (fun i (u : unit) =>
        x ← ld m (a + i); y ← ld m (b + i);
        mret (if x =? y then inl u else inr (x - y))) tt;
  mret (match r with inl _ => 0 | inr d => d end).

Definition strlen (fuel : nat) (m : mem) (s : Z) : outcome Z :=
  loop fuel (fun n => c ← ld m (s + n); mret (if c =? 0 then inr n else inl (n + 1))) 0.

Definition strcmp (fuel : nat) (m : mem) (a b : Z) : outcome Z :=
  loop fuel (fun i =>
    x ← ld m (a + i); y ← ld m (b + i);
    mret (if negb (x =? 0) && (x =? y) then inl (i + 1) else inr (x - y))) 0.

Definition strncmp (fuel : nat) (m : mem) (a b n : Z) : outcome Z :=
  loop fuel (fun i =>
    if n - i =? 0 then mret (inr 0)
    else
      x ← ld m (a + i); y ← ld m (b + i);
      mret (if negb (x =? 0) && (x =? y) then inl (i + 1) else inr (x - y))) 0.

(** The copy loop of [strcpy] and [strcat], the final NUL included. *)
Definition copy_str (fuel : nat) (m : mem) (d s : Z) : outcome mem :=
  loop fuel (fun '(i, m) =>
    c ← ld m (s + i); m' ← st m (d + i) c;
    mret (if c =? 0 then inr m' else inl (i + 1, m'))) (0, m).

Definition strcpy (fuel : nat) (m : mem) (dst src : Z) : outcome mem :=
  copy_str fuel m dst src.

Definition strncpy (fuel : nat) (m : mem) (dst src n : Z) : outcome mem :=
  '(i, m1) ← loop fuel (fun '(i, m) =>
    if i <? n then
      c ← ld m (src + i);
      if c =? 0 then mret (inr (i, m))
      else m' ← st m (dst + i) c; mret (inl (i + 1, m'))
    else mret (inr (i, m))) (0, m);
  for_to i n (fun j m => st m (dst + j) 0) m1.

Definition strcat (fuel : nat) (m : mem) (dst src : Z) : outcome mem :=
  n ← strlen fuel m dst; copy_str fuel m (dst + n) src.

(** The inner loop of [strstr]: [true] when the needle is a prefix at [h]. *)
Definition strstr_here (fuel : nat) (m : mem) (h n : Z) : outcome bool :=
  loop fuel (fun i =>
    x ← ld m (h + i); y ← ld m (n + i);
    mret (if negb (x =? 0) && negb (y =? 0) && (x =? y) then inl (i + 1)
          else inr (y =? 0))) 0.

Definition strstr (fuel : nat) (m : mem) (haystack needle : Z) : outcome (option Z) :=
  c ← ld m needle;
  if c =? 0 then mret (Some haystack)
  else loop fuel (fun h =>
    x ← ld m h;
    if x =? 0 then mret (inr None)
    else
      ok ← strstr_here fuel m h needle;
      mret (if (ok : bool) then inr (Some h) else inl (h + 1))) haystack.

(** The digit of [utoa], at type [char]. *)
Definition digit_char (d : Z) : Z := u8 (if d <? 10 then 48 + d else 97 + d - 10).

(** [utoa]: the digits go to [tmp[65]], lowest first, and are copied out in
    reverse order. *)
Definition utoa (m : mem) (value buf base : Z) : outcome mem :=
  if (base <? 2) || (16 <? base) then st m buf 0
  else if value =? 0 then m1 ← st m buf 48; st m1 (buf + 1) 0
  else
    '(i, tmp) ← loop 65 (fun '(v, i, tmp) =>
      if v =? 0 then mret (inr (i, tmp))
      else
        tmp' ← arr_set tmp i (digit_char (v mod base));
        mret (inl (v / base, i + 1, tmp'))) (value, 0, replicate 65 0);
    m1 ← for_to 0 i (fun j m => c ← arr_get tmp (i - 1 - j); st m (buf + j) c) m;
    st m1 (buf + i) 0.

Definition itoa (m : mem) (value buf base : Z) : outcome mem :=
  if (value <? 0) && (base =? 10) then
    m1 ← st m buf 45; utoa m1 (u64 (i64 (- value))) (buf + 1) base
  else utoa m (u64 value) buf base.

(** ** List-level functions on strings and [char] arrays *)

(** The string a [char] array holds. *)
Fixpoint cstr (b : list Z) : list Z :=
  match b with
  | [] => []
  | c :: b' => if c =? 0 then [] else c :: cstr b'
  end.

(** The bytes of a string literal, without the NUL. *)
Definition chars (s : String.string) : list Z :=
  map (fun c => Z.of_N (Ascii.N_of_ascii c)) (String.list_ascii_of_string s).

(** [strncpy] of a string into an array [old], [n] characters. *)
Definition strncpy_arr (old s : list Z) (n : nat) : list Z :=
  take n s ++ replicate (n - length s) 0 ++ drop n old.

Fixpoint str_cmp (a b : list Z) : Z :=
  match a, b with
  | [], [] => 0
  | [], y :: _ => - y
  | x :: _, [] => x
  | x :: a', y :: b' => if x =? y then str_cmp a' b' else x - y
  end.

(** The digits of [v] in [base], most significant first, in front of [acc]. *)
Fixpoint digits (fuel : nat) (base v : Z) (acc : list Z) : list Z :=
  match fuel with
  | O => acc
  | S f => if v =? 0 then acc else digits f base (v / base) (digit_char (v mod base) :: acc)
  end.

Definition utoa_str (value base : Z) : list Z :=
  if (base <? 2) || (16 <? base) then []
  else if value =? 0 then [48] else digits 64 base value [].

Definition itoa_str (value base : Z) : list Z :=
  if (value <? 0) && (base =? 10) then 45 :: utoa_str (u64 (i64 (- value))) base
  else utoa_str (u64 value) base.

(** The value a digit string denotes. *)
Definition char_digit (c : Z) : Z := if c <? 58 then c - 48 else c - 87.
Definition digits_value (base : Z) (s : list Z) : Z :=
  fold_left (fun acc c => acc * base + char_digit c) s 0.

Fixpoint is_prefix (n h : list Z) : bool :=
  match n, h with
  | [], _ => true
  | y :: n', x :: h' => (x =? y) && is_prefix n' h'
  | _ :: _, [] => false
  end.

(** The offset of the first occurrence of [n] in [h]. *)
Fixpoint find_sub (n h : list Z) : option Z :=
  if is_prefix n h then Some 0
  else match h with
       | [] => None
       | _ :: h' => match find_sub n h' with Some i => Some (i + 1) | None => None end
       end.

Lemma cstr_length b : (length (cstr b) <= length b)%nat.
Proof. induction b as [|c b IH]; cbn [cstr length]; [lia|]. destruct (c =? 0); cbn [length]; lia. Qed.

(** A name copied into a zeroed [char] array of [k + 1] elements. *)
Lemma cstr_app_zeros l k r : Forall (fun c => c <> 0) l -> cstr (l ++ replicate (S k) 0 ++ r) = l.
Proof.
  induction 1 as [|x l Hx _ IH]; [reflexivity|]. cbn [app cstr].
  destruct (Z.eqb_spec x 0); [lia|]. rewrite IH. reflexivity.
Qed.

Lemma cstr_strncpy_zero s k :
  Forall (fun c => c <> 0) s -> cstr (strncpy_arr (replicate (S k) 0) s k) = take k s.
Proof.
  intros Hs. unfold strncpy_arr. rewrite drop_replicate. replace (S k - k)%nat with 1%nat by lia.
  apply (Forall_take _ k) in Hs. destruct (k - length s)%nat as [|n].
  - exact (cstr_app_zeros _ 0 [] Hs).
  - exact (cstr_app_zeros _ n _ Hs).
Qed.

(** ** Memory that holds an array or a string *)
Definition mem_arr (m : mem) (p : Z) (l : list Z) : Prop :=
  forall i x, l !! i = Some x -> m !! (p + Z.of_nat i) = Some x.

Definition str_at (m : mem) (p : Z) (s : list Z) : Prop :=
  Forall (fun c => c <> 0) s /\ mem_arr m p (s ++ [0]).

(** Every address of [p, p + n) is mapped. *)
Definition mapped (m : mem) (p n : Z) : Prop :=
  forall a, p <= a < p + n -> is_Some (m !! a).

(** [m'] differs from [m] at most on [p, p + n). *)
Definition same_outside (p n : Z) (m m' : mem) : Prop :=
  forall a, ~ (p <= a < p + n) -> m' !! a = m !! a.

Lemma ld_Done m p v : ld m p = Done v <-> m !! p = Some v.
Proof. unfold ld. destruct (m !! p); split; congruence. Qed.

Lemma st_mapped m p v : is_Some (m !! p) -> st m p v = Done (<[p := v]> m).
Proof. intros [x Hx]. unfold st. rewrite Hx. reflexivity. Qed.

Lemma mapped_insert m p n a v : mapped m p n -> mapped (<[a := v]> m) p n.
Proof. intros H b Hb. apply lookup_insert_is_Some'. right. apply H, Hb. Qed.

Lemma mem_arr_get m p l i :
  mem_arr m p l -> 0 <= i < Z.of_nat (length l) ->
  exists x, l !! Z.to_nat i = Some x /\ m !! (p + i) = Some x.
Proof.
  intros H Hi. destruct (lookup_lt_is_Some_2 l (Z.to_nat i)) as [x Hx]; [lia|].
  exists x. split; [exact Hx|]. specialize (H _ _ Hx). rewrite Z2Nat.id in H by lia. exact H.
Qed.

Lemma mem_arr_mapped m p l : mem_arr m p l -> mapped m p (Z.of_nat (length l)).
Proof.
  intros H a Ha. destruct (mem_arr_get m p l (a - p) H) as (x & _ & Hx); [lia|].
  replace (p + (a - p)) with a in Hx by lia. eauto.
Qed.

Lemma str_at_char m p s i c :
  str_at m p s -> s !! i = Some c -> m !! (p + Z.of_nat i) = Some c /\ c <> 0.
Proof.
  intros [Hnz Hm] Hc. split; [|exact (Forall_lookup_1 _ _ _ _ Hnz Hc)].
  apply Hm. apply lookup_app_l_Some, Hc.
Qed.

Lemma str_at_nul m p s : str_at m p s -> m !! (p + Z.of_nat (length s)) = Some 0.
Proof. intros [_ Hm]. apply Hm. rewrite lookup_app_r, Nat.sub_diag by lia. reflexivity. Qed.

Lemma str_at_tail m p c s : str_at m p (c :: s) -> str_at m (p + 1) s.
Proof.
  intros [Hnz Hm]. apply Forall_cons_1 in Hnz as [_ Hnz]. split; [exact Hnz|].
  intros i x Hx. replace (p + 1 + Z.of_nat i) with (p + Z.of_nat (S i)) by lia.
  apply Hm. exact Hx.
Qed.

Lemma str_at_head m p c s : str_at m p (c :: s) -> m !! p = Some c /\ c <> 0.
Proof. intros H. rewrite <- (Z.add_0_r p). exact (str_at_char m p _ 0 c H eq_refl). Qed.

Lemma str_at_nil m p : str_at m p [] -> m !! p = Some 0.
Proof. intros H. rewrite <- (Z.add_0_r p). exact (str_at_nul m p [] H). Qed.

Lemma ld_str_char m p s i c :
  str_at m p s -> s !! i = Some c -> ld m (p + Z.of_nat i) = Done c.
Proof. intros H Hc. apply ld_Done, (str_at_char m p s i c H Hc). Qed.

Lemma ld_str_nul m p s : str_at m p s -> ld m (p + Z.of_nat (length s)) = Done 0.
Proof. intros H. apply ld_Done, str_at_nul, H. Qed.

(** ** Read-only routines *)
Lemma strlen_returns fuel m p s :
  str_at m p s -> (length s < fuel)%nat -> strlen fuel m p = Done (Z.of_nat (length s)).
Proof.
  intros Hs Hf. apply returns_is. unfold strlen.
  eapply (loop_total (fun n => 0 <= n <= Z.of_nat (length s)) _
            (fun n => Z.to_nat (Z.of_nat (length s) - n))); [|lia|lia].
  intros n Hn. destruct (decide (n = Z.of_nat (length s))) as [->|Hne].
  - rewrite (ld_str_nul _ _ _ Hs). apply returns_Done. reflexivity.
  - destruct (lookup_lt_is_Some_2 s (Z.to_nat n)) as [c Hc]; [lia|].
    pose proof (str_at_char _ _ _ _ _ Hs Hc) as [Hm Hnz].
    rewrite Z2Nat.id in Hm by lia. apply ld_Done in Hm as ->. rewrite bind_Done.
    apply returns_Done. destruct (Z.eqb_spec c 0); [done|]. lia.
Qed.

(** The two strings still to be compared after [i] steps of a scan. *)
Definition scan_at (m : mem) (pa pb : Z) (sa sb : list Z) (i : Z) : Prop :=
  0 <= i /\ str_at m (pa + i) (drop (Z.to_nat i) sa) /\ str_at m (pb + i) (drop (Z.to_nat i) sb).

Lemma scan_start m pa pb sa sb :
  str_at m pa sa -> str_at m pb sb -> scan_at m pa pb sa sb 0.
Proof. intros. unfold scan_at. rewrite !Z.add_0_r. auto with lia. Qed.

Lemma drop_cons_S {A} (s : list A) (i : Z) x s' :
  0 <= i -> drop (Z.to_nat i) s = x :: s' ->
  drop (Z.to_nat (i + 1)) s = s' /\ (Z.to_nat i < length s)%nat.
Proof.
  intros Hi H. split.
  - replace (Z.to_nat (i + 1)) with (Z.to_nat i + 1)%nat by lia.
    rewrite <- drop_drop, H. reflexivity.
  - apply (f_equal length) in H. rewrite length_drop in H. simpl in H. lia.
Qed.

Lemma scan_step m pa pb sa sb i x sa' y sb' :
  scan_at m pa pb sa sb i ->
  drop (Z.to_nat i) sa = x :: sa' -> drop (Z.to_nat i) sb = y :: sb' ->
  scan_at m pa pb sa sb (i + 1).
Proof.
  intros (Hi & Ha & Hb) Ea Eb. rewrite Ea in Ha. rewrite Eb in Hb.
  destruct (drop_cons_S _ _ _ _ Hi Ea) as [Ea' _].
  destruct (drop_cons_S _ _ _ _ Hi Eb) as [Eb' _].
  unfold scan_at. rewrite Ea', Eb', !Z.add_assoc.
  split; [lia|]. split; [exact (str_at_tail _ _ _ _ Ha)|exact (str_at_tail _ _ _ _ Hb)].
Qed.

(** The character read at a string's head: its first one, or the NUL. *)
Lemma ld_head m p s :
  str_at m p s ->
  exists c, ld m p = Done c /\
    match s with [] => c = 0 | x :: _ => c = x /\ x <> 0 end.
Proof.
  intros H. destruct s as [|x s'].
  - exists 0. split; [apply ld_Done, str_at_nil, H|reflexivity].
  - apply str_at_head in H as [H ?]. exists x. split; [apply ld_Done, H|auto].
Qed.

(** Reads the heads of the two strings of a scan and splits on their shape. *)
Ltac scan_heads Hscan sa sb :=
  let Hi := fresh "Hi" in let Ha := fresh "Ha" in let Hb := fresh "Hb" in
  pose proof Hscan as (Hi & Ha & Hb);
  let c := fresh "c" in let d := fresh "d" in
  let Ec := fresh "Ec" in let Ed := fresh "Ed" in
  let Fc := fresh "Fc" in let Fd := fresh "Fd" in
  destruct (ld_head _ _ _ Ha) as (c & Ec & Fc);
  destruct (ld_head _ _ _ Hb) as (d & Ed & Fd);
  rewrite Ec, bind_Done, Ed, bind_Done;
  destruct (drop (Z.to_nat _) sa) as [|? ?] eqn:?;
  destruct (drop (Z.to_nat _) sb) as [|? ?] eqn:?;
  destruct_and?; subst c d.

Lemma strcmp_returns fuel m a b sa sb :
  str_at m a sa -> str_at m b sb -> (length sa < fuel)%nat ->
  strcmp fuel m a b = Done (str_cmp sa sb).
Proof.
  intros Ha Hb Hf. apply returns_is. unfold strcmp.
  eapply (loop_total
    (fun i => scan_at m a b sa sb i /\
              str_cmp (drop (Z.to_nat i) sa) (drop (Z.to_nat i) sb) = str_cmp sa sb)
    _ (fun i => (length sa - Z.to_nat i)%nat)); [| |lia].
  2: { split; [apply scan_start; assumption|reflexivity]. }
  intros i [Hscan Hcmp]. scan_heads Hscan sa sb; apply returns_Done;
    cbn [str_cmp] in Hcmp; rewrite <- Hcmp; repeat case_cmp; subst; simpl; try lia.
  split; [split|].
  - eapply scan_step; eassumption.
  - edestruct (drop_cons_S sa) as [-> _]; [exact Hi|eassumption|].
    edestruct (drop_cons_S sb) as [-> _]; [exact Hi|eassumption|]. reflexivity.
  - edestruct (drop_cons_S sa) as [_ ?]; [exact Hi|eassumption|]. lia.
Qed.

Lemma str_cmp_eq a b :
  Forall (fun c => c <> 0) a -> Forall (fun c => c <> 0) b ->
  str_cmp a b = 0 <-> a = b.
Proof.
  intros Ha. revert b. induction Ha as [|x a Hx Ha IH]; intros [|y b] Hb; simpl.
  - tauto.
  - apply Forall_cons_1 in Hb as [? _]. split; [lia|discriminate].
  - split; [lia|discriminate].
  - apply Forall_cons_1 in Hb as [Hy Hb]. case_cmp.
    + subst. rewrite IH by exact Hb. split; congruence.
    + split; [lia|congruence].
Qed.

(** ** Copying routines *)
Lemma copy_byte_Done m d s v :
  m !! s = Some v -> is_Some (m !! d) -> copy_byte m d s = Done (<[d := v]> m).
Proof. intros Hs Hd. unfold copy_byte. apply ld_Done in Hs as ->. apply st_mapped, Hd. Qed.

(** The memory after [n] bytes at [d] became those at [s]: the contents of the
    source before the copy, and nothing else changed. *)
Definition copied (m : mem) (d s n : Z) (m' : mem) : Prop :=
  same_outside d n m m' /\ forall k, 0 <= k < n -> m' !! (d + k) = m !! (s + k).

Lemma same_outside_refl d n m : same_outside d n m m.
Proof. intros a _. reflexivity. Qed.

Lemma same_outside_mapped d n m m' p k :
  same_outside d n m m' -> (forall a, d <= a < d + n -> is_Some (m' !! a)) ->
  mapped m p k -> mapped m' p k.
Proof.
  intros Hs Hd Hm a Ha. destruct (decide (d <= a < d + n)) as [Hin|Hout].
  - apply Hd, Hin.
  - rewrite Hs by exact Hout. apply Hm, Ha.
Qed.

(** The forward loop: right when no byte is read after it was overwritten. *)
Lemma copy_forward m d s n :
  0 <= n -> mapped m d n -> mapped m s n ->
  (forall i, 0 <= i < n -> ~ (d <= s + i < d + i)) ->
  returns (for_to 0 n (fun i m => copy_byte m (d + i) (s + i)) m) (copied m d s n).
Proof.
  intros Hn Hmd Hms Hov.
  apply (for_to_inv (fun i m' => copied m d s i m' /\ mapped m' d n));
    [exact Hn| | |intros m' [H _]; exact H].
  { split; [split; [apply same_outside_refl|lia]|exact Hmd]. }
  intros i m' Hi [[Hout Hin] Hmap].
  destruct (Hms (s + i)) as [v Hv]; [lia|].
  rewrite (copy_byte_Done _ _ _ v); [|rewrite Hout; [exact Hv|apply Hov, Hi]|apply Hmap; lia].
  apply returns_Done. split; [split|apply mapped_insert, Hmap].
  - intros a Ha. rewrite lookup_insert_ne by lia. apply Hout. lia.
  - intros k Hk. destruct (decide (k = i)) as [->|Hne].
    + rewrite lookup_insert_eq. symmetry. exact Hv.
    + rewrite lookup_insert_ne by lia. apply Hin. lia.
Qed.

(** The backward loop of [memmove]. *)
Lemma copy_backward m d s n :
  0 <= n -> mapped m d n -> mapped m s n -> s <= d ->
  returns (for_to 0 n (fun i m => copy_byte m (d + (n - 1 - i)) (s + (n - 1 - i))) m)
    (copied m d s n).
Proof.
  intros Hn Hmd Hms Hle.
  apply (for_to_inv (fun i m' =>
      same_outside (d + (n - i)) i m m' /\
      (forall k, n - i <= k < n -> m' !! (d + k) = m !! (s + k)) /\ mapped m' d n));
    [exact Hn| | |].
  - split; [apply same_outside_refl|]. split; [lia|exact Hmd].
  - intros i m' Hi (Hout & Hin & Hmap).
    destruct (Hms (s + (n - 1 - i))) as [v Hv]; [lia|].
    rewrite (copy_byte_Done _ _ _ v); [|rewrite Hout; [exact Hv|lia]|apply Hmap; lia].
    apply returns_Done. split; [|split; [|apply mapped_insert, Hmap]].
    + intros a Ha. rewrite lookup_insert_ne by lia. apply Hout. lia.
    + intros k Hk. destruct (decide (k = n - 1 - i)) as [->|Hne].
      * rewrite lookup_insert_eq. symmetry. exact Hv.
      * rewrite lookup_insert_ne by lia. apply Hin. lia.
  - intros m' (Hout & Hin & _). split.
    + intros a Ha. apply Hout. lia.
    + intros k Hk. apply Hin. lia.
Qed.

Lemma memset_returns m p c n :
  0 <= n -> mapped m p n ->
  returns (memset m p c n)
    (fun m' => same_outside p n m m' /\ forall k, 0 <= k < n -> m' !! (p + k) = Some (u8 c)).
Proof.
  intros Hn Hm.
  apply (for_to_inv (fun i m' => (same_outside p i m m' /\
      forall k, 0 <= k < i -> m' !! (p + k) = Some (u8 c)) /\ mapped m' p n));
    [exact Hn| | |].
  - split; [split; [apply same_outside_refl|lia]|exact Hm].
  - intros i m' Hi [[Hout Hin] Hmap]. rewrite st_mapped by (apply Hmap; lia).
    apply returns_Done. split; [split|apply mapped_insert, Hmap].
    + intros a Ha. rewrite lookup_insert_ne by lia. apply Hout. lia.
    + intros k Hk. destruct (decide (k = i)) as [->|Hne].
      * apply lookup_insert_eq.
      * rewrite lookup_insert_ne by lia. apply Hin. lia.
  - intros m' [H _]. exact H.
Qed.

(** [copy_str] copies a string with its NUL when the areas do not overlap. *)
Lemma copy_str_returns fuel m d s str :
  str_at m s str -> (length str < fuel)%nat ->
  mapped m d (Z.of_nat (length str) + 1) ->
  (s + Z.of_nat (length str) + 1 <= d \/ d + Z.of_nat (length str) + 1 <= s) ->
  returns (copy_str fuel m d s) (fun m' =>
    str_at m' d str /\ same_outside d (Z.of_nat (length str) + 1) m m').
Proof.
  intros Hs Hf Hmap Hdis. set (L := Z.of_nat (length str)) in *.
  eapply returns_mono.
  - unfold copy_str.
    apply (loop_total (fun '(i, m') => 0 <= i <= L /\ copied m d s i m' /\ mapped m' d (L + 1))
             (copied m d s (L + 1)) (fun '(i, _) => Z.to_nat (L - i))).
    2: { split; [lia|]. split; [split; [apply same_outside_refl|lia]|exact Hmap]. }
    2: { subst L. lia. }
    intros [i m'] (Hi & [Hout Hin] & Hmap').
    assert (exists c, m !! (s + i) = Some c /\ (c = 0 <-> i = L)) as (c & Hc & Hc0).
    { destruct (decide (i = L)) as [->|Hne].
      - exists 0. split; [apply str_at_nul, Hs|tauto].
      - destruct (lookup_lt_is_Some_2 str (Z.to_nat i)) as [c Hc]; [lia|].
        destruct (str_at_char _ _ _ _ _ Hs Hc) as [Hm Hnz].
        rewrite Z2Nat.id in Hm by lia. exists c. split; [exact Hm|tauto]. }
    assert (Hld : ld m' (s + i) = Done c) by (apply ld_Done; rewrite Hout by lia; exact Hc).
    assert (copied m d s (i + 1) (<[d + i := c]> m')) as Hcopied.
    { split.
      - intros a Ha. rewrite lookup_insert_ne by lia. apply Hout. lia.
      - intros k Hk. destruct (decide (k = i)) as [->|Hne].
        + rewrite lookup_insert_eq. symmetry. exact Hc.
        + rewrite lookup_insert_ne by lia. apply Hin. lia. }
    rewrite Hld, bind_Done, st_mapped by (apply Hmap'; lia).
    apply returns_Done. destruct (Z.eqb_spec c 0) as [->|Hnz].
    + replace L with i by tauto. exact Hcopied.
    + assert (i <> L) by tauto. split; [|lia]. split; [lia|].
      split; [exact Hcopied|apply mapped_insert, Hmap'].
  - intros m' [Hout Hin]. split; [|exact Hout]. destruct Hs as [Hnz Hm].
    split; [exact Hnz|]. intros i x Hx.
    pose proof (lookup_lt_Some _ _ _ Hx) as Hlt. rewrite length_app in Hlt; simpl in Hlt.
    rewrite Hin by lia. apply Hm, Hx.
Qed.

(** ** Digits *)
Lemma digit_char_range d : 0 <= d < 16 -> 48 <= digit_char d < 103.
Proof. intros. unfold digit_char. case_cmp; rewrite u8_small; lia. Qed.

Lemma char_digit_char d : 0 <= d < 16 -> char_digit (digit_char d) = d.
Proof.
  intros. unfold digit_char, char_digit. destruct (Z.ltb_spec d 10); rewrite u8_small by lia.
  - destruct (Z.ltb_spec (48 + d) 58); lia.
  - destruct (Z.ltb_spec (97 + d - 10) 58); lia.
Qed.

Lemma digits_0 fuel base acc : digits fuel base 0 acc = acc.
Proof. destruct fuel; reflexivity. Qed.

Lemma digits_fold fuel base v acc :
  2 <= base <= 16 -> 0 <= v < base ^ Z.of_nat fuel ->
  fold_left (fun a c => a * base + char_digit c) (digits fuel base v acc) 0 =
  fold_left (fun a c => a * base + char_digit c) acc v.
Proof.
  intros Hb. revert v acc. induction fuel as [|f IH]; intros v acc Hv.
  - simpl in Hv. replace v with 0 by lia. reflexivity.
  - simpl. destruct (Z.eqb_spec v 0) as [->|Hnz]; [reflexivity|].
    pose proof (Z.mod_pos_bound v base) as Hmod.
    rewrite IH.
    + simpl. rewrite char_digit_char by lia. f_equal.
      pose proof (Z.div_mod v base). lia.
    + rewrite Nat2Z.inj_succ, Z.pow_succ_r in Hv by lia. split.
      * apply Z.div_pos; lia.
      * apply Z.div_lt_upper_bound; lia.
Qed.

Lemma pow_base_ge base n : 2 <= base -> 0 <= n -> 2 ^ n <= base ^ n.
Proof. intros. apply Z.pow_le_mono_l. lia. Qed.

(** The state of the digit loop of [utoa]. *)
Definition utoa_inv (base value : Z) (st : Z * Z * list Z) : Prop :=
  let '(v, i, tmp) := st in
  length tmp = 65%nat /\ 0 <= i <= 64 /\ 0 <= v < 2 ^ (64 - i) /\
  digits (Z.to_nat (64 - i)) base v (rev (take (Z.to_nat i) tmp)) = digits 64 base value [].

Lemma utoa_inv_step base value v i tmp :
  2 <= base <= 16 -> v <> 0 -> utoa_inv base value (v, i, tmp) ->
  utoa_inv base value
    (v / base, i + 1, <[Z.to_nat i := digit_char (v mod base)]> tmp) /\ i < 64.
Proof.
  intros Hb Hv (Hlen & Hi & Hvr & Hd).
  assert (i < 64). { destruct (decide (i = 64)) as [->|]; [|lia]. simpl in Hvr. lia. }
  split; [|assumption]. unfold utoa_inv. rewrite length_insert.
  split; [exact Hlen|]. split; [lia|]. split.
  - split; [apply Z.div_pos; lia|]. apply Z.div_lt_upper_bound; [lia|].
    replace (64 - i) with (Z.succ (64 - (i + 1))) in Hvr by lia.
    rewrite Z.pow_succ_r in Hvr by lia.
    assert (0 < 2 ^ (64 - (i + 1))) by (apply Z.pow_pos_nonneg; lia). nia.
  - rewrite <- Hd. replace (Z.to_nat (64 - i)) with (S (Z.to_nat (64 - (i + 1)))) by lia.
    simpl. destruct (Z.eqb_spec v 0); [done|]. f_equal.
    replace (Z.to_nat (i + 1)) with (S (Z.to_nat i)) by lia.
    rewrite (take_S_r _ _ (digit_char (v mod base)))
      by (apply list_lookup_insert_eq; lia).
    rewrite rev_app_distr, take_insert_ge by lia. reflexivity.
Qed.

(** The digit loop ends with the digits of [value] in [tmp], reversed, and
    never leaves the 65 bytes of [tmp]. *)
Lemma utoa_loop base value :
  2 <= base <= 16 -> 0 < value < 2 ^ 64 ->
  returns (loop 65 (fun '(v, i, tmp) =>
      if v =? 0 then mret (inr (i, tmp))
      else tmp' ← arr_set tmp i (digit_char (v mod base));
           mret (inl (v / base, i + 1, tmp'))) (value, 0, replicate 65 0))
    (fun '(i, tmp) => length tmp = 65%nat /\ 0 <= i <= 64 /\
       rev (take (Z.to_nat i) tmp) = digits 64 base value []).
Proof.
  intros Hb Hv.
  apply (loop_total (utoa_inv base value) _ (fun '(_, i, _) => Z.to_nat (64 - i)));
    [| |simpl; lia].
  2: { split; [reflexivity|]. split; [lia|]. split; [simpl; lia|reflexivity]. }
  intros [[v i] tmp] HI. destruct (Z.eqb_spec v 0) as [->|Hnz].
  - apply returns_Done. destruct HI as (? & ? & ? & Hd). rewrite digits_0 in Hd. auto.
  - destruct (utoa_inv_step _ _ _ _ _ Hb Hnz HI) as [HI' Hi].
    destruct HI as (Hlen & Hi0 & _). rewrite arr_set_Done by lia.
    rewrite bind_Done. apply returns_Done. split; [exact HI'|lia].
Qed.

(** Writing a list of bytes one by one. *)
Lemma store_list_returns m p l (get : Z -> outcome Z) :
  mapped m p (Z.of_nat (length l)) ->
  (forall j, (j < length l)%nat -> exists c, get (Z.of_nat j) = Done c /\ l !! j = Some c) ->
  returns (for_to 0 (Z.of_nat (length l)) (fun j m => c ← get j; st m (p + j) c) m)
    (fun m' => same_outside p (Z.of_nat (length l)) m m' /\ mem_arr m' p l).
Proof.
  intros Hm Hget.
  apply (for_to_inv (fun i m' => same_outside p i m m' /\
      (forall k c, Z.of_nat k < i -> l !! k = Some c -> m' !! (p + Z.of_nat k) = Some c) /\
      mapped m' p (Z.of_nat (length l)))); [lia| | |].
  - split; [apply same_outside_refl|]. split; [lia|exact Hm].
  - intros j m' Hj (Hout & Hin & Hmap).
    destruct (Hget (Z.to_nat j)) as (c & Hc & Hl); [lia|].
    rewrite Z2Nat.id in Hc by lia. rewrite Hc, bind_Done, st_mapped by (apply Hmap; lia).
    apply returns_Done. split; [|split; [|apply mapped_insert, Hmap]].
    + intros a Ha. rewrite lookup_insert_ne by lia. apply Hout. lia.
    + intros k d Hk Hd. destruct (decide (Z.of_nat k = j)) as [<-|Hne].
      * rewrite Nat2Z.id in Hl. rewrite lookup_insert_eq. congruence.
      * rewrite lookup_insert_ne by lia. apply Hin; [lia|exact Hd].
  - intros m' (Hout & Hin & _). split; [exact Hout|].
    intros k c Hk. apply Hin; [apply lookup_lt_Some in Hk; lia|exact Hk].
Qed.

(** One more byte after an array. *)
Lemma mem_arr_snoc m p l c :
  mem_arr m p l -> mem_arr (<[p + Z.of_nat (length l) := c]> m) p (l ++ [c]).
Proof.
  intros H k x Hx. apply lookup_app_Some in Hx as [Hx|[Hk Hx]].
  - pose proof (lookup_lt_Some _ _ _ Hx). rewrite lookup_insert_ne by lia. apply H, Hx.
  - destruct (k - length l)%nat eqn:E; [|discriminate]. injection Hx as <-.
    replace k with (length l) by lia. apply lookup_insert_eq.
Qed.

Lemma digits_bound fuel base v acc :
  (length (digits fuel base v acc) <= fuel + length acc)%nat.
Proof.
  revert v acc. induction fuel as [|f IH]; intros v acc; simpl; [lia|].
  case_match; [lia|]. specialize (IH (v / base) (digit_char (v mod base) :: acc)).
  simpl in IH. lia.
Qed.

(** Reading the digits of [tmp] in reverse order. *)
Lemma tmp_reversed (tmp : list Z) i :
  0 <= i <= Z.of_nat (length tmp) ->
  exists l, rev (take (Z.to_nat i) tmp) = l /\ i = Z.of_nat (length l) /\
    forall j, (j < length l)%nat ->
      exists c, arr_get tmp (i - 1 - Z.of_nat j) = Done c /\ l !! j = Some c.
Proof.
  intros Hi. exists (rev (take (Z.to_nat i) tmp)).
  rewrite length_rev, length_take. split; [reflexivity|]. split; [lia|].
  intros j Hj. destruct (lookup_lt_is_Some_2 (rev (take (Z.to_nat i) tmp)) j) as [c Hc].
  { rewrite length_rev, length_take. exact Hj. }
  exists c. split; [|exact Hc]. apply arr_get_Done. split; [lia|].
  rewrite rev_alt in Hc. apply reverse_lookup_Some in Hc as [Hc _].
  rewrite length_take, lookup_take in Hc.
  replace (Z.to_nat (i - 1 - Z.of_nat j)) with (Z.to_nat i `min` length tmp - S j)%nat by lia.
  case_decide; [exact Hc|discriminate].
Qed.

(** [utoa] writes its digit string and a NUL, inside [length + 1] bytes. *)
Lemma utoa_returns m value buf base :
  2 <= base <= 16 -> 0 <= value < 2 ^ 64 ->
  mapped m buf (Z.of_nat (length (utoa_str value base)) + 1) ->
  returns (utoa m value buf base) (fun m' =>
    mem_arr m' buf (utoa_str value base ++ [0]) /\
    same_outside buf (Z.of_nat (length (utoa_str value base)) + 1) m m').
Proof.
  intros Hb Hv. unfold utoa, utoa_str.
  destruct (Z.ltb_spec base 2); [lia|]. destruct (Z.ltb_spec 16 base); [lia|]. cbn [orb].
  destruct (Z.eqb_spec value 0) as [->|Hnz]; intros Hm.
  - simpl in Hm. rewrite st_mapped by (apply Hm; lia). rewrite bind_Done, st_mapped.
    2: { apply (mapped_insert _ _ _ _ _ Hm). lia. }
    apply returns_Done. split.
    + apply (mem_arr_snoc _ buf [48]). intros k x Hx. destruct k; [|discriminate].
      injection Hx as <-. rewrite Z.add_0_r. apply lookup_insert_eq.
    + intros a Ha. simpl in Ha. rewrite !lookup_insert_ne by lia. reflexivity.
  - apply returns_bind. eapply returns_mono; [apply utoa_loop; lia|].
    intros [i tmp] (Hlen & Hi & Hd). rewrite <- Hd in Hm |- *.
    destruct (tmp_reversed tmp i) as (l & El & Ei & Hget); [lia|].
    rewrite El in Hm |- *. clear El Hd. subst i.
    apply returns_bind. eapply returns_mono.
    + apply (store_list_returns m buf l); [|exact Hget].
      intros a Ha. apply Hm. lia.
    + intros m1 [Hout Harr]. rewrite st_mapped.
      2: { rewrite Hout by lia. apply Hm. lia. }
      apply returns_Done. split.
      * apply mem_arr_snoc, Harr.
      * intros a Ha. rewrite lookup_insert_ne by lia. apply Hout. lia.
Qed.

(** The rest of [string.c] against the list-level functions. *)
Lemma utoa_str_value value base :
  2 <= base <= 16 -> 0 <= value < 2 ^ 64 ->
  digits_value base (utoa_str value base) = value.
Proof.
  intros Hb Hv. unfold utoa_str, digits_value.
  destruct (Z.ltb_spec base 2); [lia|]. destruct (Z.ltb_spec 16 base); [lia|]. cbn [orb].
  destruct (Z.eqb_spec value 0) as [->|]; [reflexivity|].
  rewrite digits_fold; [reflexivity|exact Hb|]. split; [apply Hv|].
  apply (Z.lt_le_trans _ (2 ^ 64)); [apply Hv|]. apply (pow_base_ge base 64); lia.
Qed.

Lemma digits_chars fuel base v acc :
  2 <= base <= 16 -> Forall (fun c => 48 <= c < 103) acc ->
  Forall (fun c => 48 <= c < 103) (digits fuel base v acc).
Proof.
  intros Hb. revert v acc. induction fuel as [|f IH]; intros v acc Hacc; simpl; [exact Hacc|].
  case_match; [exact Hacc|]. apply IH. constructor; [|exact Hacc].
  apply digit_char_range. pose proof (Z.mod_pos_bound v base). lia.
Qed.

Lemma utoa_str_chars value base :
  Forall (fun c => 48 <= c < 103) (utoa_str value base).
Proof.
  unfold utoa_str. destruct (Z.ltb_spec base 2), (Z.ltb_spec 16 base); cbn [orb]; try constructor.
  case_match; [|apply digits_chars; [lia|constructor]].
  repeat constructor; lia.
Qed.

Lemma utoa_str_length value base : (length (utoa_str value base) <= 64)%nat.
Proof.
  unfold utoa_str. case_match; [simpl; lia|]. case_match; [simpl; lia|].
  exact (digits_bound 64 base value []).
Qed.

(** A number below [10 ^ k] has at most [k] decimal digits. *)
Lemma digits_decimal fuel v acc k :
  0 <= v < 10 ^ Z.of_nat k -> (length (digits fuel 10 v acc) <= k + length acc)%nat.
Proof.
  revert v acc k. induction fuel as [|f IH]; intros v acc k Hv; cbn [digits]; [lia|].
  destruct (Z.eqb_spec v 0); [lia|]. destruct k as [|k]; [rewrite Z.pow_0_r in Hv; lia|].
  rewrite Nat2Z.inj_succ, Z.pow_succ_r in Hv by lia.
  specialize (IH (v / 10) (digit_char (v mod 10) :: acc) k). cbn [length] in IH.
  assert (0 <= v / 10 < 10 ^ Z.of_nat k) by (Z.to_euclidean_division_equations; lia). specialize (IH H). lia.
Qed.

(** So a machine word has at most 20. *)
Lemma utoa_str_word v : 0 <= v < 2 ^ 64 -> (length (utoa_str v 10) <= 20)%nat.
Proof.
  intros Hv. unfold utoa_str. cbn [Z.ltb Z.compare orb]. destruct (Z.eqb_spec v 0); [cbn; lia|].
  pose proof (digits_decimal 64 v [] 20) as H. cbn [length] in H. rewrite Nat.add_0_r in H. apply H.
  change (10 ^ Z.of_nat 20) with 100000000000000000000. lia.
Qed.

(** The state of the copy loop of [strncpy]. *)
Lemma strncpy_returns fuel m dst src n s old :
  str_at m src s -> mem_arr m dst old -> Z.of_nat (length old) = n ->
  (length s < fuel)%nat ->
  (src + Z.of_nat (length s) + 1 <= dst \/ dst + n <= src) ->
  returns (strncpy fuel m dst src n) (fun m' =>
    mem_arr m' dst (strncpy_arr old s (length old)) /\ same_outside dst n m m').
Proof.
  intros Hs Hold Hn Hf Hdis.
  pose proof (mem_arr_mapped _ _ _ Hold) as Hmap. rewrite Hn in Hmap.
  set (L := Z.min (Z.of_nat (length s)) n).
  unfold strncpy. apply returns_bind. eapply returns_mono.
  - apply (loop_total (fun '(i, m') => 0 <= i <= L /\ copied m dst src i m' /\ mapped m' dst n)
      (fun '(i, m') => i = L /\ copied m dst src L m' /\ mapped m' dst n)
      (fun '(i, _) => Z.to_nat (Z.of_nat (length s) - i))).
    2: { split; [lia|]. split; [split; [apply same_outside_refl|lia]|exact Hmap]. }
    2: { lia. }
    intros [i m'] (Hi & [Hout Hin] & Hmap'). destruct (Z.ltb_spec i n) as [Hlt|Hge].
    + destruct (decide (i = Z.of_nat (length s))) as [->|Hne].
      * assert (ld m' (src + Z.of_nat (length s)) = Done 0) as ->.
        { apply ld_Done. rewrite Hout by lia. apply str_at_nul, Hs. }
        apply returns_Done. replace L with (Z.of_nat (length s)) by lia.
        split; [reflexivity|]. split; [split; assumption|exact Hmap'].
      * destruct (lookup_lt_is_Some_2 s (Z.to_nat i)) as [c Hc]; [lia|].
        destruct (str_at_char _ _ _ _ _ Hs Hc) as [Hm Hnz]. rewrite Z2Nat.id in Hm by lia.
        assert (ld m' (src + i) = Done c) as ->.
        { apply ld_Done. rewrite Hout by lia. exact Hm. }
        rewrite bind_Done. destruct (Z.eqb_spec c 0); [done|].
        rewrite st_mapped by (apply Hmap'; lia). apply returns_Done.
        split; [|lia]. split; [lia|]. split; [|apply mapped_insert, Hmap'].
        split.
        -- intros a Ha. rewrite lookup_insert_ne by lia. apply Hout. lia.
        -- intros k Hk. destruct (decide (k = i)) as [->|Hne'].
           ++ rewrite lookup_insert_eq. symmetry. exact Hm.
           ++ rewrite lookup_insert_ne by lia. apply Hin. lia.
    + apply returns_Done. replace i with L by lia.
      replace i with L in Hout, Hin by lia. split; [reflexivity|].
      split; [split; assumption|exact Hmap'].
  - intros [i m1] (-> & [Hout Hin] & Hmap1).
    apply (for_to_inv (fun i m' => same_outside dst n m m' /\ mapped m' dst n /\
      (forall k, 0 <= k < L -> m' !! (dst + k) = m !! (src + k)) /\
      (forall k, L <= k < i -> m' !! (dst + k) = Some 0))); [lia| | |].
    + split; [intros a Ha; apply Hout; lia|]. split; [exact Hmap1|].
      split; [exact Hin|lia].
    + intros i m' Hi (Hout' & Hmap' & Hin' & Hz). rewrite st_mapped by (apply Hmap'; lia).
      apply returns_Done. split; [|split; [apply mapped_insert, Hmap'|split]].
      * intros a Ha. rewrite lookup_insert_ne by lia. apply Hout'. lia.
      * intros k Hk. rewrite lookup_insert_ne by lia. apply Hin'. lia.
      * intros k Hk. destruct (decide (k = i)) as [->|Hne].
        -- apply lookup_insert_eq.
        -- rewrite lookup_insert_ne by lia. apply Hz. lia.
    + intros m' (Hout' & _ & Hin' & Hz). split; [|exact Hout'].
      unfold strncpy_arr. rewrite drop_ge, app_nil_r by lia.
      intros k x Hx. apply lookup_app_Some in Hx as [Hx|[Hk Hx]].
      * apply lookup_take_Some in Hx as [Hx Hk].
        pose proof (lookup_lt_Some _ _ _ Hx). rewrite Hin' by lia.
        apply (str_at_char _ _ _ _ _ Hs Hx).
      * apply lookup_replicate in Hx as [-> Hx]. rewrite length_take in Hk, Hx.
        apply Hz. lia.
Qed.

Lemma strstr_here_returns fuel m h n sh sn :
  str_at m h sh -> str_at m n sn -> (length sn < fuel)%nat ->
  strstr_here fuel m h n = Done (is_prefix sn sh).
Proof.
  intros Hh Hn Hf. apply returns_is. unfold strstr_here.
  eapply (loop_total
    (fun i => scan_at m n h sn sh i /\
       is_prefix (drop (Z.to_nat i) sn) (drop (Z.to_nat i) sh) = is_prefix sn sh)
    _ (fun i => (length sn - Z.to_nat i)%nat)); [| |lia].
  2: { split; [apply scan_start; assumption|reflexivity]. }
  intros i [Hscan Hpre].
  assert (forall A (f : Z -> Z -> outcome A),
    (x ← ld m (h + i); y ← ld m (n + i); f x y) = (y ← ld m (n + i); x ← ld m (h + i); f x y)) as Hcomm.
  { intros A f. pose proof Hscan as (_ & Hb & Ha).
    destruct (ld_head _ _ _ Ha) as (c & -> & _). destruct (ld_head _ _ _ Hb) as (d & -> & _).
    reflexivity. }
  rewrite Hcomm. clear Hcomm. scan_heads Hscan sn sh; apply returns_Done;
    cbn [is_prefix] in Hpre; rewrite <- Hpre; repeat case_cmp; subst; simpl; try done.
  split; [split|].
  - eapply scan_step; eassumption.
  - edestruct (drop_cons_S sn) as [-> _]; [exact Hi|eassumption|].
    edestruct (drop_cons_S sh) as [-> _]; [exact Hi|eassumption|]. reflexivity.
  - edestruct (drop_cons_S sn) as [_ ?]; [exact Hi|eassumption|]. lia.
Qed.

Lemma strstr_loop_returns fuel m needle n h p :
  str_at m p h -> str_at m needle n -> n <> [] ->
  (length h < fuel)%nat -> (length n < fuel)%nat ->
  forall fuel', (length h < fuel')%nat ->
  loop fuel' (fun h => x ← ld m h;
    if x =? 0 then mret (inr None)
    else ok ← strstr_here fuel m h needle;
         mret (if (ok : bool) then inr (Some h) else inl (h + 1))) p
  = Done (match find_sub n h with Some i => Some (p + i) | None => None end).
Proof.
  intros Hh Hn Hne Hfh Hfn. revert p Hh.
  induction h as [|x h IH]; intros p Hh fuel' Hf'; (destruct fuel' as [|f']; [simpl in Hf'; lia|]).
  - cbn [loop]. rewrite (proj2 (ld_Done _ _ _) (str_at_nil _ _ Hh)), bind_Done. simpl.
    destruct n; [done|reflexivity].
  - cbn [loop]. destruct (str_at_head _ _ _ _ Hh) as [Hx Hnz].
    rewrite (proj2 (ld_Done _ _ _) Hx), bind_Done. destruct (Z.eqb_spec x 0); [done|].
    rewrite (strstr_here_returns fuel _ _ _ (x :: h) n) by assumption.
    rewrite bind_Done. cbn [find_sub]. destruct (is_prefix n (x :: h)); cbn -[find_sub loop].
    + rewrite Z.add_0_r. reflexivity.
    + rewrite IH; [|simpl in Hfh; lia|exact (str_at_tail _ _ _ _ Hh)|simpl in Hf'; lia].
      destruct (find_sub n h); [|reflexivity]. do 2 f_equal. lia.
Qed.

(** What [find_sub] computes: the least offset at which [n] occurs in [h]. *)
Lemma find_sub_spec n h :
  match find_sub n h with
  | Some i => exists a b, h = a ++ n ++ b /\ Z.of_nat (length a) = i /\
                forall a' b', h = a' ++ n ++ b' -> (length a <= length a')%nat
  | None => forall a b, h <> a ++ n ++ b
  end.
Proof.
  assert (forall n h, is_prefix n h = true <-> exists b, h = n ++ b) as Hpre.
  { clear. induction n as [|y n IH]; intros [|x h]; simpl.
    - split; eauto.
    - split; eauto.
    - split; [discriminate|]. intros [b [=]].
    - rewrite andb_true_iff, Z.eqb_eq, IH. split.
      + intros [-> [b ->]]. eauto.
      + intros [b [= -> ->]]. eauto. }
  induction h as [|x h IH]; cbn [find_sub].
  - destruct (is_prefix n []) eqn:E.
    + apply Hpre in E as [b E]. exists [], b. split; [exact E|]. split; [reflexivity|]. simpl; lia.
    + intros a b H. symmetry in H. apply app_eq_nil in H as [-> H].
      assert (is_prefix n [] = true) by (apply Hpre; exists b; congruence). congruence.
  - destruct (is_prefix n (x :: h)) eqn:E.
    + apply Hpre in E as [b E]. exists [], b. split; [exact E|]. split; [reflexivity|]. simpl; lia.
    + assert (forall b, x :: h <> n ++ b) as Hno.
      { intros b H. assert (is_prefix n (x :: h) = true) by (apply Hpre; eauto). congruence. }
      destruct (find_sub n h) as [i|].
      * destruct IH as (a & b & -> & <- & Hmin). exists (x :: a), b.
        split; [reflexivity|]. split; [simpl; lia|].
        intros [|z a'] b' H; [destruct (Hno b' H)|]. injection H as _ H.
        simpl. specialize (Hmin _ _ H). lia.
      * intros [|z a] b H; [destruct (Hno b H)|]. injection H as _ H. exact (IH _ _ H).
Qed.

(** ** Concrete memories *)
Fixpoint mem_of_list (p : Z) (l : list Z) : mem :=
  match l with
  | [] => ∅
  | x :: l' => <[p := x]> (mem_of_list (p + 1) l')
  end.

Lemma mem_of_list_lookup p l i x :
  l !! i = Some x -> mem_of_list p l !! (p + Z.of_nat i) = Some x.
Proof.
  revert p i. induction l as [|y l IH]; intros p [|i] H; simpl in *; try discriminate.
  - injection H as ->. rewrite Z.add_0_r. apply lookup_insert_eq.
  - rewrite lookup_insert_ne by lia.
    replace (p + Z.of_nat (S i)) with (p + 1 + Z.of_nat i) by lia. apply IH, H.
Qed.

Lemma mem_of_list_arr p a b c :
  mem_arr (mem_of_list p (a ++ b ++ c)) (p + Z.of_nat (length a)) b.
Proof.
  intros i x Hx. rewrite <- Z.add_assoc, <- Nat2Z.inj_add. apply mem_of_list_lookup.
  rewrite lookup_app_r by lia. replace (length a + i - length a)%nat with i by lia.
  apply lookup_app_l_Some, Hx.
Qed.

Lemma mem_of_list_mapped p l q n :
  p <= q -> q + n <= p + Z.of_nat (length l) -> mapped (mem_of_list p l) q n.
Proof.
  intros Hp Hn a Ha. destruct (lookup_lt_is_Some_2 l (Z.to_nat (a - p))) as [x Hx]; [lia|].
  exists x. replace a with (p + Z.of_nat (Z.to_nat (a - p))) by lia.
  apply mem_of_list_lookup, Hx.
Qed.

(** * Properties *)

(** C40: [memmove] copies [n] bytes for any overlap of the two areas: afterwards
    the destination holds what the source held before the call, no other byte
    has changed, and no byte outside the two areas is accessed. *)
Theorem memmove_correct m dst src n :
  0 <= n -> mapped m dst n -> mapped m src n ->
  exists m', memmove m dst src n = Done m' /\
    (forall k, 0 <= k < n -> m' !! (dst + k) = m !! (src + k)) /\
    (forall a, ~ (dst <= a < dst + n) -> m' !! a = m !! a).
Proof.
  intros Hn Hd Hs. unfold memmove. destruct (Z.ltb_spec dst src).
  - destruct (copy_forward m dst src n) as (m' & Hm & Ho & Hi); [assumption..|lia|]. eauto.
  - destruct (copy_backward m dst src n) as (m' & Hm & Ho & Hi); [assumption..|lia|]. eauto.
Qed.

Lemma memmove_correct_witness :
  exists m', memmove (mem_of_list 100 [1; 2; 3; 4; 5; 6; 7]) 102 100 5 = Done m' /\
    (forall k, 0 <= k < 5 -> m' !! (102 + k) = mem_of_list 100 [1; 2; 3; 4; 5; 6; 7] !! (100 + k)) /\
    (forall a, ~ (102 <= a < 102 + 5) -> m' !! a = mem_of_list 100 [1; 2; 3; 4; 5; 6; 7] !! a).
Proof.
  apply (memmove_correct (mem_of_list 100 [1; 2; 3; 4; 5; 6; 7]) 102 100 5);
    [lia|apply mem_of_list_mapped; simpl; lia..].
Defined.

(** [strcmp] terminates on two NUL-terminated strings, reads no byte past
    either terminator, and returns 0 exactly when the strings are equal;
    otherwise its sign is that of the first differing byte. *)
Theorem strcmp_correct fuel m a b sa sb :
  str_at m a sa -> str_at m b sb -> (length sa < fuel)%nat ->
  strcmp fuel m a b = Done (str_cmp sa sb) /\ (str_cmp sa sb = 0 <-> sa = sb).
Proof.
  intros Ha Hb Hf. split; [exact (strcmp_returns _ _ _ _ _ _ Ha Hb Hf)|].
  apply str_cmp_eq; [apply Ha|apply Hb].
Qed.

Lemma strcmp_correct_witness :
  strcmp 10 (mem_of_list 0 [97; 98; 0; 97; 99; 0]) 0 3 = Done (-1) /\ (-1 = 0 <-> [97; 98] = [97; 99]).
Proof.
  apply (strcmp_correct 10 (mem_of_list 0 [97; 98; 0; 97; 99; 0]) 0 3 [97; 98] [97; 99]).
  - split; [repeat constructor; lia|].
    apply (mem_of_list_arr 0 [] [97; 98; 0] [97; 99; 0]).
  - split; [repeat constructor; lia|].
    apply (mem_of_list_arr 0 [97; 98; 0] [97; 99; 0] []).
  - simpl; lia.
Defined.

(** [utoa] of any 64-bit value in any base from 2 to 16 terminates, stays
    inside its 65-byte scratch array and a 65-byte buffer, and leaves a string
    of digits without NUL that reads back as the value. *)
Theorem utoa_roundtrip m value buf base :
  2 <= base <= 16 -> 0 <= value < 2 ^ 64 -> mapped m buf 65 ->
  exists m' s, utoa m value buf base = Done m' /\ str_at m' buf s /\
    digits_value base s = value /\ same_outside buf 65 m m'.
Proof.
  intros Hb Hv Hm. pose proof (utoa_str_length value base) as Hl.
  destruct (utoa_returns m value buf base Hb Hv) as (m' & E & Harr & Hout).
  { intros a Ha. apply Hm. lia. }
  exists m', (utoa_str value base). split; [exact E|]. split; [split; [|exact Harr]|].
  - apply (Forall_impl (fun c => 48 <= c < 103)); [apply utoa_str_chars|]. simpl. lia.
  - split; [apply utoa_str_value; assumption|]. intros a Ha. apply Hout. lia.
Qed.

Lemma utoa_roundtrip_witness :
  exists m' s, utoa (mem_of_list 8 (replicate 65 7)) 3735928559 8 16 = Done m' /\ str_at m' 8 s /\
    digits_value 16 s = 3735928559 /\ same_outside 8 65 (mem_of_list 8 (replicate 65 7)) m'.
Proof.
  apply (utoa_roundtrip (mem_of_list 8 (replicate 65 7)) 3735928559 8 16); [lia|lia|].
  apply mem_of_list_mapped; simpl; lia.
Defined.

(** [strstr] of a non-empty needle returns the first occurrence: the address
    at which the needle is a substring of the haystack and before which it is
    not, or NULL when there is none. *)
Theorem strstr_first fuel m p needle h n :
  str_at m p h -> str_at m needle n -> n <> [] ->
  (length h < fuel)%nat -> (length n < fuel)%nat ->
  exists r, strstr fuel m p needle = Done r /\
    match r with
    | Some q => exists a b, h = a ++ n ++ b /\ q = p + Z.of_nat (length a) /\
                  forall a' b', h = a' ++ n ++ b' -> (length a <= length a')%nat
    | None => forall a b, h <> a ++ n ++ b
    end.
Proof.
  intros Hh Hn Hne Hfh Hfn. unfold strstr.
  destruct n as [|y n]; [done|]. destruct (str_at_head _ _ _ _ Hn) as [Hy Hnz].
  rewrite (proj2 (ld_Done _ _ _) Hy), bind_Done. destruct (Z.eqb_spec y 0); [done|].
  rewrite (strstr_loop_returns fuel m needle (y :: n) h p) by assumption.
  eexists. split; [reflexivity|]. pose proof (find_sub_spec (y :: n) h) as Hs.
  destruct (find_sub (y :: n) h); [|exact Hs].
  destruct Hs as (a & b & E & <- & Hmin). exists a, b. auto.
Qed.

Lemma strstr_first_witness :
  exists r, strstr 9 (mem_of_list 0 [97; 98; 97; 99; 0; 97; 99; 0]) 0 5 = Done r /\
    match r with
    | Some q => exists a b, [97; 98; 97; 99] = a ++ [97; 99] ++ b /\ q = 0 + Z.of_nat (length a) /\
                  forall a' b', [97; 98; 97; 99] = a' ++ [97; 99] ++ b' -> (length a <= length a')%nat
    | None => forall a b, [97; 98; 97; 99] <> a ++ [97; 99] ++ b
    end.
Proof.
  apply (strstr_first 9 (mem_of_list 0 [97; 98; 97; 99; 0; 97; 99; 0]) 0 5 [97; 98; 97; 99] [97; 99]);
    try (simpl; lia); try discriminate.
  - split; [repeat constructor; lia|].
    apply (mem_of_list_arr 0 [] [97; 98; 97; 99; 0] [97; 99; 0]).
  - split; [repeat constructor; lia|].
    apply (mem_of_list_arr 0 [97; 98; 97; 99; 0] [97; 99; 0] []).
Defined.
