(* ===== verification/PageAlloc.v ===== *)
(** * The interface of the page allocator

    What [memory/heap.c] and [memory/vmm.c] rely on when they call
    [pmm_alloc_page] and [pmm_alloc_pages]: their theorems are proved for any
    instance of this class, and [Pmm.v] gives the instance of the bitmap
    allocator.  [pa_free s p] says that page number [p] is free. *)
From Stdlib Require Import ZArith Lia.
From stdpp Require Import base tactics.
From S2P Require Import Prelude CInt.

Class PageAlloc (St : Type) := {
  pa_alloc_page : St -> outcome (Z * St);
  pa_alloc_pages : St -> Z -> outcome (Z * St);
  pa_ok : St -> Prop;
  pa_free : St -> Z -> Prop
}.

(** [count] pages from page [p] left the free pages, and no other did. *)
Definition pages_taken `{PageAlloc St} (s s' : St) (p count : Z) : Prop :=
  (forall i, 0 <= i < count -> pa_free s (p + i)) /\
  (forall q, pa_free s' q <-> pa_free s q /\ ~ (p <= q < p + count)).

(** The result of an allocation of [count] pages: address 0 and no page taken,
    or the address of the first of [count] consecutive pages. *)
Definition alloc_post `{PageAlloc St} (s : St) (count : Z) (r : Z * St) : Prop :=
  pa_ok (snd r) /\
  ((fst r = 0 /\ forall q, pa_free (snd r) q <-> pa_free s q) \/
   exists p, 0 < p /\ 0 < count /\ fst r = p * PAGE_SIZE /\ pages_taken s (snd r) p count).

Class PageAllocLaws (St : Type) `{PageAlloc St} := {
  pa_free_range : forall s p, pa_ok s -> pa_free s p -> 0 < p < 2 ^ 19;
  pa_alloc_page_post : forall s, pa_ok s -> returns (pa_alloc_page s) (alloc_post s 1);
  pa_alloc_pages_post : forall s count, pa_ok s -> 0 <= count < 2 ^ 64 ->
    returns (pa_alloc_pages s count) (alloc_post s count)
}.

(** The address of a taken run is a multiple of the page size below 2 GiB, and
    the run ends there too. *)
Lemma pages_taken_range `{PageAllocLaws St} (s s' : St) p count :
  pa_ok s -> 0 < count -> pages_taken s s' p count -> 0 < p /\ p + count <= 2 ^ 19.
Proof.
  intros Hok Hc [Hfree _].
  pose proof (Hfree 0 ltac:(lia)) as Hfst. pose proof (Hfree (count - 1) ltac:(lia)) as Hlst.
  apply (pa_free_range s) in Hfst; [|exact Hok]. apply (pa_free_range s) in Hlst; [|exact Hok]. lia.
Qed.

(** ** A concrete allocator with these laws: the pages from [s] up are free. *)
Definition bump_alloc (s count : Z) : outcome (Z * Z) :=
  if (count =? 0) || (2 ^ 18 <? s + count) then Done (0, s)
  else Done (s * PAGE_SIZE, s + count).

#[export] Instance bump_pages : PageAlloc Z := {
  pa_alloc_page s := bump_alloc s 1;
  pa_alloc_pages := bump_alloc;
  pa_ok s := 0 < s <= 2 ^ 18;
  pa_free s q := s <= q < 2 ^ 18
}.

Lemma bump_post s count :
  0 < s <= 2 ^ 18 -> 0 <= count -> returns (bump_alloc s count) (alloc_post s count).
Proof.
  intros Hs Hc. unfold bump_alloc.
  destruct (Z.eqb_spec count 0), (Z.ltb_spec (2 ^ 18) (s + count)); cbn [orb]; apply returns_Done;
    unfold alloc_post, pages_taken; cbn [fst snd pa_ok pa_free bump_pages]; (split; [lia|]);
    first [left; split; [reflexivity|intros; reflexivity]
          |right; exists s; repeat split; intros; lia].
Qed.

#[export] Instance bump_pages_laws : PageAllocLaws Z.
Proof.
  split; cbn [pa_ok pa_free bump_pages pa_alloc_page pa_alloc_pages].
  - lia.
  - intros s Hs. apply bump_post; lia.
  - intros s count Hs Hc. apply bump_post; lia.
Qed.
