(* ===== verification/Pmm.v ===== *)
(** * Physical memory manager: [memory/pmm.c]

    The page bitmap, its counters and every operation on them.  The Multiboot2
    information block is the list of its bytes, parsed as the code parses it. *)
From Stdlib Require Import ZArith Lia Bool.
From stdpp Require Import base tactics option list numbers.
From S2P Require Import Prelude CInt PageAlloc.

(** ** State *)
Definition PMM_MAX_PAGES : Z := 512 * 1024.

Record pmm := mk_pmm {
  page_bitmap : list Z;      (* u8[PMM_MAX_PAGES / 8] *)
  total_pages : Z;
  used_pages : Z;
  highest_page : Z
}.

Definition set_bitmap (f : list Z) (s : pmm) : pmm :=
  mk_pmm f (total_pages s) (used_pages s) (highest_page s).
Definition set_used (n : Z) (s : pmm) : pmm :=
  mk_pmm (page_bitmap s) (total_pages s) n (highest_page s).

(** ** Bitmap primitives *)
Definition bitmap_test (s : pmm) (page : Z) : outcome bool :=
  b ← arr_get (page_bitmap s) (page / 8);
  mret (negb (Z.land b (Z.shiftl 1 (page mod 8)) =? 0)).

Definition bitmap_set (s : pmm) (page : Z) : outcome pmm :=
  b ← arr_get (page_bitmap s) (page / 8);
  bm ← arr_set (page_bitmap s) (page / 8) (Z.lor b (u8 (Z.shiftl 1 (page mod 8))));
  mret (set_bitmap bm s).

Definition bitmap_clear (s : pmm) (page : Z) : outcome pmm :=
  b ← arr_get (page_bitmap s) (page / 8);
  bm ← arr_set (page_bitmap s) (page / 8) (Z.land b (u8 (Z.lnot (Z.shiftl 1 (page mod 8)))));
  mret (set_bitmap bm s).

(** [bitmap_set(p); used_pages++] *)
Definition take_page (s : pmm) (p : Z) : outcome pmm :=
  s1 ← bitmap_set s p; mret (set_used (u64 (used_pages s1 + 1)) s1).

Definition reserve_region (s : pmm) (addr len : Z) : outcome pmm :=
  let start := addr / PAGE_SIZE in
  let end_ := ALIGN_UP (u64 (addr + len)) PAGE_SIZE / PAGE_SIZE in
  for_to start (Z.min end_ PMM_MAX_PAGES) (fun p s =>
    t ← bitmap_test s p;
    if (t : bool) then mret s else take_page s p) s.

(** ** Multiboot2 information *)
Definition MB2_TAG_END : Z := 0.
Definition MB2_TAG_MMAP : Z := 6.
Definition MB2_MEMORY_AVAILABLE : Z := 1.

(** Little-endian loads of the packed structures. *)
Definition get32 (b : list Z) (o : Z) : outcome Z :=
  b0 ← arr_get b o; b1 ← arr_get b (o + 1); b2 ← arr_get b (o + 2); b3 ← arr_get b (o + 3);
  mret (b0 + 2 ^ 8 * b1 + 2 ^ 16 * b2 + 2 ^ 24 * b3).
Definition get64 (b : list Z) (o : Z) : outcome Z :=
  lo ← get32 b o; hi ← get32 b (o + 4); mret (lo + 2 ^ 32 * hi).

(** [mb2_find]: the offset of the first tag of the type, or [None].  [info] is
    the block the non-NULL pointer refers to. *)
Definition mb2_find (fuel : nat) (info : list Z) (type : Z) : outcome (option Z) :=
  total_size ← get32 info 0;
  loop fuel (fun ptr =>
    if ptr <? total_size then
      ty ← get32 info ptr;
      if ty =? MB2_TAG_END then mret (inr None)
      else if ty =? type then mret (inr (Some ptr))
      else
        size ← get32 info (ptr + 4);
        mret (inl (ptr + Z.land (u32 (size + 7)) (Z.lnot 7)))
    else mret (inr None)) 8.

(** ** Initialisation *)
Record mmap_entry := mk_entry { e_addr : Z; e_len : Z; e_type : Z }.

Definition get_entry (info : list Z) (o : Z) : outcome mmap_entry :=
  a ← get64 info o; l ← get64 info (o + 8); t ← get32 info (o + 16);
  mret (mk_entry a l t).

(** The body of the loop over the memory-map entries. *)
Definition mmap_step (s : pmm) (e : mmap_entry) : outcome pmm :=
  let end_page := ALIGN_UP (u64 (e_addr e + e_len e)) PAGE_SIZE / PAGE_SIZE in
  let hp := if highest_page s <? end_page then end_page else highest_page s in
  let tp := if total_pages s <? end_page then end_page else total_pages s in
  let s1 := mk_pmm (page_bitmap s) tp (used_pages s) hp in
  if e_type e =? MB2_MEMORY_AVAILABLE then
    let start := ALIGN_UP (e_addr e) PAGE_SIZE / PAGE_SIZE in
    let end_ := ALIGN_DOWN (u64 (e_addr e + e_len e)) PAGE_SIZE / PAGE_SIZE in
    for_to start (Z.min end_ PMM_MAX_PAGES) (fun p s => bitmap_clear s p) s1
  else mret s1.

(** The entries of the memory-map tag at offset [o]; a zero entry size is a
    division fault. *)
Definition mmap_count (info : list Z) (o : Z) : outcome (Z * Z) :=
  size ← get32 info (o + 4);
  entry_size ← get32 info (o + 8);
  if entry_size =? 0 then Fault else mret (u32 (size - 16) / entry_size, entry_size).

Definition mmap_loop (s : pmm) (info : list Z) (o : Z) : outcome pmm :=
  '(entries, entry_size) ← mmap_count info o;
  for_to 0 entries (fun i s =>
    e ← get_entry info (o + 16 + u32 (i * entry_size)); mmap_step s e) s.

(** The cap of [total_pages] and the recount of the used pages. *)
Definition recount (s : pmm) : outcome pmm :=
  let tp := if PMM_MAX_PAGES <? total_pages s then PMM_MAX_PAGES else total_pages s in
  let s1 := mk_pmm (page_bitmap s) tp 0 (highest_page s) in
  for_to 0 tp (fun p s =>
    t ← bitmap_test s p;
    mret (if (t : bool) then set_used (used_pages s + 1) s else s)) s1.

(** The 128 MiB fallback of a block without memory map. *)
Definition fallback (s : pmm) : outcome pmm :=
  s1 ← for_to 256 (Z.min 32768 PMM_MAX_PAGES) (fun p s => bitmap_clear s p) s;
  mret (mk_pmm (page_bitmap s1) 32768 256 32768).

(** [pmm_init]; [kernel_end] is the address the linker gives [_kernel_end]. *)
Definition pmm_init (fuel : nat) (kernel_end : Z) (mb2 : option (list Z)) : outcome pmm :=
  let s0 := mk_pmm (replicate (Z.to_nat (PMM_MAX_PAGES / 8)) 255) 0 0 0 in
  tag ← match mb2 with
        | None => mret None
        | Some info => o ← mb2_find fuel info MB2_TAG_MMAP;
                       mret (match o with Some o => Some (info, o) | None => None end)
        end;
  s1 ← match tag with
       | None => fallback s0
       | Some (info, o) => s ← mmap_loop s0 info o; recount s
       end;
  s2 ← reserve_region s1 0 0x100000;
  reserve_region s2 0x100000 (u64 (kernel_end - 0x100000)).

(** ** Allocation *)
Definition pmm_alloc_page (s : pmm) : outcome (Z * pmm) :=
  r ← for_ret 0 (total_pages s) (fun p s =>
        t ← bitmap_test s p;
        if (t : bool) then mret (inl s)
        else s' ← take_page s p; mret (inr (p * PAGE_SIZE, s'))) s;
  mret (match r with inl s' => (0, s') | inr x => x end).

(** The inner test of [pmm_alloc_pages]: the [count] pages from [p] are free. *)
Definition run_free (s : pmm) (p count : Z) : outcome bool :=
  r ← for_ret 0 count (fun i (u : unit) =>
        t ← bitmap_test s (p + i); mret (if (t : bool) then inr false else inl u)) tt;
  mret (match r with inl _ => true | inr b => b end).

Definition take_run (s : pmm) (p count : Z) : outcome pmm :=
  for_to 0 count (fun i s => take_page s (p + i)) s.

(** The loop condition [p + count <= total_pages] is evaluated at [u64]. *)
Definition pmm_alloc_pages (s : pmm) (count : Z) : outcome (Z * pmm) :=
  if count =? 0 then mret (0, s)
  else if count =? 1 then pmm_alloc_page s
  else
    loop (Z.to_nat (total_pages s) + 2) (fun p =>
      if u64 (p + count) <=? total_pages s then
        ok ← run_free s p count;
        if (ok : bool) then s' ← take_run s p count; mret (inr (p * PAGE_SIZE, s'))
        else mret (inl (p + 1))
      else mret (inr (0, s))) 0.

Definition pmm_free_page (s : pmm) (addr : Z) : outcome pmm :=
  let p := addr / PAGE_SIZE in
  if total_pages s <=? p then mret s
  else
    t ← bitmap_test s p;
    if (t : bool) then s1 ← bitmap_clear s p; mret (set_used (u64 (used_pages s1 - 1)) s1)
    else mret s.

Definition pmm_free_pages (s : pmm) (addr count : Z) : outcome pmm :=
  for_to 0 count (fun i s => pmm_free_page s (u64 (addr + u64 (i * PAGE_SIZE)))) s.

(** ** Statistics *)
Record pmm_stats := mk_stats {
  st_total_pages : Z; st_used_pages : Z; st_free_pages : Z; st_total_bytes : Z
}.

Definition pmm_get_stats (s : pmm) : pmm_stats :=
  mk_stats (total_pages s) (used_pages s)
    (if used_pages s <? total_pages s then total_pages s - used_pages s else 0)
    (u64 (total_pages s * PAGE_SIZE)).

(** ** The pages as bits *)
Definition bit (bm : list Z) (p : Z) : bool :=
  match bm !! Z.to_nat (p / 8) with Some b => Z.testbit b (p mod 8) | None => true end.

(** [p] is a page the allocator may hand out. *)
Definition free (s : pmm) (p : Z) : Prop :=
  0 <= p < total_pages s /\ bit (page_bitmap s) p = false.

Definition bitmap_len (s : pmm) : Prop := Z.of_nat (length (page_bitmap s)) = PMM_MAX_PAGES / 8.

(** The invariant of the allocator: the bitmap has its size, the pages past
    [total_pages] are never free, and [used_pages] counts the set bits. *)
Record pmm_inv (s : pmm) : Prop := {
  inv_len : bitmap_len s;
  inv_total : 0 <= total_pages s <= PMM_MAX_PAGES;
  inv_used : used_pages s = cnt (bit (page_bitmap s)) (Z.to_nat (total_pages s));
  inv_tail : forall p, total_pages s <= p < PMM_MAX_PAGES -> bit (page_bitmap s) p = true
}.

(** [s'] is [s] with the bit of page [p] set ([v = true]) or cleared. *)
Definition flips (p : Z) (v : bool) (s s' : pmm) : Prop :=
  bitmap_len s' /\ total_pages s' = total_pages s /\ highest_page s' = highest_page s /\
  forall q, 0 <= q ->
    bit (page_bitmap s') q = if q =? p then v else bit (page_bitmap s) q.

Lemma bit_update bm p q b :
  0 <= p -> 0 <= q -> (Z.to_nat (p / 8) < length bm)%nat ->
  bit (<[Z.to_nat (p / 8) := b]> bm) q =
  if q / 8 =? p / 8 then Z.testbit b (q mod 8) else bit bm q.
Proof.
  intros Hp Hq Hlen. unfold bit. pose proof (Z.div_pos p 8). pose proof (Z.div_pos q 8).
  destruct (Z.eqb_spec (q / 8) (p / 8)) as [->|Hne].
  - rewrite list_lookup_insert_eq by exact Hlen. reflexivity.
  - rewrite list_lookup_insert_ne by lia. reflexivity.
Qed.

Lemma page_index p :
  0 <= p < PMM_MAX_PAGES -> 0 <= p / 8 < PMM_MAX_PAGES / 8 /\ 0 <= p mod 8 < 8.
Proof.
  unfold PMM_MAX_PAGES. intros. split; [|apply Z.mod_pos_bound; lia].
  change (512 * 1024 / 8) with 65536. split; [apply Z.div_pos; lia|].
  apply Z.div_lt_upper_bound; lia.
Qed.

Lemma same_page p q : q / 8 = p / 8 -> q mod 8 = p mod 8 -> q = p.
Proof. intros H1 H2. rewrite (Z.div_mod q 8), (Z.div_mod p 8), H1, H2 by lia. reflexivity. Qed.

Lemma bitmap_byte s p :
  bitmap_len s -> 0 <= p < PMM_MAX_PAGES ->
  exists b, arr_get (page_bitmap s) (p / 8) = Done b /\
            bit (page_bitmap s) p = Z.testbit b (p mod 8).
Proof.
  intros Hl Hp. unfold bitmap_len in Hl. destruct (page_index p Hp) as [Hi Hm].
  destruct (arr_get_in (page_bitmap s) (p / 8)) as [b Hb]; [lia|].
  exists b. split; [exact Hb|]. apply arr_get_Done in Hb as [_ Hb].
  unfold bit. rewrite Hb. reflexivity.
Qed.

Lemma bitmap_test_Done s p :
  bitmap_len s -> 0 <= p < PMM_MAX_PAGES ->
  bitmap_test s p = Done (bit (page_bitmap s) p).
Proof.
  intros Hl Hp. destruct (bitmap_byte s p Hl Hp) as (b & Hb & ->).
  unfold bitmap_test. rewrite Hb, bind_Done.
  rewrite land_bit_test by (apply page_index, Hp). reflexivity.
Qed.

(** A byte whose bits are those of the bit update gives the [flips] state. *)
Lemma store_byte_flips s p b v :
  bitmap_len s -> 0 <= p < PMM_MAX_PAGES ->
  (forall j, 0 <= j < 8 -> forall c, page_bitmap s !! Z.to_nat (p / 8) = Some c ->
     Z.testbit b j = if j =? p mod 8 then v else Z.testbit c j) ->
  returns (bm ← arr_set (page_bitmap s) (p / 8) b; mret (set_bitmap bm s))
    (fun s' => flips p v s s' /\ used_pages s' = used_pages s).
Proof.
  intros Hl Hp Hb. pose proof Hl as Hl'. unfold bitmap_len in Hl'.
  destruct (page_index p Hp) as [Hi Hm].
  rewrite arr_set_Done by lia. rewrite bind_Done. apply returns_Done.
  split; [|reflexivity]. split; [unfold bitmap_len; simpl; rewrite length_insert; exact Hl|].
  split; [reflexivity|]. split; [reflexivity|]. intros q Hq. simpl.
  rewrite bit_update by lia.
  destruct (Z.eqb_spec q p) as [->|Hne].
  - rewrite Z.eqb_refl. destruct (bitmap_byte s p Hl Hp) as (c & Hc & _).
    apply arr_get_Done in Hc as [_ Hc]. rewrite (Hb _ Hm _ Hc), Z.eqb_refl. reflexivity.
  - destruct (Z.eqb_spec (q / 8) (p / 8)) as [Heq|]; [|reflexivity].
    assert (Hmq : 0 <= q mod 8 < 8) by (apply Z.mod_pos_bound; lia).
    destruct (bitmap_byte s p Hl Hp) as (c & Hc & _). apply arr_get_Done in Hc as [_ Hc].
    rewrite (Hb _ Hmq _ Hc). destruct (Z.eqb_spec (q mod 8) (p mod 8)) as [Hm'|].
    + destruct Hne. apply same_page; assumption.
    + unfold bit. rewrite Heq, Hc. reflexivity.
Qed.

Lemma testbit_u8 z j : 0 <= j < 8 -> Z.testbit (u8 z) j = Z.testbit z j.
Proof. intros. unfold u8. apply Z.mod_pow2_bits_low. lia. Qed.

Lemma testbit_shift1 k j : 0 <= k -> Z.testbit (Z.shiftl 1 k) j = (j =? k).
Proof. intros. rewrite Z.shiftl_1_l, Z.pow2_bits_eqb by lia. apply Z.eqb_sym. Qed.

Lemma bitmap_set_flips s p :
  bitmap_len s -> 0 <= p < PMM_MAX_PAGES ->
  returns (bitmap_set s p) (fun s' => flips p true s s' /\ used_pages s' = used_pages s).
Proof.
  intros Hl Hp. destruct (bitmap_byte s p Hl Hp) as (b & Hb & _).
  unfold bitmap_set. rewrite Hb, bind_Done. apply store_byte_flips; [exact Hl|exact Hp|].
  intros j Hj c Hc. apply arr_get_Done in Hb as [_ Hb]. rewrite Hb in Hc. injection Hc as <-.
  rewrite Z.lor_spec, testbit_u8, testbit_shift1 by (apply page_index in Hp; lia).
  destruct (j =? p mod 8); [apply orb_true_r|apply orb_false_r].
Qed.

Lemma bitmap_clear_flips s p :
  bitmap_len s -> 0 <= p < PMM_MAX_PAGES ->
  returns (bitmap_clear s p) (fun s' => flips p false s s' /\ used_pages s' = used_pages s).
Proof.
  intros Hl Hp. destruct (bitmap_byte s p Hl Hp) as (b & Hb & _).
  unfold bitmap_clear. rewrite Hb, bind_Done. apply store_byte_flips; [exact Hl|exact Hp|].
  intros j Hj c Hc. apply arr_get_Done in Hb as [_ Hb]. rewrite Hb in Hc. injection Hc as <-.
  rewrite Z.land_spec, testbit_u8, Z.lnot_spec, testbit_shift1 by (apply page_index in Hp; lia).
  destruct (j =? p mod 8); [apply andb_false_r|apply andb_true_r].
Qed.

(** ** One page taken or given back under the invariant *)
Lemma flips_used p v s s' :
  0 <= p < total_pages s -> flips p v s s' -> bit (page_bitmap s) p = negb v ->
  cnt (bit (page_bitmap s')) (Z.to_nat (total_pages s)) =
  cnt (bit (page_bitmap s)) (Z.to_nat (total_pages s)) + (if v then 1 else -1).
Proof.
  intros Hp (_ & _ & _ & Hbit) Hv. destruct v.
  - apply cnt_add with (p := p); [lia|exact Hv| |].
    + rewrite Hbit, Z.eqb_refl by lia. reflexivity.
    + intros q Hq Hne. rewrite Hbit by lia. destruct (Z.eqb_spec q p); [done|reflexivity].
  - enough (cnt (bit (page_bitmap s)) (Z.to_nat (total_pages s)) =
            cnt (bit (page_bitmap s')) (Z.to_nat (total_pages s)) + 1) by lia.
    apply cnt_add with (p := p); [lia| |exact Hv|].
    + rewrite Hbit, Z.eqb_refl by lia. reflexivity.
    + intros q Hq Hne. rewrite Hbit by lia. destruct (Z.eqb_spec q p); [done|reflexivity].
Qed.

Lemma inv_flips p v s s' n :
  pmm_inv s -> 0 <= p < total_pages s -> flips p v s s' -> bit (page_bitmap s) p = negb v ->
  n = used_pages s + (if v then 1 else -1) -> pmm_inv (set_used n s').
Proof.
  intros [Hl Ht Hu Htail] Hp Hf Hv ->. pose proof (flips_used _ _ _ _ Hp Hf Hv) as Hc.
  destruct Hf as (Hl' & Ht' & Hh' & Hbit).
  split; simpl; rewrite ?Ht'.
  - exact Hl'.
  - exact Ht.
  - rewrite Hc, Hu. reflexivity.
  - intros q Hq. rewrite Hbit by lia. destruct (Z.eqb_spec q p); [lia|]. apply Htail, Hq.
Qed.

Lemma used_lt s p :
  pmm_inv s -> free s p -> 0 <= used_pages s < total_pages s.
Proof.
  intros [Hl Ht Hu _] [Hp Hb]. rewrite Hu.
  pose proof (cnt_bounds (bit (page_bitmap s)) (Z.to_nat (total_pages s))).
  assert (cnt (fun q => if q =? p then true else bit (page_bitmap s) q) (Z.to_nat (total_pages s))
          = cnt (bit (page_bitmap s)) (Z.to_nat (total_pages s)) + 1).
  { apply cnt_add with (p := p); [lia|exact Hb| |].
    - rewrite Z.eqb_refl. reflexivity.
    - intros q _ Hne. destruct (Z.eqb_spec q p); [done|reflexivity]. }
  pose proof (cnt_bounds (fun q => if q =? p then true else bit (page_bitmap s) q)
                (Z.to_nat (total_pages s))). lia.
Qed.

(** The bits of [s'] are those of [s] with page [p] set. *)
Definition takes (p : Z) (s s' : pmm) : Prop :=
  pmm_inv s' /\ flips p true s s'.

Lemma take_page_returns s p :
  pmm_inv s -> free s p -> returns (take_page s p) (takes p s).
Proof.
  intros Hinv Hfree. pose proof (used_lt _ _ Hinv Hfree) as Hused.
  pose proof Hinv as [Hl Ht _ _]. destruct Hfree as [Hp Hb].
  unfold take_page. apply returns_bind. eapply returns_mono; [apply bitmap_set_flips; [exact Hl|lia]|].
  intros s1 [Hf Hu]. apply returns_Done. unfold PMM_MAX_PAGES in Ht.
  rewrite Hu, u64_small by lia. split.
  - eapply inv_flips; [exact Hinv|exact Hp|exact Hf|exact Hb|reflexivity].
  - exact Hf.
Qed.

Lemma takes_free p s s' q :
  0 <= p -> takes p s s' -> free s' q <-> free s q /\ q <> p.
Proof.
  intros Hp [_ (_ & Ht & _ & Hbit)]. unfold free. rewrite Ht. split.
  - intros [Hq Hb]. rewrite Hbit in Hb by lia. destruct (Z.eqb_spec q p); [discriminate|auto].
  - intros [[Hq Hb] Hne]. split; [exact Hq|]. rewrite Hbit by lia.
    destruct (Z.eqb_spec q p); [done|exact Hb].
Qed.

(** ** Allocation and release *)

(** The result of the single-page search. *)
Definition page_found (s : pmm) (r : Z * pmm) : Prop :=
  exists p, fst r = p * PAGE_SIZE /\ free s p /\ (forall q, free s q -> p <= q) /\
            takes p s (snd r).

Lemma pmm_alloc_page_returns s :
  pmm_inv s ->
  returns (pmm_alloc_page s) (fun r =>
    page_found s r \/ (r = (0, s) /\ forall q, ~ free s q)).
Proof.
  intros Hinv. pose proof Hinv as [Hl Ht _ _]. unfold pmm_alloc_page.
  apply returns_bind. eapply returns_mono.
  - apply (for_ret_inv (fun i s' => s' = s /\ forall q, free s q -> i <= q) (page_found s));
      [lia| |].
    + split; [reflexivity|]. intros q [Hq _]. lia.
    + intros j s' Hj [-> Hnone]. rewrite bitmap_test_Done by (exact Hl || lia).
      rewrite bind_Done. destruct (bit (page_bitmap s) j) eqn:Hb.
      * apply returns_Done. split; [reflexivity|]. intros q Hq. pose proof (Hnone q Hq).
        destruct (decide (q = j)) as [->|]; [destruct Hq; congruence|lia].
      * assert (Hfree : free s j) by (split; [lia|exact Hb]).
        apply returns_bind. eapply returns_mono; [apply (take_page_returns s j Hinv Hfree)|].
        intros s' Htk. apply returns_Done. exists j. auto.
  - intros [s'|r] Hr; apply returns_Done; [right|left; exact Hr].
    destruct Hr as [-> Hnone]. split; [reflexivity|].
    intros q Hq. specialize (Hnone q Hq). destruct Hq. lia.
Qed.

(** [count] consecutive free pages start at [p]. *)
Definition run (s : pmm) (p count : Z) : Prop := forall i, 0 <= i < count -> free s (p + i).

Lemma run_free_returns s p count :
  pmm_inv s -> 0 <= p -> 0 <= count -> p + count <= total_pages s ->
  returns (run_free s p count) (fun b => b = true <-> run s p count).
Proof.
  intros [Hl Ht _ _] Hp Hc Hle. unfold run_free. apply returns_bind. eapply returns_mono.
  - apply (for_ret_inv (fun i (_ : unit) => forall k, 0 <= k < i -> free s (p + k))
             (fun b => b = false /\ ~ run s p count)); [lia|lia|].
    intros j [] Hj Hok. rewrite bitmap_test_Done by (exact Hl || lia). rewrite bind_Done.
    destruct (bit (page_bitmap s) (p + j)) eqn:Hb; apply returns_Done.
    + split; [reflexivity|]. intros Hrun. destruct (Hrun j Hj). congruence.
    + intros k Hk. destruct (decide (k = j)) as [->|]; [split; [lia|exact Hb]|apply Hok; lia].
  - intros [[]|b] Hr; apply returns_Done.
    + split; [intros _; exact Hr|reflexivity].
    + destruct Hr as [-> Hno]. split; [discriminate|intros Hrun; destruct (Hno Hrun)].
Qed.

Definition takes_run (p count : Z) (s s' : pmm) : Prop :=
  pmm_inv s' /\ total_pages s' = total_pages s /\
  forall q, 0 <= q ->
    bit (page_bitmap s') q = if (p <=? q) && (q <? p + count) then true else bit (page_bitmap s) q.

Lemma takes_run_free p count s s' q :
  takes_run p count s s' -> free s' q <-> free s q /\ ~ (p <= q < p + count).
Proof.
  intros (_ & Ht & Hbit). unfold free. rewrite Ht. split.
  - intros [Hq Hb]. rewrite Hbit in Hb by lia.
    destruct (Z.leb_spec p q), (Z.ltb_spec q (p + count)); cbn [andb] in Hb; auto with lia; discriminate.
  - intros [[Hq Hb] Hn]. split; [exact Hq|]. rewrite Hbit by lia.
    destruct (Z.leb_spec p q), (Z.ltb_spec q (p + count)); cbn [andb]; auto with lia; lia.
Qed.

Lemma take_run_returns s p count :
  pmm_inv s -> 0 <= p -> 0 <= count -> run s p count ->
  returns (take_run s p count) (takes_run p count s).
Proof.
  intros Hinv Hp Hc Hrun. unfold take_run.
  apply (for_to_inv (fun i s' => takes_run p i s s')); [exact Hc| | |auto].
  - split; [exact Hinv|]. split; [reflexivity|]. intros q _.
    destruct (Z.leb_spec p q), (Z.ltb_spec q (p + 0)); try reflexivity; lia.
  - intros j s' Hj Htk.
    assert (Hfree : free s' (p + j)).
    { apply (takes_run_free _ _ _ _ _ Htk). split; [apply Hrun, Hj|lia]. }
    destruct Htk as (Hinv' & Ht' & Hbit').
    eapply returns_mono; [apply (take_page_returns s' _ Hinv' Hfree)|].
    intros s'' [Hinv'' (_ & Ht'' & _ & Hbit'')]. split; [exact Hinv''|].
    split; [congruence|]. intros q Hq. rewrite Hbit'' by lia.
    destruct (Z.eqb_spec q (p + j)).
    + destruct (Z.leb_spec p q), (Z.ltb_spec q (p + (j + 1))); try reflexivity; lia.
    + rewrite Hbit' by lia.
      destruct (Z.leb_spec p q), (Z.ltb_spec q (p + (j + 1))), (Z.ltb_spec q (p + j));
        try reflexivity; lia.
Qed.

(** The result of the search for a run: the lowest one. *)
Definition run_found (s : pmm) (count : Z) (r : Z * pmm) : Prop :=
  exists p, 0 <= p /\ fst r = p * PAGE_SIZE /\ run s p count /\
    (forall q, 0 <= q -> run s q count -> p <= q) /\ takes_run p count s (snd r).

Lemma takes_takes_run p s s' : takes p s s' -> takes_run p 1 s s'.
Proof.
  intros [Hinv (_ & Ht & _ & Hbit)]. split; [exact Hinv|]. split; [exact Ht|].
  intros q Hq. rewrite Hbit by exact Hq.
  destruct (Z.eqb_spec q p), (Z.leb_spec p q), (Z.ltb_spec q (p + 1)); try reflexivity; lia.
Qed.

Lemma run_1 s p : run s p 1 <-> free s p.
Proof.
  split.
  - intros H. specialize (H 0). rewrite Z.add_0_r in H. apply H. lia.
  - intros H i Hi. replace (p + i) with p by lia. exact H.
Qed.

Lemma pmm_alloc_pages_returns s count :
  pmm_inv s -> 0 < count < 2 ^ 64 ->
  returns (pmm_alloc_pages s count) (fun r =>
    run_found s count r \/ (r = (0, s) /\ forall q, 0 <= q -> ~ run s q count)).
Proof.
  intros Hinv Hc. pose proof Hinv as [_ Ht _ _]. unfold PMM_MAX_PAGES in Ht.
  unfold pmm_alloc_pages. destruct (Z.eqb_spec count 0); [lia|].
  destruct (Z.eqb_spec count 1) as [->|Hne].
  - eapply returns_mono; [apply (pmm_alloc_page_returns s Hinv)|].
    intros r [(p & E & Hf & Hmin & Htk)|[-> Hno]]; [left|right].
    + exists p. split; [destruct Hf; lia|]. split; [exact E|]. split; [apply run_1, Hf|].
      split; [|apply takes_takes_run, Htk]. intros q _ Hq. apply Hmin, run_1, Hq.
    + split; [reflexivity|]. intros q _ Hq. apply (Hno q), run_1, Hq.
  - apply (loop_total
      (fun p => 0 <= p /\ (p = 0 \/ p + count <= total_pages s + 1) /\
                forall q, 0 <= q < p -> ~ run s q count)
      _ (fun p => (Z.to_nat (total_pages s) + 1 - Z.to_nat p)%nat)); [| |lia].
    2: { split; [lia|]. split; [left; reflexivity|]. intros q Hq. lia. }
    intros p (Hp & Hle & Hno).
    assert (Hu : u64 (p + count) = p + count) by (apply u64_small; lia).
    rewrite Hu. destruct (Z.leb_spec (p + count) (total_pages s)) as [Hfit|Hout].
    + apply returns_bind. eapply returns_mono; [apply run_free_returns; [exact Hinv|lia..]|].
      intros [] Hb.
      * assert (Hrun : run s p count) by (apply Hb; reflexivity).
        apply returns_bind. eapply returns_mono; [apply (take_run_returns s p count Hinv); [lia..|exact Hrun]|].
        intros s' Htk. apply returns_Done. left. exists p.
        split; [exact Hp|]. split; [reflexivity|]. split; [exact Hrun|]. split; [|exact Htk].
        intros q Hq Hrunq. destruct (Z.lt_ge_cases q p) as [Hlt|]; [|assumption].
        destruct (Hno q); [lia|exact Hrunq].
      * apply returns_Done. split; [|lia]. split; [lia|]. split; [right; lia|].
        intros q Hq. destruct (decide (q = p)) as [->|]; [|apply Hno; lia].
        intros Hrun. apply Hb in Hrun. discriminate.
    + apply returns_Done. right. split; [reflexivity|]. intros q Hq Hrun.
      destruct (Z.lt_ge_cases q p) as [Hlt|Hge]; [exact (Hno q (conj Hq Hlt) Hrun)|].
      destruct (Hrun (count - 1) ltac:(lia)) as [Hr _]. lia.
Qed.

(** [pmm_free_page] gives the page back when it is in range and marked. *)
Lemma pmm_free_page_returns s addr :
  pmm_inv s -> 0 <= addr ->
  returns (pmm_free_page s addr) (fun s' =>
    pmm_inv s' /\ total_pages s' = total_pages s /\
    forall q, 0 <= q -> bit (page_bitmap s') q =
      if (q =? addr / PAGE_SIZE) && (q <? total_pages s) then false else bit (page_bitmap s) q).
Proof.
  intros Hinv Ha. pose proof Hinv as [Hl Ht Hu Htail]. unfold PMM_MAX_PAGES in Ht.
  assert (Hp : 0 <= addr / PAGE_SIZE) by (apply Z.div_pos; unfold PAGE_SIZE; lia).
  unfold pmm_free_page. set (p := addr / PAGE_SIZE) in *.
  destruct (Z.leb_spec (total_pages s) p) as [Hge|Hlt].
  - apply returns_Done. split; [exact Hinv|]. split; [reflexivity|]. intros q _.
    destruct (Z.eqb_spec q p), (Z.ltb_spec q (total_pages s)); try reflexivity; lia.
  - rewrite bitmap_test_Done by (exact Hl || unfold PMM_MAX_PAGES; lia). rewrite bind_Done.
    destruct (bit (page_bitmap s) p) eqn:Hb.
    + apply returns_bind.
      eapply returns_mono; [apply bitmap_clear_flips; [exact Hl|unfold PMM_MAX_PAGES; lia]|].
      intros s1 [Hf Hu1]. apply returns_Done.
      assert (1 <= used_pages s <= total_pages s).
      { rewrite Hu. pose proof (cnt_bounds (bit (page_bitmap s)) (Z.to_nat (total_pages s))).
        pose proof (cnt_pos _ (Z.to_nat (total_pages s)) p ltac:(lia) Hb). lia. }
      rewrite Hu1, u64_small by lia.
      split; [eapply inv_flips; [exact Hinv| |exact Hf|exact Hb|]; simpl; lia|].
      destruct Hf as (_ & Ht1 & _ & Hbit). split; [exact Ht1|].
      intros q Hq. simpl. rewrite Hbit by lia.
      destruct (Z.eqb_spec q p), (Z.ltb_spec q (total_pages s)); try reflexivity; lia.
    + apply returns_Done. split; [exact Hinv|]. split; [reflexivity|]. intros q Hq.
      destruct (Z.eqb_spec q p), (Z.ltb_spec q (total_pages s)); subst; try reflexivity; exact Hb.
Qed.

(** Freeing the pages of a run one by one. *)
Lemma pmm_free_pages_returns s p count :
  pmm_inv s -> 0 <= p -> 0 <= count -> p + count <= total_pages s ->
  returns (pmm_free_pages s (p * PAGE_SIZE) count) (fun s' =>
    pmm_inv s' /\ total_pages s' = total_pages s /\
    forall q, 0 <= q -> bit (page_bitmap s') q =
      if (p <=? q) && (q <? p + count) then false else bit (page_bitmap s) q).
Proof.
  intros Hinv Hp Hc Hle. pose proof (inv_total _ Hinv) as Ht. unfold PMM_MAX_PAGES in Ht.
  unfold pmm_free_pages.
  apply (for_to_inv (fun i s' => pmm_inv s' /\ total_pages s' = total_pages s /\
    forall q, 0 <= q -> bit (page_bitmap s') q =
      if (p <=? q) && (q <? p + i) then false else bit (page_bitmap s) q)); [exact Hc| | |auto].
  - split; [exact Hinv|]. split; [reflexivity|]. intros q _.
    destruct (Z.leb_spec p q), (Z.ltb_spec q (p + 0)); try reflexivity; lia.
  - intros j s' Hj (Hinv' & Ht' & Hb').
    assert (Ha : u64 (p * PAGE_SIZE + u64 (j * PAGE_SIZE)) = (p + j) * PAGE_SIZE).
    { unfold PAGE_SIZE. rewrite (u64_small (j * 4096)), u64_small by lia. lia. }
    rewrite Ha. eapply returns_mono; [apply (pmm_free_page_returns s'); [exact Hinv'|unfold PAGE_SIZE; lia]|].
    intros s'' (Hinv'' & Ht'' & Hb''). split; [exact Hinv''|]. split; [congruence|].
    intros q Hq. rewrite Hb'', Hb', Z.div_mul by (unfold PAGE_SIZE; lia).
    rewrite Ht'. destruct (Z.eqb_spec q (p + j)), (Z.ltb_spec q (total_pages s)),
      (Z.leb_spec p q), (Z.ltb_spec q (p + j)), (Z.ltb_spec q (p + (j + 1)));
      try reflexivity; lia.
Qed.

(** ** The instance of the allocator interface

    Clients rely on page 0 not being free, which makes address 0 a failure. *)
#[export] Instance pmm_page_alloc : PageAlloc pmm := {|
  pa_alloc_page := pmm_alloc_page;
  pa_alloc_pages := pmm_alloc_pages;
  pa_ok := fun s => pmm_inv s /\ ~ free s 0;
  pa_free := free
|}.

Lemma run_found_post s count r :
  0 < count -> pa_ok s -> run_found s count r -> alloc_post s count r.
Proof.
  intros Hc [_ H0] (p & Hp & E & Hrun & _ & Htk).
  assert (p <> 0). { intros ->. apply H0. apply (Hrun 0). lia. }
  split.
  - split; [apply Htk|]. intros Hf. apply (takes_run_free _ _ _ _ _ Htk) in Hf. tauto.
  - right. exists p. split; [lia|]. split; [exact Hc|]. split; [exact E|].
    split; [exact Hrun|]. intros q. apply (takes_run_free _ _ _ _ _ Htk).
Qed.

#[export] Instance pmm_page_alloc_laws : PageAllocLaws pmm.
Proof.
  split.
  - intros s p [Hinv H0] Hf. pose proof Hf as [Hp _]. pose proof (inv_total _ Hinv).
    unfold PMM_MAX_PAGES in *. assert (p <> 0) by (intros ->; tauto). lia.
  - intros s Hok. eapply returns_mono; [apply (pmm_alloc_page_returns s), Hok|].
    intros r [(p & E & Hf & Hmin & Htk)|[-> Hno]].
    + apply run_found_post; [lia|exact Hok|]. exists p. split; [destruct Hf; lia|].
      split; [exact E|]. split; [apply run_1, Hf|].
      split; [|apply takes_takes_run, Htk]. intros q _ Hq. apply Hmin, run_1, Hq.
    + split; [exact Hok|]. left. split; [reflexivity|tauto].
  - intros s count Hok Hc. destruct (decide (count = 0)) as [->|Hne].
    + apply returns_Done. split; [exact Hok|]. left. split; [reflexivity|tauto].
    + eapply returns_mono; [apply (pmm_alloc_pages_returns s); [apply Hok|lia]|].
      intros r [Hr|[-> Hno]].
      * apply run_found_post; [lia|exact Hok|exact Hr].
      * split; [exact Hok|]. left. split; [reflexivity|tauto].
Qed.

(** ** Initialisation *)

(** What holds while the memory map is read: pages the map has not reached are
    marked, and a page is free only if [ok] allows it. *)
Record init_inv (ok : Z -> Prop) (s : pmm) : Prop := {
  ini_len : bitmap_len s;
  ini_total : 0 <= total_pages s;
  ini_tail : forall p, total_pages s <= p < PMM_MAX_PAGES -> bit (page_bitmap s) p = true;
  ini_sound : forall p, 0 <= p < PMM_MAX_PAGES -> bit (page_bitmap s) p = false -> ok p
}.

(** An entry whose end does not wrap around the address space. *)
Definition entry_ok (e : mmap_entry) : Prop :=
  0 <= e_addr e /\ 0 <= e_len e /\ e_addr e + e_len e + 4095 < 2 ^ 64.

(** Page [p] lies inside the available region of [e]. *)
Definition inside (e : mmap_entry) (p : Z) : Prop :=
  e_type e = MB2_MEMORY_AVAILABLE /\
  e_addr e <= p * PAGE_SIZE /\ (p + 1) * PAGE_SIZE <= e_addr e + e_len e.

(** Clearing the bits of [lo, hi). *)
Lemma clear_range s lo hi :
  bitmap_len s -> 0 <= lo -> hi <= PMM_MAX_PAGES ->
  returns (for_to lo hi (fun p s => bitmap_clear s p) s) (fun s' =>
    bitmap_len s' /\ total_pages s' = total_pages s /\ highest_page s' = highest_page s /\
    forall q, 0 <= q -> bit (page_bitmap s') q =
      if (lo <=? q) && (q <? hi) then false else bit (page_bitmap s) q).
Proof.
  intros Hl Hlo Hhi.
  apply (for_to_inv_max (fun i s' => bitmap_len s' /\ total_pages s' = total_pages s /\
    highest_page s' = highest_page s /\ forall q, 0 <= q -> bit (page_bitmap s') q =
      if (lo <=? q) && (q <? i) then false else bit (page_bitmap s) q)).
  - split; [exact Hl|]. split; [reflexivity|]. split; [reflexivity|]. intros q _.
    destruct (Z.leb_spec lo q), (Z.ltb_spec q lo); try reflexivity; lia.
  - intros j s' Hj (Hl' & Ht' & Hh' & Hb').
    eapply returns_mono; [apply bitmap_clear_flips; [exact Hl'|lia]|].
    intros s'' [(Hl'' & Ht'' & Hh'' & Hb'') _]. split; [exact Hl''|].
    split; [congruence|]. split; [congruence|]. intros q Hq. rewrite Hb'' by exact Hq.
    destruct (Z.eqb_spec q j).
    + destruct (Z.leb_spec lo q), (Z.ltb_spec q (j + 1)); try reflexivity; lia.
    + rewrite Hb' by exact Hq.
      destruct (Z.leb_spec lo q), (Z.ltb_spec q j), (Z.ltb_spec q (j + 1)); try reflexivity; lia.
  - intros s' (Hl' & Ht' & Hh' & Hb'). split; [exact Hl'|]. split; [exact Ht'|].
    split; [exact Hh'|]. intros q Hq. rewrite Hb' by exact Hq.
    destruct (Z.leb_spec lo q), (Z.ltb_spec q hi), (Z.ltb_spec q (Z.max lo hi)); try reflexivity; lia.
Qed.

Lemma mmap_step_inv (ok : Z -> Prop) s e :
  init_inv ok s -> entry_ok e -> (forall p, inside e p -> ok p) ->
  returns (mmap_step s e) (init_inv ok).
Proof.
  intros [Hl Ht Htail Hsound] (Ha & Hn & Hw) Hok. unfold mmap_step.
  rewrite (u64_small (e_addr e + e_len e)) by lia.
  rewrite !ALIGN_UP_page, ALIGN_DOWN_page by lia. unfold PAGE_SIZE.
  rewrite !Z.div_mul by lia.
  set (endp := (e_addr e + e_len e + 4095) / 4096).
  set (tp := if total_pages s <? endp then endp else total_pages s).
  set (s1 := mk_pmm (page_bitmap s) tp (used_pages s) _).
  assert (Htp : total_pages s <= tp /\ endp <= tp).
  { unfold tp. destruct (Z.ltb_spec (total_pages s) endp); lia. }
  assert (Hend : (e_addr e + e_len e) / 4096 <= endp) by (apply Z.div_le_mono; lia).
  assert (H0 : 0 <= (e_addr e + 4095) / 4096) by (apply Z.div_pos; lia).
  assert (Hinv1 : init_inv ok s1).
  { split; simpl; [exact Hl|lia| |exact Hsound]. intros p Hp. apply Htail. lia. }
  destruct (Z.eqb_spec (e_type e) MB2_MEMORY_AVAILABLE) as [Hty|]; [|apply returns_Done, Hinv1].
  eapply returns_mono; [apply clear_range; [exact Hl|exact H0|lia]|].
  intros s' (Hl' & Ht' & _ & Hb'). simpl in Ht', Hb'. split.
  - exact Hl'.
  - rewrite Ht'. lia.
  - intros p Hp. rewrite Ht' in Hp. rewrite Hb' by lia.
    destruct (Z.leb_spec ((e_addr e + 4095) / 4096) p),
      (Z.ltb_spec p (Z.min ((e_addr e + e_len e) / 4096) PMM_MAX_PAGES)); cbn [andb]; try lia;
      apply Htail; lia.
  - intros p Hp. rewrite Hb' by lia.
    destruct (Z.leb_spec ((e_addr e + 4095) / 4096) p),
      (Z.ltb_spec p (Z.min ((e_addr e + e_len e) / 4096) PMM_MAX_PAGES)); cbn [andb];
      try (apply Hsound; lia).
    intros _. apply Hok. split; [exact Hty|]. unfold PAGE_SIZE.
    pose proof (Z.div_mod (e_addr e + 4095) 4096). pose proof (Z.mod_pos_bound (e_addr e + 4095) 4096).
    pose proof (Z.div_mod (e_addr e + e_len e) 4096).
    pose proof (Z.mod_pos_bound (e_addr e + e_len e) 4096). lia.
Qed.

(** The recount turns the bookkeeping of the map into the invariant. *)
Lemma recount_inv ok s :
  init_inv ok s ->
  returns (recount s) (fun s' => pmm_inv s' /\ page_bitmap s' = page_bitmap s).
Proof.
  intros [Hl Ht Htail _]. unfold recount.
  set (tp := if PMM_MAX_PAGES <? total_pages s then PMM_MAX_PAGES else total_pages s).
  assert (Htp : 0 <= tp <= PMM_MAX_PAGES /\ (tp < PMM_MAX_PAGES -> tp = total_pages s)).
  { unfold tp. destruct (Z.ltb_spec PMM_MAX_PAGES (total_pages s)); unfold PMM_MAX_PAGES in *; lia. }
  clearbody tp. destruct Htp as [Htp Htp'].
  apply (for_to_inv (fun i s' => page_bitmap s' = page_bitmap s /\ total_pages s' = tp /\
    used_pages s' = cnt (bit (page_bitmap s)) (Z.to_nat i))); [lia| | |].
  - auto.
  - intros j s' Hj (Hb' & Ht' & Hu').
    rewrite bitmap_test_Done by (unfold bitmap_len; rewrite ?Hb'; exact Hl || lia).
    rewrite bind_Done, Hb'. apply returns_Done.
    replace (Z.to_nat (j + 1)) with (S (Z.to_nat j)) by lia. simpl cnt.
    rewrite Z2Nat.id by lia. destruct (bit (page_bitmap s) j); simpl; auto with lia.
  - intros s' (Hb' & Ht' & Hu'). split; [|exact Hb']. split.
    + unfold bitmap_len. rewrite Hb'. exact Hl.
    + lia.
    + rewrite Hu', Hb', Ht'. reflexivity.
    + intros p Hp. rewrite Hb'. apply Htail. lia.
Qed.

(** [reserve_region] marks the pages the region touches and keeps the invariant. *)
Lemma reserve_region_inv s addr len :
  pmm_inv s -> 0 <= addr -> 0 <= len -> addr + len + 4095 < 2 ^ 64 ->
  returns (reserve_region s addr len) (fun s' =>
    pmm_inv s' /\ total_pages s' = total_pages s /\
    forall q, free s' q <-> free s q /\
      ~ (addr / PAGE_SIZE <= q < (addr + len + 4095) / PAGE_SIZE)).
Proof.
  intros Hinv Ha Hn Hw. unfold reserve_region.
  rewrite (u64_small (addr + len)), ALIGN_UP_page by lia. unfold PAGE_SIZE.
  rewrite Z.div_mul by lia. set (endp := (addr + len + 4095) / 4096).
  assert (H0 : 0 <= addr / 4096) by (apply Z.div_pos; lia).
  apply (for_to_inv_max (fun i s' => pmm_inv s' /\ total_pages s' = total_pages s /\
    forall q, free s' q <-> free s q /\ ~ (addr / 4096 <= q < i))).
  - split; [exact Hinv|]. split; [reflexivity|]. intros q. split; [intros; split; [assumption|lia]|tauto].
  - intros j s' Hj (Hinv' & Ht' & Hf'). pose proof Hinv' as [Hl' Hr' _ Htail'].
    assert (Hrange : 0 <= j < PMM_MAX_PAGES) by lia.
    rewrite bitmap_test_Done by assumption. rewrite bind_Done.
    destruct (bit (page_bitmap s') j) eqn:Hb.
    + apply returns_Done. split; [exact Hinv'|]. split; [exact Ht'|]. intros q. rewrite Hf'.
      split; [|intros [? ?]; split; [assumption|lia]].
      intros [Hq Hnq]. split; [exact Hq|]. intros Hin.
      destruct (decide (q = j)) as [->|]; [|lia].
      assert (Hfj : free s' j) by (apply Hf'; split; [exact Hq|lia]). destruct Hfj. congruence.
    + assert (Hfree : free s' j).
      { split; [|exact Hb]. destruct (Z.lt_ge_cases j (total_pages s')) as [|Hge]; [lia|].
        rewrite Htail' in Hb by lia. discriminate. }
      eapply returns_mono; [apply (take_page_returns s' j Hinv' Hfree)|].
      intros s'' Htk. split; [apply Htk|]. split; [destruct Htk as [_ (_ & E & _)]; congruence|].
      intros q. rewrite (takes_free j s' s'' q) by (lia || exact Htk). rewrite Hf'. split.
      * intros [[Hq Hnq] Hne]. split; [exact Hq|lia].
      * intros [Hq Hnq]. split; [split; [exact Hq|lia]|lia].
  - intros s' (Hinv' & Ht' & Hf'). split; [exact Hinv'|]. split; [exact Ht'|].
    intros q. rewrite Hf'. pose proof (inv_total _ Hinv) as Hr. split.
    + intros [Hq Hnq]. split; [exact Hq|]. destruct Hq. lia.
    + intros [Hq Hnq]. split; [exact Hq|]. lia.
Qed.

Definition pmm_blank : pmm := mk_pmm (replicate (Z.to_nat (PMM_MAX_PAGES / 8)) 255) 0 0 0.

Lemma testbit_255 k : 0 <= k < 8 -> Z.testbit 255 k = true.
Proof. intros. apply (Z.ones_spec_low 8 k). lia. Qed.

Lemma bit_blank p : bit (page_bitmap pmm_blank) p = true.
Proof.
  unfold bit, pmm_blank. cbn [page_bitmap].
  destruct (replicate _ 255 !! Z.to_nat (p / 8)) eqn:E; [|reflexivity].
  apply lookup_replicate in E as [-> _]. apply testbit_255, Z.mod_pos_bound. lia.
Qed.

Lemma blank_len : bitmap_len pmm_blank.
Proof.
  unfold bitmap_len, pmm_blank. cbn [page_bitmap]. rewrite length_replicate, Z2Nat.id; [reflexivity|].
  change (PMM_MAX_PAGES / 8) with 65536. lia.
Qed.

Lemma blank_inv ok : init_inv ok pmm_blank.
Proof.
  split; [exact blank_len|simpl; lia|intros; apply bit_blank|].
  intros p _ Hp. rewrite bit_blank in Hp. discriminate.
Qed.

(** The entries of the map at offset [o] of [info]. *)
Definition map_entry (info : list Z) (o esz i : Z) : outcome mmap_entry :=
  get_entry info (o + 16 + u32 (i * esz)).

Definition map_ok (info : list Z) (o n esz : Z) : Prop :=
  mmap_count info o = Done (n, esz) /\
  forall i, 0 <= i < n -> exists e, map_entry info o esz i = Done e /\ entry_ok e.

Definition available (info : list Z) (o n esz p : Z) : Prop :=
  exists i e, 0 <= i < n /\ map_entry info o esz i = Done e /\ inside e p.

Lemma mmap_loop_inv info o n esz :
  map_ok info o n esz ->
  returns (mmap_loop pmm_blank info o) (init_inv (available info o n esz)).
Proof.
  intros [Hc He]. unfold mmap_loop. rewrite Hc, bind_Done.
  apply (for_to_inv_max (fun _ => init_inv (available info o n esz))).
  - apply blank_inv.
  - intros i s Hi Hinv. destruct (He i Hi) as (e & Ee & Hok). unfold map_entry in Ee.
    rewrite Ee, bind_Done. apply mmap_step_inv; [exact Hinv|exact Hok|].
    intros p Hp. exists i, e. auto.
  - auto.
Qed.

(** The two reservations at the end of [pmm_init]. *)
Definition reserve_boot (s : pmm) (kernel_end : Z) : outcome pmm :=
  s2 ← reserve_region s 0 0x100000;
  reserve_region s2 0x100000 (u64 (kernel_end - 0x100000)).

Lemma reserve_boot_inv s kernel_end :
  pmm_inv s -> 0x100000 <= kernel_end -> kernel_end + 4095 < 2 ^ 64 ->
  returns (reserve_boot s kernel_end) (fun s' => pmm_inv s' /\
    forall p, free s' p <-> free s p /\ (kernel_end + 4095) / PAGE_SIZE <= p).
Proof.
  intros Hinv Hk Hw. unfold reserve_boot. apply returns_bind.
  eapply returns_mono; [apply (reserve_region_inv s 0 0x100000 Hinv); lia|].
  intros s2 (Hinv2 & _ & Hf2). rewrite u64_small by lia.
  eapply returns_mono; [apply (reserve_region_inv s2 0x100000 _ Hinv2); lia|].
  intros s3 (Hinv3 & _ & Hf3). split; [exact Hinv3|]. intros p. rewrite Hf3, Hf2.
  replace (0x100000 + (kernel_end - 0x100000) + 4095) with (kernel_end + 4095) by lia.
  change (0x100000 / PAGE_SIZE) with 256. change ((0 + 0x100000 + 4095) / PAGE_SIZE) with 256.
  change (0 / PAGE_SIZE) with 0.
  assert (256 <= (kernel_end + 4095) / PAGE_SIZE).
  { unfold PAGE_SIZE. apply Z.div_le_lower_bound; lia. }
  split.
  - intros [[Hp Hn1] Hn2]. split; [exact Hp|]. destruct Hp. lia.
  - intros [Hp Hge]. split; [split; [exact Hp|lia]|lia].
Qed.

Lemma fallback_inv :
  returns (fallback pmm_blank) (fun s => pmm_inv s /\ forall p, free s p <-> 256 <= p < 32768).
Proof.
  unfold fallback. apply returns_bind.
  eapply returns_mono; [apply (clear_range pmm_blank 256 _ blank_len); unfold PMM_MAX_PAGES; lia|].
  intros s1 (Hl & _ & _ & Hb). apply returns_Done.
  replace (Z.min 32768 PMM_MAX_PAGES) with 32768 in Hb by (unfold PMM_MAX_PAGES; lia).
  split; [split; cbn [total_pages used_pages page_bitmap]|].
  - exact Hl.
  - unfold PMM_MAX_PAGES. lia.
  - symmetry. apply cnt_prefix; [lia|]. intros p Hp. rewrite Hb, bit_blank by lia.
    destruct (Z.leb_spec 256 p), (Z.ltb_spec p 32768), (Z.ltb_spec p 256); cbn [andb]; lia.
  - intros p Hp. rewrite Hb, bit_blank by lia.
    destruct (Z.leb_spec 256 p), (Z.ltb_spec p 32768); cbn [andb]; lia.
  - intros p. unfold free. cbn [total_pages page_bitmap]. split.
    + intros [Hp Hf]. rewrite Hb, bit_blank in Hf by lia.
      destruct (Z.leb_spec 256 p), (Z.ltb_spec p 32768); cbn [andb] in Hf; try discriminate; lia.
    + intros Hp. split; [lia|]. rewrite Hb by lia.
      destruct (Z.leb_spec 256 p), (Z.ltb_spec p 32768); cbn [andb]; lia.
Qed.

(** * Properties *)

(** With a memory map, the pages to be handed out are the available ones outside the
    reserved areas. *)
Lemma pmm_init_map fuel kernel_end info o n esz :
  mb2_find fuel info MB2_TAG_MMAP = Done (Some o) -> map_ok info o n esz ->
  0x100000 <= kernel_end -> kernel_end + 4095 < 2 ^ 64 ->
  exists s, pmm_init fuel kernel_end (Some info) = Done s /\ pmm_inv s /\
    forall p, free s p ->
      256 <= p /\ kernel_end <= p * PAGE_SIZE /\ available info o n esz p.
Proof.
  intros Hfind Hmap Hk Hw. unfold pmm_init. rewrite Hfind, !bind_Done.
  fold pmm_blank. destruct (mmap_loop_inv _ _ _ _ Hmap) as (s & -> & Hini). rewrite bind_Done.
  destruct (recount_inv _ _ Hini) as (s1 & -> & Hinv1 & Hbm). rewrite bind_Done.
  destruct (reserve_boot_inv s1 kernel_end Hinv1 Hk Hw) as (s2 & E & Hinv2 & Hf).
  exists s2. split; [exact E|]. split; [exact Hinv2|]. intros p Hp.
  apply Hf in Hp as [[Hp Hb] Hge]. unfold PAGE_SIZE in *.
  pose proof (Z.div_mod (kernel_end + 4095) 4096). pose proof (Z.mod_pos_bound (kernel_end + 4095) 4096).
  split; [lia|]. split; [lia|]. apply (ini_sound _ _ Hini).
  - pose proof (inv_total _ Hinv1). lia.
  - rewrite <- Hbm. exact Hb.
Qed.

(** Without a memory map [pmm_init] gives the pages of 1 to 128 MiB above the
    kernel, and no other. *)
Lemma pmm_init_fallback fuel kernel_end :
  0x100000 <= kernel_end -> kernel_end + 4095 < 2 ^ 64 ->
  exists s, pmm_init fuel kernel_end None = Done s /\ pmm_inv s /\
    forall p, free s p <-> (kernel_end + 4095) / PAGE_SIZE <= p < 32768.
Proof.
  intros Hk Hw. unfold pmm_init. rewrite !bind_Done. fold pmm_blank.
  destruct fallback_inv as (s1 & -> & Hinv1 & Hf1). rewrite bind_Done.
  destruct (reserve_boot_inv s1 kernel_end Hinv1 Hk Hw) as (s2 & E & Hinv2 & Hf).
  exists s2. split; [exact E|]. split; [exact Hinv2|]. intros p. rewrite Hf, Hf1.
  assert (256 <= (kernel_end + 4095) / PAGE_SIZE).
  { unfold PAGE_SIZE. apply Z.div_le_lower_bound; lia. }
  lia.
Qed.

(** No boot information, or none with a memory map. *)
Definition mapless (fuel : nat) (mb2 : option (list Z)) : Prop :=
  match mb2 with None => True | Some info => mb2_find fuel info MB2_TAG_MMAP = Done None end.

Lemma pmm_init_mapless fuel kernel_end mb2 : mapless fuel mb2 -> pmm_init fuel kernel_end mb2 = pmm_init fuel kernel_end None.
Proof. destruct mb2 as [info|]; [|reflexivity]. cbn [mapless]. intros E. unfold pmm_init. rewrite E. reflexivity. Qed.

(** C4: [pmm_init] makes a consistent allocator: the counter is the number of marked pages,
    and pages past the end are never free.  On a boot block with a memory map every page it
    will hand out lies wholly inside a region the map reports as available, above the first
    MiB and above the kernel; without boot information, or without a memory map in it, it
    hands out the pages of 1 to 128 MiB above the kernel, and no other. *)
Theorem pmm_init_correct fuel kernel_end :
  0x100000 <= kernel_end -> kernel_end + 4095 < 2 ^ 64 ->
  (forall info o n esz, mb2_find fuel info MB2_TAG_MMAP = Done (Some o) -> map_ok info o n esz ->
     exists s, pmm_init fuel kernel_end (Some info) = Done s /\ pmm_inv s /\
       forall p, free s p -> 256 <= p /\ kernel_end <= p * PAGE_SIZE /\ available info o n esz p) /\
  (forall mb2, mapless fuel mb2 ->
     exists s, pmm_init fuel kernel_end mb2 = Done s /\ pmm_inv s /\
       forall p, free s p <-> (kernel_end + 4095) / PAGE_SIZE <= p < 32768).
Proof.
  intros Hk Hw. split; [|intros mb2 Hn; rewrite (pmm_init_mapless _ _ _ Hn); exact (pmm_init_fallback fuel kernel_end Hk Hw)].
  intros info o n esz Hf Hm. exact (pmm_init_map fuel kernel_end info o n esz Hf Hm Hk Hw).
Qed.

(** A boot block with one available region, 1 MiB at 1 MiB. *)
Definition le32 (z : Z) : list Z := [z mod 256; z / 256 mod 256; z / 65536 mod 256; z / 16777216 mod 256].
Definition sample_info : list Z :=
  le32 56 ++ le32 0 ++
  le32 6 ++ le32 40 ++ le32 24 ++ le32 0 ++
  le32 0x100000 ++ le32 0 ++ le32 0x100000 ++ le32 0 ++ le32 1 ++ le32 0 ++
  le32 0 ++ le32 8.

Lemma sample_map : map_ok sample_info 8 1 24.
Proof.
  split; [reflexivity|]. intros i Hi. assert (i = 0) as -> by lia.
  exists (mk_entry 0x100000 0x100000 1). split; [reflexivity|]. unfold entry_ok. simpl. lia.
Qed.

(** Boot information with the end tag only. *)
Definition empty_info : list Z := [16; 0; 0; 0; 0; 0; 0; 0; 0; 0; 0; 0; 8; 0; 0; 0].

Lemma pmm_init_correct_witness :
  (exists s, pmm_init 8 0x140000 (Some sample_info) = Done s /\ pmm_inv s /\
    forall p, free s p -> 256 <= p /\ 0x140000 <= p * PAGE_SIZE /\ available sample_info 8 1 24 p) /\
  exists s, pmm_init 8 0x140000 (Some empty_info) = Done s /\ pmm_inv s /\
    forall p, free s p <-> (0x140000 + 4095) / PAGE_SIZE <= p < 32768.
Proof.
  destruct (pmm_init_correct 8 0x140000 ltac:(lia) ltac:(lia)) as [Hmap Hnone]. split.
  - apply (Hmap sample_info 8 1 24); [reflexivity|exact sample_map].
  - apply (Hnone (Some empty_info)). reflexivity.
Defined.

(** C5: [pmm_alloc_pages] is a first-fit allocator of runs: it returns the lowest
    run of [count] free pages and removes exactly those from the free pages, or
    returns 0, leaves the state as it was, and no such run exists.  The
    invariant is kept, the search terminates and reads no byte outside the
    bitmap, for any 64-bit [count]. *)
Theorem pmm_alloc_pages_first_fit s count :
  pmm_inv s -> 0 < count < 2 ^ 64 ->
  exists a s', pmm_alloc_pages s count = Done (a, s') /\ pmm_inv s' /\
    ((exists p, 0 <= p /\ a = p * PAGE_SIZE /\ run s p count /\
        (forall q, 0 <= q -> run s q count -> p <= q) /\
        (forall q, free s' q <-> free s q /\ ~ (p <= q < p + count))) \/
     (a = 0 /\ s' = s /\ forall q, 0 <= q -> ~ run s q count)).
Proof.
  intros Hinv Hc.
  destruct (pmm_alloc_pages_returns s count Hinv Hc) as ([a s'] & E & [Hr|[[= -> ->] Hno]]).
  - destruct Hr as (p & Hp & Ea & Hrun & Hmin & Htk). exists a, s'. split; [exact E|].
    split; [apply Htk|]. left. exists p. do 4 (split; [assumption|]).
    intros q. apply (takes_run_free _ _ _ _ _ Htk).
  - exists 0, s. split; [exact E|]. split; [exact Hinv|]. right. auto.
Qed.

(** A small allocator: eight pages, of which 0, 1 and 4 are taken. *)
Definition small_pmm : pmm :=
  mk_pmm (19 :: replicate (Z.to_nat (PMM_MAX_PAGES / 8) - 1) 255) 8 3 8.

Lemma small_pmm_inv : pmm_inv small_pmm.
Proof.
  split.
  - unfold bitmap_len, small_pmm. cbn [page_bitmap length].
    rewrite length_replicate, Nat2Z.inj_succ, Nat2Z.inj_sub, Z2Nat.id;
      change (PMM_MAX_PAGES / 8) with 65536; [reflexivity|lia|lia].
  - unfold PMM_MAX_PAGES. cbn [total_pages small_pmm]. lia.
  - unfold small_pmm. cbn [total_pages used_pages page_bitmap].
    rewrite (cnt_ext _ (Z.testbit 19)); [reflexivity|].
    intros p Hp. unfold bit. rewrite Z.div_small, Z.mod_small by lia. reflexivity.
  - intros p Hp. cbn [total_pages small_pmm] in Hp. unfold bit, small_pmm. cbn [page_bitmap].
    assert (1 <= p / 8) by (apply Z.div_le_lower_bound; lia).
    destruct (Z.to_nat (p / 8)) as [|k] eqn:E; [lia|]. cbn [lookup list_lookup].
    destruct (replicate _ 255 !! k) eqn:E'; [|reflexivity].
    apply lookup_replicate in E' as [-> _]. apply testbit_255, Z.mod_pos_bound. lia.
Qed.

Lemma pmm_alloc_pages_first_fit_witness :
  exists a s', pmm_alloc_pages small_pmm 3 = Done (a, s') /\ pmm_inv s' /\
    ((exists p, 0 <= p /\ a = p * PAGE_SIZE /\ run small_pmm p 3 /\
        (forall q, 0 <= q -> run small_pmm q 3 -> p <= q) /\
        (forall q, free s' q <-> free small_pmm q /\ ~ (p <= q < p + 3))) \/
     (a = 0 /\ s' = small_pmm /\ forall q, 0 <= q -> ~ run small_pmm q 3)).
Proof. apply (pmm_alloc_pages_first_fit small_pmm 3); [exact small_pmm_inv|lia]. Defined.

(** C6: Freeing what [pmm_alloc_pages] returned restores the allocator: the same
    pages are free and the same number is used, so nothing leaks. *)
Theorem pmm_alloc_free_roundtrip s count a s' :
  pmm_inv s -> 0 < count < 2 ^ 64 -> pmm_alloc_pages s count = Done (a, s') ->
  (exists q, 0 <= q /\ run s q count) ->
  exists s'', pmm_free_pages s' a count = Done s'' /\ pmm_inv s'' /\
    used_pages s'' = used_pages s /\ forall q, free s'' q <-> free s q.
Proof.
  intros Hinv Hc Ealloc (q0 & Hq0 & Hrun0).
  destruct (pmm_alloc_pages_returns s count Hinv Hc) as (r & E & Hr).
  rewrite Ealloc in E. injection E as <-.
  destruct Hr as [(p & Hp & Ea & Hrun & Hmin & (Hinv' & Ht' & Hb'))|[_ Hno]];
    [|destruct (Hno q0 Hq0 Hrun0)].
  simpl in *. subst a.
  assert (Hle : p + count <= total_pages s').
  { destruct (Hrun (count - 1) ltac:(lia)) as [H _]. lia. }
  destruct (pmm_free_pages_returns s' p count Hinv' Hp ltac:(lia) Hle) as (s'' & E & Hinv'' & Ht'' & Hb'').
  assert (Hbits : forall q, 0 <= q < total_pages s -> bit (page_bitmap s'') q = bit (page_bitmap s) q).
  { intros q Hq. rewrite Hb'', Hb' by lia.
    destruct (Z.leb_spec p q), (Z.ltb_spec q (p + count)); cbn [andb]; try reflexivity.
    destruct (Hrun (q - p) ltac:(lia)) as [_ Hf]. replace (p + (q - p)) with q in Hf by lia.
    symmetry. exact Hf. }
  exists s''. split; [exact E|]. split; [exact Hinv''|]. split.
  - rewrite (inv_used _ Hinv''), (inv_used _ Hinv), Ht'', Ht'. apply cnt_ext.
    intros q Hq. apply Hbits. pose proof (inv_total _ Hinv). lia.
  - intros q. unfold free. rewrite Ht'', Ht'. split; intros [Hq Hf]; (split; [exact Hq|]);
      [rewrite <- Hbits by exact Hq|rewrite Hbits by exact Hq]; exact Hf.
Qed.

Lemma small_pmm_run : run small_pmm 5 3.
Proof.
  intros i Hi. assert (i = 0 \/ i = 1 \/ i = 2) as [-> | [-> | ->]] by lia;
    (split; [simpl; lia|reflexivity]).
Qed.

Lemma pmm_alloc_free_roundtrip_witness :
  exists a s', pmm_alloc_pages small_pmm 3 = Done (a, s') /\
  exists s'', pmm_free_pages s' a 3 = Done s'' /\ pmm_inv s'' /\
    used_pages s'' = used_pages small_pmm /\ forall q, free s'' q <-> free small_pmm q.
Proof.
  destruct (pmm_alloc_pages_returns small_pmm 3 small_pmm_inv ltac:(lia)) as ([a s'] & E & _).
  exists a, s'. split; [exact E|].
  apply (pmm_alloc_free_roundtrip small_pmm 3 a s'); [exact small_pmm_inv|lia|exact E|].
  exists 5. split; [lia|exact small_pmm_run].
Defined.

(** Nothing protects the reserved pages: [pmm_free_page(0)] releases page 0,
    and the next [pmm_alloc_page] then marks it and returns its address 0, which
    its callers read as "out of memory", so the page is lost. *)
Theorem pmm_free_page0_hazard s :
  pmm_inv s -> 0 < total_pages s -> ~ free s 0 ->
  exists s1 s2, pmm_free_page s 0 = Done s1 /\ free s1 0 /\
    pmm_alloc_page s1 = Done (0, s2) /\ ~ free s2 0 /\ used_pages s2 = used_pages s1 + 1.
Proof.
  intros Hinv Ht H0.
  destruct (pmm_free_page_returns s 0 Hinv ltac:(lia)) as (s1 & E1 & Hinv1 & Ht1 & Hb1).
  assert (Hf1 : free s1 0).
  { split; [lia|]. rewrite Hb1 by lia. change (0 / PAGE_SIZE) with 0. cbn [Z.eqb].
    destruct (Z.ltb_spec 0 (total_pages s)); [reflexivity|lia]. }
  destruct (pmm_alloc_page_returns s1 Hinv1) as ([a s2] & E2 & [Hr|[_ Hno]]); [|destruct (Hno 0 Hf1)].
  destruct Hr as (p & Ea & Hp & Hmin & Hinv2 & Hfl).
  assert (p = 0) as ->. { specialize (Hmin 0 Hf1). destruct Hp. lia. }
  simpl in Ea, Hinv2, Hfl. subst a. exists s1, s2. split; [exact E1|]. split; [exact Hf1|].
  split; [exact E2|]. pose proof (takes_free 0 s1 s2 0 ltac:(lia) (conj Hinv2 Hfl)) as Ht0.
  split; [tauto|]. rewrite (inv_used _ Hinv2), (inv_used _ Hinv1).
  pose proof (flips_used 0 true s1 s2) as Hu. destruct Hf1 as [Hr1 Hbit1].
  rewrite (proj1 (proj2 Hfl)). apply Hu; [exact Hr1|exact Hfl|exact Hbit1].
Qed.

Lemma pmm_free_page0_hazard_witness :
  exists s1 s2, pmm_free_page small_pmm 0 = Done s1 /\ free s1 0 /\
    pmm_alloc_page s1 = Done (0, s2) /\ ~ free s2 0 /\ used_pages s2 = used_pages s1 + 1.
Proof.
  apply (pmm_free_page0_hazard small_pmm); [exact small_pmm_inv|simpl; lia|].
  intros [_ H]. discriminate H.
Defined.
