(* ===== verification/Heap.v ===== *)
(** * Kernel heap: [memory/heap.c]

    Block headers are objects at addresses ([hdrs]), linked by their [next] and
    [prev] addresses (0 is NULL) as in the code; an access to an address that
    holds no header is a [Fault].  Payload bytes, which only [kcalloc] and
    [krealloc] touch, are the byte memory of [CString.v].  The page allocator is
    the interface of [PageAlloc.v]. *)
From Stdlib Require Import ZArith Lia Bool.
From stdpp Require Import base tactics option list numbers gmap.
From S2P Require Import Prelude CInt CString PageAlloc.

(** ** State *)
Definition HEAP_MAGIC : Z := 0x4833414C4C4F43.
Definition HEAP_ALIGN : Z := 16.
Definition HEAP_MIN : Z := 32.
Definition EARLY_HEAP : Z := 512 * 1024.

Record block := mk_block { magic : Z; size : Z; free : bool; next : Z; prev : Z }.

(** [sizeof(block_t)]: two [u64], a [bool] padded to 8 bytes, two pointers. *)
Definition sizeof_block : Z := 40.

Definition set_size (z : Z) (b : block) := mk_block (magic b) z (free b) (next b) (prev b).
Definition set_free (f : bool) (b : block) := mk_block (magic b) (size b) f (next b) (prev b).
Definition set_next (z : Z) (b : block) := mk_block (magic b) (size b) (free b) z (prev b).
Definition set_prev (z : Z) (b : block) := mk_block (magic b) (size b) (free b) (next b) z.

Record heap := mk_heap {
  hdrs : gmap Z block;
  heap_head : Z;
  heap_used : Z;
  heap_total : Z;
  heap_allocs : Z
}.

Definition hdr_get (h : heap) (a : Z) : outcome block :=
  match hdrs h !! a with Some b => Done b | None => Fault end.

Definition hdr_put (h : heap) (a : Z) (b : block) : heap :=
  mk_heap (<[a := b]> (hdrs h)) (heap_head h) (heap_used h) (heap_total h) (heap_allocs h).

(** An assignment to a field of the header at [a]. *)
Definition hdr_upd (h : heap) (a : Z) (f : block -> block) : outcome heap :=
  b ← hdr_get h a; mret (hdr_put h a (f b)).

(** [if (p) p->prev = v] *)
Definition set_prev_if (h : heap) (p v : Z) : outcome heap :=
  if p =? 0 then mret h else hdr_upd h p (set_prev v).

(** ** Operations *)
Definition heap_add_region (h : heap) (addr sz : Z) : outcome heap :=
  if sz <? sizeof_block + HEAP_MIN then mret h
  else
    let h1 := hdr_put h addr
                (mk_block HEAP_MAGIC (sz - sizeof_block) true (heap_head h) 0) in
    h2 ← set_prev_if h1 (heap_head h) addr;
    mret (mk_heap (hdrs h2) addr (heap_used h2) (u64 (heap_total h2 + sz)) (heap_allocs h2)).

(** [arena] is the address of [early_arena]. *)
Definition heap_init (arena : Z) (h : heap) : outcome heap :=
  heap_add_region (mk_heap (hdrs h) 0 0 0 0) arena EARLY_HEAP.

(** [p && p->free] *)
Definition is_free (h : heap) (p : Z) : outcome bool :=
  if p =? 0 then mret false else b ← hdr_get h p; mret (free b).

Definition coalesce_next (h : heap) (b : Z) : outcome heap :=
  x ← hdr_get h b;
  f ← is_free h (next x);
  if (f : bool) then
    n ← hdr_get h (next x);
    let x' := set_next (next n) (set_size (u64 (size x + (sizeof_block + size n))) x) in
    set_prev_if (hdr_put h b x') (next x') b
  else mret h.

Definition coalesce_prev (h : heap) (b : Z) : outcome heap :=
  x ← hdr_get h b;
  f ← is_free h (prev x);
  if (f : bool) then
    p ← hdr_get h (prev x);
    let p' := set_next (next x) (set_size (u64 (size p + (sizeof_block + size x))) p) in
    set_prev_if (hdr_put h (prev x) p') (next x) (prev x)
  else mret h.

Definition coalesce (h : heap) (b : Z) : outcome heap :=
  h1 ← coalesce_next h b; coalesce_prev h1 b.

(** The rounding of the request. *)
Definition round_size (sz : Z) : Z :=
  let sz := ALIGN_UP sz HEAP_ALIGN in if sz <? HEAP_MIN then HEAP_MIN else sz.

(** The walk over the list: the first free block that is large enough. *)
Definition find_fit (fuel : nat) (h : heap) (sz : Z) : outcome (option Z) :=
  loop fuel (fun b =>
    if b =? 0 then mret (inr None)
    else
      x ← hdr_get h b;
      if negb (magic x =? HEAP_MAGIC) then Panicked
      else mret (if free x && (sz <=? size x) then inr (Some b) else inl (next x)))
    (heap_head h).

(** The split of the block and the accounting of the allocation. *)
Definition split (h : heap) (b sz : Z) : outcome heap :=
  x ← hdr_get h b;
  if u64 (sz + sizeof_block + HEAP_MIN) <=? size x then
    let n := b + sizeof_block + sz in
    let h1 := hdr_put h n
                (mk_block HEAP_MAGIC (u64 (size x - sz - sizeof_block)) true (next x) b) in
    h2 ← set_prev_if h1 (next x) n;
    hdr_upd h2 b (fun x => set_size sz (set_next n x))
  else mret h.

Definition carve (h : heap) (b sz : Z) : outcome (Z * heap) :=
  h1 ← split h b sz;
  h2 ← hdr_upd h1 b (set_free false);
  x ← hdr_get h2 b;
  mret (b + sizeof_block,
        mk_heap (hdrs h2) (heap_head h2) (u64 (heap_used h2 + size x))
                (heap_total h2) (u64 (heap_allocs h2 + 1))).

Section WithAllocator.
Context {St : Type} `{PageAlloc St}.

Definition expand_heap (h : heap) (ps : St) (need : Z) : outcome (bool * heap * St) :=
  let pages := ALIGN_UP (u64 (need + sizeof_block + PAGE_SIZE)) PAGE_SIZE / PAGE_SIZE in
  '(phys, ps') ← pa_alloc_pages ps pages;
  if phys =? 0 then mret (false, h, ps')
  else h' ← heap_add_region h phys (u64 (pages * PAGE_SIZE)); mret (true, h', ps').

Definition kmalloc (fuel : nat) (h : heap) (ps : St) (sz : Z) : outcome (Z * heap * St) :=
  if sz =? 0 then mret (0, h, ps)
  else
    let sz := round_size sz in
    r ← for_ret 0 2 (fun _ '(h, ps) =>
          f ← find_fit fuel h sz;
          match f with
          | Some b => '(p, h') ← carve h b sz; mret (inr (p, h', ps))
          | None =>
              '(ok, h', ps') ← expand_heap h ps sz;
              mret (if (ok : bool) then inl (h', ps') else inr (0, h', ps'))
          end) (h, ps);
    mret (match r with inl (h', ps') => (0, h', ps') | inr x => x end).

Definition kfree (h : heap) (ptr : Z) : outcome heap :=
  if ptr =? 0 then mret h
  else
    let b := ptr - sizeof_block in
    x ← hdr_get h b;
    if negb (magic x =? HEAP_MAGIC) || free x then mret h
    else
      h1 ← hdr_upd h b (set_free true);
      coalesce (mk_heap (hdrs h1) (heap_head h1) (u64 (heap_used h1 - size x))
                        (heap_total h1) (heap_allocs h1)) b.

Definition kcalloc (fuel : nat) (m : mem) (h : heap) (ps : St) (n sz : Z)
    : outcome (Z * mem * heap * St) :=
  let total := u64 (n * sz) in
  '(p, h', ps') ← kmalloc fuel h ps total;
  m' ← (if p =? 0 then mret m else memset m p 0 total);
  mret (p, m', h', ps').

Definition krealloc (fuel : nat) (m : mem) (h : heap) (ps : St) (ptr sz : Z)
    : outcome (Z * mem * heap * St) :=
  if ptr =? 0 then '(p, h', ps') ← kmalloc fuel h ps sz; mret (p, m, h', ps')
  else if sz =? 0 then h' ← kfree h ptr; mret (0, m, h', ps)
  else
    let b := ptr - sizeof_block in
    x ← hdr_get h b;
    if sz <=? size x then mret (ptr, m, h, ps)
    else
      '(n, h1, ps1) ← kmalloc fuel h ps sz;
      if n =? 0 then mret (0, m, h1, ps1)
      else
        x1 ← hdr_get h1 b;
        m1 ← memcpy m n ptr (size x1);
        h2 ← kfree h1 ptr;
        mret (n, m1, h2, ps1).
End WithAllocator.

Record heap_stats := mk_hstats {
  hs_total : Z; hs_used : Z; hs_free : Z; hs_allocations : Z
}.

Definition heap_get_stats (h : heap) : heap_stats :=
  mk_hstats (heap_total h) (heap_used h)
    (if heap_used h <? heap_total h then heap_total h - heap_used h else 0)
    (heap_allocs h).

(** ** The block list

    A block of the abstract list: its address, payload size and free flag. *)
Record blk := mk_blk { b_addr : Z; b_size : Z; b_free : bool }.

Definition b_end (x : blk) : Z := b_addr x + sizeof_block + b_size x.

Definition addrs (l : list blk) : list Z := map b_addr l.

Definition hd_addr (l : list blk) (nx : Z) : Z :=
  match l with [] => nx | x :: _ => b_addr x end.
Definition last_addr (pv : Z) (l : list blk) : Z :=
  match last l with Some x => b_addr x | None => pv end.

(** [l] is laid out in the headers between the addresses [pv] and [nx]. *)
Fixpoint chain (m : gmap Z block) (pv : Z) (l : list blk) (nx : Z) : Prop :=
  match l with
  | [] => True
  | x :: l' =>
      m !! b_addr x = Some (mk_block HEAP_MAGIC (b_size x) (b_free x) (hd_addr l' nx) pv) /\
      chain m (b_addr x) l' nx
  end.

Lemma last_addr_cons pv x l : last_addr pv (x :: l) = last_addr (b_addr x) l.
Proof. unfold last_addr. rewrite last_cons. destruct (last l); reflexivity. Qed.

Lemma last_addr_snoc pv l x : last_addr pv (l ++ [x]) = b_addr x.
Proof. unfold last_addr. rewrite last_snoc. reflexivity. Qed.

Lemma hd_addr_app l1 l2 nx : hd_addr (l1 ++ l2) nx = hd_addr l1 (hd_addr l2 nx).
Proof. destruct l1; reflexivity. Qed.

Lemma chain_app m pv l1 l2 nx :
  chain m pv (l1 ++ l2) nx <->
  chain m pv l1 (hd_addr l2 nx) /\ chain m (last_addr pv l1) l2 nx.
Proof.
  revert pv. induction l1 as [|x l1 IH]; intros pv; cbn [app chain].
  - tauto.
  - rewrite IH, last_addr_cons, hd_addr_app. tauto.
Qed.

Lemma chain_frame m pv l nx a b :
  chain m pv l nx -> a ∉ addrs l -> chain (<[a := b]> m) pv l nx.
Proof.
  revert pv. induction l as [|x l IH]; intros pv; cbn [chain addrs map]; [tauto|].
  intros [Hx Hl] Ha. apply not_elem_of_cons in Ha as [Hne Ha].
  rewrite lookup_insert_ne by exact Hne. split; [exact Hx|]. apply IH; assumption.
Qed.

(** The block at the head of a chain gets another predecessor. *)
Lemma chain_reprev m pv pv' x l nx :
  chain m pv (x :: l) nx -> b_addr x ∉ addrs l ->
  chain (<[b_addr x := mk_block HEAP_MAGIC (b_size x) (b_free x) (hd_addr l nx) pv']> m) pv' (x :: l) nx.
Proof.
  cbn [chain]. intros [_ Hl] Hx. rewrite lookup_insert_eq. split; [reflexivity|].
  apply chain_frame; assumption.
Qed.

Lemma chain_lookup m pv l1 x l2 nx :
  chain m pv (l1 ++ x :: l2) nx ->
  m !! b_addr x =
    Some (mk_block HEAP_MAGIC (b_size x) (b_free x) (hd_addr l2 nx) (last_addr pv l1)).
Proof. intros H. apply chain_app in H as [_ [Hx _]]. exact Hx. Qed.

(** [set_prev_if] on the head of the rest of the list. *)
Lemma set_prev_if_chain h pv l v :
  chain (hdrs h) pv l 0 -> NoDup (addrs l) -> 0 ∉ addrs l ->
  exists m', set_prev_if h (hd_addr l 0) v =
      Done (mk_heap m' (heap_head h) (heap_used h) (heap_total h) (heap_allocs h)) /\
    chain m' v l 0 /\
    (forall a, a ∉ addrs l -> m' !! a = hdrs h !! a) /\
    (forall pv' l' nx', chain (hdrs h) pv' l' nx' -> (forall a, a ∈ addrs l' -> a ∉ addrs l) ->
       chain m' pv' l' nx').
Proof.
  intros Hc Hnd H0. unfold set_prev_if. destruct l as [|x l].
  - exists (hdrs h). split; [destruct h; reflexivity|]. split; [exact I|]. auto.
  - cbn [hd_addr]. cbn [addrs map] in Hnd, H0.
    apply NoDup_cons in Hnd as [Hx Hnd]. apply not_elem_of_cons in H0 as [Hx0 H0].
    destruct (Z.eqb_spec (b_addr x) 0); [lia|].
    unfold hdr_upd, hdr_get. destruct Hc as [Ex Hl] eqn:?. rewrite Ex, bind_Done.
    eexists. split; [reflexivity|]. split; [apply (chain_reprev _ pv v); [exact Hc|exact Hx]|].
    split.
    + intros a Ha. cbn [addrs map] in Ha. apply not_elem_of_cons in Ha as [Hne _].
      rewrite lookup_insert_ne by congruence. reflexivity.
    + intros pv' l' nx' Hc' Hdis. apply chain_frame; [exact Hc'|]. intros Hin.
      apply (Hdis _ Hin). cbn [addrs map]. left.
Qed.

(** ** Regions *)
Record region := mk_region { r_base : Z; r_len : Z }.
Definition r_end (r : region) : Z := r_base r + r_len r.

(** [l] tiles the addresses from [lo] to [hi]. *)
Fixpoint tiles (lo hi : Z) (l : list blk) : Prop :=
  match l with
  | [] => lo = hi
  | x :: l' => b_addr x = lo /\ HEAP_MIN <= b_size x /\ tiles (b_end x) hi l'
  end.

(** The list is the concatenation of a tiling of each region, in order. *)
Inductive segs : list region -> list blk -> Prop :=
  | segs_nil : segs [] []
  | segs_cons r rs l1 l2 :
      tiles (r_base r) (r_end r) l1 -> l1 <> [] -> segs rs l2 -> segs (r :: rs) (l1 ++ l2).

Definition apart (r r' : region) : Prop := r_end r <= r_base r' \/ r_end r' <= r_base r.

Fixpoint regions_ok (rs : list region) : Prop :=
  match rs with
  | [] => True
  | r :: rs' => 0 < r_base r /\ r_end r <= 2 ^ 32 /\ Forall (apart r) rs' /\ regions_ok rs'
  end.

Lemma tiles_app lo hi l1 l2 :
  tiles lo hi (l1 ++ l2) <-> exists mid, tiles lo mid l1 /\ tiles mid hi l2.
Proof.
  revert lo. induction l1 as [|x l1 IH]; intros lo; cbn [app tiles].
  - split; [intros H; exists lo; auto|intros (mid & -> & H); exact H].
  - rewrite IH. split.
    + intros (Ha & Hs & mid & H1 & H2). exists mid. auto.
    + intros (mid & (Ha & Hs & H1) & H2). eauto.
Qed.

Lemma tiles_le lo hi l : tiles lo hi l -> lo <= hi.
Proof.
  revert lo. induction l as [|x l IH]; intros lo; cbn [tiles]; [lia|].
  intros (Ha & Hs & H). apply IH in H. unfold b_end, sizeof_block, HEAP_MIN in *. lia.
Qed.

Lemma tiles_in lo hi l x :
  tiles lo hi l -> x ∈ l -> lo <= b_addr x /\ b_end x <= hi /\ HEAP_MIN <= b_size x.
Proof.
  revert lo. induction l as [|y l IH]; intros lo; cbn [tiles].
  - intros _ Hx. apply elem_of_nil in Hx as [].
  - intros (Ha & Hs & H) Hx. pose proof (tiles_le _ _ _ H) as Hle.
    apply elem_of_cons in Hx as [->|Hx].
    + split; [lia|]. split; [exact Hle|exact Hs].
    + destruct (IH _ H Hx) as (H1 & H2 & H3).
      unfold b_end, sizeof_block in H1. unfold HEAP_MIN in Hs. split; [lia|auto].
Qed.

(** Replacing one block by a tiling of its extent. *)
Lemma tiles_replace lo hi l1 x l2 xs :
  tiles lo hi (l1 ++ x :: l2) -> tiles (b_addr x) (b_end x) xs ->
  tiles lo hi (l1 ++ xs ++ l2).
Proof.
  intros H Hxs. apply tiles_app in H as (mid & H1 & (Ha & _ & H2)).
  apply tiles_app. exists mid. split; [exact H1|]. apply tiles_app. exists (b_end x).
  subst mid. auto.
Qed.

Lemma segs_replace rs l1 x l2 xs :
  segs rs (l1 ++ x :: l2) -> tiles (b_addr x) (b_end x) xs -> xs <> [] ->
  segs rs (l1 ++ xs ++ l2).
Proof.
  intros Hs Hxs Hne. remember (l1 ++ x :: l2) as l eqn:E. revert l1 E.
  induction Hs as [|r rs la lb Ht Hla Hlb IH]; intros l1 E.
  - destruct l1; discriminate.
  - apply app_eq_inv in E as [(k & -> & E)|(k & -> & E)].
    + destruct k as [|y k].
      * rewrite app_nil_r in *. simpl in E. subst lb.
        rewrite <- app_nil_l with (l := xs ++ l2).
        apply (segs_cons r rs l1 _ Ht Hla). apply (IH []). reflexivity.
      * injection E as <- ->.
        replace (l1 ++ xs ++ k ++ lb) with ((l1 ++ xs ++ k) ++ lb) by (rewrite <- !app_assoc; reflexivity).
        apply segs_cons; [|destruct l1, xs; discriminate || tauto|exact Hlb].
        apply (tiles_replace _ _ _ x); assumption.
    + rewrite <- app_assoc. apply segs_cons; [exact Ht|exact Hla|]. apply IH. exact E.
Qed.

Lemma segs_region rs l x :
  segs rs l -> x ∈ l ->
  exists r, r ∈ rs /\ r_base r <= b_addr x /\ b_end x <= r_end r /\ HEAP_MIN <= b_size x.
Proof.
  intros Hs. induction Hs as [|r rs l1 l2 Ht _ Hs IH]; intros Hx.
  - apply elem_of_nil in Hx as [].
  - apply elem_of_app in Hx as [Hx|Hx].
    + exists r. split; [left|]. apply (tiles_in _ _ _ _ Ht Hx).
    + destruct (IH Hx) as (r' & Hr' & H). exists r'. split; [right; exact Hr'|exact H].
Qed.

(** Two blocks of a list do not overlap. *)
Definition disj (x y : blk) : Prop := b_end x <= b_addr y \/ b_end y <= b_addr x.

Fixpoint separate (l : list blk) : Prop :=
  match l with
  | [] => True
  | x :: l' => Forall (disj x) l' /\ separate l'
  end.

Lemma separate_app l1 l2 :
  separate (l1 ++ l2) <->
  separate l1 /\ separate l2 /\ Forall (fun x => Forall (disj x) l2) l1.
Proof.
  induction l1 as [|x l1 IH]; cbn [app separate].
  - split; [intros H; auto|tauto].
  - rewrite IH, Forall_app, Forall_cons. tauto.
Qed.

Lemma tiles_separate lo hi l : tiles lo hi l -> separate l.
Proof.
  revert lo. induction l as [|x l IH]; intros lo; cbn [tiles separate]; [tauto|].
  intros (Ha & Hs & H). split; [|apply (IH _ H)].
  apply Forall_forall. intros y Hy. left. apply (tiles_in _ _ _ _ H Hy).
Qed.

Lemma segs_separate rs l : segs rs l -> regions_ok rs -> separate l.
Proof.
  intros Hs. induction Hs as [|r rs l1 l2 Ht _ Hs IH]; intros Hok; [exact I|].
  destruct Hok as (_ & _ & Hap & Hok). apply separate_app.
  split; [exact (tiles_separate _ _ _ Ht)|]. split; [exact (IH Hok)|].
  apply Forall_forall. intros x Hx. apply Forall_forall. intros y Hy.
  destruct (tiles_in _ _ _ _ Ht Hx) as (H1 & H2 & _).
  destruct (segs_region _ _ _ Hs Hy) as (r' & Hr' & H3 & H4 & _).
  rewrite Forall_forall in Hap. specialize (Hap _ Hr'). unfold apart in Hap. unfold disj. lia.
Qed.

Lemma regions_ok_in rs r : regions_ok rs -> r ∈ rs -> 0 < r_base r /\ r_end r <= 2 ^ 32.
Proof.
  induction rs as [|r' rs IH]; intros Hok Hr; [apply elem_of_nil in Hr as []|].
  destruct Hok as (H1 & H2 & _ & Hok). apply elem_of_cons in Hr as [->|Hr]; auto.
Qed.

(** What the layout says of the addresses. *)
Record laid (l : list blk) : Prop := {
  laid_nodup : NoDup (addrs l);
  laid_sep : separate l;
  laid_range : forall x, x ∈ l -> 0 < b_addr x /\ b_end x <= 2 ^ 32 /\ HEAP_MIN <= b_size x
}.

Lemma separate_nodup l :
  separate l -> (forall x, x ∈ l -> HEAP_MIN <= b_size x) -> NoDup (addrs l).
Proof.
  induction l as [|x l IH]; cbn [separate addrs map]; intros Hs Hm; [constructor|].
  destruct Hs as [Hx Hs]. constructor; [|apply IH; [exact Hs|intros y Hy; apply Hm; right; exact Hy]].
  intros Hin. apply list_elem_of_fmap in Hin as (y & E & Hy).
  rewrite Forall_forall in Hx. specialize (Hx _ Hy).
  assert (Hmx : HEAP_MIN <= b_size x) by (apply Hm; left).
  assert (Hmy : HEAP_MIN <= b_size y) by (apply Hm; right; exact Hy).
  unfold disj, b_end, sizeof_block, HEAP_MIN in *. lia.
Qed.

Lemma segs_laid rs l : segs rs l -> regions_ok rs -> laid l.
Proof.
  intros Hs Hok. pose proof (segs_separate _ _ Hs Hok) as Hsep.
  assert (Hr : forall x, x ∈ l -> 0 < b_addr x /\ b_end x <= 2 ^ 32 /\ HEAP_MIN <= b_size x).
  { intros x Hx. destruct (segs_region _ _ _ Hs Hx) as (r & Hr & H1 & H2 & H3).
    destruct (regions_ok_in _ _ Hok Hr). split; [lia|]. split; [lia|exact H3]. }
  split; [apply separate_nodup; [exact Hsep|intros x Hx; apply (Hr _ Hx)]|exact Hsep|exact Hr].
Qed.

Lemma laid_pos l : laid l -> 0 ∉ addrs l.
Proof.
  intros Hl Hin. apply list_elem_of_fmap in Hin as (x & E & Hx).
  destruct (laid_range _ Hl _ Hx). lia.
Qed.

(** ** The operations on the block list *)
Definition hlist (h : heap) (l : list blk) : Prop :=
  chain (hdrs h) 0 l 0 /\ heap_head h = hd_addr l 0.

Lemma hdr_get_Done h a b : hdrs h !! a = Some b -> hdr_get h a = Done b.
Proof. intros H. unfold hdr_get. rewrite H. reflexivity. Qed.

(** A heap whose headers are [m], everything else as in [h]. *)
Definition with_hdrs (h : heap) (m : gmap Z block) : heap :=
  mk_heap m (heap_head h) (heap_used h) (heap_total h) (heap_allocs h).

Lemma hdr_put_with h a b : hdr_put h a b = with_hdrs h (<[a := b]> (hdrs h)).
Proof. reflexivity. Qed.

(** New size and flag for one block of a chain. *)
Lemma chain_set m pv l1 x l2 nx s f :
  chain m pv (l1 ++ x :: l2) nx -> NoDup (addrs (l1 ++ x :: l2)) ->
  chain (<[b_addr x := mk_block HEAP_MAGIC s f (hd_addr l2 nx) (last_addr pv l1)]> m) pv
        (l1 ++ mk_blk (b_addr x) s f :: l2) nx.
Proof.
  intros Hc Hnd. apply chain_app in Hc as [H1 [_ H2]].
  unfold addrs in Hnd. rewrite map_app in Hnd. cbn [map] in Hnd.
  apply NoDup_app in Hnd as (_ & Hd & Hnd). apply NoDup_cons in Hnd as [Hx2 _].
  apply chain_app. split; [|split].
  - apply chain_frame; [exact H1|]. intros Hin. apply (Hd _ Hin). left.
  - cbn [b_addr b_size b_free]. apply lookup_insert_eq.
  - apply chain_frame; [exact H2|exact Hx2].
Qed.

Lemma laid_notin l1 x l2 a :
  laid (l1 ++ x :: l2) -> b_addr x <= a < b_end x -> (a ∉ addrs l1) /\ (a ∉ addrs l2).
Proof.
  intros Hl Ha. pose proof (laid_sep _ Hl) as Hs.
  apply separate_app in Hs as (_ & [Hx2 _] & H1).
  assert (Hmin : forall y, y ∈ l1 ++ x :: l2 -> b_addr y < b_end y).
  { intros y Hy. destruct (laid_range _ Hl _ Hy) as (_ & _ & H).
    unfold b_end, sizeof_block, HEAP_MIN in *. lia. }
  split; intros Hin; apply list_elem_of_fmap in Hin as (y & E & Hy).
  - rewrite Forall_forall in H1. specialize (H1 _ Hy). apply Forall_cons_1 in H1 as [Hd _].
    specialize (Hmin y ltac:(apply elem_of_app; left; exact Hy)). unfold disj in Hd. lia.
  - rewrite Forall_forall in Hx2. specialize (Hx2 _ Hy).
    specialize (Hmin y ltac:(apply elem_of_app; right; right; exact Hy)). unfold disj in Hx2. lia.
Qed.

Lemma laid_addr_pos l1 x l2 : laid (l1 ++ x :: l2) -> 0 < b_addr x.
Proof. intros Hl. apply (laid_range _ Hl). apply elem_of_app. right. left. Qed.

Lemma laid_parts l1 x l2 :
  laid (l1 ++ x :: l2) ->
  (b_addr x ∉ addrs l1) /\ (b_addr x ∉ addrs l2) /\ NoDup (addrs l2) /\ (0 ∉ addrs l2) /\
  (forall a, a ∈ addrs l1 -> a ∉ addrs l2).
Proof.
  intros Hl. pose proof (laid_nodup _ Hl) as Hnd. pose proof (laid_pos _ Hl) as H0.
  unfold addrs in Hnd, H0. rewrite map_app in Hnd, H0. cbn [map] in Hnd, H0.
  apply NoDup_app in Hnd as (_ & Hd & Hnd). apply NoDup_cons in Hnd as [Hx2 Hnd2].
  rewrite elem_of_app, elem_of_cons in H0.
  split; [intros Hin; apply (Hd _ Hin); left|]. split; [exact Hx2|]. split; [exact Hnd2|].
  split; [tauto|]. intros a Ha H. apply (Hd _ Ha). right. exact H.
Qed.

Fixpoint first_fit (sz : Z) (l : list blk) : option Z :=
  match l with
  | [] => None
  | x :: l' => if b_free x && (sz <=? b_size x) then Some (b_addr x) else first_fit sz l'
  end.

Lemma find_fit_loop h sz l : forall pv fuel,
  chain (hdrs h) pv l 0 -> 0 ∉ addrs l -> (length l < fuel)%nat ->
  loop fuel (fun b =>
    if b =? 0 then mret (inr None)
    else
      x ← hdr_get h b;
      if negb (magic x =? HEAP_MAGIC) then Panicked
      else mret (if free x && (sz <=? size x) then inr (Some b) else inl (next x)))
    (hd_addr l 0) = Done (first_fit sz l).
Proof.
  induction l as [|x l IH]; intros pv fuel Hc H0 Hf; (destruct fuel as [|f]; [cbn in Hf; lia|]).
  - reflexivity.
  - cbn [loop hd_addr chain addrs map] in *. apply not_elem_of_cons in H0 as [Hx H0].
    destruct (Z.eqb_spec (b_addr x) 0); [lia|]. destruct Hc as [Ex Hc].
    rewrite (hdr_get_Done _ _ _ Ex), bind_Done. cbn [magic free size next].
    rewrite Z.eqb_refl. cbn [negb first_fit].
    destruct (b_free x && (sz <=? b_size x)); [reflexivity|].
    cbn [mret outcome_ret]. rewrite bind_Done. apply (IH (b_addr x)); [exact Hc|exact H0|cbn in Hf; lia].
Qed.

Lemma find_fit_returns fuel h sz l :
  hlist h l -> laid l -> (length l < fuel)%nat ->
  find_fit fuel h sz = Done (first_fit sz l).
Proof.
  intros [Hc Hh] Hl Hf. unfold find_fit. rewrite Hh.
  apply (find_fit_loop h sz l 0); [exact Hc|exact (laid_pos _ Hl)|exact Hf].
Qed.

Lemma first_fit_Some sz l a :
  first_fit sz l = Some a ->
  exists l1 s l2, l = l1 ++ mk_blk a s true :: l2 /\ sz <= s /\
    Forall (fun x => b_free x = true -> b_size x < sz) l1.
Proof.
  induction l as [|x l IH]; cbn [first_fit]; [discriminate|].
  destruct (b_free x) eqn:Ef, (Z.leb_spec sz (b_size x)); cbn [andb].
  1: { intros [= <-]. exists [], (b_size x), l. destruct x; simpl in *; subst. auto. }
  all: intros Hfit; destruct (IH Hfit) as (l1 & s & l2 & -> & Hs & Hall);
    exists (x :: l1), s, l2; split; [reflexivity|]; split; [exact Hs|];
    constructor; [intros; congruence || assumption|exact Hall].
Qed.

Lemma first_fit_None sz l :
  first_fit sz l = None -> Forall (fun x => b_free x = true -> b_size x < sz) l.
Proof.
  induction l as [|x l IH]; cbn [first_fit]; [constructor|].
  destruct (b_free x) eqn:Ef, (Z.leb_spec sz (b_size x)); cbn [andb]; try discriminate;
    intros Hf; (constructor; [intros; congruence || assumption|apply IH, Hf]).
Qed.

(** The blocks an allocation of [sz] bytes leaves of a free block. *)
Definition pieces (x : blk) (sz : Z) : list blk :=
  if sz + sizeof_block + HEAP_MIN <=? b_size x then
    [mk_blk (b_addr x) sz false;
     mk_blk (b_addr x + sizeof_block + sz) (b_size x - sz - sizeof_block) true]
  else [mk_blk (b_addr x) (b_size x) false].

Definition piece_size (x : blk) (sz : Z) : Z :=
  if sz + sizeof_block + HEAP_MIN <=? b_size x then sz else b_size x.

Lemma pieces_tile x sz :
  HEAP_MIN <= sz -> HEAP_MIN <= b_size x -> tiles (b_addr x) (b_end x) (pieces x sz).
Proof.
  intros H1 H2. unfold pieces. case_cmp; unfold tiles, b_end; cbn [b_addr b_size]; lia.
Qed.

(** The list after the split, before the block is marked. *)
Definition split_list (x : blk) (sz : Z) : list blk :=
  if sz + sizeof_block + HEAP_MIN <=? b_size x then
    [mk_blk (b_addr x) sz (b_free x);
     mk_blk (b_addr x + sizeof_block + sz) (b_size x - sz - sizeof_block) true]
  else [x].

Lemma split_returns h l1 x l2 sz :
  chain (hdrs h) 0 (l1 ++ x :: l2) 0 -> laid (l1 ++ x :: l2) -> 0 < sz <= b_size x ->
  exists m, split h (b_addr x) sz = Done (with_hdrs h m) /\
    chain m 0 (l1 ++ split_list x sz ++ l2) 0.
Proof.
  intros Hc Hl Hsz. pose proof (chain_lookup _ _ _ _ _ _ Hc) as Ex.
  unfold split, split_list. rewrite (hdr_get_Done _ _ _ Ex), bind_Done. cbn [size next].
  assert (Hb : 0 < b_addr x /\ b_end x <= 2 ^ 32)
    by (destruct (laid_range _ Hl x) as (? & ? & ?); [apply elem_of_app; right; left|auto]).
  unfold b_end, sizeof_block in Hb.
  rewrite (u64_small (sz + _ + _)) by (unfold sizeof_block, HEAP_MIN; lia).
  destruct (Z.leb_spec (sz + sizeof_block + HEAP_MIN) (b_size x)) as [Hfit|_].
  2: { exists (hdrs h). split; [destruct h; reflexivity|exact Hc]. }
  rewrite (u64_small (_ - _ - _)) by (unfold sizeof_block, HEAP_MIN in *; lia).
  set (n := b_addr x + sizeof_block + sz).
  destruct (laid_parts _ _ _ Hl) as (Hx1 & Hx2 & Hnd2 & H02 & Hd12).
  destruct (laid_notin _ _ _ n Hl) as [Hn1 Hn2].
  { unfold n, b_end, sizeof_block, HEAP_MIN in *. lia. }
  assert (Hnx : n <> b_addr x) by (unfold n, sizeof_block; lia).
  apply chain_app in Hc as [Hc1 [_ Hc2]].
  set (bn := mk_block HEAP_MAGIC _ true _ _).
  destruct (set_prev_if_chain (hdr_put h n bn) (b_addr x) l2 n) as (m & E & Hm2 & Hout & Hkeep);
    [apply chain_frame; assumption|exact Hnd2|exact H02|].
  rewrite E, bind_Done. unfold hdr_upd, hdr_get. cbn [hdrs].
  rewrite Hout by exact Hx2. cbn [hdrs hdr_put]. rewrite lookup_insert_ne by exact Hnx.
  rewrite Ex, bind_Done. eexists. split; [reflexivity|]. cbn [hdrs].
  apply chain_app. split; [|cbn [app chain b_addr b_size b_free]; split; [|split]].
  - apply chain_frame; [|exact Hx1]. apply Hkeep; [|exact Hd12].
    cbn [hdrs hdr_put]. apply chain_frame; [exact Hc1|exact Hn1].
  - rewrite lookup_insert_eq. reflexivity.
  - rewrite lookup_insert_ne by congruence. rewrite Hout by exact Hn2.
    cbn [hdrs hdr_put]. rewrite lookup_insert_eq. reflexivity.
  - apply chain_frame; [exact Hm2|exact Hx2].
Qed.

Lemma split_list_tile x sz :
  HEAP_MIN <= sz -> HEAP_MIN <= b_size x -> tiles (b_addr x) (b_end x) (split_list x sz).
Proof.
  intros H1 H2. unfold split_list. case_cmp; unfold tiles, b_end; cbn [b_addr b_size]; lia.
Qed.

(** ** The representation invariant *)
Definition live (l : list blk) : list blk := filter (fun x => b_free x = false) l.
Definition live_bytes (l : list blk) : Z := foldr (fun x n => b_size x + n) 0 (live l).
Definition regions_bytes (rs : list region) : Z := foldr (fun r n => r_len r + n) 0 rs.

Record heap_rep (h : heap) (rs : list region) (l : list blk) : Prop := {
  rep_list : hlist h l;
  rep_segs : segs rs l;
  rep_regions : regions_ok rs;
  rep_used : heap_used h = u64 (live_bytes l);
  rep_total : heap_total h = u64 (regions_bytes rs)
}.

Lemma rep_laid h rs l : heap_rep h rs l -> laid l.
Proof. intros H. apply (segs_laid rs); apply H. Qed.

Lemma u64_add_l a b : u64 (u64 a + b) = u64 (a + b).
Proof. unfold u64. apply Zplus_mod_idemp_l. Qed.
Lemma u64_sub_l a b : u64 (u64 a - b) = u64 (a - b).
Proof. unfold u64. apply Zminus_mod_idemp_l. Qed.

Lemma live_app l1 l2 : live (l1 ++ l2) = live l1 ++ live l2.
Proof. apply filter_app. Qed.

Lemma live_cons_free x l : b_free x = true -> live (x :: l) = live l.
Proof. intros H. unfold live. rewrite filter_cons. case_decide; [congruence|reflexivity]. Qed.

Lemma live_cons_used x l : b_free x = false -> live (x :: l) = x :: live l.
Proof. intros H. unfold live. rewrite filter_cons. case_decide; [reflexivity|congruence]. Qed.

Lemma live_bytes_app l1 l2 : live_bytes (l1 ++ l2) = live_bytes l1 + live_bytes l2.
Proof.
  unfold live_bytes. rewrite live_app, foldr_app.
  generalize (live l1). clear l1. intros l1. induction l1 as [|x l1 IH]; simpl; lia.
Qed.

Lemma live_bytes_cons x l :
  live_bytes (x :: l) = (if b_free x then 0 else b_size x) + live_bytes l.
Proof.
  unfold live_bytes. destruct (b_free x) eqn:E.
  - rewrite live_cons_free by exact E. lia.
  - rewrite live_cons_used by exact E. reflexivity.
Qed.

Lemma live_pieces x sz : live (pieces x sz) = [mk_blk (b_addr x) (piece_size x sz) false].
Proof. unfold pieces, piece_size. case_cmp; reflexivity. Qed.

Lemma live_bytes_pieces x sz : live_bytes (pieces x sz) = piece_size x sz.
Proof. unfold live_bytes. rewrite live_pieces. simpl. lia. Qed.

Lemma live_in x l : x ∈ live l <-> b_free x = false /\ x ∈ l.
Proof. unfold live. rewrite list_elem_of_filter. reflexivity. Qed.

(** [carve] marks the block and counts the allocation. *)
Lemma carve_returns h rs l1 x l2 sz :
  heap_rep h rs (l1 ++ x :: l2) -> b_free x = true -> HEAP_MIN <= sz <= b_size x ->
  returns (carve h (b_addr x) sz) (fun '(p, h') =>
    p = b_addr x + sizeof_block /\ heap_rep h' rs (l1 ++ pieces x sz ++ l2)).
Proof.
  intros Hrep Hfree Hsz. pose proof (rep_laid _ _ _ Hrep) as Hlaid.
  destruct Hrep as [[Hc Hh] Hs Hr Hu Ht].
  assert (Hmin : HEAP_MIN <= b_size x) by (apply (laid_range _ Hlaid), elem_of_app; right; left).
  unfold HEAP_MIN in Hsz.
  destruct (split_returns h l1 x l2 sz Hc Hlaid ltac:(lia)) as (m & E & Hm).
  assert (Hsplit : segs rs (l1 ++ split_list x sz ++ l2)).
  { apply (segs_replace rs l1 x l2); [exact Hs|apply split_list_tile; unfold HEAP_MIN in *; lia|].
    unfold split_list. case_match; discriminate. }
  pose proof (segs_laid _ _ Hsplit Hr) as Hlaid'.
  set (f := mk_blk (b_addr x) (piece_size x sz) (b_free x)).
  assert (exists rest, split_list x sz = f :: rest /\ pieces x sz = mk_blk (b_addr x) (piece_size x sz) false :: rest)
    as (rest & Esp & Epi).
  { unfold f, split_list, pieces, piece_size. case_match; eexists; split; try reflexivity.
    destruct x; reflexivity. }
  rewrite Esp in Hm, Hlaid'. cbn [app] in Hm, Hlaid'.
  pose proof (chain_lookup _ _ _ _ _ _ Hm) as Ef. pose proof (laid_nodup _ Hlaid') as Hnd.
  pose proof (chain_set _ _ _ _ _ _ (piece_size x sz) false Hm Hnd) as Hm'.
  unfold f in *. cbn [b_addr b_size b_free] in *.
  unfold carve. rewrite E, bind_Done. unfold hdr_upd.
  rewrite (hdr_get_Done (with_hdrs h m) _ _ Ef), bind_Done. cbn [mret outcome_ret].
  rewrite bind_Done.
  erewrite hdr_get_Done by apply lookup_insert_eq. rewrite bind_Done.
  apply returns_Done. split; [reflexivity|].
  rewrite Epi. cbn [app].
  split; cbn [hdrs heap_head heap_used heap_total with_hdrs hdr_put size set_free].
  - split; [exact Hm'|]. rewrite Hh, !hd_addr_app. reflexivity.
  - change (mk_blk (b_addr x) (piece_size x sz) false :: rest ++ l2)
      with ((mk_blk (b_addr x) (piece_size x sz) false :: rest) ++ l2).
    rewrite <- Epi. apply (segs_replace rs l1 x l2);
      [exact Hs|apply pieces_tile; unfold HEAP_MIN in *; lia|rewrite Epi; discriminate].
  - exact Hr.
  - change (mk_blk (b_addr x) (piece_size x sz) false :: rest ++ l2)
      with ((mk_blk (b_addr x) (piece_size x sz) false :: rest) ++ l2).
    rewrite <- Epi. rewrite Hu, u64_add_l, !live_bytes_app, live_bytes_cons, live_bytes_pieces, Hfree.
    f_equal. lia.
  - exact Ht.
Qed.

(** A new region in front of the list. *)
Lemma heap_add_region_returns h rs l addr sz :
  heap_rep h rs l -> sizeof_block + HEAP_MIN <= sz -> 0 < addr -> addr + sz <= 2 ^ 32 ->
  Forall (apart (mk_region addr sz)) rs ->
  returns (heap_add_region h addr sz) (fun h' =>
    heap_rep h' (mk_region addr sz :: rs) (mk_blk addr (sz - sizeof_block) true :: l)).
Proof.
  intros Hrep Hsz Ha He Hap. pose proof (rep_laid _ _ _ Hrep) as Hlaid.
  destruct Hrep as [[Hc Hh] Hs Hr Hu Ht].
  assert (Hs' : segs (mk_region addr sz :: rs) (mk_blk addr (sz - sizeof_block) true :: l)).
  { apply (segs_cons (mk_region addr sz) rs [mk_blk addr (sz - sizeof_block) true] l);
      [|discriminate|exact Hs].
    unfold tiles, b_end, r_end; cbn [b_addr b_size r_base r_len]. unfold HEAP_MIN in *. lia. }
  assert (Hr' : regions_ok (mk_region addr sz :: rs)).
  { cbn [regions_ok]. unfold r_end; cbn [r_base r_len]. auto. }
  pose proof (segs_laid _ _ Hs' Hr') as Hlaid'.
  destruct (laid_parts [] _ l Hlaid') as (_ & Hna & Hnd & H0 & _). cbn [b_addr] in Hna.
  unfold heap_add_region. destruct (Z.ltb_spec sz (sizeof_block + HEAP_MIN)); [lia|].
  set (b := mk_block HEAP_MAGIC _ true _ 0). rewrite Hh.
  destruct (set_prev_if_chain (hdr_put h addr b) 0 l addr) as (m & E & Hm & Hout & _);
    [apply chain_frame; assumption|exact Hnd|exact H0|].
  rewrite E, bind_Done. apply returns_Done.
  split; cbn [hdrs heap_head heap_used heap_total hdr_put].
  - split; [|reflexivity]. cbn [chain b_addr b_size b_free]. split; [|exact Hm].
    rewrite Hout by exact Hna. cbn [hdrs hdr_put]. rewrite lookup_insert_eq. unfold b. rewrite Hh. reflexivity.
  - exact Hs'.
  - exact Hr'.
  - rewrite Hu, live_bytes_cons. reflexivity.
  - rewrite Ht, u64_add_l. simpl. f_equal. lia.
Qed.

(** ** Requests *)
Lemma ALIGN_UP_16 x : 0 <= x -> x + 15 < 2 ^ 64 -> ALIGN_UP x HEAP_ALIGN = (x + 15) / 16 * 16.
Proof.
  intros. unfold ALIGN_UP. rewrite u64_small by (unfold HEAP_ALIGN; lia).
  apply (land_lnot_pow2 (x + 15) 4). lia.
Qed.

Lemma round_size_spec sz :
  0 < sz -> sz <= 2 ^ 62 ->
  sz <= round_size sz <= sz + HEAP_MIN /\ HEAP_MIN <= round_size sz /\ round_size sz mod 16 = 0.
Proof.
  intros H1 H2. unfold round_size. rewrite ALIGN_UP_16 by lia. unfold HEAP_MIN.
  pose proof (Z.div_mod (sz + 15) 16). pose proof (Z.mod_pos_bound (sz + 15) 16).
  case_cmp; [|split; [lia|split; [lia|apply Z_mod_mult]]].
  split; [lia|]. split; [lia|reflexivity].
Qed.

(** ** [kmalloc] over any page allocator *)

(** No region of the heap touches a free page. *)
Definition held `{PageAlloc St} (ps : St) (rs : list region) : Prop :=
  forall r q, r ∈ rs -> pa_free ps q ->
    apart r (mk_region (q * PAGE_SIZE) PAGE_SIZE).

Section Kmalloc.
Context {St : Type} `{PageAllocLaws St}.
Implicit Types ps : St.

(** The allocator and the heap fit together. *)
Definition heap_ok (h : heap) ps (rs : list region) (l : list blk) : Prop :=
  heap_rep h rs l /\ pa_ok ps /\ held ps rs.

Lemma held_mono ps ps' rs :
  held ps rs -> (forall q, pa_free ps' q -> pa_free ps q) -> held ps' rs.
Proof. intros Hh Hsub r q Hr Hq. apply Hh; auto. Qed.

(** The pages [expand_heap] asks for. *)
Definition need_pages (need : Z) : Z :=
  ALIGN_UP (u64 (need + sizeof_block + PAGE_SIZE)) PAGE_SIZE / PAGE_SIZE.

Lemma need_pages_spec need :
  0 < need -> need <= 2 ^ 63 ->
  0 < need_pages need < 2 ^ 52 /\ need + sizeof_block + PAGE_SIZE <= need_pages need * PAGE_SIZE.
Proof.
  intros H1 H2. unfold need_pages, sizeof_block.
  rewrite (u64_small (need + 40 + PAGE_SIZE)) by (unfold PAGE_SIZE; lia).
  rewrite ALIGN_UP_page by (unfold PAGE_SIZE; lia). unfold PAGE_SIZE. rewrite Z.div_mul by lia.
  pose proof (Z.div_mod (need + 40 + 4096 + 4095) 4096).
  pose proof (Z.mod_pos_bound (need + 40 + 4096 + 4095) 4096). lia.
Qed.

(** A taken run of pages is a region apart from those of the heap. *)
Lemma taken_region ps ps' rs p n :
  held ps rs -> 0 < n -> pages_taken ps ps' p n ->
  Forall (fun r => r_base r < r_end r) rs ->
  Forall (apart (mk_region (p * PAGE_SIZE) (n * PAGE_SIZE))) rs.
Proof.
  intros Hheld Hn [Hfree _] Hpos. apply Forall_forall. intros r Hr.
  rewrite Forall_forall in Hpos. specialize (Hpos _ Hr).
  assert (Hq : forall i, 0 <= i < n -> r_end r <= (p + i) * 4096 \/ (p + i + 1) * 4096 <= r_base r).
  { intros i Hi. pose proof (Hheld r _ Hr (Hfree i Hi)) as Ha.
    unfold apart, r_end in *. cbn [r_base r_len] in Ha. unfold PAGE_SIZE in Ha. lia. }
  unfold apart, r_end at 1. cbn [r_base r_len]. unfold PAGE_SIZE.
  destruct (Hq 0 ltac:(lia)) as [Hz|Hz]; [right; lia|]. left.
  assert (Hall : forall i, 0 <= i -> i < n -> (p + i + 1) * 4096 <= r_base r).
  { apply (natlike_ind (fun i => i < n -> (p + i + 1) * 4096 <= r_base r)); [intros; lia|].
    intros i Hi IH Hin. specialize (IH ltac:(lia)).
    destruct (Hq (Z.succ i) ltac:(lia)); lia. }
  specialize (Hall (n - 1) ltac:(lia) ltac:(lia)). lia.
Qed.

Lemma segs_pos rs l : segs rs l -> Forall (fun r => r_base r < r_end r) rs.
Proof.
  induction 1 as [|r rs l1 l2 Ht Hne _ IH]; constructor; [|exact IH].
  destruct l1 as [|x l1]; [congruence|]. destruct Ht as (<- & Hs & Ht). apply tiles_le in Ht.
  unfold b_end, sizeof_block, HEAP_MIN in *. lia.
Qed.

(** What [expand_heap] leaves: a new free block in front that is large enough,
    or the same heap when the page allocator had no run. *)
Lemma expand_heap_returns h ps rs l need :
  heap_ok h ps rs l -> 0 < need -> need <= 2 ^ 63 ->
  returns (expand_heap h ps need) (fun '(ok, h', ps') =>
    if (ok : bool) then exists r x, heap_ok h' ps' (r :: rs) (x :: l) /\
                            b_free x = true /\ need <= b_size x
    else h' = h /\ pa_ok ps' /\ held ps' rs /\ pa_alloc_pages ps (need_pages need) = Done (0, ps')).
Proof.
  intros (Hrep & Hok & Hheld) H1 H2.
  destruct (need_pages_spec need H1 H2) as [Hp Hn]. unfold expand_heap. fold (need_pages need).
  destruct (pa_alloc_pages_post ps (need_pages need) Hok ltac:(lia)) as ([a ps'] & E & Hok' & Hpost).
  rewrite E, bind_Done. simpl in Hok', Hpost.
  destruct Hpost as [[-> Hfree]|(p & Hp0 & Hc & -> & Htaken)].
  - apply returns_Done. split; [reflexivity|]. split; [exact Hok'|].
    split; [|reflexivity]. apply (held_mono ps); [exact Hheld|]. intros q. apply Hfree.
  - destruct (pages_taken_range ps ps' p _ Hok Hc Htaken) as [_ Hr].
    destruct (Z.eqb_spec (p * PAGE_SIZE) 0); [unfold PAGE_SIZE in *; lia|].
    rewrite u64_small by (unfold PAGE_SIZE; lia).
    assert (Hap : Forall (apart (mk_region (p * PAGE_SIZE) (need_pages need * PAGE_SIZE))) rs).
    { apply (taken_region ps ps'); try assumption. exact (segs_pos _ _ (rep_segs _ _ _ Hrep)). }
    apply returns_bind. eapply returns_mono.
    { apply (heap_add_region_returns h rs l); [exact Hrep|..|exact Hap].
      - unfold sizeof_block, HEAP_MIN, PAGE_SIZE in *; lia.
      - unfold PAGE_SIZE; lia.
      - unfold PAGE_SIZE; lia. }
    intros h' Hrep'. apply returns_Done.
    exists (mk_region (p * PAGE_SIZE) (need_pages need * PAGE_SIZE)),
      (mk_blk (p * PAGE_SIZE) (need_pages need * PAGE_SIZE - sizeof_block) true).
    split; [|split; [reflexivity|]].
    + split; [exact Hrep'|]. split; [exact Hok'|]. intros r q Hr0 Hq.
      apply Htaken in Hq as [Hq Hout]. apply elem_of_cons in Hr0 as [->|Hr0]; [|apply Hheld; assumption].
      unfold apart, r_end; cbn [r_base r_len]. unfold PAGE_SIZE. lia.
    + cbn [b_size]. unfold PAGE_SIZE, sizeof_block in *; lia.
Qed.

(** An allocation from [l]: the block [x] is the first that fits. *)
Definition fits_at (sz : Z) (l l1 : list blk) (x : blk) (l2 : list blk) : Prop :=
  l = l1 ++ x :: l2 /\ b_free x = true /\ sz <= b_size x /\
  Forall (fun y => b_free y = true -> b_size y < sz) l1.

Lemma find_carve fuel h rs l sz :
  heap_rep h rs l -> (length l < fuel)%nat -> HEAP_MIN <= sz ->
  returns (find_fit fuel h sz) (fun f =>
    match f with
    | Some b => exists l1 x l2, fits_at sz l l1 x l2 /\ b = b_addr x /\
        returns (carve h b sz) (fun '(p, h') =>
          p = b_addr x + sizeof_block /\ heap_rep h' rs (l1 ++ pieces x sz ++ l2))
    | None => Forall (fun y => b_free y = true -> b_size y < sz) l
    end).
Proof.
  intros Hrep Hf Hsz. rewrite (find_fit_returns fuel h sz l) by
    (first [apply Hrep|exact (rep_laid _ _ _ Hrep)|exact Hf]).
  apply returns_Done. destruct (first_fit sz l) as [b|] eqn:E; [|exact (first_fit_None _ _ E)].
  apply first_fit_Some in E as (l1 & s & l2 & -> & Hs & Hall).
  exists l1, (mk_blk b s true), l2. split; [|split; [reflexivity|]].
  - split; [reflexivity|]. auto.
  - apply (carve_returns h rs l1 (mk_blk b s true) l2 sz Hrep eq_refl). cbn [b_size]. lia.
Qed.

Lemma kmalloc_returns fuel h ps rs l sz :
  heap_ok h ps rs l -> 0 < sz -> sz <= 2 ^ 62 -> (length l + 1 < fuel)%nat ->
  returns (kmalloc fuel h ps sz) (fun '(p, h', ps') =>
    (p <> 0 /\ exists rs' l0 l1 x l2,
       heap_ok h' ps' rs' (l1 ++ pieces x (round_size sz) ++ l2) /\
       fits_at (round_size sz) l0 l1 x l2 /\ p = b_addr x + sizeof_block /\
       (l0 = l /\ rs' = rs /\ ps' = ps \/
        (exists n, l0 = n :: l /\ b_free n = true) /\
        Forall (fun y => b_free y = true -> b_size y < round_size sz) l)) \/
    (p = 0 /\ h' = h /\ pa_ok ps' /\ held ps' rs /\
     Forall (fun y => b_free y = true -> b_size y < round_size sz) l /\
     pa_alloc_pages ps (need_pages (round_size sz)) = Done (0, ps'))).
Proof.
  intros (Hrep & Hok & Hheld) H1 H2 Hf.
  destruct (round_size_spec sz H1 H2) as (Hr & Hmin & _). unfold HEAP_MIN in Hr.
  unfold kmalloc. destruct (Z.eqb_spec sz 0); [lia|]. unfold for_ret. cbn [Z.to_nat Z.sub Pos.to_nat].
  change (Z.to_nat (2 - 0)) with 2%nat. cbn [for_ret_n].
  destruct (find_carve fuel h rs l (round_size sz) Hrep ltac:(lia) Hmin) as (f & -> & Hfit).
  rewrite bind_Done. destruct f as [b|].
  - destruct Hfit as (l1 & x & l2 & Hfit & -> & ([p h'] & -> & -> & Hrep')). simpl.
    apply returns_Done. left. pose proof (rep_laid _ _ _ Hrep) as Hl. pose proof Hfit as (-> & _).
    pose proof (laid_addr_pos _ _ _ Hl). split; [unfold sizeof_block; lia|].
    exists rs, (l1 ++ x :: l2), l1, x, l2. split; [split; [exact Hrep'|auto]|]. auto 6.
  - destruct (expand_heap_returns h ps rs l (round_size sz)) as ([[ok h1] ps1] & -> & Hx);
      [split; auto|lia|lia|]. rewrite bind_Done. destruct ok; simpl.
    2: { apply returns_Done. right. destruct Hx as (-> & Hx). tauto. }
    destruct Hx as (r & nw & (Hrep1 & Hok1 & Hheld1) & Hnf & Hns).
    destruct (find_carve fuel h1 (r :: rs) (nw :: l) (round_size sz) Hrep1 ltac:(simpl; lia) Hmin)
      as (f & -> & Hfit1).
    rewrite bind_Done. destruct f as [b|]; simpl.
    2: { apply Forall_cons_1 in Hfit1 as [Hn _]. specialize (Hn Hnf). lia. }
    destruct Hfit1 as (l1 & x & l2 & Hfit1 & -> & ([p h'] & -> & -> & Hrep')). simpl.
    apply returns_Done. left. pose proof (rep_laid _ _ _ Hrep1) as Hl. pose proof Hfit1 as (E & _).
    rewrite E in Hl. pose proof (laid_addr_pos _ _ _ Hl). split; [unfold sizeof_block; lia|].
    exists (r :: rs), (nw :: l), l1, x, l2. split; [split; [exact Hrep'|auto]|].
    split; [exact Hfit1|]. split; [reflexivity|]. right. split; [exists nw; auto|exact Hfit].
Qed.
End Kmalloc.

(** ** [kfree] and coalescing

    [freed l1 x l2] is the list that [kfree] leaves of [l1 ++ x :: l2]: the
    block is marked free, absorbs a free successor, and is absorbed by a free
    predecessor. *)
Definition join (p x : blk) : blk :=
  mk_blk (b_addr p) (b_size p + (sizeof_block + b_size x)) (b_free p).

Definition merge_next (x : blk) (l2 : list blk) : blk * list blk :=
  match l2 with
  | y :: l2' => if b_free y then (join x y, l2') else (x, l2)
  | [] => (x, [])
  end.

Fixpoint merge_prev (l1 : list blk) (x : blk) : list blk :=
  match l1 with
  | [] => [x]
  | p :: l1' =>
      match l1' with
      | [] => if b_free p then [join p x] else [p; x]
      | _ => p :: merge_prev l1' x
      end
  end.

Definition freed (l1 : list blk) (x : blk) (l2 : list blk) : list blk :=
  let '(x', l2') := merge_next (mk_blk (b_addr x) (b_size x) true) l2 in
  merge_prev l1 x' ++ l2'.

Lemma merge_prev_snoc l p x :
  merge_prev (l ++ [p]) x = l ++ (if b_free p then [join p x] else [p; x]).
Proof.
  induction l as [|q l IH]; [reflexivity|]. cbn [app merge_prev].
  destruct (l ++ [p]) eqn:E; [destruct l; discriminate|]. rewrite IH. reflexivity.
Qed.

(** The sizes of the free blocks, and a bound that keeps a merge from wrapping. *)
Definition sizes_fit (l : list blk) : Prop :=
  Forall (fun x => 0 <= b_size x < 2 ^ 61) l.

Lemma addrs_app l1 l2 : addrs (l1 ++ l2) = addrs l1 ++ addrs l2.
Proof. apply map_app. Qed.

Lemma coalesce_next_returns h l1 x l2 :
  chain (hdrs h) 0 (l1 ++ x :: l2) 0 -> NoDup (addrs (l1 ++ x :: l2)) ->
  0 ∉ addrs (l1 ++ x :: l2) -> sizes_fit (x :: l2) ->
  exists m, coalesce_next h (b_addr x) = Done (with_hdrs h m) /\
    chain m 0 (l1 ++ fst (merge_next x l2) :: snd (merge_next x l2)) 0.
Proof.
  intros Hc Hnd H0 Hs. pose proof (chain_lookup _ _ _ _ _ _ Hc) as Ex.
  unfold coalesce_next. rewrite (hdr_get_Done _ _ _ Ex), bind_Done. cbn [next size].
  assert (Hkeep : exists m, Done h = Done (with_hdrs h m) /\ chain m 0 (l1 ++ x :: l2) 0)
    by (exists (hdrs h); split; [destruct h; reflexivity|exact Hc]).
  destruct l2 as [|y l2]; [exact Hkeep|]. unfold is_free. cbn [hd_addr].
  rewrite addrs_app in Hnd, H0. cbn [addrs map] in Hnd, H0.
  rewrite elem_of_app, !elem_of_cons in H0.
  destruct (Z.eqb_spec (b_addr y) 0) as [E|_]; [exfalso; apply H0; auto|].
  assert (Ey := Hc). replace (l1 ++ x :: y :: l2) with ((l1 ++ [x]) ++ y :: l2) in Ey
    by (rewrite <- app_assoc; reflexivity).
  apply chain_lookup in Ey. rewrite (hdr_get_Done _ _ _ Ey), bind_Done. cbn [free].
  cbn [mret outcome_ret]. rewrite bind_Done. cbn [merge_next].
  destruct (b_free y); [|exact Hkeep]. rewrite bind_Done. cbn [next size].
  unfold set_next, set_size. cbn [next size magic free prev].
  apply NoDup_app in Hnd as (_ & Hd & Hnd). fold (addrs l2) in *.
  apply NoDup_cons in Hnd as [Hx Hnd]. apply not_elem_of_cons in Hx as [_ Hx].
  apply NoDup_cons in Hnd as [Hy Hnd].
  assert (Hx1 : b_addr x ∉ addrs l1) by (intros Hin; apply (Hd _ Hin); left).
  apply chain_app in Hc as [Hc1 (_ & _ & Hc2)].
  set (b := mk_block _ _ _ _ _).
  destruct (set_prev_if_chain (hdr_put h (b_addr x) b) (b_addr y) l2 (b_addr x))
    as (m & E & Hm & Hout & Hk); [apply chain_frame; assumption|exact Hnd|tauto|].
  exists m. rewrite E. split; [reflexivity|]. cbn [fst snd]. apply chain_app.
  cbn [hd_addr join b_addr chain b_size b_free]. split; [|split; [|exact Hm]].
  - apply Hk; [apply chain_frame; assumption|]. intros a Ha Hin. apply (Hd _ Ha). right. right. exact Hin.
  - rewrite Hout by exact Hx. cbn [hdrs hdr_put]. rewrite lookup_insert_eq. unfold b.
    apply Forall_cons_1 in Hs as [Hsx Hs]. apply Forall_cons_1 in Hs as [Hsy _].
    rewrite u64_small by (unfold sizeof_block; lia). reflexivity.
Qed.

Lemma coalesce_prev_returns h l1 x l2 :
  chain (hdrs h) 0 (l1 ++ x :: l2) 0 -> NoDup (addrs (l1 ++ x :: l2)) ->
  0 ∉ addrs (l1 ++ x :: l2) -> 0 <= b_size x < 2 ^ 63 -> sizes_fit l1 ->
  exists m, coalesce_prev h (b_addr x) = Done (with_hdrs h m) /\
    chain m 0 (merge_prev l1 x ++ l2) 0.
Proof.
  intros Hc Hnd H0 Hsx Hs. pose proof (chain_lookup _ _ _ _ _ _ Hc) as Ex.
  unfold coalesce_prev. rewrite (hdr_get_Done _ _ _ Ex), bind_Done. cbn [next prev size].
  destruct l1 as [|p l1 _] using rev_ind.
  { exists (hdrs h). split; [destruct h; reflexivity|exact Hc]. }
  rewrite last_addr_snoc, merge_prev_snoc. rewrite <- app_assoc in Hc, Hnd, H0. cbn [app] in Hc, Hnd, H0.
  rewrite addrs_app in Hnd, H0. cbn [addrs map] in Hnd, H0. fold (addrs l2) in *.
  rewrite elem_of_app, !elem_of_cons in H0. unfold is_free.
  destruct (Z.eqb_spec (b_addr p) 0) as [E|_]; [exfalso; apply H0; auto|].
  pose proof (chain_lookup _ _ _ _ _ _ Hc) as Ep. rewrite (hdr_get_Done _ _ _ Ep), bind_Done.
  cbn [free mret outcome_ret]. rewrite bind_Done. destruct (b_free p) eqn:Ef.
  2: { exists (hdrs h). rewrite <- app_assoc. split; [destruct h; reflexivity|exact Hc]. }
  rewrite bind_Done. cbn [size].
  unfold set_next, set_size. cbn [next size magic free prev].
  apply NoDup_app in Hnd as (_ & Hd & Hnd). apply NoDup_cons in Hnd as [Hp Hnd].
  apply not_elem_of_cons in Hp as [_ Hp]. apply NoDup_cons in Hnd as [_ Hnd].
  assert (Hp1 : b_addr p ∉ addrs l1) by (intros Hin; apply (Hd _ Hin); left).
  apply chain_app in Hc as [Hc1 (_ & _ & Hc2)].
  set (b := mk_block _ _ _ _ _).
  destruct (set_prev_if_chain (hdr_put h (b_addr p) b) (b_addr x) l2 (b_addr p))
    as (m & E & Hm & Hout & Hk); [apply chain_frame; assumption|exact Hnd|tauto|].
  exists m. rewrite E. split; [reflexivity|]. rewrite <- app_assoc. apply chain_app.
  cbn [app hd_addr join b_addr chain b_size b_free]. split; [|split; [|exact Hm]].
  - apply Hk; [apply chain_frame; assumption|]. intros a Ha Hin. apply (Hd _ Ha). right. right. exact Hin.
  - rewrite Hout by exact Hp. cbn [hdrs hdr_put]. rewrite lookup_insert_eq. unfold b.
    apply Forall_app in Hs as [_ Hs]. apply Forall_cons_1 in Hs as [Hsp _].
    rewrite u64_small by (unfold sizeof_block; lia). rewrite Ef. reflexivity.
Qed.

Lemma hd_addr_merge_prev l1 x l nx : hd_addr (merge_prev l1 x ++ l) nx = hd_addr (l1 ++ [x]) nx.
Proof.
  destruct l1 as [|p l1]; [reflexivity|]. cbn [merge_prev].
  destruct l1; [destruct (b_free p); reflexivity|reflexivity].
Qed.

Lemma merge_next_fst x l2 :
  b_addr (fst (merge_next x l2)) = b_addr x /\ b_free (fst (merge_next x l2)) = b_free x.
Proof. destruct l2 as [|y l2]; [auto|]. simpl. destruct (b_free y); auto. Qed.

Lemma kfree_returns h l1 x l2 :
  hlist h (l1 ++ x :: l2) -> NoDup (addrs (l1 ++ x :: l2)) -> 0 ∉ addrs (l1 ++ x :: l2) ->
  sizes_fit (l1 ++ x :: l2) -> b_free x = false -> b_addr x + sizeof_block <> 0 ->
  exists m,
    kfree h (b_addr x + sizeof_block) =
      Done (mk_heap m (heap_head h) (u64 (heap_used h - b_size x)) (heap_total h) (heap_allocs h)) /\
    hlist (with_hdrs h m) (freed l1 x l2).
Proof.
  intros [Hc Hh] Hnd H0 Hs Hx Hp. unfold kfree. destruct (Z.eqb_spec (b_addr x + sizeof_block) 0); [lia|].
  replace (b_addr x + sizeof_block - sizeof_block) with (b_addr x) by lia.
  pose proof (chain_lookup _ _ _ _ _ _ Hc) as Ex.
  rewrite (hdr_get_Done _ _ _ Ex), bind_Done. cbn [magic free]. rewrite Z.eqb_refl, Hx. cbn [negb orb].
  unfold hdr_upd. rewrite (hdr_get_Done _ _ _ Ex), bind_Done. cbn [mret outcome_ret]. rewrite bind_Done.
  unfold set_free. cbn [magic free size next prev hdrs hdr_put heap_head heap_used heap_total heap_allocs].
  pose proof (chain_set _ _ _ _ _ _ (b_size x) true Hc Hnd) as Hc'.
  set (x' := mk_blk (b_addr x) (b_size x) true) in *.
  set (h1 := mk_heap _ _ _ _ _). unfold coalesce, freed. fold x'.
  rewrite addrs_app in Hnd, H0. apply Forall_app in Hs as [Hs1 Hs2].
  assert (Hs2' : sizes_fit (x' :: l2)) by (inversion Hs2; constructor; assumption).
  destruct (coalesce_next_returns h1 l1 x' l2) as (m1 & E1 & Hm1);
    [exact Hc'|rewrite addrs_app; exact Hnd|rewrite addrs_app; exact H0|exact Hs2'|].
  change (b_addr x) with (b_addr x'). rewrite E1, bind_Done.
  destruct (merge_next x' l2) as [x2 l3] eqn:E2. cbn [fst snd] in Hm1.
  assert (H2 : b_addr x2 = b_addr x' /\ 0 <= b_size x2 < 2 ^ 63 /\ addrs (x2 :: l3) `sublist_of` addrs (x' :: l2)).
  { apply Forall_cons_1 in Hs2' as [Hsx Hs2']. destruct l2 as [|y l2]; [|cbn [merge_next] in E2; destruct (b_free y)];
      injection E2 as <- <-; (split; [reflexivity|]); (split; [cbn [join b_size] in *|]);
      try (cbn [addrs map b_addr join]; repeat constructor; reflexivity); try lia.
    apply Forall_cons_1 in Hs2' as [Hsy _]. unfold x' in *. cbn [b_size] in *. unfold sizeof_block. lia. }
  destruct H2 as (Ea & Hsz & Hsub).
  assert (Hsub' : addrs (l1 ++ x2 :: l3) `sublist_of` addrs (l1 ++ x :: l2))
    by (rewrite !addrs_app; apply sublist_app; [reflexivity|exact Hsub]).
  rewrite <- addrs_app in Hnd, H0.
  destruct (coalesce_prev_returns (with_hdrs h1 m1) l1 x2 l3) as (m2 & E3 & Hm2);
    [exact Hm1|exact (sublist_NoDup _ _ Hnd Hsub')| |exact Hsz|exact Hs1|].
  { intros Hin. apply H0. exact (elem_of_submseteq _ _ _ Hin (sublist_submseteq _ _ Hsub')). }
  rewrite Ea in E3. rewrite E3. exists m2. split; [reflexivity|]. split; [exact Hm2|].
  cbn [heap_head with_hdrs]. rewrite Hh, hd_addr_merge_prev, !hd_addr_app. cbn [hd_addr]. rewrite Ea. reflexivity.
Qed.

(** *** The freed list *)
Lemma live_merge_prev l1 x : b_free x = true -> live (merge_prev l1 x) = live l1.
Proof.
  intros Hx. destruct l1 as [|p l1 _] using rev_ind; [exact (live_cons_free x [] Hx)|].
  rewrite merge_prev_snoc, !live_app. f_equal. destruct (b_free p) eqn:E.
  - rewrite !live_cons_free by (first [exact E|reflexivity]). reflexivity.
  - rewrite !(live_cons_used p) by exact E. rewrite (live_cons_free x) by exact Hx. reflexivity.
Qed.

Lemma live_freed l1 x l2 : live (freed l1 x l2) = live l1 ++ live l2.
Proof.
  unfold freed. pose proof (merge_next_fst (mk_blk (b_addr x) (b_size x) true) l2) as [_ Hf].
  destruct (merge_next _ l2) as [x' l2'] eqn:E. cbn [fst] in Hf.
  rewrite live_app, live_merge_prev by exact Hf. f_equal.
  destruct l2 as [|y l2]; cbn [merge_next] in E; [injection E as <- <-; reflexivity|].
  destruct (b_free y) eqn:Ey; injection E as <- <-; [rewrite (live_cons_free y) by exact Ey|]; reflexivity.
Qed.

Lemma tiles_freed lo hi l1 x l2 :
  tiles lo hi (l1 ++ x :: l2) -> tiles lo hi (freed l1 x l2).
Proof.
  intros Ht. unfold freed. destruct (merge_next _ l2) as [x' l2'] eqn:E.
  assert (Ht' : tiles lo hi (l1 ++ x' :: l2')).
  { apply tiles_app in Ht as (mid & H1 & Ht). apply tiles_app. exists mid. split; [exact H1|].
    destruct l2 as [|y l2]; [|cbn [merge_next] in E; destruct (b_free y)]; injection E as <- <-; try exact Ht.
    cbn [tiles] in *. unfold b_end in *. cbn [join b_addr b_size]. destruct Ht as (Ha & Hs & Hy & Hsy & Ht).
    unfold sizeof_block, HEAP_MIN in *. split; [exact Ha|]. split; [lia|].
    replace (b_addr x + 40 + (b_size x + (40 + b_size y))) with (b_addr y + 40 + b_size y) by lia. exact Ht. }
  clear E Ht. destruct l1 as [|p l1 _] using rev_ind; [exact Ht'|].
  rewrite merge_prev_snoc. destruct (b_free p); rewrite <- !app_assoc in *; [|exact Ht'].
  apply tiles_app in Ht' as (mid & H1 & Ht). apply tiles_app. exists mid. split; [exact H1|].
  cbn [app tiles] in *. unfold b_end in *. cbn [join b_addr b_size]. destruct Ht as (Ha & Hs & Hy & Hsy & Ht).
  unfold sizeof_block, HEAP_MIN in *. split; [exact Ha|]. split; [lia|].
  replace (b_addr p + 40 + (b_size p + (40 + b_size x'))) with (b_addr x' + 40 + b_size x') by lia. exact Ht.
Qed.

(** No two neighbours of the list are free. *)
Fixpoint no_adj (l : list blk) : Prop :=
  match l with
  | x :: l' => match l' with y :: _ => ~ (b_free x = true /\ b_free y = true) | [] => True end /\ no_adj l'
  | [] => True
  end.

Lemma no_adj_snoc_cons l1 p x l2 :
  no_adj (l1 ++ p :: x :: l2) <->
  no_adj (l1 ++ [p]) /\ ~ (b_free p = true /\ b_free x = true) /\ no_adj (x :: l2).
Proof.
  induction l1 as [|q l1 IH]; [cbn [app no_adj]; tauto|]. cbn [app no_adj]. cbn [app no_adj] in IH.
  rewrite IH. destruct l1; cbn [app]; tauto.
Qed.

(** A block is replaced by one with the same flag. *)
Lemma no_adj_swap l1 x y l2 :
  b_free x = b_free y -> no_adj (l1 ++ x :: l2) -> no_adj (l1 ++ y :: l2).
Proof.
  intros E. induction l1 as [|q l1 IH]; cbn [app no_adj]; [rewrite E; tauto|].
  intros [H1 H2]. split; [|exact (IH H2)]. destruct l1; cbn [app] in *; [rewrite <- E; exact H1|exact H1].
Qed.

Lemma no_adj_merge_next l1 x l2 :
  b_free x = false -> no_adj (l1 ++ x :: l2) ->
  no_adj (l1 ++ [x]) /\
  no_adj (fst (merge_next (mk_blk (b_addr x) (b_size x) true) l2) ::
          snd (merge_next (mk_blk (b_addr x) (b_size x) true) l2)).
Proof.
  intros Hx Hn. destruct l2 as [|y l2].
  - split; [exact Hn|]. simpl. auto.
  - apply no_adj_snoc_cons in Hn as (H1 & _ & H2). split; [exact H1|]. cbn [merge_next].
    destruct (b_free y) eqn:Ey; cbn [fst snd].
    + apply (no_adj_swap [] y); [exact Ey|exact H2].
    + split; [rewrite Ey; intros [_ [=]]|exact H2].
Qed.

Lemma no_adj_freed l1 x l2 :
  b_free x = false -> no_adj (l1 ++ x :: l2) -> no_adj (freed l1 x l2).
Proof.
  intros Hx Hn. destruct (no_adj_merge_next l1 x l2 Hx Hn) as [H1 H2]. unfold freed.
  pose proof (merge_next_fst (mk_blk (b_addr x) (b_size x) true) l2) as [_ Hf].
  destruct (merge_next _ l2) as [x' l2']. cbn [fst snd b_free] in *.
  destruct l1 as [|p l1 _] using rev_ind; [exact H2|]. rewrite merge_prev_snoc.
  rewrite <- app_assoc in H1. cbn [app] in H1. apply no_adj_snoc_cons in H1 as (H1 & _ & _).
  destruct (b_free p) eqn:Ep; rewrite <- app_assoc; cbn [app].
  - assert (H3 : no_adj (l1 ++ [x'])) by (apply (no_adj_swap l1 p); [congruence|exact H1]).
    destruct l2' as [|z l2'].
    + apply (no_adj_swap l1 x'); [cbn [join b_free]; congruence|exact H3].
    + apply no_adj_snoc_cons. destruct H2 as [H2 H4]. split; [|split; [|exact H4]].
      * apply (no_adj_swap l1 p); [reflexivity|exact H1].
      * cbn [join b_free]. rewrite Ep. rewrite Hf in H2. exact H2.
  - apply no_adj_snoc_cons. split; [exact H1|]. split; [rewrite Ep; intros [[=] _]|exact H2].
Qed.

Lemma no_adj_cons_used x l : b_free x = false -> no_adj (x :: l) <-> no_adj l.
Proof. intros Hx. cbn [no_adj]. rewrite Hx. destruct l; intuition discriminate. Qed.

Lemma no_adj_pieces l1 x l2 sz :
  b_free x = true -> no_adj (l1 ++ x :: l2) -> no_adj (l1 ++ pieces x sz ++ l2).
Proof.
  intros Hx Hn.
  assert (Hp : no_adj (pieces x sz ++ l2)).
  { assert (H2 : no_adj (x :: l2)).
    { clear -Hn. induction l1 as [|p l1 IH]; [exact Hn|]. apply IH, Hn. }
    assert (H2' : no_adj l2) by apply H2.
    unfold pieces. case_cmp; cbn [app]; rewrite no_adj_cons_used by reflexivity; [|exact H2'].
    apply (no_adj_swap [] x); [exact Hx|exact H2]. }
  destruct l1 as [|p l1 _] using rev_ind; [exact Hp|].
  rewrite <- app_assoc in *. cbn [app] in *. apply no_adj_snoc_cons in Hn as (H1 & _ & _).
  destruct (pieces x sz ++ l2) as [|y l] eqn:E; [exact H1|]. apply no_adj_snoc_cons.
  split; [exact H1|]. split; [|exact Hp]. unfold pieces in E.
  assert (Hy : b_free y = false) by (destruct (_ <=? _); injection E as <- _; reflexivity).
  rewrite Hy. intros [_ [=]].
Qed.

(** The headers of a list of blocks. *)
Fixpoint hdrs_of (pv : Z) (l : list blk) : gmap Z block :=
  match l with
  | [] => ∅
  | x :: l' =>
      <[b_addr x := mk_block HEAP_MAGIC (b_size x) (b_free x) (hd_addr l' 0) pv]> (hdrs_of (b_addr x) l')
  end.

Definition heap_of (rs : list region) (l : list blk) : heap :=
  mk_heap (hdrs_of 0 l) (hd_addr l 0) (u64 (live_bytes l)) (u64 (regions_bytes rs)) 0.

Lemma hdrs_of_chain pv l : NoDup (addrs l) -> chain (hdrs_of pv l) pv l 0.
Proof.
  revert pv. induction l as [|x l IH]; intros pv; cbn [addrs map hdrs_of chain]; [tauto|].
  intros Hnd. apply NoDup_cons in Hnd as [Hx Hnd]. split; [apply lookup_insert_eq|].
  apply chain_frame; [apply IH, Hnd|exact Hx].
Qed.

Lemma heap_of_rep rs l : segs rs l -> regions_ok rs -> heap_rep (heap_of rs l) rs l.
Proof.
  intros Hs Hr. pose proof (laid_nodup _ (segs_laid _ _ Hs Hr)) as Hnd.
  split; [|exact Hs|exact Hr|reflexivity|reflexivity].
  split; [apply hdrs_of_chain, Hnd|reflexivity].
Qed.

Lemma segs_single r l : segs [r] l -> tiles (r_base r) (r_end r) l.
Proof. intros Hs. inversion Hs as [|? ? l1 l2 Ht _ H]; subst. inversion H. rewrite app_nil_r. exact Ht. Qed.

Lemma tiles_segs r l : tiles (r_base r) (r_end r) l -> l <> [] -> segs [r] l.
Proof. intros Ht Hne. rewrite <- (app_nil_r l). apply segs_cons; [exact Ht|exact Hne|constructor]. Qed.

Lemma laid_sizes_fit l : laid l -> sizes_fit l.
Proof.
  intros Hl. apply Forall_forall. intros x Hx. destruct (laid_range _ Hl _ Hx) as (H1 & H2 & H3).
  unfold b_end, sizeof_block, HEAP_MIN in *. lia.
Qed.

Lemma freed_ne l1 x l2 : freed l1 x l2 <> [].
Proof.
  unfold freed. destruct (merge_next _ l2) as [x' l2']. destruct l1 as [|p l1 _] using rev_ind; [discriminate|].
  rewrite merge_prev_snoc. destruct l1; destruct (b_free p); discriminate.
Qed.

(** [kfree] of a live block of a heap of one region. *)
Lemma kfree_single h r l1 x l2 :
  heap_rep h [r] (l1 ++ x :: l2) -> b_free x = false ->
  returns (kfree h (b_addr x + sizeof_block)) (fun h' => heap_rep h' [r] (freed l1 x l2)).
Proof.
  intros Hrep Hx. pose proof (rep_laid _ _ _ Hrep) as Hl.
  destruct Hrep as [Hlist Hs Hr Hu Ht].
  destruct (kfree_returns h l1 x l2 Hlist (laid_nodup _ Hl) (laid_pos _ Hl) (laid_sizes_fit _ Hl) Hx)
    as (m & E & Hm); [pose proof (laid_addr_pos _ _ _ Hl); unfold sizeof_block; lia|].
  rewrite E. apply returns_Done. split.
  - exact Hm.
  - apply tiles_segs; [apply tiles_freed, segs_single, Hs|apply freed_ne].
  - exact Hr.
  - cbn [heap_used]. rewrite Hu, u64_sub_l. f_equal. rewrite live_bytes_app, live_bytes_cons, Hx.
    unfold live_bytes at 3. rewrite live_freed, foldr_app. fold (live_bytes l2).
    unfold live_bytes at 1. generalize (live l1). intros l. induction l as [|y l IH]; simpl; lia.
  - exact Ht.
Qed.

(** ** Properties *)

(** C2: over any page allocator, [kmalloc] of a rounded size that does not wrap
    returns the payload address of a block of at least the requested size that
    overlaps no block handed out before, and changes no other live block; while a
    free block of the list fits, the allocator is not asked and free neighbours stay
    merged; it returns NULL only when no free block fits and no run of pages is left,
    and then the heap is unchanged. *)
Theorem kmalloc_correct `{PageAllocLaws St} fuel h (ps : St) rs l sz :
  heap_ok h ps rs l -> 0 < sz <= 2 ^ 62 -> (length l + 1 < fuel)%nat ->
  returns (kmalloc fuel h ps sz) (fun '(p, h', ps') =>
    (p <> 0 /\ exists rs' l' x,
       heap_ok h' ps' rs' l' /\ live l' ≡ₚ x :: live l /\
       p = b_addr x + sizeof_block /\ sz <= b_size x /\ Forall (disj x) (live l) /\
       (Exists (fun y => b_free y = true /\ round_size sz <= b_size y) l ->
          rs' = rs /\ ps' = ps /\ (no_adj l -> no_adj l'))) \/
    (p = 0 /\ h' = h /\ heap_ok h' ps' rs l /\
     Forall (fun y => b_free y = true -> b_size y < round_size sz) l /\
     pa_alloc_pages ps (need_pages (round_size sz)) = Done (0, ps'))).
Proof.
  intros Hok [H1 H2] Hf. destruct (round_size_spec sz H1 H2) as (Hr & Hmin & _).
  eapply returns_mono; [apply (kmalloc_returns fuel h ps rs l sz Hok H1 H2 Hf)|].
  intros [[p h'] ps'] [(Hp & rs' & l0 & l1 & x & l2 & Hok' & (El0 & Hx & Hfit & _) & Ep & Hcase)|
                       (-> & -> & Hps & Hh & Hnone & E)].
  2: { right. destruct Hok as [Hrep _]. unfold heap_ok. tauto. }
  left. split; [exact Hp|]. exists rs', (l1 ++ pieces x (round_size sz) ++ l2).
  exists (mk_blk (b_addr x) (piece_size x (round_size sz)) false).
  assert (Hlive : live l0 = live l).
  { destruct Hcase as [(-> & _)|((n & -> & Hn) & _)]; [reflexivity|apply live_cons_free, Hn]. }
  assert (Hperm : live (l1 ++ pieces x (round_size sz) ++ l2) ≡ₚ
                  mk_blk (b_addr x) (piece_size x (round_size sz)) false :: live l).
  { rewrite <- Hlive, El0, !live_app, live_pieces, (live_cons_free x) by exact Hx.
    symmetry. apply Permutation_middle. }
  split; [exact Hok'|]. split; [exact Hperm|]. split; [exact Ep|].
  split; [unfold piece_size; cbn [b_size]; case_cmp; lia|]. split.
  - rewrite <- Hlive, El0, live_app, (live_cons_free x) by exact Hx.
    pose proof (laid_sep _ (rep_laid _ _ _ (proj1 Hok'))) as Hsep.
    assert (Hpi : exists rest, pieces x (round_size sz) =
              mk_blk (b_addr x) (piece_size x (round_size sz)) false :: rest)
      by (unfold pieces, piece_size; case_cmp; eexists; reflexivity).
    destruct Hpi as [rest Erest]. rewrite Erest in Hsep. cbn [app] in Hsep. apply separate_app in Hsep as (_ & [Hs2 _] & Hs1).
    rewrite Forall_forall in Hs1. rewrite Forall_forall in Hs2.
    apply Forall_forall. intros y Hy. apply elem_of_app in Hy as [Hy|Hy]; apply live_in in Hy as [_ Hy].
    + specialize (Hs1 _ Hy). apply Forall_cons_1 in Hs1 as [Hd _]. unfold disj in *. tauto.
    + apply Hs2, elem_of_app. right. exact Hy.
  - intros Hex. destruct Hcase as [(-> & -> & ->)|(_ & Hnone)].
    + split; [reflexivity|]. split; [reflexivity|]. intros Hn. apply no_adj_pieces; [exact Hx|].
      rewrite <- El0. exact Hn.
    + exfalso. rewrite Forall_forall in Hnone. apply Exists_exists in Hex as (y & Hy & Hfy & Hsy).
      specialize (Hnone _ Hy Hfy). lia.
Qed.

(** A heap with one live and one free block above page 16. *)
Definition demo_region : region := mk_region 0x10000 4096.
Definition demo_list : list blk :=
  [mk_blk 0x10000 64 false; mk_blk 0x10068 (4096 - 144) true].

Lemma demo_rep : heap_rep (heap_of [demo_region] demo_list) [demo_region] demo_list.
Proof.
  apply heap_of_rep.
  - apply tiles_segs; [|discriminate]. unfold tiles, demo_list, demo_region, b_end, r_end, HEAP_MIN, sizeof_block.
    cbn [b_addr b_size r_base r_len]. lia.
  - unfold regions_ok, demo_region, r_end. cbn [r_base r_len]. split; [lia|]. split; [lia|].
    split; [constructor|exact I].
Defined.

Lemma kmalloc_correct_witness :
  exists h' ps' l', returns (kmalloc 10 (heap_of [demo_region] demo_list) 32 100)
    (fun r => r = (0x10090, h', ps')) /\ heap_ok h' ps' [demo_region] l'.
Proof.
  assert (Hok : heap_ok (heap_of [demo_region] demo_list) 32 [demo_region] demo_list).
  { split; [exact demo_rep|]. split; [cbn [pa_ok bump_pages]; lia|].
    intros r q Hr Hq. apply list_elem_of_singleton in Hr as ->. left.
    cbn [pa_free bump_pages] in Hq. unfold demo_region, r_end, PAGE_SIZE. cbn [r_base r_len]. lia. }
  pose proof (kmalloc_correct 10 _ 32 [demo_region] demo_list 100 Hok ltac:(lia) ltac:(simpl; lia)) as Hk.
  destruct Hk as ([[p h'] ps'] & E & [(_ & rs' & l' & x & Hok' & _ & _ & _ & _ & Hfit)|(-> & _)]).
  2: { vm_compute in E. discriminate. }
  destruct Hfit as (-> & -> & _).
  { right. left. split; [reflexivity|vm_compute; discriminate]. }
  assert (p = 0x10090) as ->.
  { apply (f_equal (fun m => match m with Done (p, _, _) => p | _ => 0 end)) in E.
    vm_compute in E. symmetry. exact E. }
  exists h', 32, l'. split; [rewrite E; apply returns_Done; reflexivity|exact Hok'].
Defined.

(** C3: on a heap of one region, [kfree] of a block's payload frees exactly
    that block: the other live blocks stay as they are, the accounting follows, and if
    no two list neighbours were free then none are afterwards; a second free of the
    same block changes nothing. *)
Theorem kfree_correct h r l x :
  heap_rep h [r] l -> x ∈ l ->
  returns (kfree h (b_addr x + sizeof_block)) (fun h' =>
    if b_free x then h' = h
    else exists l', heap_rep h' [r] l' /\ live l ≡ₚ x :: live l' /\ (no_adj l -> no_adj l')).
Proof.
  intros Hrep Hx. apply list_elem_of_split in Hx as (l1 & l2 & ->). destruct (b_free x) eqn:Ef.
  - pose proof (rep_laid _ _ _ Hrep) as Hl. pose proof (laid_addr_pos _ _ _ Hl).
    destruct Hrep as [[Hc _] _ _ _ _]. unfold kfree, sizeof_block.
    destruct (Z.eqb_spec (b_addr x + 40) 0); [lia|].
    replace (b_addr x + 40 - 40) with (b_addr x) by lia.
    rewrite (hdr_get_Done _ _ _ (chain_lookup _ _ _ _ _ _ Hc)), bind_Done. cbn [magic free].
    rewrite Ef, orb_true_r. apply returns_Done. reflexivity.
  - eapply returns_mono; [exact (kfree_single _ _ _ _ _ Hrep Ef)|].
    intros h' Hrep'. exists (freed l1 x l2). split; [exact Hrep'|]. split.
    + rewrite live_freed, live_app, live_cons_used by exact Ef. symmetry. apply Permutation_middle.
    + apply no_adj_freed, Ef.
Qed.

Lemma kfree_correct_witness :
  exists h' l', kfree (heap_of [demo_region] demo_list) 0x10028 = Done h' /\
    heap_rep h' [demo_region] l' /\ live l' = [].
Proof.
  destruct (kfree_correct _ _ _ (mk_blk 0x10000 64 false) demo_rep ltac:(left))
    as (h' & E & l' & Hrep & Hperm & _).
  exists h', l'. split; [exact E|]. split; [exact Hrep|].
  unfold live in Hperm at 1. cbn in Hperm. apply (Permutation_cons_inv (l := [])) in Hperm.
  apply Permutation_nil. exact Hperm.
Defined.

(** When the last live block of a one-region heap without free neighbours
    is freed, the heap is again the single free block [heap_add_region] made of the
    region, and no byte is accounted as used: coalescing leaves no fragmentation. *)
Theorem kfree_drains h r l x :
  heap_rep h [r] l -> no_adj l -> live l = [x] ->
  returns (kfree h (b_addr x + sizeof_block)) (fun h' =>
    heap_rep h' [r] [mk_blk (r_base r) (r_len r - sizeof_block) true] /\ heap_used h' = 0).
Proof.
  intros Hrep Hn Hlive.
  assert (Hx : x ∈ live l) by (rewrite Hlive; left). apply live_in in Hx as [Ef Hx].
  apply list_elem_of_split in Hx as (l1 & l2 & ->).
  eapply returns_mono; [exact (kfree_single _ _ _ _ _ Hrep Ef)|]. intros h' Hrep'.
  pose proof (no_adj_freed _ _ _ Ef Hn) as Hn'. pose proof (live_freed l1 x l2) as Hl'.
  rewrite live_app, live_cons_used in Hlive by exact Ef.
  assert (Hnil : live l1 ++ live l2 = []).
  { destruct (live l1) as [|? [|]]; [injection Hlive as ->; reflexivity|discriminate|discriminate]. }
  rewrite Hnil in Hl'. pose proof (freed_ne l1 x l2) as Hne.
  pose proof (segs_single _ _ (rep_segs _ _ _ Hrep')) as Ht.
  destruct (freed l1 x l2) as [|y l']; [congruence|].
  assert (Hfree : forall z, z ∈ y :: l' -> b_free z = true).
  { intros z Hz. destruct (b_free z) eqn:E; [reflexivity|].
    assert (Hin : z ∈ live (y :: l')) by (apply live_in; auto).
    rewrite Hl' in Hin. apply elem_of_nil in Hin as []. }
  assert (l' = []) as ->.
  { destruct l' as [|z l']; [reflexivity|]. exfalso. apply (proj1 Hn'). split; apply Hfree; repeat constructor. }
  assert (y = mk_blk (r_base r) (r_len r - sizeof_block) true) as <-.
  { destruct Ht as (Ha & Hs & He). specialize (Hfree y ltac:(left)). unfold b_end, r_end in He. cbn [tiles] in He.
    destruct y; cbn [b_addr b_size b_free] in *. subst. f_equal. lia. }
  split; [exact Hrep'|]. rewrite (rep_used _ _ _ Hrep'), live_bytes_cons.
  rewrite (Hfree y) by left. reflexivity.
Qed.

Lemma kfree_drains_witness :
  exists h', kfree (heap_of [demo_region] demo_list) 0x10028 = Done h' /\
    heap_rep h' [demo_region] [mk_blk 0x10000 4056 true].
Proof.
  destruct (kfree_drains _ _ _ (mk_blk 0x10000 64 false) demo_rep ltac:(cbn; intuition discriminate) eq_refl)
    as (h' & E & Hrep & _).
  exists h'. split; [exact E|exact Hrep].
Defined.

(** A request of more than 2^64 - 16 bytes wraps to 0 in
    [H3OS_ALIGN_UP] and is served as a request of 32 bytes. *)
Theorem kmalloc_size_wraps `{PageAlloc St} fuel h (ps : St) sz :
  2 ^ 64 - 16 < sz < 2 ^ 64 -> kmalloc fuel h ps sz = kmalloc fuel h ps 32.
Proof.
  intros Hsz. unfold kmalloc. destruct (Z.eqb_spec sz 0); [lia|]. destruct (Z.eqb_spec 32 0); [lia|].
  replace (round_size sz) with (round_size 32); [reflexivity|].
  unfold round_size, ALIGN_UP, HEAP_ALIGN, u64.
  replace ((sz + (16 - 1)) mod 2 ^ 64) with (sz + 15 - 2 ^ 64).
  2: { rewrite <- (Z.mod_add _ (-1)) by lia. rewrite Z.mod_small; lia. }
  replace (Z.land (sz + 15 - 2 ^ 64) (Z.lnot (16 - 1))) with ((sz + 15 - 2 ^ 64) / 2 ^ 4 * 2 ^ 4)
    by (symmetry; apply (land_lnot_pow2 _ 4); lia).
  rewrite Z.div_small by lia. reflexivity.
Qed.

Lemma kmalloc_size_wraps_witness :
  kmalloc 10 (heap_of [demo_region] demo_list) 32 (2 ^ 64 - 1) =
  kmalloc 10 (heap_of [demo_region] demo_list) 32 32.
Proof. apply kmalloc_size_wraps. lia. Defined.

(** [coalesce] merges list neighbours that belong to different regions:
    when the last block of a region is freed and the next region of the list starts
    with a free block, a free block remains that extends past the end of its region
    by the header and size of the other one. *)
Theorem kfree_merges_regions h rs r r' l1 x y l2 :
  heap_rep h (r :: r' :: rs) ((l1 ++ [x]) ++ y :: l2) ->
  tiles (r_base r) (r_end r) (l1 ++ [x]) -> b_free x = false -> b_free y = true ->
  returns (kfree h (b_addr x + sizeof_block)) (fun h' => exists l z,
    hlist h' l /\ z ∈ l /\ b_free z = true /\ r_base r <= b_addr z < r_end r /\
    b_end z = r_end r + sizeof_block + b_size y).
Proof.
  intros Hrep Ht Hx Hy. pose proof (rep_laid _ _ _ Hrep) as Hl.
  rewrite <- app_assoc in Hrep, Hl. cbn [app] in Hrep, Hl.
  destruct (kfree_returns h l1 x (y :: l2) (rep_list _ _ _ Hrep) (laid_nodup _ Hl) (laid_pos _ Hl)
              (laid_sizes_fit _ Hl) Hx) as (m & E & Hm).
  { pose proof (laid_addr_pos _ _ _ Hl). unfold sizeof_block. lia. }
  rewrite E. apply returns_Done. exists (freed l1 x (y :: l2)).
  unfold freed in *. cbn [merge_next] in *. rewrite Hy in *.
  set (x' := join _ y) in *.
  assert (Hend : b_end x' = r_end r + sizeof_block + b_size y).
  { apply tiles_app in Ht as (mid & _ & (_ & _ & Ht)). cbn [tiles] in Ht.
    unfold x', b_end in *. cbn [join b_addr b_size]. lia. }
  assert (Hin : r_base r <= b_addr x < r_end r).
  { destruct (tiles_in _ _ _ x Ht) as (? & ? & ?); [apply elem_of_app; right; left|].
    unfold b_end, sizeof_block, HEAP_MIN in *. lia. }
  destruct l1 as [|p l1 _] using rev_ind.
  - exists x'. split; [exact Hm|]. split; [left|]. auto.
  - rewrite merge_prev_snoc in *. destruct (b_free p) eqn:Ep; rewrite <- app_assoc in *.
    + exists (join p x'). split; [exact Hm|]. split; [apply elem_of_app; right; left|].
      split; [exact Ep|]. destruct (tiles_in _ _ _ p Ht) as (Hp1 & Hp2 & _).
      { apply elem_of_app. right. left. }
      apply tiles_app in Ht as (mid & _ & Ht). cbn [app tiles] in Ht.
      unfold b_end, sizeof_block, HEAP_MIN in *. unfold x' in *. cbn [join b_addr b_size] in *. lia.
    + exists x'. split; [exact Hm|]. split; [apply elem_of_app; right; right; left|]. auto.
Qed.

Lemma kfree_merges_regions_witness :
  returns (kfree (heap_of [mk_region 0x20000 4096; demo_region]
                    (([] ++ [mk_blk 0x20000 4056 false]) ++ mk_blk 0x10000 4056 true :: [])) 0x20028)
    (fun h' => exists l z, hlist h' l /\ z ∈ l /\ b_free z = true /\
       0x20000 <= b_addr z < 0x21000 /\ b_end z = 0x22000).
Proof.
  apply (kfree_merges_regions _ [] (mk_region 0x20000 4096) demo_region [] (mk_blk 0x20000 4056 false)
           (mk_blk 0x10000 4056 true) []).
  - apply heap_of_rep.
    + apply segs_cons; [|discriminate|apply tiles_segs; [|discriminate]];
        unfold tiles, demo_region, b_end, r_end, HEAP_MIN, sizeof_block; cbn; lia.
    + unfold regions_ok, demo_region, apart, r_end; cbn.
      split; [lia|]. split; [lia|]. split; [constructor; [cbn; lia|constructor]|].
      split; [lia|]. split; [lia|]. split; [constructor|exact I].
  - unfold tiles, b_end, r_end, HEAP_MIN, sizeof_block; cbn; lia.
  - reflexivity.
  - reflexivity.
Defined.
