(* ===== verification/Vmm.v ===== *)
(** * Virtual memory: [memory/vmm.c]

    The page tables are pages of physical memory, keyed by their address, of 512
    entries each; the boot loader's identity map makes the first GiB addressable,
    and a store beyond it is a [Fault].  The page allocator is the interface of
    [PageAlloc.v]. *)
From Stdlib Require Import ZArith Lia Bool.
From stdpp Require Import base tactics option list numbers gmap.
From S2P Require Import Prelude CInt PageAlloc.

(** ** State *)
Definition PTE_PRESENT : Z := Z.shiftl 1 0.
Definition PTE_WRITE : Z := Z.shiftl 1 1.
Definition PTE_HUGE : Z := Z.shiftl 1 7.

(** The end of the identity map that [boot/boot.asm] installs. *)
Definition IDENTITY_END : Z := 2 ^ 30.

Abbreviation ram := (gmap Z (list Z)).

Definition ld (m : ram) (t i : Z) : outcome Z :=
  match m !! t with Some ws => arr_get ws i | None => Fault end.
Definition st (m : ram) (t i v : Z) : outcome ram :=
  match m !! t with
  | Some ws => ws' ← arr_set ws i v; mret (<[t := ws']> m)
  | None => Fault
  end.
(** [memset(page, 0, PAGE_SIZE)] *)
Definition zero_page (m : ram) (page : Z) : outcome ram :=
  if page + PAGE_SIZE <=? IDENTITY_END then mret (<[page := replicate 512 0]> m) else Fault.

Definition i4_of (virt : Z) : Z := Z.land (Z.shiftr virt 39) 0x1FF.
Definition i3_of (virt : Z) : Z := Z.land (Z.shiftr virt 30) 0x1FF.
Definition i2_of (virt : Z) : Z := Z.land (Z.shiftr virt 21) 0x1FF.
Definition i1_of (virt : Z) : Z := Z.land (Z.shiftr virt 12) 0x1FF.

Definition present (e : Z) : bool := negb (Z.land e PTE_PRESENT =? 0).
Definition huge (e : Z) : bool := negb (Z.land e PTE_HUGE =? 0).
Definition entry_addr (e : Z) : Z := Z.land e (Z.lnot 0xFFF).
Definition page_bits (x : Z) : Z := Z.land x (Z.lnot 0xFFF).

(** ** Operations

    [vmm_init] reads the root table's address from CR3; it is the argument
    [pml4] of the other operations. *)
Section WithAllocator.
Context {St : Type} `{PageAlloc St}.

(** The address of the table below, 0 for NULL. *)
Definition table_walk_alloc (m : ram) (ps : St) (table index : Z) : outcome (Z * ram * St) :=
  e ← ld m table index;
  if negb (present e) then
    '(page, ps') ← pa_alloc_page ps;
    if page =? 0 then mret (0, m, ps')
    else
      m1 ← zero_page m page;
      m2 ← st m1 table index (Z.lor (Z.lor page PTE_PRESENT) PTE_WRITE);
      e' ← ld m2 table index;
      mret (entry_addr e', m2, ps')
  else mret (entry_addr e, m, ps).

Definition leaf_entry (phys flags : Z) : Z :=
  Z.lor (Z.lor (page_bits phys) (Z.land flags 0xFFF)) PTE_PRESENT.

Definition vmm_map_page (pml4 : Z) (m : ram) (ps : St) (virt phys flags : Z)
    : outcome (bool * ram * St) :=
  '(pdpt, m, ps) ← table_walk_alloc m ps pml4 (i4_of virt);
  if pdpt =? 0 then mret (false, m, ps)
  else
    '(pd, m, ps) ← table_walk_alloc m ps pdpt (i3_of virt);
    if pd =? 0 then mret (false, m, ps)
    else
      e ← ld m pd (i2_of virt);
      if huge e then mret (false, m, ps)
      else
        '(pt, m, ps) ← table_walk_alloc m ps pd (i2_of virt);
        if pt =? 0 then mret (false, m, ps)
        else
          m ← st m pt (i1_of virt) (leaf_entry phys flags);
          mret (true, m, ps).
End WithAllocator.

Definition vmm_unmap_page (pml4 : Z) (m : ram) (virt : Z) : outcome (bool * ram) :=
  e4 ← ld m pml4 (i4_of virt);
  if negb (present e4) then mret (false, m)
  else
    e3 ← ld m (entry_addr e4) (i3_of virt);
    if negb (present e3) then mret (false, m)
    else
      e2 ← ld m (entry_addr e3) (i2_of virt);
      if huge e2 then mret (false, m)
      else if negb (present e2) then mret (false, m)
      else m ← st m (entry_addr e2) (i1_of virt) 0; mret (true, m).

Definition vmm_resolve (pml4 : Z) (m : ram) (virt : Z) : outcome Z :=
  e4 ← ld m pml4 (i4_of virt);
  if negb (present e4) then mret 0
  else
    e3 ← ld m (entry_addr e4) (i3_of virt);
    if negb (present e3) then mret 0
    else
      e2 ← ld m (entry_addr e3) (i2_of virt);
      if huge e2 then mret (u64 (Z.land e2 (Z.lnot 0x1FFFFF) + Z.land virt 0x1FFFFF))
      else if negb (present e2) then mret 0
      else
        e1 ← ld m (entry_addr e2) (i1_of virt);
        if negb (present e1) then mret 0
        else mret (u64 (page_bits e1 + Z.land virt 0xFFF)).

(** ** Indices *)
Lemma ix_div x k : 0 <= k -> Z.land (Z.shiftr x k) 0x1FF = x / 2 ^ k mod 512.
Proof.
  intros Hk. change 0x1FF with (Z.ones 9). rewrite Z.land_ones, Z.shiftr_div_pow2 by lia. reflexivity.
Qed.

Definition is_index (i : Z) : Prop := 0 <= i < 512.

Lemma i4_index v : is_index (i4_of v).
Proof. unfold is_index, i4_of. rewrite ix_div by lia. apply Z.mod_pos_bound. lia. Qed.
Lemma i3_index v : is_index (i3_of v).
Proof. unfold is_index, i3_of. rewrite ix_div by lia. apply Z.mod_pos_bound. lia. Qed.
Lemma i2_index v : is_index (i2_of v).
Proof. unfold is_index, i2_of. rewrite ix_div by lia. apply Z.mod_pos_bound. lia. Qed.
Lemma i1_index v : is_index (i1_of v).
Proof. unfold is_index, i1_of. rewrite ix_div by lia. apply Z.mod_pos_bound. lia. Qed.

(** The page an address is in: bits 12 to 47. *)
Definition vpage (v : Z) : Z := v / 4096 mod 2 ^ 36.

Lemma vpage_indices v w :
  vpage v = vpage w <->
  i4_of v = i4_of w /\ i3_of v = i3_of w /\ i2_of v = i2_of w /\ i1_of v = i1_of w.
Proof.
  unfold vpage, i4_of, i3_of, i2_of, i1_of. rewrite !ix_div by lia.
  replace (v / 4096 mod 2 ^ 36) with
    ((v / 2 ^ 39 mod 512) * 2 ^ 27 + (v / 2 ^ 30 mod 512) * 2 ^ 18 + (v / 2 ^ 21 mod 512) * 2 ^ 9 + v / 2 ^ 12 mod 512)
    by (Z.to_euclidean_division_equations; lia).
  replace (w / 4096 mod 2 ^ 36) with
    ((w / 2 ^ 39 mod 512) * 2 ^ 27 + (w / 2 ^ 30 mod 512) * 2 ^ 18 + (w / 2 ^ 21 mod 512) * 2 ^ 9 + w / 2 ^ 12 mod 512)
    by (Z.to_euclidean_division_equations; lia).
  assert (forall x k, 0 <= x / k mod 512 < 512) as Hb by (intros; apply Z.mod_pos_bound; lia).
  pose proof (Hb v (2 ^ 39)); pose proof (Hb v (2 ^ 30)); pose proof (Hb v (2 ^ 21)); pose proof (Hb v (2 ^ 12)).
  pose proof (Hb w (2 ^ 39)); pose proof (Hb w (2 ^ 30)); pose proof (Hb w (2 ^ 21)); pose proof (Hb w (2 ^ 12)).
  lia.
Qed.

(** ** Bits of an entry *)
Lemma present_bit e : present e = Z.testbit e 0.
Proof. apply (land_bit_test e 0). lia. Qed.
Lemma huge_bit e : huge e = Z.testbit e 7.
Proof. apply (land_bit_test e 7). lia. Qed.

Lemma entry_addr_div e : entry_addr e = e / 4096 * 4096.
Proof. apply (land_lnot_pow2 e 12). lia. Qed.

Lemma land_lor_low a b : a mod 4096 = 0 -> 0 <= b < 4096 -> entry_addr (Z.lor a b) = a.
Proof.
  intros Ha Hb. unfold entry_addr. change 0xFFF with (Z.ones 12).
  rewrite <- Z.ldiff_land, Z.ldiff_ones_r by lia.
  rewrite Z.shiftr_lor, Z.shiftr_div_pow2, (Z.shiftr_div_pow2 b) by lia.
  rewrite (Z.div_small b) by lia. rewrite Z.lor_0_r, Z.shiftl_mul_pow2 by lia.
  pose proof (Z.div_mod a 4096). change (2 ^ 12) with 4096. lia.
Qed.

Lemma table_entry_bits page :
  page mod 4096 = 0 ->
  let e := Z.lor (Z.lor page PTE_PRESENT) PTE_WRITE in
  present e = true /\ huge e = false /\ entry_addr e = page.
Proof.
  intros Hp e. unfold e. rewrite <- Z.lor_assoc. change (Z.lor PTE_PRESENT PTE_WRITE) with 3.
  split; [|split]; [| |apply land_lor_low; [exact Hp|lia]].
  - rewrite present_bit, Z.lor_spec. apply orb_true_r.
  - rewrite huge_bit, Z.lor_spec. change (Z.testbit 3 7) with false. rewrite orb_false_r.
    rewrite <- (Z.mod_pow2_bits_low page 12) by lia. change (2 ^ 12) with 4096. rewrite Hp. apply Z.bits_0.
Qed.

Lemma leaf_entry_bits phys flags :
  present (leaf_entry phys flags) = true /\ page_bits (leaf_entry phys flags) = phys / 4096 * 4096.
Proof.
  unfold leaf_entry. split.
  - rewrite present_bit, Z.lor_spec. apply orb_true_r.
  - rewrite <- Z.lor_assoc. change (page_bits ?x) with (entry_addr x).
    rewrite land_lor_low.
    + apply entry_addr_div.
    + rewrite entry_addr_div. apply Z_mod_mult.
    + assert (Hl : Z.lor (Z.land flags 0xFFF) PTE_PRESENT = Z.land (Z.lor flags 1) 0xFFF).
      { change PTE_PRESENT with (Z.land 1 0xFFF). rewrite Z.land_lor_distr_l. reflexivity. }
      rewrite Hl. change 0xFFF with (Z.ones 12). rewrite Z.land_ones by lia. apply Z.mod_pos_bound. lia.
Qed.

(** ** The tree of tables

    [node m root p] is the table reached from [root] by the indices [p], and
    [ent m root p i] the entry [i] of that table. *)
Definition ldo (m : ram) (t i : Z) : option Z := ws ← m !! t; ws !! Z.to_nat i.

Definition child (lvl : nat) (e : Z) : option Z :=
  if present e && negb ((lvl =? 2)%nat && huge e) then Some (entry_addr e) else None.

Fixpoint node_at (m : ram) (t : Z) (lvl : nat) (p : list Z) : option Z :=
  match p with
  | [] => Some t
  | i :: p' => e ← ldo m t i; t' ← child lvl e; node_at m t' (S lvl) p'
  end.
Definition node (m : ram) (root : Z) (p : list Z) : option Z := node_at m root 0 p.

Definition ent (m : ram) (root : Z) (p : list Z) (i : Z) : option Z :=
  t ← node m root p; ldo m t i.

Definition path (p : list Z) : Prop := Forall is_index p /\ (length p <= 3)%nat.

Lemma node_at_snoc m p i : forall t lvl,
  node_at m t lvl (p ++ [i]) =
    (t' ← node_at m t lvl p; e ← ldo m t' i; child (lvl + length p) e).
Proof.
  induction p as [|j p IH]; intros t lvl; cbn [app node_at length].
  - rewrite Nat.add_0_r. simpl. destruct (ldo m t i) as [e|]; [|reflexivity]. simpl.
    destruct (child lvl e); reflexivity.
  - destruct (ldo m t j) as [e|]; [|reflexivity]. simpl. destruct (child lvl e) as [t'|]; [|reflexivity].
    simpl. rewrite IH. replace (lvl + S (length p))%nat with (S lvl + length p)%nat by lia. reflexivity.
Qed.

Lemma node_snoc m root p i : node m root (p ++ [i]) = (e ← ent m root p i; child (length p) e).
Proof.
  unfold node, ent. rewrite node_at_snoc. unfold node.
  destruct (node_at m root 0 p); [|reflexivity]. reflexivity.
Qed.

Lemma path_snoc p i : path (p ++ [i]) <-> path p /\ is_index i /\ (length p <= 2)%nat.
Proof. unfold path. rewrite Forall_app, Forall_singleton, length_app. simpl. intuition lia. Qed.

Lemma path_app p q : path (p ++ q) -> path p.
Proof. unfold path. rewrite Forall_app, length_app. intuition lia. Qed.

(** [p] followed by [i] leads to [q] or to a table above it. *)
Definition through (p : list Z) (i : Z) (q : list Z) : Prop := (p ++ [i]) `prefix_of` q.

#[export] Instance through_dec p i q : Decision (through p i q).
Proof. unfold through. apply _. Defined.

Section Wf.
Context {St : Type} `{PageAllocLaws St}.
Implicit Types (ps : St) (m : ram) (p q : list Z) (i j t : Z).

(** The tables are distinct whole pages, none of them free. *)
Record wf m (root : Z) ps : Prop := {
  wf_table : forall p t, path p -> node m root p = Some t ->
    (exists ws, m !! t = Some ws /\ length ws = 512%nat) /\
    t mod 4096 = 0 /\ 0 < t /\ ~ pa_free ps (t / 4096);
  wf_tree : forall p q t, path p -> path q ->
    node m root p = Some t -> node m root q = Some t -> p = q
}.

Lemma wf_ldo m root ps p t i :
  wf m root ps -> path p -> node m root p = Some t -> is_index i ->
  exists e, ldo m t i = Some e /\ ent m root p i = Some e /\ ld m t i = Done e.
Proof.
  intros Hwf Hp Hn Hi. destruct (wf_table _ _ _ Hwf p t Hp Hn) as ((ws & Ew & Hl) & _).
  unfold is_index in Hi. destruct (lookup_lt_is_Some_2 ws (Z.to_nat i)) as [e Ee]; [lia|].
  exists e. unfold ent, ldo, ld. rewrite Hn. simpl. rewrite Ew. simpl. split; [exact Ee|].
  split; [exact Ee|]. apply arr_get_Done. split; [lia|exact Ee].
Qed.

Lemma wf_weaken m root ps ps' :
  wf m root ps -> (forall n : Z, pa_free ps' n -> pa_free ps n) -> wf m root ps'.
Proof.
  intros [Ht Hi] Hs. split; [|exact Hi]. intros p t Hp Hn.
  destruct (Ht p t Hp Hn) as (H1 & H2 & H3 & H4). repeat (split; [assumption|]). auto.
Qed.

(** A change of entry [i0] of the table at [p0] only. *)
Definition only_changes m m' root p0 i0 : Prop :=
  forall p t j, path p -> node m root p = Some t -> is_index j ->
    ~ (p = p0 /\ j = i0) -> ldo m' t j = ldo m t j.

Lemma node_unchanged m m' root p0 i0 q :
  only_changes m m' root p0 i0 -> path q -> ~ through p0 i0 q ->
  node m' root q = node m root q.
Proof.
  intros Hc. induction q as [|j q IH] using rev_ind; intros Hq Ht; [reflexivity|].
  apply path_snoc in Hq as (Hq & Hj & _). rewrite !node_snoc. unfold ent.
  rewrite IH; [|exact Hq|].
  2: { intros Hth. apply Ht. unfold through in *. apply prefix_app_r. exact Hth. }
  destruct (node m root q) as [t|] eqn:E; [|reflexivity]. simpl.
  rewrite (Hc q t j Hq E Hj); [reflexivity|]. intros [-> ->]. apply Ht. exists []. rewrite app_nil_r. reflexivity.
Qed.

Lemma ent_unchanged m m' root p0 i0 q j :
  only_changes m m' root p0 i0 -> path q -> is_index j ->
  ~ through p0 i0 q -> ~ (q = p0 /\ j = i0) -> ent m' root q j = ent m root q j.
Proof.
  intros Hc Hq Hj Ht Hne. unfold ent. rewrite (node_unchanged m m' root p0 i0) by assumption.
  destruct (node m root q) as [t|] eqn:E; [|reflexivity]. exact (Hc q t j Hq E Hj Hne).
Qed.

(** Storing into an existing table. *)
Lemma st_changes m root ps p0 t0 i0 v :
  wf m root ps -> path p0 -> node m root p0 = Some t0 -> is_index i0 ->
  exists ws, m !! t0 = Some ws /\ length ws = 512%nat /\
    st m t0 i0 v = Done (<[t0 := <[Z.to_nat i0 := v]> ws]> m) /\
    only_changes m (<[t0 := <[Z.to_nat i0 := v]> ws]> m) root p0 i0 /\
    ldo (<[t0 := <[Z.to_nat i0 := v]> ws]> m) t0 i0 = Some v.
Proof.
  intros Hwf Hp0 Hn0 Hi0. destruct (wf_table _ _ _ Hwf p0 t0 Hp0 Hn0) as ((ws & Ew & Hl) & _).
  unfold is_index in Hi0. exists ws. split; [exact Ew|]. split; [exact Hl|]. split.
  { unfold st. rewrite Ew. rewrite arr_set_Done by lia. reflexivity. }
  split.
  - intros p t j Hp Hn Hj Hne. unfold ldo. destruct (decide (t = t0)) as [->|Ht].
    + assert (p = p0) as -> by (apply (wf_tree _ _ _ Hwf p p0 t0); assumption).
      rewrite lookup_insert_eq, Ew. simpl. apply list_lookup_insert_ne.
      unfold is_index in Hj. intros E. apply Hne. split; [reflexivity|]. apply Z2Nat.inj; lia.
    + rewrite lookup_insert_ne by congruence. reflexivity.
  - unfold ldo. rewrite lookup_insert_eq. simpl. apply list_lookup_insert_eq. lia.
Qed.

(** What [vmm_resolve] computes, on the tree. *)
Definition tr m (root virt : Z) : Z :=
  match ent m root [i4_of virt; i3_of virt] (i2_of virt) with
  | None => 0
  | Some e2 =>
      if huge e2 then u64 (Z.land e2 (Z.lnot 0x1FFFFF) + Z.land virt 0x1FFFFF)
      else
        match ent m root [i4_of virt; i3_of virt; i2_of virt] (i1_of virt) with
        | None => 0
        | Some e1 => if present e1 then u64 (page_bits e1 + Z.land virt 0xFFF) else 0
        end
  end.

Lemma paths_of virt :
  path [] /\ path [i4_of virt] /\ path [i4_of virt; i3_of virt] /\
  path [i4_of virt; i3_of virt; i2_of virt].
Proof.
  pose proof (i4_index virt). pose proof (i3_index virt). pose proof (i2_index virt).
  unfold path. cbn [length]. repeat split; try lia;
    repeat (apply Forall_cons_2; [assumption|]); apply Forall_nil_2.
Qed.

(** The two upper levels of a walk. *)
Lemma walk_step m root ps p t i :
  wf m root ps -> path p -> (length p <= 2)%nat -> node m root p = Some t -> is_index i ->
  exists e, ld m t i = Done e /\ ent m root p i = Some e /\
    node m root (p ++ [i]) = child (length p) e.
Proof.
  intros Hwf Hp Hl Hn Hi. destruct (wf_ldo m root ps p t i Hwf Hp Hn Hi) as (e & _ & Ee & El).
  exists e. split; [exact El|]. split; [exact Ee|]. rewrite node_snoc, Ee. reflexivity.
Qed.

Lemma vmm_resolve_tr m root ps virt :
  wf m root ps -> vmm_resolve root m virt = Done (tr m root virt).
Proof.
  intros Hwf. destruct (paths_of virt) as (P0 & P1 & P2 & P3). unfold vmm_resolve.
  destruct (walk_step m root ps [] root (i4_of virt) Hwf P0 ltac:(simpl; lia) eq_refl (i4_index virt))
    as (e4 & -> & E4 & N4). rewrite bind_Done. cbn [app] in N4. unfold child in N4. cbn [length Nat.eqb andb] in N4.
  unfold tr.
  destruct (present e4) eqn:H4; cbn [negb andb] in *.
  2: { unfold ent. change [i4_of virt; i3_of virt] with ([i4_of virt] ++ [i3_of virt]).
       rewrite node_snoc. unfold ent. rewrite N4. reflexivity. }
  destruct (walk_step m root ps _ _ (i3_of virt) Hwf P1 ltac:(simpl; lia) N4 (i3_index virt))
    as (e3 & -> & E3 & N3). rewrite bind_Done. cbn [app] in N3. unfold child in N3. cbn [length Nat.eqb andb] in N3.
  destruct (present e3) eqn:H3; cbn [negb andb] in *.
  2: { unfold ent. rewrite N3. reflexivity. }
  destruct (walk_step m root ps _ _ (i2_of virt) Hwf P2 ltac:(simpl; lia) N3 (i2_index virt))
    as (e2 & -> & E2 & N2). rewrite bind_Done, E2. cbn [app] in N2. unfold child in N2. cbn [length Nat.eqb andb] in N2.
  destruct (huge e2); [reflexivity|]. cbn [negb] in N2. rewrite andb_true_r in N2.
  destruct (present e2); cbn [negb].
  2: { unfold ent. rewrite N2. reflexivity. }
  destruct (wf_ldo m root ps _ _ (i1_of virt) Hwf P3 N2 (i1_index virt)) as (e1 & _ & E1 & ->).
  rewrite bind_Done, E1. destruct (present e1); reflexivity.
Qed.

Lemma node_None m root q r : node m root q = None -> node m root (q ++ r) = None.
Proof.
  intros Hn. induction r as [|j r IH] using rev_ind; [rewrite app_nil_r; exact Hn|].
  rewrite app_assoc, node_snoc. unfold ent. rewrite IH. reflexivity.
Qed.

Lemma not_through_self p i : ~ through p i p.
Proof. intros Hth. apply prefix_length in Hth. rewrite length_app in Hth. simpl in Hth. lia. Qed.

(** A new empty table below entry [i0] of the table at [p0]. *)
Record grown m m' root p0 i0 page : Prop := {
  gr_same : only_changes m m' root p0 i0;
  gr_new : node m' root (p0 ++ [i0]) = Some page;
  gr_none : node m root (p0 ++ [i0]) = None;
  gr_entry : exists e, ent m' root p0 i0 = Some e /\ huge e = false;
  gr_zero : forall j, is_index j -> ldo m' page j = Some 0
}.

Lemma grown_below m m' root p0 i0 page q :
  grown m m' root p0 i0 page -> path q -> through p0 i0 q ->
  node m root q = None /\ (q = p0 ++ [i0] \/ node m' root q = None).
Proof.
  intros Hg Hq [r ->]. split; [apply node_None, (gr_none _ _ _ _ _ _ Hg)|].
  destruct r as [|j r]; [left; apply app_nil_r|right].
  replace ((p0 ++ [i0]) ++ j :: r) with (((p0 ++ [i0]) ++ [j]) ++ r) in * by (rewrite <- app_assoc; reflexivity).
  apply node_None. apply path_app, path_snoc in Hq as (_ & Hj & _).
  rewrite node_snoc. unfold ent. rewrite (gr_new _ _ _ _ _ _ Hg). simpl.
  rewrite (gr_zero _ _ _ _ _ _ Hg j Hj). reflexivity.
Qed.

Lemma grown_ent m m' root p0 i0 page q j :
  grown m m' root p0 i0 page -> path q -> is_index j -> through p0 i0 q ->
  ent m root q j = None /\ (ent m' root q j = None \/ ent m' root q j = Some 0).
Proof.
  intros Hg Hq Hj Ht. destruct (grown_below _ _ _ _ _ _ _ Hg Hq Ht) as [Ho Hn]. unfold ent. rewrite Ho.
  split; [reflexivity|]. destruct Hn as [-> | ->]; [|left; reflexivity].
  right. rewrite (gr_new _ _ _ _ _ _ Hg). exact (gr_zero _ _ _ _ _ _ Hg j Hj).
Qed.

(** No translation changes. *)
Lemma grown_tr m m' root p0 i0 page virt :
  grown m m' root p0 i0 page -> (length p0 <= 2)%nat ->
  (length p0 = 2%nat -> forall e, ent m root p0 i0 = Some e -> huge e = false) ->
  tr m' root virt = tr m root virt.
Proof.
  intros Hg Hl Hh. destruct (paths_of virt) as (_ & _ & P2 & P3).
  pose proof (i2_index virt) as I2. pose proof (i1_index virt) as I1.
  set (a := i4_of virt) in *. set (b := i3_of virt) in *. unfold tr. fold a b.
  set (c := i2_of virt) in *. set (d := i1_of virt) in *.
  assert (Hlow : through p0 i0 [a; b; c] ->
            ent m root [a; b; c] d = None /\
            (ent m' root [a; b; c] d = None \/ ent m' root [a; b; c] d = Some 0))
    by (intros; apply (grown_ent m m' root p0 i0 page); assumption).
  destruct (decide (through p0 i0 [a; b])) as [Ht|Ht].
  - destruct (grown_ent _ _ _ _ _ _ [a; b] c Hg P2 I2 Ht) as [-> [-> | ->]]; [reflexivity|].
    change (huge 0) with false. cbv iota. destruct Hlow as [_ [-> | ->]]; [|reflexivity|reflexivity].
    apply (prefix_app_r _ _ [c]) in Ht. exact Ht.
  - destruct (decide ([a; b] = p0 /\ c = i0)) as [[E ->]|Hne].
    + assert (Ht' : through p0 i0 [a; b; i0]) by (exists []; rewrite <- E; reflexivity).
      destruct (Hlow Ht') as [Eo Hn]. rewrite <- E in Hh.
      destruct (gr_entry _ _ _ _ _ _ Hg) as (e' & Ee' & He'). rewrite <- E in Ee'. rewrite Ee', He'.
      rewrite Eo. replace (match ent m' root [a; b; i0] d with Some _ => _ | None => 0 end) with 0
        by (destruct Hn as [-> | ->]; reflexivity).
      destruct (ent m root [a; b] i0) as [e|]; [|reflexivity]. rewrite (Hh eq_refl e eq_refl). reflexivity.
    + rewrite (ent_unchanged m m' root p0 i0 [a; b] c (gr_same _ _ _ _ _ _ Hg) P2 I2 Ht Hne).
      destruct (ent m root [a; b] c) as [e|]; [|reflexivity]. destruct (huge e); [reflexivity|].
      rewrite (ent_unchanged m m' root p0 i0 [a; b; c] d (gr_same _ _ _ _ _ _ Hg) P3 I1); [reflexivity| |].
      * intros [r Hr]. destruct r as [|x r _] using rev_ind.
        { rewrite app_nil_r in Hr. apply (app_inj_tail [a; b] p0 c i0) in Hr. apply Hne, Hr. }
        { rewrite app_assoc in Hr. apply (app_inj_tail [a; b] _ c x) in Hr as [Hr _].
          apply Ht. exists r. exact Hr. }
      * intros [<- _]. simpl in Hl. lia.
Qed.
(** The tree after the growth. *)
Lemma grown_wf m m' root ps ps' p0 i0 n :
  wf m root ps -> path p0 -> (length p0 <= 2)%nat -> is_index i0 ->
  grown m m' root p0 i0 (n * PAGE_SIZE) -> 0 < n -> pages_taken ps ps' n 1 ->
  (forall t ws, m !! t = Some ws -> t <> n * PAGE_SIZE -> length ws = 512%nat ->
     exists ws', m' !! t = Some ws' /\ length ws' = 512%nat) ->
  (exists ws, m' !! (n * PAGE_SIZE) = Some ws /\ length ws = 512%nat) ->
  wf m' root ps'.
Proof.
  intros Hwf Hp0 Hl Hi0 Hg Hn [Hfree Htaken] Hold Hnew.
  specialize (Hfree 0 ltac:(lia)). rewrite Z.add_0_r in Hfree.
  assert (Hq : forall q t, path q -> node m' root q = Some t ->
    q = p0 ++ [i0] /\ t = n * PAGE_SIZE \/ node m root q = Some t).
  { intros q t Hq Hnode. destruct (decide (through p0 i0 q)) as [Ht|Ht].
    - destruct (grown_below _ _ _ _ _ _ _ Hg Hq Ht) as [_ [-> | E]]; [|congruence].
      rewrite (gr_new _ _ _ _ _ _ Hg) in Hnode. left. split; congruence.
    - right. rewrite <- Hnode. symmetry.
      apply (node_unchanged m m' root p0 i0); [apply Hg|exact Hq|exact Ht]. }
  assert (Hne : forall q t, path q -> node m root q = Some t -> t <> n * PAGE_SIZE).
  { intros q t Hq' Hnode E. subst t. destruct (wf_table _ _ _ Hwf _ _ Hq' Hnode) as (_ & _ & _ & Hnf).
    apply Hnf. unfold PAGE_SIZE. rewrite Z.div_mul by lia. exact Hfree. }
  split.
  - intros q t Hq' Hnode. destruct (Hq q t Hq' Hnode) as [[_ ->]|Hnode'].
    + split; [exact Hnew|]. unfold PAGE_SIZE. split; [apply Z_mod_mult|]. split; [lia|].
      rewrite Z.div_mul by lia. rewrite Htaken. lia.
    + destruct (wf_table _ _ _ Hwf _ _ Hq' Hnode') as ((ws & Ew & Hlen) & H2 & H3 & H4).
      split; [exact (Hold _ _ Ew (Hne _ _ Hq' Hnode') Hlen)|]. split; [exact H2|]. split; [exact H3|].
      rewrite Htaken. tauto.
  - intros q q' t Hq1 Hq2 E1 E2.
    destruct (Hq q t Hq1 E1) as [[-> Et1]|E1'], (Hq q' t Hq2 E2) as [[-> Et]|E2'].
    + reflexivity.
    + exfalso. exact (Hne _ _ Hq2 E2' Et1).
    + exfalso. exact (Hne _ _ Hq1 E1' Et).
    + exact (wf_tree _ _ _ Hwf _ _ _ Hq1 Hq2 E1' E2').
Qed.

(** The free pages are addressable. *)
Definition identity_mapped ps : Prop := forall n, pa_free ps n -> (n + 1) * PAGE_SIZE <= IDENTITY_END.

Definition fewer ps ps' : Prop := forall n, pa_free ps' n -> pa_free ps n.

(** What one level of the walk leaves. *)
Definition walked m m' root ps ps' p0 i0 (r : Z) : Prop :=
  wf m' root ps' /\ pa_ok ps' /\ fewer ps ps' /\ (forall v, tr m' root v = tr m root v) /\
  (r = 0 /\ pa_alloc_page ps = Done (0, ps') \/
   r <> 0 /\ node m' root (p0 ++ [i0]) = Some r).

(** The tables after a page was cleared and linked. *)
Definition linked m (t0 i0 page : Z) (ws : list Z) : ram :=
  <[t0 := <[Z.to_nat i0 := Z.lor (Z.lor page PTE_PRESENT) PTE_WRITE]> ws]>
    (<[page := replicate 512 0]> m).

Lemma free_page_new m root ps n q t :
  wf m root ps -> pa_free ps n -> path q -> node m root q = Some t -> t <> n * PAGE_SIZE.
Proof.
  intros Hwf Hf Hq Hnode E. subst t. destruct (wf_table _ _ _ Hwf _ _ Hq Hnode) as (_ & _ & _ & Hnf).
  apply Hnf. unfold PAGE_SIZE. rewrite Z.div_mul by lia. exact Hf.
Qed.

Lemma linked_grown m root ps p0 t0 i0 n ws :
  wf m root ps -> pa_free ps n -> path p0 -> is_index i0 -> node m root p0 = Some t0 ->
  node m root (p0 ++ [i0]) = None -> m !! t0 = Some ws -> length ws = 512%nat ->
  grown m (linked m t0 i0 (n * PAGE_SIZE) ws) root p0 i0 (n * PAGE_SIZE) /\
  ld (linked m t0 i0 (n * PAGE_SIZE) ws) t0 i0 =
    Done (Z.lor (Z.lor (n * PAGE_SIZE) PTE_PRESENT) PTE_WRITE).
Proof.
  intros Hwf Hf Hp0 Hi0 Hn0 Hnone Ew Hlen. set (page := n * PAGE_SIZE).
  destruct (table_entry_bits page) as (Hb1 & Hb2 & Hb3); [apply Z_mod_mult|].
  unfold linked. set (v := Z.lor (Z.lor page PTE_PRESENT) PTE_WRITE) in *. unfold is_index in Hi0.
  pose proof (free_page_new _ _ _ _ _ _ Hwf Hf Hp0 Hn0) as Ht0. fold page in Ht0.
  set (m' := <[t0 := _]> _).
  assert (Ew' : m' !! t0 = Some (<[Z.to_nat i0 := v]> ws)) by apply lookup_insert_eq.
  assert (Ev : <[Z.to_nat i0 := v]> ws !! Z.to_nat i0 = Some v) by (apply list_lookup_insert_eq; lia).
  assert (Hld : ldo m' t0 i0 = Some v) by (unfold ldo; rewrite Ew'; exact Ev).
  assert (Hsame : only_changes m m' root p0 i0).
  { intros q t j Hq Hnode Hj Hqj. unfold ldo. destruct (decide (t = t0)) as [->|Htt].
    - assert (q = p0) as -> by (apply (wf_tree _ _ _ Hwf q p0 t0); assumption).
      rewrite Ew', Ew. simpl. apply list_lookup_insert_ne.
      unfold is_index in *. intros E. apply Hqj. split; [reflexivity|]. apply Z2Nat.inj; lia.
    - pose proof (free_page_new _ _ _ _ _ _ Hwf Hf Hq Hnode) as Htp. fold page in Htp. unfold m'.
      rewrite !lookup_insert_ne by congruence. reflexivity. }
  assert (Hent : ent m' root p0 i0 = Some v).
  { unfold ent. rewrite (node_unchanged m m' root p0 i0 p0 Hsame Hp0 (not_through_self p0 i0)), Hn0. exact Hld. }
  split.
  - split; [exact Hsame| |exact Hnone|exists v; auto|].
    + rewrite node_snoc, Hent. simpl. unfold child. rewrite Hb1, Hb2, Hb3.
      destruct (length p0 =? 2)%nat; reflexivity.
    + intros j Hj. unfold ldo, m'. rewrite lookup_insert_ne, lookup_insert_eq by congruence.
      change (replicate 512 0 !! Z.to_nat j = Some 0). unfold is_index in Hj. apply lookup_replicate_2. lia.
  - unfold ld. rewrite Ew'. apply arr_get_Done. split; [lia|exact Ev].
Qed.

Lemma table_walk_alloc_returns m root ps p0 t0 i0 :
  wf m root ps -> pa_ok ps -> identity_mapped ps ->
  path p0 -> (length p0 <= 2)%nat -> is_index i0 -> node m root p0 = Some t0 ->
  (length p0 = 2%nat -> forall e, ent m root p0 i0 = Some e -> huge e = false) ->
  returns (table_walk_alloc m ps t0 i0) (fun '(r, m', ps') => walked m m' root ps ps' p0 i0 r).
Proof.
  intros Hwf Hok Hid Hp0 Hl Hi0 Hn0 Hhuge.
  destruct (walk_step m root ps p0 t0 i0 Hwf Hp0 Hl Hn0 Hi0) as (e & Ee & Een & Nn).
  assert (Hsn : path (p0 ++ [i0])) by (apply path_snoc; auto).
  unfold table_walk_alloc. rewrite Ee, bind_Done. destruct (present e) eqn:Hpr; cbn [negb].
  { apply returns_Done. split; [exact Hwf|]. split; [exact Hok|]. split; [intros n Hn; exact Hn|].
    split; [reflexivity|]. right.
    assert (Nn' : node m root (p0 ++ [i0]) = Some (entry_addr e)).
    { rewrite Nn. unfold child. rewrite Hpr. destruct (Nat.eqb_spec (length p0) 2) as [El|]; [|reflexivity].
      rewrite (Hhuge El e Een). reflexivity. }
    destruct (wf_table _ _ _ Hwf _ _ Hsn Nn') as (_ & _ & Hpos & _). split; [lia|exact Nn']. }
  assert (Hnone : node m root (p0 ++ [i0]) = None) by (rewrite Nn; unfold child; rewrite Hpr; reflexivity).
  destruct (pa_alloc_page_post ps Hok) as ([a ps'] & Ea & Hok' & Hpost). cbn [fst snd] in *.
  rewrite Ea, bind_Done. destruct Hpost as [[-> Hsame]|(n & Hn & _ & -> & Htk)].
  { apply returns_Done. split; [apply (wf_weaken _ _ ps); [exact Hwf|intros q; apply Hsame]|].
    split; [exact Hok'|]. split; [intros q; apply Hsame|]. split; [reflexivity|]. left. auto. }
  assert (Hf : pa_free ps n) by (rewrite <- (Z.add_0_r n); apply (proj1 Htk 0); lia).
  pose proof (Hid n Hf) as Hidn. unfold zero_page.
  destruct (Z.eqb_spec (n * PAGE_SIZE) 0); [unfold PAGE_SIZE in *; lia|].
  destruct (Z.leb_spec (n * PAGE_SIZE + PAGE_SIZE) IDENTITY_END); [|lia].
  cbn [mret outcome_ret]. rewrite bind_Done.
  destruct (wf_table _ _ _ Hwf _ _ Hp0 Hn0) as ((ws & Ew & Hlen) & _).
  pose proof (free_page_new _ _ _ _ _ _ Hwf Hf Hp0 Hn0) as Ht0.
  unfold st. rewrite lookup_insert_ne by congruence. unfold is_index in Hi0.
  rewrite Ew, arr_set_Done by lia. cbn [mret outcome_ret]. rewrite !bind_Done.
  destruct (linked_grown m root ps p0 t0 i0 n ws Hwf Hf Hp0 Hi0 Hn0 Hnone Ew Hlen) as [Hg Eld].
  unfold linked in Eld. rewrite Eld, bind_Done. apply returns_Done. fold (linked m t0 i0 (n * PAGE_SIZE) ws).
  destruct (table_entry_bits (n * PAGE_SIZE)) as (_ & _ & Hb); [apply Z_mod_mult|]. cbv zeta in Hb. rewrite Hb.
  split; [|split; [exact Hok'|split; [intros q Hq; apply Htk, Hq|split]]].
  - apply (grown_wf m _ root ps ps' p0 i0 n); try assumption.
    + intros t ws0 Et Htp Hl0. unfold linked. destruct (decide (t = t0)) as [->|Htt].
      * eexists. split; [apply lookup_insert_eq|]. rewrite length_insert. exact Hlen.
      * rewrite !lookup_insert_ne by congruence. eauto.
    + exists (replicate 512 0). split; [|apply length_replicate]. unfold linked.
      rewrite lookup_insert_ne by congruence. apply lookup_insert_eq.
  - intros w. apply (grown_tr m _ root p0 i0 (n * PAGE_SIZE)); assumption.
  - right. split; [lia|exact (gr_new _ _ _ _ _ _ Hg)].
Qed.
(** *** A store into a page table *)
Definition walk_path virt : list Z := [i4_of virt; i3_of virt; i2_of virt].

Lemma not_through_leaf virt i q : path q -> ~ through (walk_path virt) i q.
Proof. intros [_ Hl] Hth. apply prefix_length in Hth. rewrite length_app in Hth. simpl in Hth. lia. Qed.

(** The parent of a page table is not a huge entry. *)
Lemma leaf_parent m root virt pt :
  node m root (walk_path virt) = Some pt ->
  exists e2, ent m root [i4_of virt; i3_of virt] (i2_of virt) = Some e2 /\ huge e2 = false.
Proof.
  unfold walk_path. change [i4_of virt; i3_of virt; i2_of virt] with ([i4_of virt; i3_of virt] ++ [i2_of virt]).
  rewrite node_snoc. destruct (ent m root _ _) as [e2|]; [|discriminate]. simpl. unfold child.
  intros Hc. exists e2. split; [reflexivity|]. cbn [Nat.eqb andb] in Hc.
  destruct (huge e2); [rewrite andb_false_r in Hc; discriminate|reflexivity].
Qed.

Lemma leaf_store m root ps virt pt v :
  wf m root ps -> node m root (walk_path virt) = Some pt ->
  returns (st m pt (i1_of virt) v) (fun m' =>
    wf m' root ps /\
    forall x, tr m' root x =
      if vpage x =? vpage virt then
        if present v then u64 (page_bits v + Z.land x 0xFFF) else 0
      else tr m root x).
Proof.
  intros Hwf Hn. destruct (paths_of virt) as (_ & _ & _ & P3). fold (walk_path virt) in P3.
  destruct (st_changes m root ps (walk_path virt) pt (i1_of virt) v Hwf P3 Hn (i1_index virt))
    as (ws & Ew & Hlen & Est & Hc & Hld).
  rewrite Est. apply returns_Done. set (m' := <[pt := _]> m) in *.
  assert (Hnode : forall q, path q -> node m' root q = node m root q).
  { intros q Hq. apply (node_unchanged m m' root _ _ q Hc Hq), not_through_leaf, Hq. }
  split.
  - split.
    + intros q t Hq Hnt. rewrite Hnode in Hnt by exact Hq.
      destruct (wf_table _ _ _ Hwf q t Hq Hnt) as ((ws0 & Ew0 & Hl0) & Hrest). split; [|exact Hrest].
      unfold m'. destruct (decide (t = pt)) as [->|Hne].
      * rewrite lookup_insert_eq. eexists. split; [reflexivity|]. rewrite length_insert. exact Hlen.
      * rewrite lookup_insert_ne by congruence. eauto.
    + intros q q' t Hq Hq'. rewrite !Hnode by assumption. apply (wf_tree _ _ _ Hwf); assumption.
  - intros x. destruct (paths_of x) as (_ & _ & P2x & P3x). unfold tr.
    rewrite (ent_unchanged m m' root _ _ _ _ Hc P2x (i2_index x) (not_through_leaf _ _ _ P2x))
      by (intros [Hlen2 _]; discriminate).
    destruct (Z.eqb_spec (vpage x) (vpage virt)) as [E|Hne].
    + apply vpage_indices in E as (-> & -> & -> & ->).
      destruct (leaf_parent _ _ _ _ Hn) as (e2 & -> & ->).
      unfold ent. fold (walk_path virt). rewrite Hnode, Hn by exact P3. simpl. rewrite Hld. reflexivity.
    + rewrite (ent_unchanged m m' root _ _ _ _ Hc P3x (i1_index x) (not_through_leaf _ _ _ P3x));
        [reflexivity|]. unfold walk_path. intros [[= E4 E3 E2] E1]. apply Hne, vpage_indices. auto.
Qed.

(** Why a mapping is refused: a huge page covers the address, or a page for a
    table could not be allocated. *)
Definition refused m root ps' virt : Prop :=
  (exists e2, ent m root [i4_of virt; i3_of virt] (i2_of virt) = Some e2 /\ huge e2 = true) \/
  (exists ps0, pa_alloc_page ps0 = Done (0, ps')).

Lemma identity_fewer ps ps' : identity_mapped ps -> fewer ps ps' -> identity_mapped ps'.
Proof. intros Hi Hf n Hn. apply Hi, Hf, Hn. Qed.

Lemma vmm_map_page_returns m root ps virt phys flags :
  wf m root ps -> pa_ok ps -> identity_mapped ps ->
  returns (vmm_map_page root m ps virt phys flags) (fun '(ok, m', ps') =>
    wf m' root ps' /\ pa_ok ps' /\ fewer ps ps' /\
    (if (ok : bool) then
       forall x, tr m' root x = if vpage x =? vpage virt
                                then u64 (phys / 4096 * 4096 + Z.land x 0xFFF) else tr m root x
     else (forall x, tr m' root x = tr m root x) /\ refused m' root ps' virt)).
Proof.
  intros Hwf Hok Hid. destruct (paths_of virt) as (P0 & P1 & P2 & P3). unfold vmm_map_page.
  destruct (table_walk_alloc_returns m root ps [] root (i4_of virt)) as ([[r1 m1] ps1] & -> & W1);
    try assumption; [simpl; lia|apply i4_index|reflexivity|discriminate|].
  rewrite bind_Done. destruct W1 as (Hwf1 & Hok1 & Hf1 & Ht1 & [(-> & Ea)|(Hr1 & Hn1)]).
  { apply returns_Done. unfold refused. eauto 8. }
  destruct (Z.eqb_spec r1 0); [lia|]. pose proof (identity_fewer _ _ Hid Hf1) as Hid1.
  destruct (table_walk_alloc_returns m1 root ps1 [i4_of virt] r1 (i3_of virt)) as ([[r2 m2] ps2] & -> & W2);
    try assumption; [simpl; lia|apply i3_index|discriminate|].
  rewrite bind_Done. destruct W2 as (Hwf2 & Hok2 & Hf2 & Ht2 & Hr2).
  assert (Hf12 : fewer ps ps2) by (intros n0 Hn0; apply Hf1, Hf2, Hn0).
  assert (Ht12 : forall x, tr m2 root x = tr m root x) by (intros; rewrite Ht2; apply Ht1).
  destruct Hr2 as [(-> & Ea)|(Hr2 & Hn2)].
  { apply returns_Done. unfold refused. eauto 8. }
  destruct (Z.eqb_spec r2 0); [lia|]. cbn [app] in Hn2.
  destruct (walk_step m2 root ps2 _ r2 (i2_of virt) Hwf2 P2 ltac:(simpl; lia) Hn2 (i2_index virt))
    as (e & -> & Ee & _). rewrite bind_Done. destruct (huge e) eqn:Eh.
  { apply returns_Done. unfold refused. eauto 9. }
  destruct (table_walk_alloc_returns m2 root ps2 [i4_of virt; i3_of virt] r2 (i2_of virt))
    as ([[r3 m3] ps3] & -> & W3);
    try assumption; [exact (identity_fewer _ _ Hid1 Hf2)|simpl; lia|apply i2_index|intros _ e' He'; congruence|].
  rewrite bind_Done. destruct W3 as (Hwf3 & Hok3 & Hf3 & Ht3 & Hr3).
  assert (Hf13 : fewer ps ps3) by (intros n1 Hn1'; apply Hf12, Hf3, Hn1').
  assert (Ht13 : forall x, tr m3 root x = tr m root x) by (intros; rewrite Ht3; apply Ht12).
  destruct Hr3 as [(-> & Ea)|(Hr3 & Hn3)].
  { apply returns_Done. unfold refused. eauto 8. }
  destruct (Z.eqb_spec r3 0); [lia|]. cbn [app] in Hn3. fold (walk_path virt) in Hn3.
  apply returns_bind. eapply returns_mono; [exact (leaf_store m3 root ps3 virt r3 _ Hwf3 Hn3)|].
  intros m4 [Hwf4 Ht4]. apply returns_Done. split; [exact Hwf4|]. split; [exact Hok3|]. split; [exact Hf13|].
  intros x. rewrite Ht4, Ht13. destruct (leaf_entry_bits phys flags) as [-> ->]. reflexivity.
Qed.

(** A page table covers [virt]: its translation is an entry of one, not a huge page. *)
Definition has_table m root virt : Prop := is_Some (node m root (walk_path virt)).

(** What an unmapping leaves: without a page table everything as it was. *)
Definition unmapped m root ps virt (r : bool * ram) : Prop :=
  wf (snd r) root ps /\ (fst r = true <-> has_table m root virt) /\ (fst r = false -> snd r = m) /\
  forall x, tr (snd r) root x = if fst r && (vpage x =? vpage virt) then 0 else tr m root x.

Lemma unmapped_none m root ps virt : wf m root ps -> node m root (walk_path virt) = None -> unmapped m root ps virt (false, m).
Proof.
  intros Hwf Hn. split; [exact Hwf|]. split; [|auto]. unfold has_table. rewrite Hn.
  split; [discriminate|intros [? [=]]].
Qed.

Lemma vmm_unmap_page_returns m root ps virt :
  wf m root ps -> returns (vmm_unmap_page root m virt) (unmapped m root ps virt).
Proof.
  intros Hwf. destruct (paths_of virt) as (P0 & P1 & P2 & P3). unfold vmm_unmap_page.
  assert (Hno : forall p q, walk_path virt = p ++ q -> node m root p = None ->
    returns (Done (false, m)) (unmapped m root ps virt)).
  { intros p q E Hn. apply returns_Done, unmapped_none; [exact Hwf|]. rewrite E. apply node_None, Hn. }
  destruct (walk_step m root ps [] root (i4_of virt) Hwf P0 ltac:(simpl; lia) eq_refl (i4_index virt))
    as (e4 & -> & _ & N4). rewrite bind_Done. unfold child in N4. cbn [app length Nat.eqb andb] in N4.
  destruct (present e4); cbn [negb andb] in *; [|exact (Hno [_] [_; _] eq_refl N4)].
  destruct (walk_step m root ps _ _ (i3_of virt) Hwf P1 ltac:(simpl; lia) N4 (i3_index virt))
    as (e3 & -> & _ & N3). rewrite bind_Done. unfold child in N3. cbn [app length Nat.eqb andb] in N3.
  destruct (present e3); cbn [negb andb] in *; [|exact (Hno [_; _] [_] eq_refl N3)].
  destruct (walk_step m root ps _ _ (i2_of virt) Hwf P2 ltac:(simpl; lia) N3 (i2_index virt))
    as (e2 & -> & _ & N2). rewrite bind_Done. unfold child in N2. cbn [app length Nat.eqb andb] in N2.
  destruct (huge e2); cbn [negb] in N2; rewrite ?andb_false_r, ?andb_true_r in N2; [exact (Hno [_; _; _] [] eq_refl N2)|].
  destruct (present e2); cbn [negb] in *; [|exact (Hno [_; _; _] [] eq_refl N2)]. fold (walk_path virt) in N2.
  apply returns_bind. eapply returns_mono; [exact (leaf_store m root ps virt _ 0 Hwf N2)|].
  intros m' [Hwf' Ht]. apply returns_Done. split; [exact Hwf'|]. split; [|split; [discriminate|exact Ht]].
  unfold has_table. rewrite N2. split; eauto.
Qed.
End Wf.

(** ** Properties *)

(** C8: on a well-formed tree [vmm_map_page] always returns and keeps the tree
    well formed; when it returns true, [vmm_resolve] takes every address of the page
    to the same offset of the physical page, and every other address of the 48-bit
    space to what it resolved to before, whichever tables were allocated on the way;
    when it returns false no translation changed, and either a huge page covers the
    address or a page for a table was not to be had. *)
Theorem vmm_map_page_correct `{PageAllocLaws St} m root (ps : St) virt phys flags :
  wf m root ps -> pa_ok ps -> identity_mapped ps ->
  returns (vmm_map_page root m ps virt phys flags) (fun '(ok, m', ps') =>
    wf m' root ps' /\ pa_ok ps' /\ identity_mapped ps' /\
    (forall x, vmm_resolve root m' x =
       if (ok : bool) && (vpage x =? vpage virt)
       then Done (u64 (phys / 4096 * 4096 + Z.land x 0xFFF)) else vmm_resolve root m x) /\
    (ok = false -> refused m' root ps' virt)).
Proof.
  intros Hwf Hok Hid.
  eapply returns_mono; [apply (vmm_map_page_returns m root ps virt phys flags Hwf Hok Hid)|].
  intros [[ok m'] ps'] (Hwf' & Hok' & Hf & Ht). split; [exact Hwf'|]. split; [exact Hok'|].
  split; [exact (identity_fewer _ _ Hid Hf)|]. split.
  - intros x. rewrite (vmm_resolve_tr m' root ps' x Hwf'), (vmm_resolve_tr m root ps x Hwf).
    destruct ok; cbn [andb]; [rewrite Ht; destruct (_ =? _); reflexivity|].
    f_equal. apply Ht.
  - intros ->. apply Ht.
Qed.

(** C9: [vmm_unmap_page] always returns.  It returns true exactly when a page table covers
    the address, that is when the three entries on the way to it are present and the last of
    them, in the directory, is no huge page; then every address of the page resolves to 0 and
    every other address resolves as before.  When it returns false the tables are as they
    were.  The tree stays well formed. *)
Theorem vmm_unmap_page_correct `{PageAllocLaws St} m root (ps : St) virt :
  wf m root ps ->
  returns (vmm_unmap_page root m virt) (fun '(ok, m') =>
    wf m' root ps /\ (ok = true <-> has_table m root virt) /\ (ok = false -> m' = m) /\
    forall x, vmm_resolve root m' x =
      if (ok : bool) && (vpage x =? vpage virt) then Done 0 else vmm_resolve root m x).
Proof.
  intros Hwf. eapply returns_mono; [apply (vmm_unmap_page_returns m root ps virt Hwf)|].
  intros [ok m'] (Hwf' & Hok & Hno & Ht). cbn [fst snd] in *. split; [exact Hwf'|]. split; [exact Hok|].
  split; [exact Hno|]. intros x. rewrite (vmm_resolve_tr m' root ps x Hwf'), (vmm_resolve_tr m root ps x Hwf), Ht.
  destruct (ok && _); reflexivity.
Qed.

(** *** The boot tables *)
Definition table_of (e0 : Z) : list Z := <[0%nat := e0]> (replicate 512 0).
Definition boot_pd : list Z := map (fun i => Z.lor (Z.shiftl (Z.of_nat i) 21) 0x83) (seq 0 512).
Definition boot_tables : ram :=
  <[0x1000 := table_of 0x2003]> (<[0x2000 := table_of 0x3003]> (<[0x3000 := boot_pd]> ∅)).

Lemma table_of_lookup e0 i :
  is_index i -> table_of e0 !! Z.to_nat i = Some (if i =? 0 then e0 else 0).
Proof.
  unfold is_index, table_of. intros Hi. destruct (Z.eqb_spec i 0) as [->|Hne].
  - apply list_lookup_insert_eq. rewrite length_replicate. lia.
  - rewrite list_lookup_insert_ne by lia. apply lookup_replicate_2. lia.
Qed.

Lemma boot_pd_lookup i : is_index i -> boot_pd !! Z.to_nat i = Some (Z.lor (Z.shiftl i 21) 0x83).
Proof.
  unfold is_index, boot_pd. intros Hi. change (map ?f ?l) with (f <$> l).
  rewrite list_lookup_fmap, lookup_seq_lt by lia. cbn [fmap option_fmap option_map].
  replace (Z.of_nat (0 + Z.to_nat i)) with i by lia. reflexivity.
Qed.

Lemma boot_pd_huge i : huge (Z.lor (Z.shiftl i 21) 0x83) = true.
Proof. rewrite huge_bit, Z.lor_spec. apply orb_true_r. Qed.

Lemma boot_ldo i :
  is_index i ->
  ldo boot_tables 0x1000 i = Some (if i =? 0 then 0x2003 else 0) /\
  ldo boot_tables 0x2000 i = Some (if i =? 0 then 0x3003 else 0) /\
  ldo boot_tables 0x3000 i = Some (Z.lor (Z.shiftl i 21) 0x83).
Proof.
  intros Hi. unfold ldo.
  assert (boot_tables !! 0x1000 = Some (table_of 0x2003)) as -> by reflexivity.
  assert (boot_tables !! 0x2000 = Some (table_of 0x3003)) as -> by reflexivity.
  assert (boot_tables !! 0x3000 = Some boot_pd) as -> by reflexivity.
  split; [exact (table_of_lookup _ _ Hi)|]. split; [exact (table_of_lookup _ _ Hi)|exact (boot_pd_lookup _ Hi)].
Qed.

Lemma boot_nodes p t :
  path p -> node boot_tables 0x1000 p = Some t ->
  p = [] /\ t = 0x1000 \/ p = [0] /\ t = 0x2000 \/ p = [0; 0] /\ t = 0x3000.
Proof.
  intros [Hi _]. unfold node.
  destruct p as [|a p]; [intros [= <-]; auto|]. apply Forall_cons in Hi as [Ha Hi]. cbn [node_at].
  destruct (boot_ldo a Ha) as (-> & _ & _). destruct (Z.eqb_spec a 0) as [->|]; [|discriminate].
  cbn [mbind option_bind]. change (child 0 0x2003) with (Some 0x2000). cbn [mbind option_bind].
  destruct p as [|b p]; [intros [= <-]; auto|]. apply Forall_cons in Hi as [Hb Hi]. cbn [node_at].
  destruct (boot_ldo b Hb) as (_ & -> & _). destruct (Z.eqb_spec b 0) as [->|]; [|discriminate].
  cbn [mbind option_bind]. change (child 1 0x3003) with (Some 0x3000). cbn [mbind option_bind].
  destruct p as [|c p]; [intros [= <-]; auto|]. apply Forall_cons in Hi as [Hc Hi]. cbn [node_at].
  destruct (boot_ldo c Hc) as (_ & _ & ->). cbn [mbind option_bind]. unfold child.
  rewrite boot_pd_huge. rewrite andb_false_r. discriminate.
Qed.

(** Any allocator that keeps the three table pages out of its free pages fits. *)
Lemma boot_wf `{PageAllocLaws St} (ps : St) :
  (forall n, pa_free ps n -> 4 <= n) -> wf boot_tables 0x1000 ps.
Proof.
  intros Hf. split.
  - intros p t Hp Hn. destruct (boot_nodes p t Hp Hn) as [[-> ->]|[[-> ->]|[-> ->]]];
      (split; [eexists; split; [reflexivity|];
               first [unfold table_of; rewrite length_insert; apply length_replicate
                     |unfold boot_pd; rewrite length_map; apply length_seq]|]);
      (split; [reflexivity|]); (split; [lia|]); intros Hfree; apply Hf in Hfree; vm_compute in Hfree; congruence.
  - intros p q t Hp Hq E1 E2. destruct (boot_nodes p t Hp E1) as [[-> ->]|[[-> ->]|[-> ->]]],
      (boot_nodes q _ Hq E2) as [[-> Et]|[[-> Et]|[-> Et]]]; congruence.
Qed.

(** With the tables the boot loader installs, [vmm_resolve] is the identity
    on the first GiB and 0 on the rest of the lower half. *)
Theorem vmm_resolve_boot v :
  0 <= v < 2 ^ 47 ->
  vmm_resolve 0x1000 boot_tables v = Done (if v <? IDENTITY_END then v else 0).
Proof.
  intros Hv. rewrite (vmm_resolve_tr boot_tables 0x1000 (2 ^ 18 : Z) v)
    by (apply boot_wf; cbn [pa_free bump_pages]; lia).
  f_equal. unfold tr.
  assert (H4 : i4_of v = v / 2 ^ 39) by (unfold i4_of; rewrite ix_div by lia; apply Z.mod_small; Z.to_euclidean_division_equations; lia).
  assert (H3 : i3_of v = v / 2 ^ 30 mod 512) by (apply ix_div; lia).
  assert (H2 : i2_of v = v / 2 ^ 21 mod 512) by (apply ix_div; lia).
  unfold ent, node. cbn [node_at]. destruct (boot_ldo _ (i4_index v)) as (-> & _ & _). unfold IDENTITY_END.
  destruct (Z.eqb_spec (i4_of v) 0) as [E4|E4].
  2: { destruct (Z.ltb_spec v (2 ^ 30)); [|reflexivity]. exfalso. apply E4. rewrite H4. apply Z.div_small. lia. }
  cbn [mbind option_bind]. change (child 0 0x2003) with (Some 0x2000). cbn [mbind option_bind].
  destruct (boot_ldo _ (i3_index v)) as (_ & -> & _). destruct (Z.eqb_spec (i3_of v) 0) as [E3|E3].
  2: { destruct (Z.ltb_spec v (2 ^ 30)); [|reflexivity]. exfalso. apply E3. rewrite H3, Z.div_small by lia. reflexivity. }
  cbn [mbind option_bind]. change (child 1 0x3003) with (Some 0x3000). cbn [mbind option_bind].
  destruct (boot_ldo _ (i2_index v)) as (_ & _ & ->). rewrite boot_pd_huge.
  destruct (Z.ltb_spec v (2 ^ 30)).
  2: { exfalso. rewrite H4 in E4. rewrite H3 in E3. Z.to_euclidean_division_equations. lia. }
  rewrite (land_lnot_pow2 _ 21) by lia. change 0x1FFFFF with (Z.ones 21). rewrite Z.land_ones by lia.
  rewrite <- Z.shiftr_div_pow2 by lia. rewrite Z.shiftr_lor, Z.shiftr_shiftl_l by lia.
  change (Z.shiftr 0x83 21) with 0. rewrite Z.lor_0_r. change (21 - 21) with 0. rewrite Z.shiftl_0_r, H2.
  rewrite Z.mod_small by (Z.to_euclidean_division_equations; lia).
  pose proof (Z.div_mod v (2 ^ 21)). rewrite u64_small; lia.
Qed.

Lemma vmm_resolve_boot_witness : vmm_resolve 0x1000 boot_tables 0xB8123 = Done 0xB8123.
Proof. apply (vmm_resolve_boot 0xB8123). lia. Defined.

Lemma boot_premises : wf boot_tables 0x1000 (16 : Z) /\ pa_ok (16 : Z) /\ identity_mapped (16 : Z).
Proof.
  split; [apply boot_wf; cbn [pa_free bump_pages]; lia|]. split; [cbn [pa_ok bump_pages]; lia|].
  intros n Hn. cbn [pa_free bump_pages] in Hn. unfold PAGE_SIZE, IDENTITY_END. lia.
Qed.

Lemma vmm_map_page_correct_witness :
  exists m' ps', vmm_map_page 0x1000 boot_tables (16 : Z) 0x40000000 0xFEE00000 2 = Done (true, m', ps') /\
    vmm_resolve 0x1000 m' 0x40000123 = Done 0xFEE00123 /\ vmm_resolve 0x1000 m' 0x1000 = Done 0x1000.
Proof.
  destruct boot_premises as (Hwf & Hok & Hid).
  destruct (vmm_map_page_correct boot_tables 0x1000 (16 : Z) 0x40000000 0xFEE00000 2 Hwf Hok Hid)
    as ([[ok m'] ps'] & E & _ & _ & _ & Hr & _).
  assert (ok = true) as ->.
  { apply (f_equal (fun r => match r with Done (b, _, _) => b | _ => false end)) in E.
    vm_compute in E. symmetry. exact E. }
  exists m', ps'. split; [exact E|]. split; rewrite Hr; vm_compute; reflexivity.
Defined.

(** A page is mapped next to the identity map and unmapped again; one inside a huge page of
    the boot tables is refused. *)
Lemma vmm_unmap_page_correct_witness :
  exists m1 ps1 m2 m3, vmm_map_page 0x1000 boot_tables (16 : Z) 0x40000000 0xFEE00000 2 = Done (true, m1, ps1) /\
    vmm_resolve 0x1000 m1 0x40000123 = Done 0xFEE00123 /\
    vmm_unmap_page 0x1000 m1 0x40000000 = Done (true, m2) /\
    vmm_resolve 0x1000 m2 0x40000123 = Done 0 /\ vmm_resolve 0x1000 m2 0x1000 = Done 0x1000 /\
    vmm_unmap_page 0x1000 m2 0x1000 = Done (false, m3) /\ m3 = m2.
Proof.
  destruct boot_premises as (Hwf & Hok & Hid).
  destruct (vmm_map_page_returns boot_tables 0x1000 (16 : Z) 0x40000000 0xFEE00000 2 Hwf Hok Hid)
    as ([[ok m1] ps1] & E & Hwf1 & _).
  pose proof E as Ev. vm_compute in Ev. injection Ev as <- Em <-.
  destruct (vmm_unmap_page_correct m1 0x1000 _ 0x40000000 Hwf1) as ([ok2 m2] & E2 & Hwf2 & _ & _ & Hr).
  pose proof E2 as Ev. rewrite <- Em in Ev. vm_compute in Ev. injection Ev as <- Em2.
  destruct (vmm_unmap_page_correct m2 0x1000 _ 0x1000 Hwf2) as ([ok3 m3] & E3 & _ & _ & Hno & _).
  assert (ok3 = false) as ->.
  { apply (f_equal (fun r => match r with Done (b, _) => b | _ => true end)) in E3.
    rewrite <- Em2 in E3. vm_compute in E3. symmetry. exact E3. }
  do 2 eexists. exists m2, m3. split; [exact E|]. split; [rewrite <- Em; vm_compute; reflexivity|].
  split; [exact E2|]. split; [rewrite Hr; reflexivity|]. split; [|split; [exact E3|exact (Hno eq_refl)]].
  rewrite Hr, <- Em. vm_compute. reflexivity.
Defined.
