(* ===== verification/Sync.v ===== *)
(** * Spinlocks, semaphores and mutexes: [kernel/sync/sync.c]

    First the spinlock run by one thread, as its single-threaded callers use it;
    then the interleaving semantics: a thread is the point it has reached in an
    operation, a step is one atomic access to the shared object by one thread, and
    a run is any sequence of steps of any threads. *)
From Stdlib Require Import ZArith Lia Bool.
From stdpp Require Import base tactics option list numbers.
From S2P Require Import Prelude CInt.

(** ** The spinlock, run alone

    [locked] is the field of [spinlock_t]. *)
Definition spinlock_init (locked : Z) : Z := 0.

(** [while (test_and_set(&locked, 1)) while (locked) pause();] *)
Definition spin_lock (fuel : nat) (locked : Z) : outcome Z :=
  loop fuel (fun l =>
    if l =? 0 then mret (inr 1)
    else
      l' ← loop fuel (fun l => mret (if l =? 0 then inr l else inl l)) 1;
      mret (inl l')) locked.

Definition spin_trylock (locked : Z) : bool * Z := (locked =? 0, 1).

Definition spin_unlock (locked : Z) : Z := 0.

Lemma spin_lock_free fuel : (0 < fuel)%nat -> spin_lock fuel 0 = Done 1.
Proof. intros Hf. destruct fuel; [lia|]. reflexivity. Qed.

Lemma spin_lock_held fuel l : l <> 0 -> spin_lock fuel l = Spin.
Proof.
  intros Hl. assert (Hin : forall k, loop k (fun l => mret (if l =? 0 then inr l else inl l)) 1 = @Spin Z).
  { intros k. apply (loop_spin (fun l => l = 1)); [|reflexivity].
    intros s ->. apply returns_Done. exists 1. auto. }
  unfold spin_lock. destruct fuel as [|f]; [reflexivity|]. specialize (Hin (S f)).
  cbn [loop] in *. destruct (Z.eqb_spec l 0); [lia|]. rewrite Hin. reflexivity.
Qed.

(** ** The lock invariant of a program whose threads are at the points [pcs] *)
Section LockInvariant.
Context {Pc : Type} (holds : Pc -> bool).
Implicit Types (pcs : list Pc) (t : nat).

(** The lock word says whether a thread is in a critical section, and at most
    one is. *)
Definition lock_inv (locked : Z) pcs : Prop :=
  (locked = 0 /\ forall t pc, pcs !! t = Some pc -> holds pc = false) \/
  (locked = 1 /\ exists t0, (t0 < length pcs)%nat /\
     forall t pc, pcs !! t = Some pc -> (holds pc = true <-> t = t0)).

Lemma update_lookup pcs t pc' i q :
  (t < length pcs)%nat -> <[t := pc']> pcs !! i = Some q ->
  i = t /\ q = pc' \/ i <> t /\ pcs !! i = Some q.
Proof.
  intros Ht Hi. destruct (decide (i = t)) as [->|Hne].
  - rewrite list_lookup_insert_eq in Hi by exact Ht. left. split; [reflexivity|congruence].
  - rewrite list_lookup_insert_ne in Hi by congruence. right. auto.
Qed.

Lemma lock_inv_stay locked pcs t pc pc' :
  lock_inv locked pcs -> pcs !! t = Some pc -> holds pc' = holds pc ->
  lock_inv locked (<[t := pc']> pcs).
Proof.
  intros Hinv Ht Heq. pose proof (lookup_lt_Some _ _ _ Ht) as Hlt.
  destruct Hinv as [[-> Hno]|(-> & t0 & Ht0 & Hone)]; [left|right]; (split; [reflexivity|]).
  - intros i q Hi. destruct (update_lookup _ _ _ _ _ Hlt Hi) as [[-> ->]|[_ Hi']].
    + rewrite Heq. exact (Hno _ _ Ht).
    + exact (Hno _ _ Hi').
  - exists t0. rewrite length_insert. split; [exact Ht0|]. intros i q Hi.
    destruct (update_lookup _ _ _ _ _ Hlt Hi) as [[-> ->]|[_ Hi']].
    + rewrite Heq. exact (Hone _ _ Ht).
    + exact (Hone _ _ Hi').
Qed.

Lemma lock_inv_acquire pcs t pc pc' :
  lock_inv 0 pcs -> pcs !! t = Some pc -> holds pc' = true -> lock_inv 1 (<[t := pc']> pcs).
Proof.
  intros Hinv Ht Hh. pose proof (lookup_lt_Some _ _ _ Ht) as Hlt.
  destruct Hinv as [[_ Hno]|(E & _)]; [|discriminate]. right. split; [reflexivity|].
  exists t. rewrite length_insert. split; [exact Hlt|]. intros i q Hi.
  destruct (update_lookup _ _ _ _ _ Hlt Hi) as [[-> ->]|[Hne Hi']]; [tauto|].
  rewrite (Hno _ _ Hi'). split; [discriminate|tauto].
Qed.

Lemma lock_inv_holder locked pcs t pc :
  lock_inv locked pcs -> pcs !! t = Some pc -> holds pc = true ->
  locked = 1 /\ forall i q, pcs !! i = Some q -> (holds q = true <-> i = t).
Proof.
  intros Hinv Ht Hh. destruct Hinv as [[_ Hno]|(-> & t0 & _ & Hone)].
  - rewrite (Hno _ _ Ht) in Hh. discriminate.
  - split; [reflexivity|]. apply (Hone _ _ Ht) in Hh as ->. exact Hone.
Qed.

Lemma lock_inv_release locked pcs t pc pc' :
  lock_inv locked pcs -> pcs !! t = Some pc -> holds pc = true -> holds pc' = false ->
  lock_inv 0 (<[t := pc']> pcs).
Proof.
  intros Hinv Ht Hh Hn. pose proof (lookup_lt_Some _ _ _ Ht) as Hlt.
  destruct (lock_inv_holder _ _ _ _ Hinv Ht Hh) as [_ Hone]. left. split; [reflexivity|].
  intros i q Hi. destruct (update_lookup _ _ _ _ _ Hlt Hi) as [[-> ->]|[Hne Hi']]; [exact Hn|].
  destruct (holds q) eqn:E; [|reflexivity]. apply (Hone _ _ Hi') in E. congruence.
Qed.
End LockInvariant.

(** ** Semaphores *)
Module Semaphore.
Inductive op := Wait | Post.

(** Where a thread is: outside; at the [test_and_set] or in the inner loop of
    [spin_lock]; at the load of [count]; at the store of the value computed from
    it; at [spin_unlock], after which the operation returns or tries again. *)
Inductive pc :=
  | Outside
  | Acquire (o : op)
  | Spinning (o : op)
  | Load (o : op)
  | Store (o : op) (v : Z)
  | Release (o : op) (return_ : bool).

Record sem := mk_sem { count : Z; locked : Z }.

(** [semaphore_init] *)
Definition semaphore_init (value : Z) : sem := mk_sem value (spinlock_init 0).

(** One atomic access of a thread at [p]; [o] is the operation it calls next
    when it is outside.  [semaphore_wait] reads [count] twice, for the test and for the
    decrement; both are behind the lock, which every store of [count] is behind as well,
    and are one step here. *)
Definition thread_step (o : op) (s : sem) (p : pc) : sem * pc :=
  match p with
  | Outside => (s, Acquire o)
  | Acquire o => (mk_sem (count s) 1, if locked s =? 0 then Load o else Spinning o)
  | Spinning o => (s, if locked s =? 0 then Acquire o else Spinning o)
  | Load Wait => (s, if 0 <? count s then Store Wait (i32 (count s - 1)) else Release Wait false)
  | Load Post => (s, Store Post (i32 (count s + 1)))
  | Store o v => (mk_sem v (locked s), Release o true)
  | Release o r => (mk_sem (count s) 0, if (r : bool) then Outside else Acquire o)
  end.

(** The whole system, with the number of waits and posts that have stored. *)
Record sys := mk_sys { shared : sem; pcs : list pc; waits : Z; posts : Z }.

Definition stored (p : pc) (o : op) : Z :=
  match p, o with Store Wait _, Wait | Store Post _, Post => 1 | _, _ => 0 end.

(** Thread [t] makes a step; a thread that does not exist does nothing. *)
Definition sys_step (s : sys) (t : nat) (o : op) : sys :=
  match pcs s !! t with
  | None => s
  | Some p =>
      let '(m, p') := thread_step o (shared s) p in
      mk_sys m (<[t := p']> (pcs s)) (waits s + stored p Wait) (posts s + stored p Post)
  end.

Definition run (s : sys) (sched : list (nat * op)) : sys :=
  fold_left (fun s '(t, o) => sys_step s t o) sched s.

Definition start (value : Z) (n : nat) : sys :=
  mk_sys (semaphore_init value) (replicate n Outside) 0 0.

Definition holds (p : pc) : bool :=
  match p with Load _ | Store _ _ | Release _ _ => true | _ => false end.

(** A thread about to store holds the value that follows from [count]. *)
Definition store_ok (c : Z) (p : pc) : Prop :=
  match p with
  | Store Wait v => 0 < c /\ v = c - 1
  | Store Post v => v = i32 (c + 1)
  | _ => True
  end.

Record inv (init : Z) (s : sys) : Prop := {
  inv_lock : lock_inv holds (locked (shared s)) (pcs s);
  inv_store : Forall (store_ok (count (shared s))) (pcs s);
  inv_count : count (shared s) = init + posts s - waits s;
  inv_nonneg : 0 <= count (shared s) < 2 ^ 31;
  inv_hist : 0 <= posts s /\ 0 <= waits s
}.

Lemma start_inv init n : 0 <= init < 2 ^ 31 -> inv init (start init n).
Proof.
  intros Hi. split; cbn [shared pcs start semaphore_init count locked waits posts].
  - left. split; [reflexivity|]. intros t p Hp. apply lookup_replicate in Hp as [-> _]. reflexivity.
  - apply Forall_replicate. exact I.
  - lia.
  - lia.
  - lia.
Qed.

(** The other threads' stores are not pending while a thread holds the lock. *)
Lemma others_no_store c c' s t p p' :
  lock_inv holds (locked (shared s)) (pcs s) -> pcs s !! t = Some p -> holds p = true ->
  Forall (store_ok c) (pcs s) -> store_ok c' p' ->
  Forall (store_ok c') (<[t := p']> (pcs s)).
Proof.
  intros Hl Ht Hh Hs Hp'. destruct (lock_inv_holder _ _ _ _ _ Hl Ht Hh) as [_ Hone].
  apply Forall_lookup_2. intros i q Hi.
  destruct (update_lookup _ _ _ _ _ (lookup_lt_Some _ _ _ Ht) Hi) as [[-> ->]|[Hne Hi']]; [exact Hp'|].
  destruct q as [| | | |o v|]; try exact I. exfalso. apply Hne, (Hone _ _ Hi'). reflexivity.
Qed.

Lemma step_inv init s t o :
  inv init s -> posts s < 2 ^ 31 - 1 - init -> inv init (sys_step s t o).
Proof.
  intros [Hl Hs Hc Hn Hh] Hmax. unfold sys_step. destruct (pcs s !! t) as [p|] eqn:Ht; [|split; assumption].
  assert (Hsp : store_ok (count (shared s)) p) by exact (Forall_lookup_1 _ _ _ _ Hs Ht).
  assert (Hset : forall q, store_ok (count (shared s)) q -> Forall (store_ok (count (shared s))) (<[t := q]> (pcs s)))
    by (intros; apply Forall_insert; assumption).
  assert (Hr : count (shared s) < 2 ^ 31 - 1) by lia.
  destruct p as [|o'|o'|[|]|o' v|o' r]; cbn [thread_step].
  - split; cbn [shared pcs waits posts stored]; [|apply Hset; exact I|lia|exact Hn|lia].
    exact (lock_inv_stay holds _ _ _ Outside (Acquire o) Hl Ht eq_refl).
  - split; cbn [shared pcs waits posts stored count locked];
      [|apply Hset; destruct (_ =? 0); [destruct o'|]; exact I|lia|exact Hn|lia].
    destruct (Z.eqb_spec (locked (shared s)) 0) as [E|E].
    + rewrite E in Hl. exact (lock_inv_acquire holds _ _ (Acquire o') (Load o') Hl Ht eq_refl).
    + assert (locked (shared s) = 1) as E1 by (destruct Hl as [[? _]|[? _]]; lia). rewrite E1 in Hl.
      exact (lock_inv_stay holds _ _ _ (Acquire o') (Spinning o') Hl Ht eq_refl).
  - split; cbn [shared pcs waits posts stored]; [|apply Hset; destruct (_ =? 0); exact I|lia|exact Hn|lia].
    destruct (_ =? 0); eapply lock_inv_stay; try exact Hl; try exact Ht; reflexivity.
  - split; cbn [shared pcs waits posts stored];
      [destruct (_ <? _); eapply lock_inv_stay; try exact Hl; try exact Ht; reflexivity| |lia|exact Hn|lia].
    apply Hset. destruct (Z.ltb_spec 0 (count (shared s))); [|exact I].
    cbn [store_ok]. rewrite i32_small by lia. lia.
  - split; cbn [shared pcs waits posts stored];
      [eapply lock_inv_stay; [exact Hl|exact Ht|reflexivity]|apply Hset; reflexivity|lia|exact Hn|lia].
  - assert (Hv : v = count (shared s) + stored (Store o' v) Post - stored (Store o' v) Wait /\ 0 <= v < 2 ^ 31).
    { destruct o'; cbn [stored store_ok] in *; [lia|]. rewrite i32_small in Hsp by lia. lia. }
    split; cbn [shared pcs waits posts count locked];
      [eapply lock_inv_stay; [exact Hl|exact Ht|reflexivity]| |lia|lia|destruct o'; cbn [stored]; lia].
    apply (others_no_store (count (shared s)) v s t (Store o' v)); try assumption; [reflexivity|exact I].
  - split; cbn [shared pcs waits posts stored count locked];
      [|apply Hset; destruct r; exact I|lia|exact Hn|lia].
    eapply (lock_inv_release holds); [exact Hl|exact Ht|reflexivity|destruct r; reflexivity].
Qed.

Lemma posts_step s t o : posts s <= posts (sys_step s t o) <= posts s + 1.
Proof.
  unfold sys_step. destruct (pcs s !! t) as [p|]; [|lia].
  destruct (thread_step o (shared s) p) as [m p']. cbn [posts]. destruct p as [| | | |[|]|]; cbn [stored]; lia.
Qed.

Lemma run_inv init sched : forall s,
  inv init s -> posts s + Z.of_nat (length sched) < 2 ^ 31 - init -> inv init (run s sched).
Proof.
  induction sched as [|[t o] sched IH]; intros s Hs Hl; cbn [run fold_left length] in *; [exact Hs|].
  apply IH; [apply step_inv; [exact Hs|lia]|]. pose proof (posts_step s t o). lia.
Qed.

(** ** Properties *)

(** C17: in every interleaving of any number of threads that call
    [semaphore_wait] and [semaphore_post], at most one thread is between the
    acquisition and the release of the semaphore's spinlock, and [count] is the
    initial value plus the posts less the waits that went through, which is never
    negative: no more waits go through than there were units (as long as fewer
    than 2^31 units exist). *)
Theorem semaphore_counts init n sched :
  0 <= init -> init + Z.of_nat (length sched) < 2 ^ 31 ->
  let s := run (start init n) sched in
  count (shared s) = init + posts s - waits s /\ 0 <= count (shared s) /\
  waits s <= init + posts s /\
  (forall t1 t2 p1 p2, pcs s !! t1 = Some p1 -> pcs s !! t2 = Some p2 ->
     holds p1 = true -> holds p2 = true -> t1 = t2).
Proof.
  intros Hi Hl s. destruct (run_inv init sched (start init n)) as [Hlock _ Hc Hn _].
  - apply start_inv. lia.
  - cbn [start posts]. lia.
  - fold s in Hlock, Hc, Hn. split; [exact Hc|]. split; [lia|]. split; [lia|].
    intros t1 t2 p1 p2 H1 H2 Hh1 Hh2.
    destruct (lock_inv_holder _ _ _ _ _ Hlock H1 Hh1) as [_ Hone]. symmetry. exact (proj1 (Hone _ _ H2) Hh2).
Qed.

(** Two waiters and one unit: one goes through. *)
Lemma semaphore_counts_witness :
  let s := run (start 1 2) (concat (replicate 8 [(0%nat, Wait); (1%nat, Wait)])) in
  count (shared s) = 0 /\ waits s = 1 /\ 0 <= count (shared s).
Proof.
  intros s. split; [vm_compute; reflexivity|]. split; [vm_compute; reflexivity|].
  apply (semaphore_counts 1 2 (concat (replicate 8 [(0%nat, Wait); (1%nat, Wait)])) ltac:(lia) ltac:(vm_compute; reflexivity)).
Defined.
End Semaphore.

(** ** Mutexes *)
Module Mutex.
Inductive op := Lock | Unlock.

(** As for semaphores; a thread inside is between the return of [mutex_lock] and
    its call of [mutex_unlock]. *)
Inductive pc :=
  | Outside
  | Inside
  | Acquire (o : op)
  | Spinning (o : op)
  | Test (o : op)
  | Store (o : op)
  | Release (o : op) (return_ : bool).

Record mutex := mk_mutex { state : Z; locked : Z }.

(** [mutex_init] *)
Definition mutex_init : mutex := mk_mutex 0 (spinlock_init 0).

(** A thread locks when it is outside and unlocks when it is inside. *)
Definition thread_step (m : mutex) (p : pc) : mutex * pc :=
  match p with
  | Outside => (m, Acquire Lock)
  | Inside => (m, Acquire Unlock)
  | Acquire o => (mk_mutex (state m) 1, if locked m =? 0 then Test o else Spinning o)
  | Spinning o => (m, if locked m =? 0 then Acquire o else Spinning o)
  | Test Lock => (m, if state m =? 0 then Store Lock else Release Lock false)
  | Test Unlock => (m, Store Unlock)
  | Store o => (mk_mutex (match o with Lock => 1 | Unlock => 0 end) (locked m), Release o true)
  | Release o r =>
      (mk_mutex (state m) 0,
       if (r : bool) then match o with Lock => Inside | Unlock => Outside end else Acquire o)
  end.

Record sys := mk_sys { shared : mutex; pcs : list pc }.

Definition sys_step (s : sys) (t : nat) : sys :=
  match pcs s !! t with
  | None => s
  | Some p => let '(m, p') := thread_step (shared s) p in mk_sys m (<[t := p']> (pcs s))
  end.

Definition run (s : sys) (sched : list nat) : sys := fold_left sys_step sched s.

Definition start (n : nat) : sys := mk_sys mutex_init (replicate n Outside).

Definition holds (p : pc) : bool :=
  match p with Test _ | Store _ | Release _ _ => true | _ => false end.

(** A thread that owns the mutex: its lock went through, its unlock not yet. *)
Definition owns (p : pc) : bool :=
  match p with
  | Inside | Acquire Unlock | Spinning Unlock | Test Unlock | Store Unlock => true
  | Release Lock r => r
  | _ => false
  end.

Record inv (s : sys) : Prop := {
  inv_lock : lock_inv holds (locked (shared s)) (pcs s);
  inv_owner : lock_inv owns (state (shared s)) (pcs s);
  inv_store : forall t, pcs s !! t = Some (Store Lock) -> state (shared s) = 0;
  inv_rel : forall t, pcs s !! t <> Some (Release Unlock false)
}.

Lemma mutex_start_inv n : inv (start n).
Proof.
  split; cbn [shared pcs start mutex_init locked state].
  - left. split; [reflexivity|]. intros t p Hp. apply lookup_replicate in Hp as [-> _]. reflexivity.
  - left. split; [reflexivity|]. intros t p Hp. apply lookup_replicate in Hp as [-> _]. reflexivity.
  - intros t Hp. apply lookup_replicate in Hp as [[=] _].
  - intros t Hp. apply lookup_replicate in Hp as [[=] _].
Qed.

(** A step that neither stores to [state] nor changes who owns it. *)
Lemma quiet_step s t p p' l' :
  inv s -> pcs s !! t = Some p ->
  lock_inv holds l' (<[t := p']> (pcs s)) -> owns p' = owns p ->
  (p' = Store Lock -> state (shared s) = 0) -> p' <> Release Unlock false ->
  inv (mk_sys (mk_mutex (state (shared s)) l') (<[t := p']> (pcs s))).
Proof.
  intros [_ Ho Hs Hr] Ht Hl Heq Hst Hrel. pose proof (lookup_lt_Some _ _ _ Ht) as Hlt.
  split; cbn [shared pcs state locked].
  - exact Hl.
  - exact (lock_inv_stay owns _ _ _ _ _ Ho Ht Heq).
  - intros i Hi. destruct (update_lookup _ _ _ _ _ Hlt Hi) as [[_ E]|[_ Hi']]; [auto|exact (Hs _ Hi')].
  - intros i Hi. destruct (update_lookup _ _ _ _ _ Hlt Hi) as [[_ E]|[_ Hi']]; [congruence|exact (Hr _ Hi')].
Qed.

(** A store, by the holder of the spinlock. *)
Lemma store_step s t o :
  inv s -> pcs s !! t = Some (Store o) ->
  inv (mk_sys (mk_mutex (match o with Lock => 1 | Unlock => 0 end) (locked (shared s)))
              (<[t := Release o true]> (pcs s))).
Proof.
  intros [Hl Ho Hs Hr] Ht. pose proof (lookup_lt_Some _ _ _ Ht) as Hlt.
  destruct (lock_inv_holder _ _ _ _ _ Hl Ht eq_refl) as [_ Hone].
  split; cbn [shared pcs state locked].
  - eapply lock_inv_stay; [exact Hl|exact Ht|reflexivity].
  - destruct o.
    + rewrite (Hs _ Ht) in Ho. exact (lock_inv_acquire owns _ _ _ (Release Lock true) Ho Ht eq_refl).
    + eapply (lock_inv_release owns); [exact Ho|exact Ht|reflexivity|reflexivity].
  - intros i Hi. exfalso. destruct (update_lookup _ _ _ _ _ Hlt Hi) as [[_ E]|[Hne Hi']]; [discriminate|].
    apply Hne, (Hone _ _ Hi'). reflexivity.
  - intros i Hi. destruct (update_lookup _ _ _ _ _ Hlt Hi) as [[_ E]|[_ Hi']]; [discriminate|exact (Hr _ Hi')].
Qed.

Lemma mutex_step_inv s t : inv s -> inv (sys_step s t).
Proof.
  intros Hinv. pose proof Hinv as [Hl Ho Hs Hr]. unfold sys_step.
  destruct (pcs s !! t) as [p|] eqn:Ht; [|exact Hinv].
  assert (Hq : forall p', holds p' = holds p -> owns p' = owns p ->
            (p' = Store Lock -> state (shared s) = 0) -> p' <> Release Unlock false ->
            inv (mk_sys (shared s) (<[t := p']> (pcs s)))).
  { intros p' Hh Hown Hst Hrel.
    replace (shared s) with (mk_mutex (state (shared s)) (locked (shared s))) by (destruct (shared s); reflexivity).
    apply (quiet_step s t p p' _ Hinv Ht); try assumption. exact (lock_inv_stay holds _ _ _ _ _ Hl Ht Hh). }
  destruct p as [| |o|o|[|]|o|o r]; cbn [thread_step].
  - apply Hq; first [reflexivity|discriminate].
  - apply Hq; first [reflexivity|discriminate].
  - destruct (Z.eqb_spec (locked (shared s)) 0) as [E|E];
      apply (quiet_step s t _ _ 1 Hinv Ht); try (destruct o; reflexivity); try discriminate.
    + rewrite E in Hl. exact (lock_inv_acquire holds _ _ _ (Test o) Hl Ht eq_refl).
    + assert (locked (shared s) = 1) as E1 by (destruct Hl as [[? _]|[? _]]; lia). rewrite E1 in Hl.
      exact (lock_inv_stay holds _ _ _ _ (Spinning o) Hl Ht eq_refl).
  - destruct (_ =? 0); apply Hq; try reflexivity; try discriminate; destruct o; reflexivity.
  - destruct (Z.eqb_spec (state (shared s)) 0); apply Hq; try reflexivity; try discriminate; auto.
  - apply Hq; first [reflexivity|discriminate].
  - exact (store_step s t o Hinv Ht).
  - apply (quiet_step s t _ _ 0 Hinv Ht).
    + eapply (lock_inv_release holds); [exact Hl|exact Ht|reflexivity|destruct r, o; reflexivity].
    + destruct r, o; try reflexivity. exfalso. exact (Hr _ Ht).
    + destruct r, o; discriminate.
    + destruct r, o; discriminate.
Qed.

Lemma mutex_run_inv sched : forall s, inv s -> inv (run s sched).
Proof. induction sched as [|t sched IH]; intros s Hs; [exact Hs|]. apply IH, mutex_step_inv, Hs. Qed.

(** C18: in every interleaving of any number of threads that lock and unlock a
    mutex in turn, at most one thread is between the return of [mutex_lock] and
    its [mutex_unlock], and [state] is 1 exactly while one thread owns the mutex. *)
Theorem mutex_excludes n sched t1 p1 :
  pcs (run (start n) sched) !! t1 = Some p1 -> owns p1 = true ->
  state (shared (run (start n) sched)) = 1 /\
  forall t2 p2, pcs (run (start n) sched) !! t2 = Some p2 -> owns p2 = true -> t2 = t1.
Proof.
  intros H1 Ho1. destruct (mutex_run_inv sched (start n) (mutex_start_inv n)) as [_ Ho _ _].
  destruct (lock_inv_holder _ _ _ _ _ Ho H1 Ho1) as [Hst Hone]. split; [exact Hst|].
  intros t2 p2 H2 Ho2. exact (proj1 (Hone _ _ H2) Ho2).
Qed.

(** Thread 1 gets in while thread 0 tries. *)
Lemma mutex_excludes_witness :
  state (shared (run (start 2) [0; 1; 1; 0; 1; 1; 1; 0; 0; 0; 0])%nat) = 1.
Proof.
  refine (proj1 (mutex_excludes 2 [0; 1; 1; 0; 1; 1; 1; 0; 0; 0; 0]%nat 1 Inside _ _)); vm_compute; reflexivity.
Defined.
End Mutex.

(** [spin_lock] excludes, also against the processor that holds the lock: a
    second [spin_lock] before the [spin_unlock], as an interrupt handler would make,
    never returns; after [spin_unlock] the lock is free again. *)
Theorem spin_lock_not_reentrant fuel fuel' :
  (0 < fuel)%nat ->
  (l ← spin_lock fuel 0; spin_lock fuel' l) = Spin /\
  (l ← spin_lock fuel 0; mret (spin_unlock l)) = Done 0.
Proof.
  intros Hf. rewrite spin_lock_free by exact Hf. rewrite !bind_Done. split; [|reflexivity].
  apply spin_lock_held. lia.
Qed.

Lemma spin_lock_not_reentrant_witness : (l ← spin_lock 1 0; spin_lock 1000 l) = Spin.
Proof. apply (spin_lock_not_reentrant 1 1000). lia. Defined.
