(* ===== verification/Sched.v ===== *)
(** * Scheduler: [kernel/core/sched.c]

    The task table is a list of 64 tasks; a [task_t*] is the index of its slot, or
    [None] for NULL; the ready queue is linked through the tasks as in the code.  The
    scheduler's spinlock is that of [Sync.v], run by one thread. *)
From Stdlib Require Import ZArith Lia Bool String.
From stdpp Require Import base tactics option list numbers gmap.
From S2P Require Import Prelude CInt CString Sync.
#[local] Close Scope string_scope.
#[local] Open Scope Z_scope.

(** ** State *)
Definition MAX_TASKS : Z := 64.
Definition TASK_NAME : Z := 32.

Inductive task_state := TASK_READY | TASK_RUNNING | TASK_BLOCKED | TASK_DEAD.

#[export] Instance task_state_eq_dec : EqDecision task_state.
Proof. solve_decision. Defined.

Record task := mk_task {
  id : Z;
  name : list Z;
  state : task_state;
  ticks : Z;
  entry : Z;
  arg : Z;
  next : option nat
}.

(** The task of [memset(t, 0, sizeof( *t))]. *)
Definition zero_task : task := mk_task 0 (replicate 32 0) TASK_READY 0 0 0 None.

Definition set_state (x : task_state) (t : task) : task :=
  mk_task (id t) (name t) x (ticks t) (entry t) (arg t) (next t).
Definition set_next (x : option nat) (t : task) : task :=
  mk_task (id t) (name t) (state t) (ticks t) (entry t) (arg t) x.
Definition set_ticks (x : Z) (t : task) : task :=
  mk_task (id t) (name t) (state t) x (entry t) (arg t) (next t).

Record sched := mk_sched {
  tasks : list task;
  current : option nat;
  ready_q : option nat;
  next_id : Z;
  task_count : Z;
  sched_lock : Z
}.

Definition set_tasks (x : list task) (s : sched) : sched :=
  mk_sched x (current s) (ready_q s) (next_id s) (task_count s) (sched_lock s).
Definition set_current (x : option nat) (s : sched) : sched :=
  mk_sched (tasks s) x (ready_q s) (next_id s) (task_count s) (sched_lock s).
Definition set_ready (x : option nat) (s : sched) : sched :=
  mk_sched (tasks s) (current s) x (next_id s) (task_count s) (sched_lock s).
Definition set_lock (x : Z) (s : sched) : sched :=
  mk_sched (tasks s) (current s) (ready_q s) (next_id s) (task_count s) x.

Definition task_at (s : sched) (i : nat) : outcome task :=
  match tasks s !! i with Some t => Done t | None => Fault end.
Definition upd (s : sched) (i : nat) (f : task -> task) : outcome sched :=
  t ← task_at s i; mret (set_tasks (<[i := f t]> (tasks s)) s).

(** ** Operations *)

(** The search for a slot. *)
Definition find_slot (s : sched) : outcome (option nat) :=
  r ← for_ret 0 MAX_TASKS (fun i (u : unit) =>
        t ← task_at s (Z.to_nat i);
        mret (if bool_decide (state t = TASK_DEAD) || (id t =? 0)
              then inr (Z.to_nat i) else inl u)) tt;
  mret (match r with inl _ => None | inr i => Some i end).

Definition new_task (s : sched) (nm : option (list Z)) (entry arg : Z) : task :=
  mk_task (next_id s)
    (strncpy_arr (name zero_task) (default (chars "task") nm) (Z.to_nat (TASK_NAME - 1)))
    TASK_READY 0 entry arg (ready_q s).

(** [nm] is [None] for a NULL name; [entry] and [arg] are addresses. *)
Definition sched_create (fuel : nat) (s : sched) (nm : option (list Z)) (entry arg : Z)
    : outcome (option nat * sched) :=
  l ← spin_lock fuel (sched_lock s);
  let s := set_lock l s in
  slot ← find_slot s;
  match slot with
  | None => mret (None, set_lock (spin_unlock (sched_lock s)) s)
  | Some i =>
      s1 ← upd s i (fun _ => new_task s nm entry arg);
      mret (Some i, mk_sched (tasks s1) (current s1) (Some i) (u32 (next_id s1 + 1))
                             (u32 (task_count s1 + 1)) (spin_unlock (sched_lock s1)))
  end.

Definition sched_init (fuel : nat) : outcome sched :=
  let s := mk_sched (replicate (Z.to_nat MAX_TASKS) zero_task) None None 1 0 (spinlock_init 0) in
  '(idle, s1) ← sched_create fuel s (Some (chars "kernel-idle")) 0 0;
  match idle with
  | Some i => s2 ← upd s1 i (set_state TASK_RUNNING); mret (set_current (Some i) s2)
  | None => mret s1
  end.

(** A [task_t**]: [&ready_q], or [&tasks[i].next]. *)
Definition slot_get (s : sched) (sl : option nat) : outcome (option nat) :=
  match sl with None => mret (ready_q s) | Some i => t ← task_at s i; mret (next t) end.
Definition slot_set (s : sched) (sl : option nat) (p : option nat) : outcome sched :=
  match sl with None => mret (set_ready p s) | Some i => upd s i (set_next p) end.

(** [while ( *tail) tail = &( *tail)->next] from [tail = &ready_q]. *)
Definition find_tail (fuel : nat) (s : sched) : outcome (option nat) :=
  loop fuel (fun tail =>
    p ← slot_get s tail;
    mret (match p with Some i => inl (Some i) | None => inr tail end)) None.

Definition upd_opt (s : sched) (p : option nat) (f : task -> task) : outcome sched :=
  match p with Some c => upd s c f | None => mret s end.

(** [current && current->state != TASK_DEAD] *)
Definition current_alive (s : sched) : outcome bool :=
  match current s with
  | Some c => t ← task_at s c; mret (negb (bool_decide (state t = TASK_DEAD)))
  | None => mret false
  end.

(** The running task goes to the tail of the queue. *)
Definition requeue (fuel : nat) (s : sched) : outcome sched :=
  alive ← current_alive s;
  if (alive : bool) then
    s1 ← upd_opt s (current s) (set_next None);
    tail ← find_tail fuel s1;
    slot_set s1 tail (current s1)
  else mret s.

Definition sched_yield (fuel : nat) (s : sched) : outcome sched :=
  l ← spin_lock fuel (sched_lock s);
  let s := set_lock l s in
  s1 ← upd_opt s (current s) (set_state TASK_READY);
  s2 ← match ready_q s1 with
       | None => mret s1
       | Some nx =>
           t ← task_at s1 nx;
           s3 ← requeue fuel (set_ready (next t) s1);
           s4 ← upd (set_current (Some nx) s3) nx (set_state TASK_RUNNING);
           upd s4 nx (set_next None)
       end;
  mret (set_lock (spin_unlock (sched_lock s2)) s2).

Definition sched_tick (s : sched) : outcome sched :=
  upd_opt s (current s) (fun t => set_ticks (u64 (ticks t + 1)) t).

Definition sched_current (s : sched) : option nat := current s.
Definition sched_task_count (s : sched) : Z := task_count s.

(** ** The ready queue as a list *)

(** The tasks [q] are linked from [p] on, and the last one leads to [e]. *)
Fixpoint chain (ts : list task) (p : option nat) (q : list nat) (e : option nat) : Prop :=
  match q with
  | [] => p = e
  | i :: q' => p = Some i /\ exists t, ts !! i = Some t /\ chain ts (next t) q' e
  end.

Lemma queue_chain_frame ts p q e i t : chain ts p q e -> i ∉ q -> chain (<[i := t]> ts) p q e.
Proof.
  revert p. induction q as [|j q IH]; intros p; cbn [chain]; [tauto|].
  intros [-> (u & Hu & Hq)] Hi. apply not_elem_of_cons in Hi as [Hne Hi].
  split; [reflexivity|]. exists u. rewrite list_lookup_insert_ne by congruence. auto.
Qed.

(** A change that leaves the links alone. *)
Lemma chain_same_next ts p q e i t t' :
  chain ts p q e -> ts !! i = Some t -> next t' = next t -> chain (<[i := t']> ts) p q e.
Proof.
  intros Hq Hi Hn. revert p Hq. induction q as [|j q IH]; intros p; cbn [chain]; [tauto|].
  intros [-> (u & Hu & Hq)]. split; [reflexivity|].
  destruct (decide (j = i)) as [->|Hne].
  - exists t'. rewrite list_lookup_insert_eq by exact (lookup_lt_Some _ _ _ Hi). split; [reflexivity|].
    rewrite Hn. replace u with t in Hq by congruence. apply IH, Hq.
  - exists u. rewrite list_lookup_insert_ne by congruence. auto.
Qed.

Lemma queue_chain_app ts p q1 q2 e : chain ts p (q1 ++ q2) e <-> exists m, chain ts p q1 m /\ chain ts m q2 e.
Proof.
  revert p. induction q1 as [|i q1 IH]; intros p; cbn [app chain].
  - split; [eauto|]. intros (m & -> & H). exact H.
  - split.
    + intros [-> (t & Et & H)]. apply IH in H as (m & H1 & H2). eauto 8.
    + intros (m & [-> (t & Et & H1)] & H2). split; [reflexivity|]. exists t. split; [exact Et|]. apply IH. eauto.
Qed.

Lemma task_at_Done s i t : tasks s !! i = Some t -> task_at s i = Done t.
Proof. intros H. unfold task_at. rewrite H. reflexivity. Qed.

Lemma upd_Done s i f t :
  tasks s !! i = Some t -> upd s i f = Done (set_tasks (<[i := f t]> (tasks s)) s).
Proof. intros H. unfold upd. rewrite (task_at_Done _ _ _ H). reflexivity. Qed.

(** The walk to the tail of a queue ends at its last task; of one that leads to a task linked
    to itself it never ends. *)
Lemma find_tail_returns fuel s q :
  chain (tasks s) (ready_q s) q None -> (length q < fuel)%nat -> find_tail fuel s = Done (last q).
Proof.
  intros Hq Hf. unfold find_tail.
  set (step := fun tail => _).
  assert (Est : forall sl p, slot_get s sl = Done p ->
    step sl = Done (match p with Some i => inl (Some i) | None => inr sl end))
    by (intros sl p Ep; unfold step; rewrite Ep; reflexivity).
  clearbody step.
  assert (H : forall q fuel sl, (length q < fuel)%nat ->
    returns (slot_get s sl) (fun p => chain (tasks s) p q None) ->
    loop fuel step sl = Done (match last q with Some k => Some k | None => sl end)).
  { clear -Est. induction q as [|i q IH]; intros fuel sl Hf (p & Hp & Hq); (destruct fuel as [|f]; [cbn in Hf; lia|]);
      cbn [loop chain] in *; rewrite (Est _ _ Hp), bind_Done.
    - subst p. reflexivity.
    - destruct Hq as [-> (t & Ht & Hq)].
      rewrite (IH f (Some i)); [rewrite last_cons; destruct (last q); reflexivity|cbn in Hf; lia|].
      exists (next t). split; [|exact Hq]. cbn [slot_get]. rewrite (task_at_Done _ _ _ Ht). reflexivity. }
  rewrite (H q fuel None Hf); [destruct (last q); reflexivity|].
  exists (ready_q s). auto.
Qed.

Lemma find_tail_spins fuel s q z tz :
  chain (tasks s) (ready_q s) q (Some z) -> tasks s !! z = Some tz -> next tz = Some z ->
  find_tail fuel s = Spin.
Proof.
  intros Hq Hz Hn. unfold find_tail.
  apply (loop_spin (fun sl => returns (slot_get s sl) (fun p => exists q, chain (tasks s) p q (Some z)))).
  2: { exists (ready_q s). split; [reflexivity|]. eauto. }
  intros sl (p & -> & q' & Hq'). rewrite bind_Done. apply returns_Done.
  assert (Hp : exists i t, p = Some i /\ tasks s !! i = Some t /\ exists r, chain (tasks s) (next t) r (Some z)).
  { destruct q' as [|i r]; cbn [chain] in Hq'.
    - exists z, tz. split; [exact Hq'|]. split; [exact Hz|]. exists []. exact Hn.
    - destruct Hq' as [-> (t & Et & Hr)]. eauto 8. }
  destruct Hp as (i & t & -> & Et & Hr). exists (Some i). split; [reflexivity|]. exists (next t). split; [|exact Hr].
  cbn [slot_get]. rewrite (task_at_Done _ _ _ Et). reflexivity.
Qed.

(** ** What the scheduler does, without its table

    Nothing in the kernel ends a task, so that the slots are given out in order.  [p_tasks] are
    the tasks, [p_runs] the one that runs and [p_waits] those in the queue, in order.  The first
    task, idle, is both running and last in the queue when [sched_init] returns; [p_stuck] says
    that a switch has linked it to itself there. *)
Record task_info := mk_task_info { i_id : Z; i_name : list Z; i_ticks : Z; i_entry : Z; i_arg : Z }.
Definition info_of (t : task) : task_info := mk_task_info (id t) (name t) (ticks t) (entry t) (arg t).

Record plan := mk_plan { p_tasks : list task_info; p_runs : nat; p_waits : list nat; p_stuck : bool }.

Definition plan_start : plan :=
  mk_plan [mk_task_info 1 (strncpy_arr (replicate 32 0) (chars "kernel-idle") 31) 0 0 0] 0 [] false.

Inductive sched_call := CallCreate (nm : option (list Z)) (entry arg : Z) | CallYield | CallTick.

Definition count_tick (x : task_info) : task_info := mk_task_info (i_id x) (i_name x) (u64 (i_ticks x + 1)) (i_entry x) (i_arg x).

(** The new plan and what [sched_create] returns; [None] when the call never returns. *)
Definition plan_step (a : plan) (c : sched_call) : option (option nat * plan) :=
  let n := length (p_tasks a) in
  match c with
  | CallCreate nm e x =>
      if (n =? 64)%nat then Some (None, a)
      else
        let t := mk_task_info (Z.of_nat n + 1) (strncpy_arr (replicate 32 0) (default (chars "task") nm) 31) 0 e x in
        Some (Some n, mk_plan (p_tasks a ++ [t]) (p_runs a) (n :: p_waits a) (p_stuck a))
  | CallYield =>
      if p_stuck a then None
      else match p_waits a with
           | [] => Some (None, a)
           | x :: w => Some (None, mk_plan (p_tasks a) x w true)
           end
  | CallTick => Some (None, mk_plan (alter count_tick (p_runs a) (p_tasks a)) (p_runs a) (p_waits a) (p_stuck a))
  end.

Fixpoint plan_calls (a : plan) (cs : list sched_call) : option (list (option nat) * plan) :=
  match cs with
  | [] => Some ([], a)
  | c :: cs' => '(r, a) ← plan_step a c; '(rs, a) ← plan_calls a cs'; Some (r :: rs, a)
  end.

Definition call_sched (fuel : nat) (s : sched) (c : sched_call) : outcome (option nat * sched) :=
  match c with
  | CallCreate nm e x => sched_create fuel s nm e x
  | CallYield => s ← sched_yield fuel s; mret (None, s)
  | CallTick => s ← sched_tick s; mret (None, s)
  end.
Fixpoint run_calls (fuel : nat) (s : sched) (cs : list sched_call) : outcome (list (option nat) * sched) :=
  match cs with
  | [] => mret ([], s)
  | c :: cs' => '(r, s) ← call_sched fuel s c; '(rs, s) ← run_calls fuel s cs'; mret (r :: rs, s)
  end.

(** ** How the table shows a plan *)

(** The slots of [inf] hold these tasks, in the states [g]; the others are free. *)
Definition shape (ts : list task) (inf : list task_info) (g : nat -> task_state) : Prop :=
  length ts = 64%nat /\ (length inf <= 64)%nat /\
  (forall i t, ts !! i = Some t ->
    match inf !! i with Some x => info_of t = x /\ state t = g i | None => id t = 0 end) /\
  forall i x, inf !! i = Some x -> i_id x = Z.of_nat i + 1.

Lemma shape_valid ts inf g i : shape ts inf g -> (i < length inf)%nat -> exists t, ts !! i = Some t.
Proof. intros (Hl & Hn & _) Hi. apply lookup_lt_is_Some_2. lia. Qed.

Lemma shape_ext ts inf g g' : shape ts inf g -> (forall i, (i < length inf)%nat -> g' i = g i) -> shape ts inf g'.
Proof.
  intros (Hl & Hn & Ht & Hid) Hg. split; [exact Hl|]. split; [exact Hn|]. split; [|exact Hid]. intros i t Et.
  specialize (Ht i t Et). destruct (inf !! i) eqn:E; [|exact Ht]. rewrite (Hg i (lookup_lt_Some _ _ _ E)). exact Ht.
Qed.

Lemma shape_insert ts inf g k u u' x :
  shape ts inf g -> ts !! k = Some u -> info_of u' = info_of u -> state u' = x -> (k < length inf)%nat ->
  shape (<[k := u']> ts) inf (fun i => if decide (i = k) then x else g i).
Proof.
  intros (Hl & Hn & Ht & Hid) Eu Hi Hx Hk. split; [rewrite length_insert; exact Hl|]. split; [exact Hn|].
  split; [|exact Hid]. intros i t Et. case_decide as E.
  - subst i. rewrite list_lookup_insert_eq in Et by exact (lookup_lt_Some _ _ _ Eu). injection Et as <-.
    specialize (Ht k u Eu). destruct (lookup_lt_is_Some_2 inf k Hk) as [y Ey]. rewrite Ey in *.
    destruct Ht as [<- _]. auto.
  - rewrite list_lookup_insert_ne in Et by congruence. exact (Ht i t Et).
Qed.

Lemma shape_state ts inf g k u x :
  shape ts inf g -> ts !! k = Some u -> (k < length inf)%nat ->
  shape (<[k := set_state x u]> ts) inf (fun i => if decide (i = k) then x else g i).
Proof. intros Hs Eu Hk. exact (shape_insert _ _ _ _ u (set_state x u) x Hs Eu eq_refl eq_refl Hk). Qed.

Lemma shape_next ts inf g k u x :
  shape ts inf g -> ts !! k = Some u -> (k < length inf)%nat -> shape (<[k := set_next x u]> ts) inf g.
Proof.
  intros Hs Eu Hk. eapply shape_ext; [exact (shape_insert _ _ _ _ u (set_next x u) (state u) Hs Eu eq_refl eq_refl Hk)|].
  intros i Hi. cbv beta. case_decide as E; [|reflexivity]. subst i. destruct Hs as (_ & _ & Ht & _). specialize (Ht k u Eu).
  destruct (lookup_lt_is_Some_2 inf k Hk) as [y Ey]. rewrite Ey in Ht. symmetry. apply Ht.
Qed.

(** The running task is marked, every other one is ready. *)
Definition marks (r i : nat) : task_state := if decide (i = r) then TASK_RUNNING else TASK_READY.

(** The queue of a plan: up to idle, which ends it, or is linked to itself. *)
Definition queued (ts : list task) (p : option nat) (a : plan) : Prop :=
  if p_stuck a then chain ts p (p_waits a) (Some 0%nat) /\ exists t, ts !! 0%nat = Some t /\ next t = Some 0%nat
  else chain ts p (p_waits a ++ [0%nat]) None.

(** The tasks of a plan exist, and none is in the queue twice. *)
Record sound (a : plan) : Prop := {
  so_wait : forall i, i ∈ p_waits a -> (0 < i < length (p_tasks a))%nat;
  so_nodup : NoDup (p_waits a);
  so_runs : (p_runs a < length (p_tasks a))%nat /\ p_runs a ∉ p_waits a;
  so_idle : if p_stuck a then p_runs a <> 0%nat else p_runs a = 0%nat
}.

Record follows (s : sched) (a : plan) : Prop := {
  fo_sound : sound a;
  fo_current : current s = Some (p_runs a);
  fo_queue : queued (tasks s) (ready_q s) a;
  fo_shape : shape (tasks s) (p_tasks a) (marks (p_runs a));
  fo_lock : sched_lock s = 0;
  fo_next : next_id s = Z.of_nat (length (p_tasks a)) + 1;
  fo_count : task_count s = Z.of_nat (length (p_tasks a))
}.

(** ** Each call follows the plan *)
Lemma init_table fuel :
  sched_init (S fuel) = Done (mk_sched
    (mk_task 1 (strncpy_arr (replicate 32 0) (chars "kernel-idle") 31) TASK_RUNNING 0 0 0 None :: replicate 63 zero_task)
    (Some 0%nat) (Some 0%nat) 2 1 0).
Proof. vm_compute. reflexivity. Qed.

Lemma init_follows fuel : (0 < fuel)%nat -> returns (sched_init fuel) (fun s => follows s plan_start).
Proof.
  destruct fuel as [|fuel]; [lia|]. intros _. rewrite init_table. apply returns_Done. split; try reflexivity.
  - split; cbn; [intros i Hi; apply elem_of_nil in Hi as []|constructor|split; [lia|apply not_elem_of_nil]|reflexivity].
  - cbn. split; [reflexivity|]. eexists. split; reflexivity.
  - split; [reflexivity|]. split; [cbn; lia|]. cbn [tasks]. split.
    + intros [|i] t E; [injection E as <-; split; reflexivity|].
      change (replicate 63 zero_task !! i = Some t) in E. apply lookup_replicate in E as [-> _]. reflexivity.
    + intros [|i] x E; [|discriminate]. injection E as <-. reflexivity.
Qed.

(** The search finds the first slot that was never taken. *)
Lemma find_slot_returns s inf r :
  shape (tasks s) inf (marks r) ->
  find_slot s = Done (if (length inf =? 64)%nat then None else Some (length inf)).
Proof.
  intros (Hl & Hn & Ht & Hid). unfold find_slot.
  match goal with |- mbind _ ?M = _ => assert (Hr : returns M (fun r =>
    match r with inl _ => length inf = 64%nat | inr i => i = length inf /\ (length inf < 64)%nat end)) end.
  { eapply returns_mono; [apply (for_ret_inv (fun k _ => k <= Z.of_nat (length inf))
      (fun i => i = length inf /\ (length inf < 64)%nat)); unfold MAX_TASKS|].
    - lia.
    - lia.
    - intros k [] Hk Hle. destruct (lookup_lt_is_Some_2 (tasks s) (Z.to_nat k)) as [t Et]; [lia|].
      rewrite (task_at_Done _ _ _ Et), bind_Done. apply returns_Done. specialize (Ht _ _ Et).
      destruct (inf !! Z.to_nat k) as [x|] eqn:Ex.
      + pose proof (lookup_lt_Some _ _ _ Ex). destruct Ht as [Hi Hst]. pose proof (Hid _ _ Ex) as Hx.
        rewrite bool_decide_false by (rewrite Hst; unfold marks; case_decide; discriminate).
        apply (f_equal i_id) in Hi. cbn [info_of i_id] in Hi. destruct (Z.eqb_spec (id t) 0); [lia|]. cbn [orb]. lia.
      + apply lookup_ge_None in Ex. rewrite Ht, orb_true_r. lia.
    - intros [u|i] Hi; unfold MAX_TASKS in *; [lia|exact Hi]. }
  destruct Hr as ([u|i] & -> & Hi); rewrite bind_Done; cbn [mret outcome_ret].
  - rewrite Hi. reflexivity.
  - destruct Hi as [-> Hi]. destruct (Nat.eqb_spec (length inf) 64); [lia|reflexivity].
Qed.

Lemma create_follows fuel s a nm e x :
  follows s a -> (0 < fuel)%nat ->
  returns (sched_create fuel s nm e x) (fun '(r, s') =>
    exists a', plan_step a (CallCreate nm e x) = Some (r, a') /\ follows s' a').
Proof.
  intros [[Hw Hnd Hrun Hid0] Hc Hq Hs Hl Hn Hk] Hf. unfold sched_create. rewrite Hl, spin_lock_free, bind_Done by exact Hf.
  rewrite (find_slot_returns (set_lock 1 s) _ _ Hs), bind_Done. cbn [plan_step]. set (n := length (p_tasks a)) in *.
  destruct (Nat.eqb_spec n 64) as [Hfull|Hfull].
  { apply returns_Done. exists a. split; [reflexivity|]. replace (set_lock _ _) with s by (destruct s; cbn in *; rewrite Hl; reflexivity).
    split; [split|..]; assumption. }
  pose proof Hs as (Hlen & Hle & Ht & Hid). destruct (lookup_lt_is_Some_2 (tasks s) n) as [t0 Et0]; [lia|].
  rewrite (upd_Done (set_lock 1 s) n _ t0 Et0), bind_Done. apply returns_Done. eexists. split; [reflexivity|].
  set (t' := new_task (set_lock 1 s) nm e x).
  assert (Hfresh : n ∉ p_waits a) by (intros Hin; specialize (Hw n Hin); lia).
  assert (Hn0 : (n <> 0)%nat) by lia.
  assert (Enew : <[n := t']> (tasks s) !! n = Some t') by (apply list_lookup_insert_eq; lia).
  split; cbn [tasks current ready_q next_id task_count sched_lock set_tasks set_lock p_tasks p_runs p_waits p_stuck];
    rewrite ?length_app; cbn [length]; fold n.
  - split; cbn [p_tasks p_runs p_waits p_stuck]; rewrite ?length_app; cbn [length]; fold n.
    + intros i Hi. apply elem_of_cons in Hi as [->|Hi]; [lia|]. specialize (Hw i Hi). lia.
    + apply NoDup_cons. auto.
    + split; [lia|]. apply not_elem_of_cons. split; [lia|apply Hrun].
    + exact Hid0.
  - exact Hc.
  - unfold queued in *. cbn [p_stuck p_waits]. destruct (p_stuck a).
    + destruct Hq as [Hq (t & E0 & E0n)]. split; [|exists t; rewrite list_lookup_insert_ne by lia; auto].
      cbn [chain]. split; [reflexivity|]. exists t'. split; [exact Enew|]. apply queue_chain_frame; assumption.
    + cbn [app chain]. split; [reflexivity|]. exists t'. split; [exact Enew|]. apply queue_chain_frame; [exact Hq|].
      rewrite elem_of_app, list_elem_of_singleton. intros [?|?]; [contradiction|lia].
  - split; [rewrite length_insert; exact Hlen|]. rewrite length_app. cbn [length]. fold n. split; [lia|]. split.
    + intros i t Et. destruct (decide (i = n)) as [->|Hne].
      * rewrite Enew in Et. injection Et as <-. rewrite lookup_app_r, Nat.sub_diag by (fold n; lia). cbn [lookup list_lookup].
        split; [unfold info_of, t', new_task; cbn [id name ticks entry arg set_lock next_id]; rewrite Hn; reflexivity|].
        unfold marks. rewrite decide_False by lia. reflexivity.
      * rewrite list_lookup_insert_ne in Et by congruence. specialize (Ht i t Et).
        destruct (Nat.lt_ge_cases i n) as [Hi|Hi]; [rewrite lookup_app_l by exact Hi; exact Ht|].
        rewrite (proj2 (lookup_ge_None (p_tasks a) i) Hi) in Ht.
        rewrite (proj2 (lookup_ge_None _ i)) by (rewrite length_app; cbn [length]; fold n; lia). exact Ht.
    + intros i y Ey. apply lookup_app_Some in Ey as [Ey|[Hge Ey]]; [exact (Hid i y Ey)|]. fold n in Hge, Ey.
      destruct (i - n)%nat eqn:Ei; [|discriminate]. injection Ey as <-. cbn [i_id]. lia.
  - reflexivity.
  - rewrite Hn, u32_small by lia. lia.
  - rewrite Hk, u32_small by lia. lia.
Qed.

Lemma tick_follows s a :
  follows s a -> returns (sched_tick s) (fun s' => exists a', plan_step a CallTick = Some (None, a') /\ follows s' a').
Proof.
  intros [[Hw Hnd Hrun Hid0] Hc Hq Hs Hl Hn Hk]. destruct (shape_valid _ _ _ (p_runs a) Hs (proj1 Hrun)) as [t Et].
  unfold sched_tick. rewrite Hc. cbn [upd_opt]. rewrite (upd_Done _ _ _ _ Et). apply returns_Done.
  eexists. split; [reflexivity|]. set (t' := set_ticks _ t).
  split; cbn [tasks current ready_q next_id task_count sched_lock set_tasks p_tasks p_runs p_waits p_stuck];
    rewrite ?length_alter; try assumption.
  - split; cbn [p_tasks p_runs p_waits p_stuck]; rewrite ?length_alter; assumption.
  - unfold queued in *. cbn [p_stuck p_waits]. destruct (p_stuck a); [|exact (chain_same_next _ _ _ _ _ t t' Hq Et eq_refl)].
    destruct Hq as [Hq (t0 & E0 & E0n)]. split; [exact (chain_same_next _ _ _ _ _ t t' Hq Et eq_refl)|].
    destruct (decide (p_runs a = 0%nat)) as [E|E].
    + rewrite E in *. exists t'. rewrite list_lookup_insert_eq by exact (lookup_lt_Some _ _ _ Et).
      split; [reflexivity|]. cbn [t' next set_ticks]. congruence.
    + exists t0. rewrite list_lookup_insert_ne by exact E. auto.
  - destruct Hs as (Hlen & Hle & Ht & Hid). split; [rewrite length_insert; exact Hlen|]. rewrite length_alter. split; [exact Hle|]. split.
    + intros i u Eu. rewrite list_lookup_alter. destruct (decide (p_runs a = i)) as [<-|Hne].
      * rewrite list_lookup_insert_eq in Eu by exact (lookup_lt_Some _ _ _ Et). injection Eu as <-. specialize (Ht _ _ Et).
        destruct (lookup_lt_is_Some_2 _ _ (proj1 Hrun)) as [y Ey]. rewrite Ey in *. cbn [fmap option_fmap option_map].
        destruct Ht as [<- Hst]. split; [reflexivity|exact Hst].
      * rewrite list_lookup_insert_ne in Eu by exact Hne. exact (Ht i u Eu).
    + intros i y. rewrite list_lookup_alter. destruct (decide (p_runs a = i)) as [<-|Hne]; [|apply Hid].
      destruct (p_tasks a !! p_runs a) as [z|] eqn:Ez; [|discriminate]. intros [= <-]. exact (Hid _ _ Ez).
Qed.

(** *** [sched_yield]

    The running task is marked ready, the head of the queue comes off it, and the running
    task goes behind its tail. *)
Definition marked (c : nat) (tc : task) (ts : list task) : list task := <[c := set_state TASK_READY tc]> ts.

Lemma yield_head fuel s c tc nx tn :
  (0 < fuel)%nat -> sched_lock s = 0 -> current s = Some c -> tasks s !! c = Some tc ->
  ready_q s = Some nx -> marked c tc (tasks s) !! nx = Some tn ->
  let s2 := mk_sched (<[c := set_next None (set_state TASK_READY tc)]> (marked c tc (tasks s))) (Some c) (next tn)
              (next_id s) (task_count s) 1 in
  sched_yield fuel s =
    (tail ← find_tail fuel s2; s3 ← slot_set s2 tail (Some c);
     s4 ← upd (set_current (Some nx) s3) nx (set_state TASK_RUNNING);
     s5 ← upd s4 nx (set_next None); mret (set_lock (spin_unlock (sched_lock s5)) s5)).
Proof.
  intros Hf Hl Hc Etc Hr Etn. cbv zeta. unfold sched_yield. rewrite Hl, spin_lock_free, bind_Done by exact Hf.
  cbn [current set_lock]. rewrite Hc. cbn [upd_opt]. rewrite (upd_Done (set_lock 1 s) c _ tc Etc), bind_Done.
  cbn [ready_q set_tasks set_lock tasks]. rewrite Hr. fold (marked c tc (tasks s)).
  rewrite (task_at_Done _ nx tn) by exact Etn. rewrite bind_Done. unfold requeue, current_alive.
  cbn [current set_ready set_tasks set_lock]. rewrite Hc.
  assert (Em : marked c tc (tasks s) !! c = Some (set_state TASK_READY tc))
    by (apply list_lookup_insert_eq; exact (lookup_lt_Some _ _ _ Etc)).
  rewrite (task_at_Done _ c _) by exact Em. rewrite bind_Done, bool_decide_false by discriminate.
  cbn [negb mret outcome_ret upd_opt]. rewrite bind_Done. erewrite upd_Done by exact Em. rewrite bind_Done.
  unfold set_tasks, set_ready, set_lock. cbn [tasks current ready_q next_id task_count sched_lock]. rewrite Hc.
  destruct (find_tail fuel _) as [tl| | |]; [|reflexivity..]. rewrite !bind_Done.
  destruct (slot_set _ tl (Some c)) as [s3| | |]; [|reflexivity..]. rewrite !bind_Done.
  destruct (upd (set_current (Some nx) s3) nx _) as [s4| | |]; reflexivity.
Qed.

(** The head of the queue runs and is no longer linked. *)
Lemma run_next s nx tx :
  tasks s !! nx = Some tx ->
  (s4 ← upd (set_current (Some nx) s) nx (set_state TASK_RUNNING);
   s5 ← upd s4 nx (set_next None); mret (set_lock (spin_unlock (sched_lock s5)) s5)) =
  Done (mk_sched (<[nx := set_next None (set_state TASK_RUNNING tx)]> (<[nx := set_state TASK_RUNNING tx]> (tasks s)))
          (Some nx) (ready_q s) (next_id s) (task_count s) 0).
Proof.
  intros Ex. rewrite (upd_Done (set_current _ s) nx _ tx Ex), bind_Done.
  erewrite upd_Done by (apply list_lookup_insert_eq; exact (lookup_lt_Some _ _ _ Ex)). reflexivity.
Qed.

Lemma run_next_shape s inf g nx tx :
  shape (tasks s) inf g -> tasks s !! nx = Some tx -> (nx < length inf)%nat ->
  shape (<[nx := set_next None (set_state TASK_RUNNING tx)]> (<[nx := set_state TASK_RUNNING tx]> (tasks s))) inf
    (fun i => if decide (i = nx) then TASK_RUNNING else g i).
Proof.
  intros Hs Ex Hn. apply shape_next; [exact (shape_state _ _ _ _ _ TASK_RUNNING Hs Ex Hn)| |exact Hn].
  apply list_lookup_insert_eq. exact (lookup_lt_Some _ _ _ Ex).
Qed.

(** The table once the running task is marked and unlinked. *)
Lemma unlinked_shape ts inf r c tc :
  shape ts inf (marks r) -> ts !! c = Some tc -> (c < length inf)%nat -> r = c ->
  shape (<[c := set_next None (set_state TASK_READY tc)]> (marked c tc ts)) inf (fun _ => TASK_READY).
Proof.
  intros Hs Ec Hc ->. eapply shape_ext.
  - apply shape_next; [exact (shape_state _ _ _ _ _ TASK_READY Hs Ec Hc)| |exact Hc].
    apply list_lookup_insert_eq. exact (lookup_lt_Some _ _ _ Ec).
  - intros i _. unfold marks. repeat case_decide; congruence.
Qed.

Lemma unlinked_lookup ts c tc i :
  ts !! c = Some tc ->
  <[c := set_next None (set_state TASK_READY tc)]> (marked c tc ts) !! i =
    if decide (i = c) then Some (set_next None (set_state TASK_READY tc)) else ts !! i.
Proof.
  intros Ec. pose proof (lookup_lt_Some _ _ _ Ec). unfold marked. case_decide as E.
  - subst i. apply list_lookup_insert_eq. rewrite length_insert. assumption.
  - rewrite !list_lookup_insert_ne by congruence. reflexivity.
Qed.

Lemma unlinked_chain ts c tc p q e :
  chain ts p q e -> c ∉ q -> chain (<[c := set_next None (set_state TASK_READY tc)]> (marked c tc ts)) p q e.
Proof. intros Hq Hc. apply queue_chain_frame; [apply queue_chain_frame; assumption|exact Hc]. Qed.

(** With idle alone, it goes behind the empty queue and runs on. *)
Lemma yield_alone fuel s a :
  follows s a -> (0 < fuel)%nat -> p_stuck a = false -> p_waits a = [] ->
  returns (sched_yield fuel s) (fun s' => follows s' a).
Proof.
  intros [Hso Hc Hq Hs Hl Hn Hk] Hf Hst Hw. pose proof Hso as [_ _ [Hlt _] Hid]. unfold queued in Hq.
  rewrite Hst in Hq, Hid. rewrite Hw in Hq. rewrite Hid in *. cbn [app chain] in Hq. destruct Hq as (Hr & t & Et & Hnx).
  rewrite (yield_head fuel s 0 t 0 (set_state TASK_READY t) Hf Hl Hc Et Hr) by
    (apply list_lookup_insert_eq; exact (lookup_lt_Some _ _ _ Et)).
  cbn [next set_state]. rewrite Hnx. set (s2 := mk_sched _ _ _ _ _ _).
  rewrite (find_tail_returns fuel s2 []) by first [reflexivity|exact Hf]. rewrite bind_Done. cbn [last slot_set mret outcome_ret].
  rewrite bind_Done. pose proof (unlinked_shape _ _ _ _ _ Hs Et Hlt eq_refl) as Hs2.
  assert (E2 : tasks s2 !! 0%nat = Some (set_next None (set_state TASK_READY t))) by (unfold s2; cbn [tasks]; rewrite unlinked_lookup by exact Et; reflexivity).
  rewrite (run_next (set_ready (Some 0%nat) s2) 0 _ E2). apply returns_Done.
  pose proof (run_next_shape s2 _ _ _ _ Hs2 E2 Hlt) as Hs3.
  split; cbn [tasks current ready_q next_id task_count sched_lock set_ready s2]; try assumption; try reflexivity.
  - rewrite Hid. reflexivity.
  - unfold queued. rewrite Hst, Hw. cbn [app chain]. split; [reflexivity|]. eexists.
    split; [apply list_lookup_insert_eq; rewrite length_insert; exact (lookup_lt_Some _ _ _ E2)|reflexivity].
  - rewrite Hid. eapply shape_ext; [exact Hs3|]. intros i _. reflexivity.
Qed.

(** The first switch: the newest task runs, and idle, last in the queue, is put behind
    itself. *)
Lemma yield_switch fuel s a x w :
  follows s a -> (64 < fuel)%nat -> p_stuck a = false -> p_waits a = x :: w ->
  returns (sched_yield fuel s) (fun s' => follows s' (mk_plan (p_tasks a) x w true)).
Proof.
  intros [[Hwt Hnd [Hlt Hnr] Hid] Hc Hq Hs Hl Hn Hk] Hf Hst Hw. unfold queued in Hq. rewrite Hst in Hq, Hid.
  rewrite Hw in *. rewrite Hid in *. cbn [app chain] in Hq. destruct Hq as (Hr & tx & Ex & Hq).
  apply NoDup_cons in Hnd as [Hxw Hnd]. pose proof (Hwt x ltac:(left)) as Hx.
  assert (H0w : 0%nat ∉ w) by (intros Hin; apply Hnr; right; exact Hin).
  destruct (shape_valid _ _ _ 0 Hs Hlt) as [t Et].
  rewrite (yield_head fuel s 0 t x tx ltac:(lia) Hl Hc Et Hr) by (unfold marked; rewrite list_lookup_insert_ne by lia; exact Ex).
  set (s2 := mk_sched _ _ _ _ _ _). apply queue_chain_app in Hq as (m & Hq & Hm). cbn [chain] in Hm. destruct Hm as [-> _].
  assert (Hq2 : chain (tasks s2) (next tx) w (Some 0%nat)) by exact (unlinked_chain _ _ _ _ _ _ Hq H0w).
  assert (E0 : tasks s2 !! 0%nat = Some (set_next None (set_state TASK_READY t))) by (unfold s2; cbn [tasks]; rewrite unlinked_lookup by exact Et; reflexivity).
  assert (Hlen : (length w < 64)%nat).
  { destruct Hs as (_ & Hle & _). assert (Hsub : w ⊆+ seq 1 (length (p_tasks a) - 1)); [apply NoDup_submseteq; [exact Hnd|]|
      apply submseteq_length in Hsub; rewrite length_seq in Hsub; lia].
    intros i Hi. apply elem_of_seq. specialize (Hwt i ltac:(right; exact Hi)). lia. }
  rewrite (find_tail_returns fuel s2 (w ++ [0%nat])).
  2: { apply queue_chain_app. exists (Some 0%nat). split; [exact Hq2|]. cbn [chain]. split; [reflexivity|]. eexists. split; [exact E0|reflexivity]. }
  2: { rewrite length_app. cbn [length]. lia. }
  rewrite last_snoc, bind_Done. cbn [slot_set]. rewrite (upd_Done _ _ _ _ E0), bind_Done.
  set (s3 := set_tasks _ s2). pose proof (unlinked_shape _ _ _ _ _ Hs Et Hlt eq_refl) as Hs2.
  assert (Hs3 : shape (tasks s3) (p_tasks a) (fun _ => TASK_READY)) by exact (shape_next _ _ _ _ _ (Some 0%nat) Hs2 E0 Hlt).
  assert (Ex3 : tasks s3 !! x = Some tx).
  { unfold s3. cbn [tasks set_tasks]. rewrite list_lookup_insert_ne by lia. unfold s2. cbn [tasks].
    rewrite unlinked_lookup, decide_False by first [exact Et|lia]. exact Ex. }
  assert (E03 : tasks s3 !! 0%nat = Some (set_next (Some 0%nat) (set_next None (set_state TASK_READY t))))
    by (apply list_lookup_insert_eq; exact (lookup_lt_Some _ _ _ E0)).
  rewrite (run_next s3 x tx Ex3). apply returns_Done. pose proof (run_next_shape s3 _ _ _ _ Hs3 Ex3 ltac:(lia)) as Hs4.
  split; cbn [tasks current ready_q next_id task_count sched_lock p_tasks p_runs p_waits p_stuck s3 set_tasks s2]; try assumption; try reflexivity.
  - split; cbn [p_tasks p_runs p_waits p_stuck]; [intros i Hi; apply Hwt; right; exact Hi|exact Hnd|split; [lia|exact Hxw]|lia].
  - unfold queued. cbn [p_stuck p_waits]. split.
    + apply queue_chain_frame; [apply queue_chain_frame|exact Hxw]; [apply queue_chain_frame; [exact Hq2|exact H0w]|exact Hxw].
    + eexists. split; [rewrite !list_lookup_insert_ne by lia; exact E03|reflexivity].
Qed.

(** From then on the walk to the tail turns round in the idle task. *)
Lemma yield_stuck fuel s a : follows s a -> p_stuck a = true -> sched_yield fuel s = Spin.
Proof.
  intros [[Hwt Hnd [Hlt Hnr] Hid] Hc Hq Hs Hl _ _] Hst. unfold queued in Hq. rewrite Hst in *. destruct Hq as [Hq (t0 & E0 & H0)].
  destruct (shape_valid _ _ _ _ Hs Hlt) as [t Et].
  destruct fuel as [|fuel]; [unfold sched_yield; rewrite Hl; reflexivity|].
  assert (Hhead : exists nx tn r, ready_q s = Some nx /\ tasks s !! nx = Some tn /\ nx <> p_runs a /\
            chain (tasks s) (next tn) r (Some 0%nat) /\ p_runs a ∉ r).
  { destruct (p_waits a) as [|x w]; cbn [chain] in Hq.
    - exists 0%nat, t0, []. rewrite H0. repeat split; [exact Hq|exact E0|congruence|apply not_elem_of_nil].
    - destruct Hq as [Hr (tx & Ex & Hq)]. apply not_elem_of_cons in Hnr as [Hne Hnr]. exists x, tx, w. auto 8. }
  destruct Hhead as (nx & tn & r & Hr & En & Hne & Hch & Hnin).
  rewrite (yield_head (S fuel) s _ t nx tn ltac:(lia) Hl Hc Et Hr) by (unfold marked; rewrite list_lookup_insert_ne by congruence; exact En).
  set (s2 := mk_sched _ _ _ _ _ _).
  rewrite (find_tail_spins (S fuel) s2 r 0 t0); [reflexivity| | |exact H0].
  - exact (unlinked_chain _ _ _ _ _ _ Hch Hnin).
  - unfold s2. cbn [tasks]. rewrite unlinked_lookup, decide_False by first [exact Et|congruence]. exact E0.
Qed.

Lemma yield_follows fuel s a :
  follows s a -> (64 < fuel)%nat ->
  match plan_step a CallYield with
  | Some (_, a') => returns (sched_yield fuel s) (fun s' => follows s' a')
  | None => sched_yield fuel s = Spin
  end.
Proof.
  intros Hfo Hf. cbn [plan_step]. destruct (p_stuck a) eqn:Hst; [exact (yield_stuck fuel s a Hfo Hst)|].
  destruct (p_waits a) as [|x w] eqn:Hw; [apply yield_alone; first [assumption|lia]|].
  exact (yield_switch fuel s a x w Hfo Hf Hst Hw).
Qed.

Lemma call_follows fuel s a c :
  follows s a -> (64 < fuel)%nat ->
  match plan_step a c with
  | Some (r, a') => returns (call_sched fuel s c) (fun '(r', s') => r' = r /\ follows s' a')
  | None => call_sched fuel s c = Spin
  end.
Proof.
  intros Hfo Hf. destruct c as [nm e x| |]; cbn [call_sched].
  - destruct (create_follows fuel s a nm e x Hfo ltac:(lia)) as ([r s'] & E & a' & -> & Hfo'). exists (r, s'). auto.
  - pose proof (yield_follows fuel s a Hfo Hf) as H. cbn [plan_step] in *. destruct (p_stuck a); [rewrite H; reflexivity|].
    destruct (p_waits a); destruct H as (s' & -> & H); exists (None, s'); auto.
  - destruct (tick_follows s a Hfo) as (s' & -> & a' & E & Hfo'). rewrite E. exists (None, s'). auto.
Qed.

Lemma calls_follow fuel cs : (64 < fuel)%nat -> forall s a, follows s a ->
  match plan_calls a cs with
  | Some (rs, a') => returns (run_calls fuel s cs) (fun '(rs', s') => rs' = rs /\ follows s' a')
  | None => run_calls fuel s cs = Spin
  end.
Proof.
  intros Hf. induction cs as [|c cs IH]; intros s a Hfo; [exists ([], s); auto|]. cbn [plan_calls run_calls].
  pose proof (call_follows fuel s a c Hfo Hf) as Hc. destruct (plan_step a c) as [[r a1]|]; cbn [mbind option_bind].
  - destruct Hc as ([r' s1] & -> & -> & Hfo1). rewrite bind_Done. specialize (IH s1 a1 Hfo1).
    destruct (plan_calls a1 cs) as [[rs a2]|]; cbn [mbind option_bind].
    + destruct IH as ([rs' s2] & -> & -> & Hfo2). exists (r :: rs, s2). auto.
    + rewrite IH. reflexivity.
  - rewrite Hc. reflexivity.
Qed.

(** *** Plans without a switch *)
Definition no_yield (c : sched_call) : Prop := c <> CallYield.

Lemma plan_quiet cs : forall a, Forall no_yield cs ->
  exists rs a', plan_calls a cs = Some (rs, a') /\ p_stuck a' = p_stuck a /\ exists l, p_waits a' = l ++ p_waits a.
Proof.
  induction cs as [|c cs IH]; intros a Hcs; [exists [], a; split; [reflexivity|]; split; [reflexivity|exists []; reflexivity]|].
  inversion Hcs as [|? ? Hc Hcs']; subst. cbn [plan_calls].
  assert (Hstep : exists r a1, plan_step a c = Some (r, a1) /\ p_stuck a1 = p_stuck a /\ exists l, p_waits a1 = l ++ p_waits a).
  { destruct c as [nm e x| |]; [|contradiction Hc; reflexivity|]; cbn [plan_step].
    - destruct (_ =? _)%nat; do 2 eexists; (split; [reflexivity|]); (split; [reflexivity|]); [exists []|exists [length (p_tasks a)]]; reflexivity.
    - do 2 eexists. split; [reflexivity|]. split; [reflexivity|]. exists []. reflexivity. }
  destruct Hstep as (r & a1 & -> & Hst & l1 & Hw1). cbn [mbind option_bind].
  destruct (IH a1 Hcs') as (rs & a2 & -> & Hst2 & l2 & Hw2). cbn [mbind option_bind].
  exists (r :: rs), a2. split; [reflexivity|]. split; [congruence|]. exists (l2 ++ l1). rewrite Hw2, Hw1, app_assoc. reflexivity.
Qed.

Lemma plan_calls_app cs1 cs2 a :
  plan_calls a (cs1 ++ cs2) = '(rs1, a1) ← plan_calls a cs1; '(rs2, a2) ← plan_calls a1 cs2; Some (rs1 ++ rs2, a2).
Proof.
  revert a. induction cs1 as [|c cs1 IH]; intros a; cbn [app plan_calls mbind option_bind].
  - destruct (plan_calls a cs2) as [[? ?]|]; reflexivity.
  - destruct (plan_step a c) as [[r a1]|]; [|reflexivity]. cbn [mbind option_bind]. rewrite IH.
    destruct (plan_calls a1 cs1) as [[rs1 a2]|]; [|reflexivity]. cbn [mbind option_bind].
    destruct (plan_calls a2 cs2) as [[? ?]|]; reflexivity.
Qed.

(** ** Properties *)

(** C15: [sched_init] and after it any calls of [sched_create], [sched_yield] and
    [sched_tick] do what [plan_calls] says.  Slots are given out in order, 64 at most, with
    ids that count from 1, and a new task goes to the front of the queue; every tick counts
    for the running task.  While idle is alone a yield changes nothing.  The first yield with
    another task runs the newest one, and links idle, which was queued while it ran, to
    itself: every later yield hangs, with the lock held.  In each state reached the table
    holds exactly the tasks of the plan, the running one marked RUNNING and the others READY,
    the links are the plan's queue, and the lock is free. *)
Theorem sched_follows_plan fuel cs :
  (64 < fuel)%nat ->
  match plan_calls plan_start cs with
  | Some (rs, a) =>
      returns (s ← sched_init fuel; run_calls fuel s cs) (fun '(rs', s) =>
        rs' = rs /\ follows s a /\
        sched_current s = Some (p_runs a) /\ sched_task_count s = Z.of_nat (length (p_tasks a)))
  | None => (s ← sched_init fuel; run_calls fuel s cs) = Spin
  end.
Proof.
  intros Hf. destruct (init_follows fuel ltac:(lia)) as (s0 & -> & H0). rewrite bind_Done.
  pose proof (calls_follow fuel cs Hf s0 plan_start H0) as H. destruct (plan_calls plan_start cs) as [[rs a]|]; [|exact H].
  eapply returns_mono; [exact H|]. intros [rs' s] [-> Hfo]. split; [reflexivity|]. split; [exact Hfo|].
  split; [exact (fo_current _ _ Hfo)|exact (fo_count _ _ Hfo)].
Qed.

(** The calls the kernel makes: nothing but [sched_init] creates a task. *)
Definition idle_call (c : sched_call) : Prop := c = CallYield \/ c = CallTick.
Definition ticks_of (cs : list sched_call) : Z :=
  Z.of_nat (length (List.filter (fun c => match c with CallTick => true | _ => false end) cs)).

Lemma plan_idle cs : Forall idle_call cs -> forall n,
  exists rs, plan_calls (mk_plan [mk_task_info 1 (strncpy_arr (replicate 32 0) (chars "kernel-idle") 31) (u64 n) 0 0] 0 [] false) cs =
    Some (rs, mk_plan [mk_task_info 1 (strncpy_arr (replicate 32 0) (chars "kernel-idle") 31) (u64 (n + ticks_of cs)) 0 0] 0 [] false).
Proof.
  unfold ticks_of. induction 1 as [|c cs Hc _ IH]; intros n; cbn [plan_calls List.filter length].
  - exists []. rewrite Z.add_0_r. reflexivity.
  - destruct Hc as [-> | ->]; cbn [plan_step p_stuck p_waits p_tasks p_runs mbind option_bind].
    + destruct (IH n) as [rs ->]. eexists. reflexivity.
    + unfold alter, list_alter, count_tick. cbn [i_ticks i_id i_name i_entry i_arg].
      replace (u64 (u64 n + 1)) with (u64 (n + 1)) by (unfold u64; rewrite Zplus_mod_idemp_l; reflexivity).
      destruct (IH (n + 1)) as [rs ->]. eexists. cbn [mbind option_bind length]. do 5 f_equal. f_equal. lia.
Qed.

(** C16: as the kernel uses the scheduler, with idle the only task, every sequence of
    [sched_yield] and [sched_tick] after [sched_init] returns: idle is queued and running
    at once, so that a yield takes it off the queue and puts it back, and it runs on; its
    ticks are the number of [sched_tick], modulo 2 ^ 64. *)
Theorem sched_idle_runs_on fuel cs :
  (64 < fuel)%nat -> Forall idle_call cs ->
  returns (s ← sched_init fuel; run_calls fuel s cs) (fun '(_, s) =>
    sched_current s = Some 0%nat /\ ready_q s = Some 0%nat /\ sched_task_count s = 1 /\ sched_lock s = 0 /\
    exists t, tasks s !! 0%nat = Some t /\ state t = TASK_RUNNING /\ next t = None /\ ticks t = u64 (ticks_of cs)).
Proof.
  intros Hf Hcs. destruct (init_follows fuel ltac:(lia)) as (s0 & -> & H0). rewrite bind_Done.
  pose proof (calls_follow fuel cs Hf s0 plan_start H0) as H. destruct (plan_idle cs Hcs 0) as [rs E].
  change (u64 0) with 0 in E. fold plan_start in E. rewrite E in H. eapply returns_mono; [exact H|].
  intros [rs' s] (_ & [_ Hc Hq Hs Hl _ Hk]). cbn [queued p_stuck p_waits app chain p_runs p_tasks] in *.
  destruct Hq as (Hr & t & Et & Hn). destruct Hs as (_ & _ & Ht & _). specialize (Ht _ _ Et). destruct Ht as [Hi Hst].
  split; [exact Hc|]. split; [exact Hr|]. split; [exact Hk|]. split; [exact Hl|]. exists t. split; [exact Et|].
  split; [exact Hst|]. split; [exact Hn|]. exact (f_equal i_ticks Hi).
Qed.

(** A task beside idle: the first [sched_yield] returns, the second one does not, whatever
    is created and counted before, between and after. *)
Theorem sched_second_yield_hangs fuel nm e x cs1 cs2 :
  (64 < fuel)%nat -> Forall no_yield cs1 -> Forall no_yield cs2 ->
  (s ← sched_init fuel; run_calls fuel s (CallCreate nm e x :: cs1 ++ CallYield :: cs2 ++ [CallYield])) = Spin.
Proof.
  intros Hf H1 H2. destruct (init_follows fuel ltac:(lia)) as (s0 & -> & H0). rewrite bind_Done.
  pose proof (calls_follow fuel (CallCreate nm e x :: cs1 ++ CallYield :: cs2 ++ [CallYield]) Hf s0 plan_start H0) as H.
  cbn [plan_calls plan_step plan_start p_tasks p_runs p_waits p_stuck length Nat.eqb mbind option_bind app] in H.
  set (a0 := mk_plan _ _ _ _) in H. rewrite plan_calls_app in H.
  destruct (plan_quiet cs1 a0 H1) as (rs1 & a1 & E1 & Hst1 & l1 & Hw1). rewrite E1 in H.
  cbn [mbind option_bind plan_calls plan_step] in H. rewrite Hst1 in H. cbn [a0 p_stuck p_waits] in *.
  destruct (p_waits a1) as [|y w] eqn:Ew; [destruct l1; discriminate|]. cbn [mbind option_bind] in H. rewrite plan_calls_app in H.
  match type of H with context [plan_calls ?a cs2] => destruct (plan_quiet cs2 a H2) as (rs2 & a2 & E2 & Hst2 & _) end.
  rewrite E2 in H. cbn [mbind option_bind plan_calls plan_step] in H. cbn [p_stuck] in Hst2. rewrite Hst2 in H. exact H.
Qed.

(** ** Witnesses *)
Definition demo_calls : list sched_call :=
  [CallYield; CallCreate (Some (chars "worker")) 0x100000 7; CallTick; CallCreate None 0 0; CallYield; CallCreate (Some (chars "late")) 0 0; CallTick].

Lemma sched_follows_plan_witness :
  returns (s ← sched_init 65; run_calls 65 s demo_calls) (fun '(rs, s) =>
    rs = [None; Some 1%nat; None; Some 2%nat; None; Some 3%nat; None] /\
    sched_current s = Some 2%nat /\ chain (tasks s) (ready_q s) [3; 1]%nat (Some 0%nat)) /\
  (s ← sched_init 65; run_calls 65 s (demo_calls ++ [CallYield])) = Spin.
Proof.
  split; [|exact (sched_follows_plan 65 (demo_calls ++ [CallYield]) ltac:(lia))].
  eapply returns_mono; [exact (sched_follows_plan 65 demo_calls ltac:(lia))|].
  intros [rs s] (-> & Hfo & Hc & _). split; [reflexivity|]. split; [exact Hc|]. exact (proj1 (fo_queue _ _ Hfo)).
Defined.

Lemma sched_idle_runs_on_witness :
  returns (s ← sched_init 65; run_calls 65 s [CallTick; CallYield; CallYield; CallTick]) (fun '(_, s) =>
    sched_current s = Some 0%nat /\ exists t, tasks s !! 0%nat = Some t /\ ticks t = 2).
Proof.
  eapply returns_mono; [apply (sched_idle_runs_on 65 [CallTick; CallYield; CallYield; CallTick]);
    [lia|repeat constructor; (left; reflexivity) || (right; reflexivity)]|].
  intros [rs s] (Hc & _ & _ & _ & t & Et & _ & _ & Hn). split; [exact Hc|]. exists t. auto.
Defined.
