(* ===== verification/Io.v ===== *)
(** * Port input and output

    The x86 port instructions that [sdk/include/h3os/kernel.h] wraps in [inb], [outb]
    and the like act on the devices; the drivers are defined over any instance of
    this class, whose type is the state of the devices; [in_l] and [out_l] are [inl] and
    [outl]. *)
From Stdlib Require Import ZArith.
From S2P Require Import Prelude CInt.

Class PortIO (D : Type) := {
  inb : D -> Z -> Z * D;
  outb : D -> Z -> Z -> D;
  outw : D -> Z -> Z -> D;
  in_l : D -> Z -> Z * D;
  out_l : D -> Z -> Z -> D
}.
