(* ===== verification/Keyboard.v ===== *)
(** * PS/2 keyboard: [drivers/keyboard/keyboard.c]

    The interrupt handler as a function of the scancode it reads from port 0x60,
    and the ring buffer between it and the readers, which is proved to be a bounded
    first-in first-out queue. *)
From Stdlib Require Import ZArith Lia Bool String.
From stdpp Require Import base tactics option list numbers gmap.
From S2P Require Import Prelude CInt CString.
#[local] Close Scope string_scope.
#[local] Open Scope Z_scope.

(** ** State *)
Definition KBD_BUF_SIZE : Z := 256.

Record kbd := mk_kbd {
  kbd_buf : list Z;     (* char[KBD_BUF_SIZE] *)
  kbd_head : Z;
  kbd_tail : Z;
  shift : bool;
  caps : bool;
  ctrl : bool
}.

Definition set_ring (b : list Z) (h t : Z) (k : kbd) : kbd :=
  mk_kbd b h t (shift k) (caps k) (ctrl k).
Definition set_mods (s c l : bool) (k : kbd) : kbd :=
  mk_kbd (kbd_buf k) (kbd_head k) (kbd_tail k) s c l.

(** ** The scancode tables; the entries that are not given are 0. *)
Definition pad_table (l : list Z) : list Z := l ++ replicate (128 - length l) 0.

Definition scancode_map : list Z := pad_table (
  [0; 27] ++ chars "1234567890-=" ++ [8] ++
  [9] ++ chars "qwertyuiop[]" ++ [10; 0] ++
  chars "asdfghjkl;'`" ++ [0; 92] ++
  chars "zxcvbnm,./" ++ [0; 42; 0; 32; 0]).

Definition scancode_map_shift : list Z := pad_table (
  [0; 27] ++ chars "!@#$%^&*()_+" ++ [8] ++
  [9] ++ chars "QWERTYUIOP{}" ++ [10; 0] ++
  chars "ASDFGHJKL:" ++ [34; 126; 0; 124] ++
  chars "ZXCVBNM<>?" ++ [0; 42; 0; 32; 0]).

(** ** Operations *)
Definition kbd_push (k : kbd) (c : Z) : outcome kbd :=
  let next := u32 (kbd_head k + 1) mod KBD_BUF_SIZE in
  if next =? kbd_tail k then mret k
  else
    b ← arr_set (kbd_buf k) (kbd_head k) c;
    mret (set_ring b next (kbd_tail k) k).

(** The character a key gives, 0 for none: lines 46 to 52. *)
Definition key_char (k : kbd) (sc : Z) : outcome Z :=
  if sc <? 128 then
    let upper := xorb (shift k) (caps k) in
    c ← arr_get (if upper then scancode_map_shift else scancode_map) sc;
    let c := if negb (shift k) && caps k && (97 <=? c) && (c <=? 122) then i8 (c - 32) else c in
    let c := if shift k && caps k && (65 <=? c) && (c <=? 90) then i8 (c + 32) else c in
    mret c
  else mret 0.

(** The control code of a letter, or the character itself. *)
Definition with_ctrl (c : Z) : Z :=
  let base := if (65 <=? c) && (c <=? 90) then i8 (c - 65 + 97) else c in
  if (97 <=? base) && (base <=? 122) then i8 (base - 97 + 1) else c.

(** [keyboard_irq]; [sc] is the byte read from the port. *)
Definition keyboard_irq (k : kbd) (sc : Z) : outcome kbd :=
  if sc =? 0x1D then mret (set_mods (shift k) (caps k) true k)
  else if sc =? 0x9D then mret (set_mods (shift k) (caps k) false k)
  else if (sc =? 0x2A) || (sc =? 0x36) then mret (set_mods true (caps k) (ctrl k) k)
  else if (sc =? 0xAA) || (sc =? 0xB6) then mret (set_mods false (caps k) (ctrl k) k)
  else if sc =? 0x3A then mret (set_mods (shift k) (negb (caps k)) (ctrl k) k)
  else if negb (Z.land sc 0x80 =? 0) then mret k
  else
    c ← key_char k sc;
    if c =? 0 then mret k
    else if ctrl k then kbd_push k (with_ctrl c)
    else kbd_push k c.

Definition keyboard_init (k : kbd) : kbd := mk_kbd (kbd_buf k) 0 0 false false false.

Definition keyboard_has_char (k : kbd) : bool := negb (kbd_head k =? kbd_tail k).

(** [None] when the function returns false. *)
Definition keyboard_try_read (k : kbd) : outcome (option Z * kbd) :=
  if kbd_head k =? kbd_tail k then mret (None, k)
  else
    c ← arr_get (kbd_buf k) (kbd_tail k);
    mret (Some c, set_ring (kbd_buf k) (kbd_head k) (u32 (kbd_tail k + 1) mod KBD_BUF_SIZE) k).

Definition keyboard_read_char (k : kbd) : outcome (Z * kbd) :=
  '(r, k') ← keyboard_try_read k; mret (default 0 r, k').

(** ** The ring as a queue

    [q] is what lies between tail and head. *)
Record ring (k : kbd) (q : list Z) : Prop := {
  ring_len : length (kbd_buf k) = 256%nat;
  ring_tail : 0 <= kbd_tail k < 256;
  ring_head : kbd_head k = (kbd_tail k + Z.of_nat (length q)) mod 256;
  ring_size : (length q <= 255)%nat;
  ring_data : forall i c, q !! i = Some c ->
    kbd_buf k !! Z.to_nat ((kbd_tail k + Z.of_nat i) mod 256) = Some c
}.

Lemma ring_empty k q : ring k q -> (kbd_head k =? kbd_tail k) = true <-> q = [].
Proof.
  intros [_ Ht Hh Hs _]. rewrite Z.eqb_eq, Hh. destruct q as [|c q]; cbn [length] in *.
  - rewrite Z.add_0_r, Z.mod_small by lia. tauto.
  - split; [|discriminate]. intros E. exfalso. Z.to_euclidean_division_equations. lia.
Qed.

Lemma head_range k q : ring k q -> 0 <= kbd_head k < 256.
Proof. intros Hr. rewrite (ring_head _ _ Hr). apply Z.mod_pos_bound. lia. Qed.

Lemma kbd_push_returns k q c :
  ring k q ->
  returns (kbd_push k c) (fun k' =>
    ring k' (if decide (length q < 255)%nat then q ++ [c] else q) /\
    shift k' = shift k /\ caps k' = caps k /\ ctrl k' = ctrl k).
Proof.
  intros Hr. pose proof (head_range _ _ Hr) as Hhr. destruct Hr as [Hl Ht Hh Hs Hd]. unfold kbd_push.
  rewrite u32_small by lia. unfold KBD_BUF_SIZE.
  assert (Hfull : ((kbd_head k + 1) mod 256 =? kbd_tail k) = true <-> ~ (length q < 255)%nat).
  { rewrite Z.eqb_eq, Hh. Z.to_euclidean_division_equations. lia. }
  destruct (_ =? kbd_tail k) eqn:E.
  - apply returns_Done. rewrite decide_False by (apply Hfull; reflexivity). split; [split; assumption|auto].
  - rewrite decide_True.
    2: { destruct (decide (length q < 255)%nat) as [?|Hn]; [assumption|apply Hfull in Hn; discriminate]. }
    rewrite arr_set_Done by lia. rewrite bind_Done. apply returns_Done. split; [|auto].
    assert (Hlt : (length q < 255)%nat).
    { destruct (decide (length q < 255)%nat) as [?|Hn]; [assumption|apply Hfull in Hn; discriminate]. }
    split; cbn [kbd_buf kbd_head kbd_tail set_ring].
    + rewrite length_insert. exact Hl.
    + exact Ht.
    + rewrite length_app, Hh. cbn [length]. rewrite Zplus_mod_idemp_l. f_equal. lia.
    + rewrite length_app. simpl. lia.
    + intros i x Hi. destruct (decide (i = length q)) as [->|Hne].
      * rewrite lookup_app_r, Nat.sub_diag in Hi by lia. injection Hi as <-.
        rewrite Hh. apply list_lookup_insert_eq. rewrite Hl, <- Hh. lia.
      * apply lookup_app_Some in Hi as [Hi|[Hi1 Hi]].
        2: { apply lookup_lt_Some in Hi. simpl in Hi. lia. }
        pose proof (lookup_lt_Some _ _ _ Hi). rewrite list_lookup_insert_ne; [exact (Hd _ _ Hi)|].
        rewrite Hh. intros E'. apply Z2Nat.inj in E'; [|apply Z.mod_pos_bound; lia|apply Z.mod_pos_bound; lia].
        Z.to_euclidean_division_equations. lia.
Qed.

Lemma keyboard_try_read_returns k q :
  ring k q ->
  returns (keyboard_try_read k) (fun '(r, k') =>
    r = head q /\ ring k' (tail q) /\ shift k' = shift k /\ caps k' = caps k /\ ctrl k' = ctrl k).
Proof.
  intros Hr. pose proof (ring_empty _ _ Hr) as He. unfold keyboard_try_read.
  destruct (kbd_head k =? kbd_tail k) eqn:E.
  - rewrite (proj1 He eq_refl) in *. apply returns_Done. auto.
  - destruct q as [|c q]; [discriminate (proj2 He eq_refl)|].
    destruct Hr as [Hl Ht Hh Hs Hd]. cbn [length] in *.
    rewrite (proj2 (arr_get_Done (kbd_buf k) (kbd_tail k) c)).
    2: { split; [lia|]. specialize (Hd O c eq_refl). rewrite Z.add_0_r, Z.mod_small in Hd by lia. exact Hd. }
    rewrite bind_Done. apply returns_Done. split; [reflexivity|]. split; [|auto].
    rewrite u32_small by lia. unfold KBD_BUF_SIZE. split; cbn [kbd_buf kbd_head kbd_tail set_ring tail].
    + exact Hl.
    + apply Z.mod_pos_bound. lia.
    + rewrite Hh, Zplus_mod_idemp_l. f_equal. lia.
    + lia.
    + intros i x Hi. rewrite Zplus_mod_idemp_l. specialize (Hd (S i) x Hi).
      replace (kbd_tail k + 1 + Z.of_nat i) with (kbd_tail k + Z.of_nat (S i)) by lia. exact Hd.
Qed.

(** ** What a key gives *)

(** The letter keys, by their scancode. *)
Definition letter_key (sc : Z) : bool :=
  match arr_get scancode_map sc with
  | Done c => (97 <=? c) && (c <=? 122)
  | _ => false
  end.

Lemma letter_key_shift sc c :
  0 <= sc < 128 -> arr_get scancode_map sc = Done c -> 97 <= c <= 122 ->
  arr_get scancode_map_shift sc = Done (c - 32).
Proof.
  intros Hs Hc Hr.
  assert (Hall : forallb (fun n => match arr_get scancode_map (Z.of_nat n) with
     | Done c => negb ((97 <=? c) && (c <=? 122)) ||
                 match arr_get scancode_map_shift (Z.of_nat n) with Done d => d =? c - 32 | _ => false end
     | _ => false end) (seq 0 128) = true) by (vm_compute; reflexivity).
  rewrite forallb_forall in Hall. specialize (Hall (Z.to_nat sc) ltac:(apply in_seq; lia)).
  rewrite Z2Nat.id, Hc in Hall by lia.
  destruct (Z.leb_spec 97 c); [|lia]. destruct (Z.leb_spec c 122); [|lia]. cbn [andb negb orb] in Hall.
  destruct (arr_get scancode_map_shift sc) as [d| | |]; try discriminate.
  apply Z.eqb_eq in Hall as ->. reflexivity.
Qed.

Lemma key_char_letter k sc c :
  0 <= sc < 128 -> arr_get scancode_map sc = Done c -> 97 <= c <= 122 ->
  key_char k sc = Done (if xorb (shift k) (caps k) then c - 32 else c).
Proof.
  intros Hs Hc Hr. pose proof (letter_key_shift sc c Hs Hc Hr) as Hc'.
  unfold key_char. destruct (Z.ltb_spec sc 128); [|lia].
  destruct (shift k), (caps k); cbn [xorb negb andb]; first [rewrite Hc|rewrite Hc']; rewrite bind_Done;
    repeat case_cmp; cbn [andb]; try reflexivity; lia.
Qed.

Lemma with_ctrl_letter c : 97 <= c <= 122 -> with_ctrl (c - 32) = c - 96 /\ with_ctrl c = c - 96.
Proof.
  intros Hc.
  assert (Hall : forallb (fun n => (with_ctrl (Z.of_nat n - 32) =? Z.of_nat n - 96) &&
                                   (with_ctrl (Z.of_nat n) =? Z.of_nat n - 96)) (seq 97 26) = true)
    by (vm_compute; reflexivity).
  rewrite forallb_forall in Hall. specialize (Hall (Z.to_nat c) ltac:(apply in_seq; lia)).
  rewrite Z2Nat.id in Hall by lia. apply andb_true_iff in Hall as [H1 H2].
  rewrite Z.eqb_eq in H1. rewrite Z.eqb_eq in H2. auto.
Qed.

(** A scancode below 128 that is no modifier reaches the translation. *)
Definition plain_key (sc : Z) : Prop :=
  0 <= sc < 128 /\ sc <> 0x1D /\ sc <> 0x2A /\ sc <> 0x36 /\ sc <> 0x3A.

Lemma land_high sc : 0 <= sc < 128 -> Z.land sc 0x80 = 0.
Proof.
  intros Hs. apply Z.bits_inj'. intros j Hj. rewrite Z.land_spec, Z.bits_0.
  change 0x80 with (2 ^ 7). destruct (Z.eq_dec j 7) as [->|Hne].
  - rewrite <- (Z.mod_small sc (2 ^ 7)) by lia. rewrite Z.mod_pow2_bits_high by lia. reflexivity.
  - rewrite Z.pow2_bits_false by lia. apply andb_false_r.
Qed.

Lemma keyboard_irq_plain k sc :
  plain_key sc ->
  keyboard_irq k sc =
    (c ← key_char k sc;
     if c =? 0 then mret k else if ctrl k then kbd_push k (with_ctrl c) else kbd_push k c).
Proof.
  intros (Hs & H1 & H2 & H3 & H4). unfold keyboard_irq.
  destruct (Z.eqb_spec sc 0x1D); [lia|]. destruct (Z.eqb_spec sc 0x9D); [lia|].
  destruct (Z.eqb_spec sc 0x2A); [lia|]. destruct (Z.eqb_spec sc 0x36); [lia|].
  destruct (Z.eqb_spec sc 0xAA); [lia|]. destruct (Z.eqb_spec sc 0xB6); [lia|].
  destruct (Z.eqb_spec sc 0x3A); [lia|]. cbn [orb]. rewrite (land_high sc Hs). reflexivity.
Qed.

Lemma letter_plain sc c :
  0 <= sc < 128 -> arr_get scancode_map sc = Done c -> 97 <= c <= 122 -> plain_key sc.
Proof.
  intros Hs Hc Hr. split; [exact Hs|].
  repeat split; intros ->; vm_compute in Hc; injection Hc as <-; lia.
Qed.

(** Any byte of the controller keeps the ring a queue. *)
Lemma keyboard_irq_returns k q sc :
  ring k q -> 0 <= sc -> returns (keyboard_irq k sc) (fun k' => exists q', ring k' q').
Proof.
  intros Hr Hsc. pose proof Hr as [Hl Ht Hh Hs Hd].
  assert (Hm : forall s c l, returns (mret (set_mods s c l k)) (fun k' => exists q', ring k' q')).
  { intros s c l. apply returns_Done. exists q. split; assumption. }
  assert (Hp : forall c, returns (kbd_push k c) (fun k' => exists q', ring k' q')).
  { intros c. eapply returns_mono; [exact (kbd_push_returns k q c Hr)|]. intros k' [Hr' _]. eauto. }
  unfold keyboard_irq. repeat (case_match; [apply Hm|]).
  destruct (negb _); [apply returns_Done; exists q; exact Hr|]. apply returns_bind.
  apply (returns_mono _ (fun _ => True)).
  - unfold key_char. destruct (Z.ltb_spec sc 128); [|apply returns_Done; exact I].
    destruct (arr_get_in (if xorb (shift k) (caps k) then scancode_map_shift else scancode_map) sc) as [c E].
    { destruct (xorb _ _); cbn; lia. }
    rewrite E, bind_Done. apply returns_Done. exact I.
  - intros c _. repeat case_match; [apply returns_Done; exists q; exact Hr|apply Hp..].
Qed.

(** ** Properties *)

(** C32: the ring buffer is a first-in first-out queue of at most 255
    characters: a push appends, or drops the new character when the queue is full; a
    read removes the oldest character, or reports that there is none; neither touches
    the modifiers. *)
Theorem keyboard_queue k q c :
  ring k q ->
  returns (kbd_push k c) (fun k' => ring k' (if decide (length q < 255)%nat then q ++ [c] else q)) /\
  returns (keyboard_try_read k) (fun '(r, k') => r = head q /\ ring k' (tail q)) /\
  keyboard_has_char k = negb (bool_decide (q = [])).
Proof.
  intros Hr. split; [|split].
  - eapply returns_mono; [apply kbd_push_returns, Hr|]. intros k' [H _]. exact H.
  - eapply returns_mono; [apply keyboard_try_read_returns, Hr|]. intros [r k'] (H1 & H2 & _). exact (conj H1 H2).
  - unfold keyboard_has_char. f_equal. pose proof (ring_empty _ _ Hr) as He.
    destruct (kbd_head k =? kbd_tail k).
    + symmetry. apply bool_decide_eq_true. apply He. reflexivity.
    + symmetry. apply bool_decide_eq_false. intros E. apply He in E. discriminate.
Qed.

(** The ring wraps around: two characters at the end of the buffer. *)
Definition demo_kbd : kbd :=
  mk_kbd (<[255%nat := 98]> (<[254%nat := 97]> (replicate 256 0))) 0 254 false false false.

Lemma demo_ring : ring demo_kbd [97; 98].
Proof.
  split; try reflexivity; [cbn; lia|cbn; lia|].
  intros [|[|i]] x Hi; [| |destruct i; discriminate]; injection Hi as <-; reflexivity.
Defined.

Lemma keyboard_queue_witness :
  returns (kbd_push demo_kbd 99) (fun k' => ring k' [97; 98; 99]).
Proof. exact (proj1 (keyboard_queue demo_kbd [97; 98] 99 demo_ring)). Defined.

(** a letter key appends, when the queue has room, the letter: in upper
    case if exactly one of shift and caps lock is on, and as the control code 1 to 26
    whatever the case when ctrl is down. *)
Theorem keyboard_irq_letter k q sc c :
  ring k q -> (length q < 255)%nat ->
  0 <= sc < 128 -> arr_get scancode_map sc = Done c -> 97 <= c <= 122 ->
  returns (keyboard_irq k sc) (fun k' =>
    ring k' (q ++ [if ctrl k then c - 96 else if xorb (shift k) (caps k) then c - 32 else c])).
Proof.
  intros Hr Hq Hs Hc Hl. rewrite keyboard_irq_plain by exact (letter_plain _ _ Hs Hc Hl).
  rewrite (key_char_letter k sc c Hs Hc Hl), bind_Done. set (d := if xorb _ _ then _ else _).
  assert (Hd : d = c - 32 \/ d = c) by (unfold d; destruct (xorb _ _); auto).
  destruct (Z.eqb_spec d 0); [lia|].
  assert (Hctrl : with_ctrl d = c - 96).
  { destruct (with_ctrl_letter c Hl) as [E1 E2]. destruct Hd as [-> | ->]; assumption. }
  destruct (ctrl k); [rewrite Hctrl|];
    (eapply returns_mono; [apply kbd_push_returns, Hr|]; rewrite decide_True by exact Hq; intros k' [H _]; exact H).
Qed.

Lemma keyboard_irq_letter_witness :
  returns (keyboard_irq demo_kbd 0x1E) (fun k' => ring k' [97; 98; 97]).
Proof.
  exact (keyboard_irq_letter demo_kbd [97; 98] 0x1E 97 demo_ring ltac:(simpl; lia) ltac:(lia)
           ltac:(vm_compute; reflexivity) ltac:(lia)).
Defined.

(** Caps lock is treated as a second shift on every key, not only on
    letters: with caps lock on, every digit key gives its shifted symbol, and the
    digit when shift is held as well. *)
Theorem caps_lock_shifts_digits k sc :
  2 <= sc <= 11 -> caps k = true ->
  key_char k sc = arr_get (if shift k then scancode_map else scancode_map_shift) sc /\
  arr_get scancode_map_shift sc <> arr_get scancode_map sc.
Proof.
  intros Hs Hc.
  assert (E : sc = 2 \/ sc = 3 \/ sc = 4 \/ sc = 5 \/ sc = 6 \/ sc = 7 \/ sc = 8 \/ sc = 9 \/ sc = 10 \/ sc = 11) by lia.
  unfold key_char. rewrite Hc. destruct (Z.ltb_spec sc 128); [|lia]. destruct (shift k);
    repeat (destruct E as [->|E]); subst; split; first [vm_compute; reflexivity|vm_compute; discriminate].
Qed.

Lemma caps_lock_shifts_digits_witness :
  key_char (set_mods false true false demo_kbd) 2 = Done 33.
Proof.
  rewrite (proj1 (caps_lock_shifts_digits (set_mods false true false demo_kbd) 2 ltac:(lia) eq_refl)).
  vm_compute. reflexivity.
Defined.
