(* ===== verification/Mouse.v ===== *)
(** * PS/2 mouse: [drivers/mouse/mouse.c]

    The interrupt handler is a function of the byte it reads from port 0x60 and of
    the size of the framebuffer ([fb_get]; [None] for no framebuffer). *)
From Stdlib Require Import ZArith Lia Bool.
From stdpp Require Import base tactics option list numbers.
From S2P Require Import Prelude CInt Io.

(** ** State *)
Record mouse_state := mk_mouse {
  x : Z; y : Z; dx : Z; dy : Z;
  left : bool; right : bool; middle : bool;
  left_pressed : bool; left_released : bool;
  right_pressed : bool; right_released : bool
}.

Record mouse := mk_driver {
  g_mouse : mouse_state;
  prev_left : bool;
  prev_right : bool;
  cycle : Z;
  packet : list Z     (* u8[3] *)
}.

(** ** Operations *)

(** The position after a movement, kept on the screen. *)
Definition clamp_axis (v size : Z) : Z :=
  let v := if v <? 0 then 0 else v in
  if i32 size <=? v then i32 (i32 size - 1) else v.

Definition clamp (fb : option (Z * Z)) (px py : Z) : Z * Z :=
  match fb with
  | Some (w, h) =>
      if negb (w =? 0) && negb (h =? 0) then (clamp_axis px w, clamp_axis py h) else (px, py)
  | None => (px, py)
  end.

Definition bit_set (b mask : Z) : bool := negb (Z.land b mask =? 0).

(** A whole packet: lines 49 to 77 of [mouse_irq]. *)
Definition mouse_packet (fb : option (Z * Z)) (s : mouse) (b0 b1 b2 : Z) : mouse :=
  if bit_set b0 0xC0 then s
  else
    let m := g_mouse s in
    let ddx := i8 b1 in
    let ddy := - i8 b2 in
    let '(px, py) := clamp fb (i32 (x m + ddx)) (i32 (y m + ddy)) in
    let l := bit_set b0 1 in
    let r := bit_set b0 2 in
    mk_driver
      (mk_mouse px py ddx ddy l r (bit_set b0 4)
         (if l && negb (prev_left s) then true else left_pressed m)
         (if negb l && prev_left s then true else left_released m)
         (if r && negb (prev_right s) then true else right_pressed m)
         (if negb r && prev_right s then true else right_released m))
      l r (cycle s) (packet s).

Definition mouse_irq (fb : option (Z * Z)) (s : mouse) (data : Z) : outcome mouse :=
  if (cycle s =? 0) && negb (bit_set data 0x08) then mret s
  else
    p ← arr_set (packet s) (cycle s) data;
    let c := u8 (cycle s + 1) in
    if c <? 3 then mret (mk_driver (g_mouse s) (prev_left s) (prev_right s) c p)
    else
      b0 ← arr_get p 0; b1 ← arr_get p 1; b2 ← arr_get p 2;
      mret (mouse_packet fb (mk_driver (g_mouse s) (prev_left s) (prev_right s) 0 p) b0 b1 b2).

Definition mouse_get (s : mouse) : mouse_state := g_mouse s.

Definition mouse_poll_frame (s : mouse) : mouse :=
  let m := g_mouse s in
  mk_driver (mk_mouse (x m) (y m) 0 0 (left m) (right m) (middle m) false false false false)
            (prev_left s) (prev_right s) (cycle s) (packet s).

(** *** The controller *)
Section Controller.
Context {D : Type} `{PortIO D}.

(** The polls of the status port, at most 100000. *)
Definition mouse_wait_write (d : D) : outcome D :=
  r ← for_ret 0 100000 (fun _ d =>
        let '(v, d') := inb d 0x64 in
        mret (if Z.land v 2 =? 0 then Datatypes.inr d' else Datatypes.inl d')) d;
  mret (match r with Datatypes.inl d' => d' | Datatypes.inr d' => d' end).

Definition mouse_wait_read (d : D) : outcome D :=
  r ← for_ret 0 100000 (fun _ d =>
        let '(v, d') := inb d 0x64 in
        mret (if negb (Z.land v 1 =? 0) then Datatypes.inr d' else Datatypes.inl d')) d;
  mret (match r with Datatypes.inl d' => d' | Datatypes.inr d' => d' end).

Definition wait_out (d : D) (port v : Z) : outcome D :=
  d ← mouse_wait_write d; mret (outb d port v).

Definition mouse_write (d : D) (val : Z) : outcome D :=
  d ← wait_out d 0x64 0xD4; wait_out d 0x60 val.

Definition mouse_read (d : D) : outcome (Z * D) :=
  d ← mouse_wait_read d; mret (inb d 0x60).

Definition mouse_blank : mouse_state :=
  mk_mouse 640 360 0 0 false false false false false false false.

(** [packet] keeps its bytes; [irq_install] is the caller's. *)
Definition mouse_init (s : mouse) (d : D) : outcome (mouse * D) :=
  d ← wait_out d 0x64 0xA8;
  d ← wait_out d 0x64 0x20;
  '(status, d) ← mouse_read d;
  let status := Z.land (Z.lor status 0x02) (u8 (Z.lnot 0x20)) in
  d ← wait_out d 0x64 0x60;
  d ← wait_out d 0x60 status;
  d ← mouse_write d 0xF6;
  '(_, d) ← mouse_read d;
  d ← mouse_write d 0xF4;
  '(_, d) ← mouse_read d;
  mret (mk_driver mouse_blank false false 0 (packet s), d).
End Controller.

(** ** Lemmas *)
Lemma i8_range z : - 128 <= i8 z < 128.
Proof. unfold i8. pose proof (Z.mod_pos_bound (z + 2 ^ 7) (2 ^ 8)). lia. Qed.

(** The specification of the clamp. *)
Definition clamped (v size : Z) : Z := Z.max 0 (Z.min v (size - 1)).

Lemma clamp_axis_spec v size : 0 < size < 2 ^ 31 -> clamp_axis v size = clamped v size.
Proof.
  intros Hs. unfold clamp_axis, clamped. rewrite (i32_small size), i32_small by lia.
  repeat case_cmp; lia.
Qed.

Lemma clamped_range v size : 0 < size -> 0 <= clamped v size < size.
Proof. unfold clamped. lia. Qed.

(** The state between interrupts, with a framebuffer of [w] times [h] pixels. *)
Record inv (w h : Z) (s : mouse) : Prop := {
  inv_x : 0 <= x (g_mouse s) < w;
  inv_y : 0 <= y (g_mouse s) < h;
  inv_cycle : 0 <= cycle s < 3;
  inv_packet : length (packet s) = 3%nat
}.

Definition screen (w h : Z) : Prop := 0 < w < 2 ^ 30 /\ 0 < h < 2 ^ 30.

Lemma mouse_packet_spec w h s b0 b1 b2 :
  screen w h -> inv w h s ->
  let s' := mouse_packet (Some (w, h)) s b0 b1 b2 in
  inv w h s' /\
  (bit_set b0 0xC0 = false ->
   x (g_mouse s') = clamped (x (g_mouse s) + i8 b1) w /\
   y (g_mouse s') = clamped (y (g_mouse s) - i8 b2) h).
Proof.
  intros [Hw Hh] [Hx Hy Hc Hp]. unfold mouse_packet. destruct (bit_set b0 0xC0).
  { split; [split; assumption|discriminate]. }
  pose proof (i8_range b1). pose proof (i8_range b2).
  unfold clamp. destruct (Z.eqb_spec w 0); [lia|]. destruct (Z.eqb_spec h 0); [lia|]. cbn [negb andb].
  rewrite !i32_small by lia. rewrite !clamp_axis_spec by lia. cbn [g_mouse x y cycle packet].
  split; [split; cbn [g_mouse x y cycle packet]; try assumption; apply clamped_range; lia|].
  intros _. split; reflexivity.
Qed.

Lemma mouse_irq_returns w h s data :
  screen w h -> inv w h s -> returns (mouse_irq (Some (w, h)) s data) (inv w h).
Proof.
  intros Hsc Hinv. pose proof Hinv as [Hx Hy Hc Hp]. unfold mouse_irq.
  destruct (_ && _); [apply returns_Done; exact Hinv|].
  rewrite arr_set_Done by lia. rewrite bind_Done, u8_small by lia.
  set (p := <[_ := _]> _).
  assert (Hpl : length p = 3%nat) by (unfold p; rewrite length_insert; exact Hp).
  destruct (Z.ltb_spec (cycle s + 1) 3).
  - apply returns_Done. split; cbn [g_mouse cycle packet]; try assumption; lia.
  - destruct (arr_get_in p 0) as [b0 E0]; [lia|]. destruct (arr_get_in p 1) as [b1 E1]; [lia|].
    destruct (arr_get_in p 2) as [b2 E2]; [lia|]. rewrite E0, E1, E2. rewrite !bind_Done. apply returns_Done.
    apply (mouse_packet_spec w h); [exact Hsc|]. split; cbn [g_mouse cycle packet]; try assumption; lia.
Qed.

Definition mouse_irqs (fb : option (Z * Z)) (s : mouse) (bytes : list Z) : outcome mouse :=
  foldl (fun m b => s ← m; mouse_irq fb s b) (mret s) bytes.

(** ** Start-up *)
Section Startup.
Context {D : Type} `{PortIO D}.

Lemma wait_returns (done : Z -> bool) (d : D) :
  returns (r ← for_ret 0 100000 (fun _ d => let '(v, d') := inb d 0x64 in
             mret (if done v then Datatypes.inr d' else Datatypes.inl d')) d;
           mret (match r with Datatypes.inl d' => d' | Datatypes.inr d' => d' end)) (fun _ => True).
Proof.
  apply returns_bind. eapply returns_mono; [apply (for_ret_inv (fun _ _ => True) (fun _ => True)); [lia|exact I|]|].
  - intros j d1 _ _. destruct (inb d1 0x64) as [v d2]. apply returns_Done. destruct (done v); exact I.
  - intros r _. apply returns_Done. exact I.
Qed.

Lemma wait_out_returns (d : D) p v : returns (wait_out d p v) (fun _ => True).
Proof.
  apply returns_bind. eapply returns_mono; [exact (wait_returns (fun v => Z.land v 2 =? 0) d)|].
  intros d' _. apply returns_Done. exact I.
Qed.

Lemma mouse_read_returns (d : D) : returns (mouse_read d) (fun _ => True).
Proof.
  apply returns_bind. eapply returns_mono; [exact (wait_returns (fun v => negb (Z.land v 1 =? 0)) d)|].
  intros d' _. apply returns_Done. exact I.
Qed.

(** The waits give up, so the start-up ends with any controller, or none. *)
Lemma mouse_init_returns s (d : D) :
  returns (mouse_init s d) (fun '(s', _) => s' = mk_driver mouse_blank false false 0 (packet s)).
Proof.
  assert (Hw : forall A (m : outcome A) B (k : A -> outcome B) Q,
    returns m (fun _ => True) -> (forall a, returns (k a) Q) -> returns (m ≫= k) Q).
  { intros A m B k Q Hm Hk. apply returns_bind. eapply returns_mono; [exact Hm|auto]. }
  unfold mouse_init, mouse_write.
  repeat match goal with
  | |- returns (mbind _ (wait_out _ _ _)) _ => apply Hw; [apply wait_out_returns|intros ?]
  | |- returns (mbind _ (mouse_read _)) _ => apply Hw; [apply mouse_read_returns|intros [? ?]]
  | |- returns (mbind _ (mbind _ _)) _ => apply Hw; [apply Hw; [apply wait_out_returns|intros ?; apply wait_out_returns]|intros ?]
  | |- returns (mret _) _ => apply returns_Done; reflexivity
  end.
Qed.
End Startup.

(** ** Properties *)

(** whatever bytes the device sends, the handler neither faults nor leaves
    the packet buffer, and the pointer stays on the screen. *)
Theorem mouse_stays_on_screen w h s bytes :
  screen w h -> inv w h s -> returns (mouse_irqs (Some (w, h)) s bytes) (inv w h).
Proof.
  intros Hsc Hinv. unfold mouse_irqs.
  assert (H : forall m, returns m (inv w h) ->
    returns (foldl (fun m b => s ← m; mouse_irq (Some (w, h)) s b) m bytes) (inv w h)).
  { induction bytes as [|b bytes IH]; intros m Hm; [exact Hm|]. apply IH.
    destruct Hm as (s' & -> & Hs'). exact (mouse_irq_returns w h s' b Hsc Hs'). }
  apply H, returns_Done, Hinv.
Qed.

Definition demo_mouse : mouse := mk_driver mouse_blank false false 0 [0; 0; 0].

Lemma demo_inv : inv 1280 720 demo_mouse.
Proof. split; cbn; lia || reflexivity. Defined.

Lemma mouse_stays_on_screen_witness :
  returns (mouse_irqs (Some (1280, 720)) demo_mouse [0xFF; 8; 0x80; 0x80; 8; 0x80; 0x80; 9]) (inv 1280 720).
Proof.
  apply mouse_stays_on_screen; [split; lia|exact demo_inv].
Defined.

(** Three bytes of which the first has bit 3 set are one packet: unless an
    overflow bit is set, the pointer moves by the signed second byte to the right and
    by the signed third byte up, clamped to the screen; the buttons are the low bits;
    and an edge of a button is latched until [mouse_poll_frame]. A packet with an
    overflow bit changes neither position nor buttons, and a first byte without bit 3
    is skipped, so that the handler finds the packet boundary again. *)
Theorem mouse_decodes_packet w h s b0 b1 b2 :
  screen w h -> inv w h s -> cycle s = 0 ->
  (bit_set b0 0x08 = false -> mouse_irq (Some (w, h)) s b0 = Done s) /\
  (bit_set b0 0x08 = true ->
   returns (mouse_irqs (Some (w, h)) s [b0; b1; b2]) (fun s' =>
     cycle s' = 0 /\ packet s' = [b0; b1; b2] /\
     if bit_set b0 0xC0 then
       g_mouse s' = g_mouse s /\ prev_left s' = prev_left s /\ prev_right s' = prev_right s
     else
       x (g_mouse s') = clamped (x (g_mouse s) + i8 b1) w /\
       y (g_mouse s') = clamped (y (g_mouse s) - i8 b2) h /\
       dx (g_mouse s') = i8 b1 /\ dy (g_mouse s') = - i8 b2 /\
       left (g_mouse s') = bit_set b0 1 /\ right (g_mouse s') = bit_set b0 2 /\
       middle (g_mouse s') = bit_set b0 4 /\
       left_pressed (g_mouse s') = left_pressed (g_mouse s) || (bit_set b0 1 && negb (prev_left s)) /\
       left_released (g_mouse s') = left_released (g_mouse s) || (negb (bit_set b0 1) && prev_left s) /\
       prev_left s' = bit_set b0 1)).
Proof.
  intros Hsc [Hx Hy Hc Hp] H0. split; intros Hb3.
  { unfold mouse_irq. rewrite H0, Hb3. reflexivity. }
  destruct s as [m pl pr c p]. cbn [cycle packet g_mouse] in *. subst c.
  destruct p as [|p0 [|p1 [|p2 [|]]]]; try discriminate.
  unfold mouse_irqs. cbn [foldl]. unfold mouse_irq at 3. cbn [cycle packet]. rewrite Hb3.
  cbn [mret outcome_ret]. rewrite bind_Done. cbn.
  apply returns_Done. set (s1 := mk_driver m pl pr 0 [b0; b1; b2]).
  assert (Hinv1 : inv w h s1) by (split; cbn; first [assumption|lia|reflexivity]).
  destruct (mouse_packet_spec w h s1 b0 b1 b2 Hsc Hinv1) as [_ Hpos].
  unfold mouse_packet in *. destruct (bit_set b0 0xC0); [auto|].
  destruct (clamp (Some (w, h)) _ _) as [px py]. cbn [g_mouse x y cycle packet] in *.
  destruct (Hpos eq_refl) as [Ex Ey].
  split; [reflexivity|]. split; [reflexivity|]. split; [exact Ex|]. split; [exact Ey|].
  repeat (split; [reflexivity|]). cbn [left_pressed left_released prev_left s1 g_mouse].
  destruct (bit_set b0 1), pl, (left_pressed m), (left_released m); auto.
Qed.

Lemma mouse_decodes_packet_witness :
  exists s', mouse_irqs (Some (1280, 720)) demo_mouse [0x09; 0xF6; 0x05] = Done s' /\
    x (g_mouse s') = 630 /\ y (g_mouse s') = 355 /\ left_pressed (g_mouse s') = true.
Proof.
  assert (Hsc : screen 1280 720) by (split; lia).
  destruct (proj2 (mouse_decodes_packet 1280 720 demo_mouse 0x09 0xF6 0x05 Hsc demo_inv eq_refl) eq_refl)
    as (s' & E & _ & _ & Hx & Hy & _ & _ & _ & _ & _ & Hl & _).
  exists s'. split; [exact E|]. rewrite Hx, Hy, Hl. repeat split; vm_compute; reflexivity.
Defined.
