(* ===== verification/BlockAlloc.v ===== *)
(** * The interface of the kernel heap to its clients

    What the file system and the loader rely on when they call [kmalloc] and
    [kfree]: [ba_live h p] says that [p] was handed out and not freed, and
    [ba_room h p] how many bytes from [p] on are then its owner's. *)
From Stdlib Require Import ZArith Lia.
From stdpp Require Import base tactics list numbers gmap.
From S2P Require Import Prelude CInt.

Class BlockAlloc (H : Type) := {
  ba_alloc : H -> Z -> outcome (Z * H);
  ba_free : H -> Z -> outcome H;
  ba_ok : H -> Prop;
  ba_live : H -> Z -> Prop;
  ba_room : H -> Z -> Z
}.

(** The live blocks of [h] are live in [h'] with the room they had. *)
Definition rooms_kept `{BlockAlloc H} (h h' : H) : Prop :=
  forall q, ba_live h q -> ba_live h' q -> ba_room h' q = ba_room h q.

(** The result of an allocation of [n] bytes: NULL and the blocks as they were, or a
    new block with room for them. *)
Definition block_post `{BlockAlloc H} (h : H) (n : Z) (r : Z * H) : Prop :=
  ba_ok (snd r) /\ rooms_kept h (snd r) /\
  ((fst r = 0 /\ forall q, ba_live (snd r) q <-> ba_live h q) \/
   (fst r <> 0 /\ n <= ba_room (snd r) (fst r) /\ ~ ba_live h (fst r) /\
    forall q, ba_live (snd r) q <-> ba_live h q \/ q = fst r)).

Definition freed_post `{BlockAlloc H} (h : H) (p : Z) (h' : H) : Prop :=
  ba_ok h' /\ rooms_kept h h' /\ forall q, ba_live h' q <-> ba_live h q /\ q <> p.

(** Two live blocks do not overlap. *)
Definition blocks_apart `{BlockAlloc H} (h : H) : Prop :=
  forall p q, ba_live h p -> ba_live h q -> p <> q ->
    p + ba_room h p <= q \/ q + ba_room h q <= p.

Class BlockAllocLaws (H : Type) `{BlockAlloc H} := {
  ba_alloc_post : forall h n, ba_ok h -> 0 <= n <= 2 ^ 62 -> returns (ba_alloc h n) (block_post h n);
  ba_free_post : forall h p, ba_ok h -> ba_live h p -> returns (ba_free h p) (freed_post h p);
  ba_live_nonzero : forall h p, ba_ok h -> ba_live h p -> p <> 0;
  ba_live_apart : forall h, ba_ok h -> blocks_apart h
}.

(** ** A concrete allocator with these laws

    Blocks are handed out at growing addresses; requests above 2^20 bytes fail. *)
Record numbered := mk_numbered { next_block : Z; live_blocks : gmap Z Z }.

#[export] Instance numbered_alloc : BlockAlloc numbered := {
  ba_alloc h n :=
    if (n =? 0) || (2 ^ 20 <? n) then Done (0, h)
    else Done (next_block h, mk_numbered (next_block h + n) (<[next_block h := n]> (live_blocks h)));
  ba_free h p := Done (mk_numbered (next_block h) (delete p (live_blocks h)));
  ba_ok h := 0 < next_block h /\
    (forall p n, live_blocks h !! p = Some n -> 0 < p /\ 0 < n /\ p + n <= next_block h) /\
    (forall p q n m, live_blocks h !! p = Some n -> live_blocks h !! q = Some m -> p <> q ->
       p + n <= q \/ q + m <= p);
  ba_live h p := is_Some (live_blocks h !! p);
  ba_room h p := default 0 (live_blocks h !! p)
}.

Lemma numbered_alloc_post (h : numbered) n :
  ba_ok h -> 0 <= n <= 2 ^ 62 -> returns (ba_alloc h n) (block_post h n).
Proof.
  intros (Hn & Hl & Ha) Hn0. cbn [ba_alloc numbered_alloc].
  destruct (Z.eqb_spec n 0), (Z.ltb_spec (2 ^ 20) n); cbn [orb]; apply returns_Done;
    unfold block_post, rooms_kept; cbn [fst snd];
    try (split; [exact (conj Hn (conj Hl Ha))|]; split; [reflexivity|]; left;
         split; [reflexivity|intros q; reflexivity]).
  cbn [ba_ok ba_live ba_room numbered_alloc next_block live_blocks].
  assert (Hfresh : live_blocks h !! next_block h = None).
  { destruct (live_blocks h !! next_block h) as [m|] eqn:E; [|reflexivity]. specialize (Hl _ _ E). lia. }
  split; [split; [lia|split]|split; [|right; split; [lia|split; [|split]]]].
  - intros p m. rewrite lookup_insert_Some. intros [[<- <-]|[_ E]]; [lia|]. specialize (Hl _ _ E). lia.
  - intros p q m k. rewrite !lookup_insert_Some.
    intros [[<- <-]|[Hp E1]] [[<- <-]|[Hq E2]] Hne; try congruence.
    + specialize (Hl _ _ E2). lia.
    + specialize (Hl _ _ E1). lia.
    + exact (Ha _ _ _ _ E1 E2 Hne).
  - intros q [m E] _. rewrite lookup_insert_ne by congruence. reflexivity.
  - rewrite lookup_insert_eq. reflexivity.
  - rewrite Hfresh. intros [? ?]; discriminate.
  - intros q. rewrite lookup_insert_is_Some. destruct (decide (next_block h = q)); intuition congruence.
Qed.

Lemma numbered_free_post (h : numbered) p :
  ba_ok h -> ba_live h p -> returns (ba_free h p) (freed_post h p).
Proof.
  intros (Hn & Hl & Ha) Hp. apply returns_Done. unfold freed_post, rooms_kept.
  cbn [ba_ok ba_live ba_room numbered_alloc next_block live_blocks]. split; [split; [exact Hn|split]|split].
  - intros q m. rewrite lookup_delete_Some. intros [_ E]. exact (Hl _ _ E).
  - intros q k m m'. rewrite !lookup_delete_Some. intros [_ E1] [_ E2]. exact (Ha _ _ _ _ E1 E2).
  - intros q _ [m E]. apply lookup_delete_Some in E as [Hne E].
    rewrite lookup_delete_ne by exact Hne. reflexivity.
  - intros q. rewrite lookup_delete_is_Some. intuition.
Qed.

#[export] Instance numbered_laws : BlockAllocLaws numbered.
Proof.
  split.
  - exact numbered_alloc_post.
  - exact numbered_free_post.
  - intros h p (_ & Hl & _) [n E]. specialize (Hl _ _ E). lia.
  - intros h (_ & _ & Ha) p q [n E1] [m E2] Hne. cbn [ba_room numbered_alloc].
    rewrite E1, E2. exact (Ha _ _ _ _ E1 E2 Hne).
Qed.
