(* ===== verification/HeapAlloc.v ===== *)
(** * The kernel heap behind the interface of its clients

    The heap of [Heap.v] over its early arena alone is an instance of [BlockAlloc.v], so
    the theorems of the file system hold of it.  With more than one region the laws do not
    hold: [kfree] may then join blocks of different regions ([kfree_merges_regions]). *)
From Stdlib Require Import ZArith Lia.
From stdpp Require Import base tactics option list numbers gmap.
From S2P Require Import Prelude CInt PageAlloc BlockAlloc Heap.

(** The page allocator without a free page. *)
#[export] Instance no_pages : PageAlloc unit := {
  pa_alloc_page s := Done (0, s);
  pa_alloc_pages s _ := Done (0, s);
  pa_ok _ := True;
  pa_free _ _ := False
}.

#[export] Instance no_pages_laws : PageAllocLaws unit.
Proof.
  split; [intros s p _ []|..]; intros; apply returns_Done; (split; [exact I|]); left; split; reflexivity.
Qed.

#[export] Instance blk_eq_dec : EqDecision blk.
Proof. solve_decision. Defined.

(** ** The block list of a heap *)

(** The headers and the first address determine the list. *)
Lemma chain_unique m l : forall pv l',
  chain m pv l 0 -> chain m pv l' 0 -> 0 ∉ addrs l -> 0 ∉ addrs l' -> hd_addr l 0 = hd_addr l' 0 -> l = l'.
Proof.
  induction l as [|x l IH]; intros pv [|x' l'] Hc Hc' H0 H0' Hh; cbn [hd_addr addrs map] in *.
  - reflexivity.
  - apply not_elem_of_cons in H0' as [Hx _]. congruence.
  - apply not_elem_of_cons in H0 as [Hx _]. congruence.
  - destruct Hc as [Ex Hc], Hc' as [Ex' Hc'].
    apply not_elem_of_cons in H0 as [_ H0]. apply not_elem_of_cons in H0' as [_ H0'].
    rewrite Hh, Ex' in Ex. injection Ex as Es Ef En.
    assert (x = x') as -> by (destruct x, x'; cbn in *; congruence).
    f_equal. apply (IH (b_addr x')); auto.
Qed.

Lemma rep_unique h rs rs' l l' : heap_rep h rs l -> heap_rep h rs' l' -> l = l'.
Proof.
  intros Hr Hr'. pose proof (laid_pos _ (rep_laid _ _ _ Hr)). pose proof (laid_pos _ (rep_laid _ _ _ Hr')).
  destruct (rep_list _ _ _ Hr) as [Hc Hh], (rep_list _ _ _ Hr') as [Hc' Hh'].
  apply (chain_unique (hdrs h) l 0 l'); congruence.
Qed.

Lemma chain_dom m l nx : forall pv, chain m pv l nx -> forall a, a ∈ addrs l -> a ∈ dom m.
Proof.
  induction l as [|x l IH]; intros pv Hc a Ha; [apply elem_of_nil in Ha as []|].
  destruct Hc as [Ex Hc]. apply elem_of_cons in Ha as [->|Ha]; [apply elem_of_dom; eauto|exact (IH _ Hc a Ha)].
Qed.

(** There are no more blocks than headers. *)
Lemma rep_length h rs l : heap_rep h rs l -> (length l <= base.size (hdrs h))%nat.
Proof.
  intros Hr. pose proof (laid_nodup _ (rep_laid _ _ _ Hr)) as Hnd. destruct (rep_list _ _ _ Hr) as [Hc _].
  replace (length l) with (length (addrs l)) by apply length_map.
  rewrite <- size_dom, <- (size_list_to_set (C := gset Z)) by exact Hnd.
  apply subseteq_size. intros a Ha. apply elem_of_list_to_set in Ha. exact (chain_dom _ _ _ _ Hc a Ha).
Qed.

Lemma rep_header h rs l x :
  heap_rep h rs l -> x ∈ l -> exists b, hdrs h !! b_addr x = Some b /\ size b = b_size x.
Proof.
  intros Hr Hx. destruct (rep_list _ _ _ Hr) as [Hc _]. apply list_elem_of_split in Hx as (l1 & l2 & ->).
  eexists. split; [exact (chain_lookup _ _ _ _ _ _ Hc)|reflexivity].
Qed.

Lemma separate_in l x y : separate l -> x ∈ l -> y ∈ l -> x <> y -> disj x y.
Proof.
  induction l as [|z l IH]; cbn [separate]; [intros _ Hx; apply elem_of_nil in Hx as []|].
  intros [Hz Hs] Hx Hy Hne. rewrite Forall_forall in Hz.
  apply elem_of_cons in Hx as [->|Hx]; apply elem_of_cons in Hy as [->|Hy].
  - congruence.
  - apply Hz, Hy.
  - specialize (Hz _ Hx). unfold disj in *. tauto.
  - apply IH; assumption.
Qed.

(** ** The instance *)

(** A walk over the list meets each header at most once. *)
Definition walk_fuel (h : heap) : nat := S (S (base.size (hdrs h))).

Definition early_alloc (h : heap) (n : Z) : outcome (Z * heap) :=
  '(p, h', _) ← kmalloc (walk_fuel h) h tt n; mret (p, h').

Definition one_region (h : heap) (l : list blk) : Prop := exists r, heap_rep h [r] l.

#[export] Instance early_heap : BlockAlloc heap := {
  ba_alloc := early_alloc;
  ba_free := kfree;
  ba_ok h := exists l, one_region h l;
  ba_live h p := exists l x, one_region h l /\ x ∈ live l /\ p = b_addr x + sizeof_block;
  ba_room h p := match hdrs h !! (p - sizeof_block) with Some b => size b | None => 0 end
}.

Lemma region_list h l l' : one_region h l -> one_region h l' -> l = l'.
Proof. intros [r Hr] [r' Hr']. exact (rep_unique _ _ _ _ _ Hr Hr'). Qed.

Lemma live_list h l p :
  one_region h l -> (ba_live h p <-> exists x, x ∈ live l /\ p = b_addr x + sizeof_block).
Proof.
  intros Hl. split.
  - intros (l' & x & Hl' & Hx & Hp). rewrite (region_list h l l' Hl Hl'). eauto.
  - intros (x & Hx & Hp). exists l, x. auto.
Qed.

Lemma room_list h l x : one_region h l -> x ∈ l -> ba_room h (b_addr x + sizeof_block) = b_size x.
Proof.
  intros [r Hr] Hx. destruct (rep_header _ _ _ _ Hr Hx) as (b & Eb & Es). cbn [ba_room early_heap].
  rewrite Z.add_simpl_r, Eb. exact Es.
Qed.

Lemma live_room h l x : one_region h l -> x ∈ live l -> ba_room h (b_addr x + sizeof_block) = b_size x.
Proof. intros Hl Hx. apply (room_list h l); [exact Hl|]. apply live_in in Hx as [_ Hx]. exact Hx. Qed.

(** Two lists that share their live blocks up to [x]. *)
Lemma live_rooms_kept h h' l l' :
  one_region h l -> one_region h' l' ->
  (forall x y, x ∈ live l -> y ∈ live l' -> b_addr x = b_addr y -> x = y) -> rooms_kept h h'.
Proof.
  intros Hl Hl' Hsame q Hq Hq'. apply (live_list h l q Hl) in Hq as (x & Hx & ->).
  apply (live_list h' l' _ Hl') in Hq' as (y & Hy & E). assert (x = y) as -> by (apply Hsame; [auto..|lia]).
  rewrite (live_room h l y Hl Hx), (live_room h' l' y Hl' Hy). reflexivity.
Qed.

Lemma live_addr_inj h l x y :
  one_region h l -> x ∈ live l -> y ∈ live l -> b_addr x = b_addr y -> x = y.
Proof.
  intros [r Hr] Hx Hy E. pose proof (rep_laid _ _ _ Hr) as Hl.
  apply live_in in Hx as [_ Hx]. apply live_in in Hy as [_ Hy].
  destruct (laid_range _ Hl _ Hx) as (_ & _ & Hsx). destruct (laid_range _ Hl _ Hy) as (_ & _ & Hsy).
  destruct (decide (x = y)) as [|Hne]; [assumption|exfalso].
  pose proof (separate_in _ x y (laid_sep _ Hl) Hx Hy Hne) as Hd.
  unfold disj, b_end, sizeof_block, HEAP_MIN in *. lia.
Qed.

Lemma first_fit_none sz l : Forall (fun y => b_free y = true -> b_size y < sz) l -> first_fit sz l = None.
Proof.
  induction 1 as [|y l Hy _ IH]; cbn [first_fit]; [reflexivity|]. destruct (b_free y); [|exact IH].
  specialize (Hy eq_refl). destruct (Z.leb_spec sz (b_size y)); [lia|exact IH].
Qed.

(** Without a block that fits and without pages the result is NULL. *)
Lemma kmalloc_no_fit fuel h r l n :
  heap_rep h [r] l -> 0 < n -> (length l < fuel)%nat ->
  Forall (fun y => b_free y = true -> b_size y < round_size n) l ->
  kmalloc fuel h tt n = Done (0, h, tt).
Proof.
  intros Hr Hn Hf Hall. unfold kmalloc. destruct (Z.eqb_spec n 0); [lia|].
  unfold for_ret. change (Z.to_nat (2 - 0)) with 2%nat. cbn [for_ret_n].
  rewrite (find_fit_returns fuel h _ l (rep_list _ _ _ Hr) (rep_laid _ _ _ Hr) Hf).
  rewrite (first_fit_none _ _ Hall). reflexivity.
Qed.

Lemma fit_decides sz l :
  Exists (fun y => b_free y = true /\ sz <= b_size y) l \/ Forall (fun y => b_free y = true -> b_size y < sz) l.
Proof.
  destruct (first_fit sz l) as [a|] eqn:E; [left|right; exact (first_fit_None _ _ E)].
  apply first_fit_Some in E as (l1 & s & l2 & -> & Hs & _). apply Exists_app. right. left. auto.
Qed.

(** An allocation is NULL and changes nothing, or adds one live block with room. *)
Lemma early_alloc_returns h l n :
  one_region h l -> 0 <= n <= 2 ^ 62 ->
  returns (early_alloc h n) (fun '(p, h') =>
    p = 0 /\ h' = h \/
    p <> 0 /\ exists l' x, one_region h' l' /\ live l' ≡ₚ x :: live l /\ p = b_addr x + sizeof_block /\
      n <= b_size x /\ Forall (disj x) (live l)).
Proof.
  intros [r Hr] Hn. pose proof (rep_length _ _ _ Hr) as Hlen. unfold early_alloc.
  destruct (decide (n = 0)) as [->|Hn0]; [apply returns_Done; auto|].
  destruct (fit_decides (round_size n) l) as [Hfit|Hnone].
  - assert (Hok : heap_ok h tt [r] l) by (split; [exact Hr|]; split; [exact I|]; intros ? ? _ []).
    destruct (kmalloc_correct (walk_fuel h) h tt [r] l n Hok ltac:(lia) ltac:(unfold walk_fuel; lia))
      as ([[p h'] ps'] & -> & Hcase).
    rewrite bind_Done. apply returns_Done.
    destruct Hcase as [(Hp & rs' & l' & x & (Hr' & _) & Hlive & Ep & Hsz & Hd & Hone)|(-> & -> & _)]; [right|auto].
    destruct (Hone Hfit) as (-> & _ & _). split; [exact Hp|]. exists l', x. unfold one_region. eauto 8.
  - rewrite (kmalloc_no_fit _ h r l n Hr) by (first [lia|exact Hnone|unfold walk_fuel; lia]).
    apply returns_Done. auto.
Qed.

Lemma early_alloc_post (h : heap) n : ba_ok h -> 0 <= n <= 2 ^ 62 -> returns (ba_alloc h n) (block_post h n).
Proof.
  intros [l Hl] Hn. eapply returns_mono; [exact (early_alloc_returns h l n Hl Hn)|].
  intros [p h'] [[-> ->]|(Hp & l' & x & Hl' & Hlive & -> & Hsz & Hd)]; unfold block_post; cbn [fst snd].
  { split; [exists l; exact Hl|]. split; [intros q _ _; reflexivity|]. left. split; [reflexivity|]. reflexivity. }
  assert (Hx : x ∈ live l') by (rewrite Hlive; left).
  split; [exists l'; exact Hl'|]. split; [|right; split; [exact Hp|split; [|split]]].
  - apply (live_rooms_kept h h' l l' Hl Hl'). intros y z Hy Hz E.
    apply (live_addr_inj h' l'); [exact Hl'|rewrite Hlive; right; exact Hy|exact Hz|exact E].
  - rewrite (live_room h' l' x Hl' Hx). exact Hsz.
  - intros Hin. apply (live_list h l _ Hl) in Hin as (y & Hy & E).
    assert (x = y) as <-.
    { apply (live_addr_inj h' l'); [exact Hl'|exact Hx|rewrite Hlive; right; exact Hy|lia]. }
    rewrite Forall_forall in Hd. specialize (Hd x Hy). destruct Hl' as [r Hr].
    apply live_in in Hx as [_ Hx]. destruct (laid_range _ (rep_laid _ _ _ Hr) _ Hx) as (_ & _ & Hs).
    unfold disj, b_end, sizeof_block, HEAP_MIN in *. lia.
  - intros q. rewrite (live_list h' l' q Hl'), (live_list h l q Hl). setoid_rewrite Hlive.
    setoid_rewrite elem_of_cons. split.
    + intros (y & [->|Hy] & ->); [right; reflexivity|left; eauto].
    + intros [(y & Hy & ->)| ->]; [exists y|exists x]; auto.
Qed.

Lemma early_free_post (h : heap) p : ba_ok h -> ba_live h p -> returns (ba_free h p) (freed_post h p).
Proof.
  intros [l Hl] Hp. apply (live_list h l p Hl) in Hp as (x & Hx & ->). destruct Hl as [r Hr].
  pose proof (ex_intro _ r Hr : one_region h l) as Hl. pose proof Hx as Hx0. apply live_in in Hx0 as [Ef Hin].
  eapply returns_mono; [exact (kfree_correct h r l x Hr Hin)|]. intros h'. rewrite Ef.
  intros (l' & Hr' & Hlive & _). pose proof (ex_intro _ r Hr' : one_region h' l') as Hl'.
  assert (Hsub : forall y, y ∈ live l' -> y ∈ live l) by (intros y Hy; rewrite Hlive; right; exact Hy).
  assert (Hnd : NoDup (live l)).
  { unfold live. apply NoDup_filter, (NoDup_fmap_1 b_addr), (laid_nodup _ (rep_laid _ _ _ Hr)). }
  rewrite Hlive in Hnd. apply NoDup_cons in Hnd as [Hnx _].
  split; [exists l'; exact Hl'|]. split.
  - apply (live_rooms_kept h h' l l' Hl Hl'). intros y z Hy Hz E.
    apply (live_addr_inj h l); auto.
  - intros q. rewrite (live_list h' l' q Hl'), (live_list h l q Hl). split.
    + intros (y & Hy & ->). split; [eauto|]. intros E. apply Hnx.
      rewrite (live_addr_inj h l x y Hl Hx (Hsub _ Hy)) by lia. exact Hy.
    + intros [(y & Hy & ->) Hne]. exists y. split; [|reflexivity].
      rewrite Hlive in Hy. apply elem_of_cons in Hy as [->|Hy]; [congruence|exact Hy].
Qed.

#[export] Instance early_heap_laws : BlockAllocLaws heap.
Proof.
  split.
  - exact early_alloc_post.
  - exact early_free_post.
  - intros h p [l Hl] Hp. apply (live_list h l p Hl) in Hp as (x & Hx & ->). destruct Hl as [r Hr].
    apply live_in in Hx as [_ Hx]. destruct (laid_range _ (rep_laid _ _ _ Hr) _ Hx) as (Ha & _).
    unfold sizeof_block. lia.
  - intros h [l Hl] p q Hp Hq Hne. apply (live_list h l p Hl) in Hp as (x & Hx & ->).
    apply (live_list h l q Hl) in Hq as (y & Hy & ->).
    rewrite (live_room h l x Hl Hx), (live_room h l y Hl Hy). destruct Hl as [r Hr].
    apply live_in in Hx as [_ Hx]. apply live_in in Hy as [_ Hy].
    pose proof (separate_in _ x y (laid_sep _ (rep_laid _ _ _ Hr)) Hx Hy ltac:(congruence)) as Hd.
    unfold disj, b_end in Hd. unfold sizeof_block in *. lia.
Qed.

(** The heap after [heap_init]: one free block, the arena less a header. *)
Lemma heap_init_returns arena h :
  0 < arena -> arena + EARLY_HEAP <= 2 ^ 32 ->
  returns (heap_init arena h) (fun h' =>
    one_region h' [mk_blk arena (EARLY_HEAP - sizeof_block) true]).
Proof.
  intros Ha He. unfold heap_init.
  eapply returns_mono; [apply (heap_add_region_returns _ [] [] arena EARLY_HEAP)|].
  - split; [split; [exact I|reflexivity]|constructor|exact I|reflexivity|reflexivity].
  - vm_compute. discriminate.
  - exact Ha.
  - exact He.
  - constructor.
  - intros h' Hr. exists (mk_region arena EARLY_HEAP). exact Hr.
Qed.
