(* ===== verification/Vfs.v ===== *)
(** * File system: [filesystem/vfs/vfs.c]

    The node table is a list of 256 nodes, a [vfs_node_t*] the index of a node or
    [None] for NULL, and the children of a directory are linked through the nodes as
    in the code.  File contents are blocks of bytes at the addresses the kernel heap
    (the interface of [BlockAlloc.v]) hands out.  A string argument is the list of its
    bytes without the NUL; a string that does not fit the array it is copied to, with
    its NUL, is a [Fault]. *)
From Stdlib Require Import ZArith Lia Bool String.
From stdpp Require Import base tactics option list numbers gmap.
From S2P Require Import Prelude CInt CString BlockAlloc.
#[local] Close Scope string_scope.
#[local] Open Scope Z_scope.

(** ** State *)
Definition VFS_NAME_MAX : Z := 128.
Definition VFS_PATH_MAX : Z := 256.
Definition VFS_MAX_NODES : Z := 256.
Definition VFS_FILE : Z := 1.
Definition VFS_DIR : Z := 2.

Record node := mk_node {
  name : list Z;      (* char[VFS_NAME_MAX] *)
  type : Z;
  mode : Z;
  uid : Z;
  gid : Z;
  size : Z;
  data : Z;           (* 0 for NULL *)
  parent : option nat;
  child : option nat;
  sibling : option nat
}.

Definition zero_node : node := mk_node (replicate 128 0) 0 0 0 0 0 0 None None None.

Definition set_links (p c s : option nat) (n : node) : node :=
  mk_node (name n) (type n) (mode n) (uid n) (gid n) (size n) (data n) p c s.
Definition set_parent (p : option nat) (n : node) : node := set_links p (child n) (sibling n) n.
Definition set_child (c : option nat) (n : node) : node := set_links (parent n) c (sibling n) n.
Definition set_sibling (s : option nat) (n : node) : node := set_links (parent n) (child n) s n.
Definition set_content (d z : Z) (n : node) : node :=
  mk_node (name n) (type n) (mode n) (uid n) (gid n) z d (parent n) (child n) (sibling n).
Definition set_name (nm : list Z) (n : node) : node :=
  mk_node nm (type n) (mode n) (uid n) (gid n) (size n) (data n) (parent n) (child n) (sibling n).

Section Vfs.
Context {H : Type} `{BlockAlloc H}.

Record vfs := mk_vfs {
  nodes : list node;
  node_count : Z;
  root : option nat;
  cwd : list Z;
  blocks : gmap Z (list Z);     (* the payloads of the heap's blocks *)
  heap : H
}.

Definition set_nodes (x : list node) (s : vfs) : vfs :=
  mk_vfs x (node_count s) (root s) (cwd s) (blocks s) (heap s).
Definition set_cwd (x : list Z) (s : vfs) : vfs :=
  mk_vfs (nodes s) (node_count s) (root s) x (blocks s) (heap s).

Definition node_at (s : vfs) (i : nat) : outcome node :=
  match nodes s !! i with Some n => Done n | None => Fault end.
Definition upd (s : vfs) (i : nat) (f : node -> node) : outcome vfs :=
  n ← node_at s i; mret (set_nodes (<[i := f n]> (nodes s)) s).

(** ** Nodes *)
Definition new_node (nm : list Z) (ty md : Z) : node :=
  mk_node (strncpy_arr (name zero_node) nm (Z.to_nat (VFS_NAME_MAX - 1))) ty md 0 0 0 0 None None None.

Definition alloc_node (s : vfs) (nm : list Z) (ty md : Z) : outcome (option nat * vfs) :=
  if VFS_MAX_NODES <=? node_count s then mret (None, s)
  else
    let i := Z.to_nat (node_count s) in
    s1 ← upd s i (fun _ => new_node nm ty md);
    mret (Some i, mk_vfs (nodes s1) (node_count s + 1) (root s1) (cwd s1) (blocks s1) (heap s1)).

Definition link_child (s : vfs) (p c : nat) : outcome vfs :=
  s ← upd s c (set_parent (Some p));
  pn ← node_at s p;
  s ← upd s c (set_sibling (child pn));
  upd s p (set_child (Some c)).

(** [strcmp(c->name, name) == 0] *)
Definition name_is (n : node) (nm : list Z) : bool := str_cmp (cstr (name n)) nm =? 0.

(** A walk over siblings; the lists are at most [VFS_MAX_NODES] long. *)
Definition sibling_fuel : nat := 257.

Definition find_child (s : vfs) (dir : nat) (nm : list Z) : outcome (option nat) :=
  d ← node_at s dir;
  loop sibling_fuel (fun c =>
    match c with
    | None => mret (inr None)
    | Some i =>
        n ← node_at s i;
        mret (if name_is n nm then inr (Some i) else inl (sibling n))
    end) (child d).

(** ** Paths *)
Definition slash : Z := 47.

(** The string [s] in an array of [cap] characters. *)
Definition buf_str (cap : Z) (s : list Z) : outcome (list Z) :=
  if Z.of_nat (length s) <? cap then mret s else Fault.

Definition normalize_path (s : vfs) (path : list Z) : outcome (list Z) :=
  if bool_decide (head path = Some slash) then mret (take (Z.to_nat (VFS_PATH_MAX - 1)) path)
  else
    out ← buf_str VFS_PATH_MAX (cwd s);
    match last out with
    | None => Fault     (* out[-1] *)
    | Some c =>
        out ← (if negb (c =? slash) then buf_str VFS_PATH_MAX (out ++ [slash]) else mret out);
        buf_str VFS_PATH_MAX (out ++ path)
    end.

(** [while ( *p && *p != '/' && i + 1 < VFS_NAME_MAX) part[i++] = *p++], at most
    [k] characters: the part and what is left. *)
Fixpoint take_part (k : nat) (p : list Z) : list Z * list Z :=
  match k, p with
  | S k', c :: p' =>
      if c =? slash then ([], p)
      else let '(part, rest) := take_part k' p' in (c :: part, rest)
  | _, _ => ([], p)
  end.

Fixpoint skip_slashes (p : list Z) : list Z :=
  match p with c :: p' => if c =? slash then skip_slashes p' else p | [] => [] end.

Definition str_eq (a b : list Z) : bool := str_cmp a b =? 0.

(** The loop of [vfs_resolve]; every turn consumes a character. *)
Definition resolve_loop (fuel : nat) (s : vfs) (cur : nat) (p : list Z) : outcome (option nat) :=
  loop fuel (fun '(cur, p) =>
    if bool_decide (p = []) then mret (inr (Some cur))
    else
      let '(part, p1) := take_part (Z.to_nat (VFS_NAME_MAX - 1)) p in
      let p2 := skip_slashes p1 in
      if bool_decide (part = []) then mret (inl (cur, p2))
      else if str_eq part (chars ".") then mret (inl (cur, p2))
      else if str_eq part (chars "..") then
        n ← node_at s cur;
        mret (inl (default cur (parent n), p2))
      else
        c ← find_child s cur part;
        mret (match c with Some i => inl (i, p2) | None => inr None end)) (cur, p).

Definition vfs_resolve (s : vfs) (path : list Z) : outcome (option nat) :=
  full ← normalize_path s path;
  if str_eq full (chars "/") then mret (root s)
  else
    match root s with
    | None => Fault
    | Some r => resolve_loop (S (length full)) s r (drop 1 full)
    end.

(** The index of the last slash of [full], 0 when there is none. *)
Fixpoint last_slash (i best : nat) (p : list Z) : nat :=
  match p with
  | [] => best
  | c :: p' => last_slash (S i) (if c =? slash then i else best) p'
  end.

(** The parent directory and the name of the leaf. *)
Definition ensure_parent (s : vfs) (path : list Z) : outcome (option nat * list Z) :=
  full ← normalize_path s path;
  let l := last_slash 0 0 full in
  if (l =? 0)%nat then
    leaf ← buf_str VFS_NAME_MAX (drop 1 full);
    mret (root s, leaf)
  else
    leaf ← buf_str VFS_NAME_MAX (drop (S l) full);
    let dir := take l full in
    p ← vfs_resolve s (if bool_decide (dir = []) then chars "/" else dir);
    mret (p, leaf).

(** ** Operations *)

(** [vfs_mkdir] and [vfs_create] differ in the type of the new node. *)
Definition vfs_add (ty : Z) (s : vfs) (path : list Z) (md : Z) : outcome (option nat * vfs) :=
  '(par, leaf) ← ensure_parent s path;
  match par with
  | None => mret (None, s)
  | Some p =>
      pn ← node_at s p;
      if negb (type pn =? VFS_DIR) || bool_decide (leaf = []) then mret (None, s)
      else
        old ← find_child s p leaf;
        match old with
        | Some i => mret (Some i, s)
        | None =>
            '(n, s1) ← alloc_node s leaf ty md;
            match n with
            | None => mret (None, s1)
            | Some i => s2 ← link_child s1 p i; mret (Some i, s2)
            end
        end
  end.

Definition vfs_mkdir (s : vfs) (path : list Z) (md : Z) : outcome (option nat * vfs) :=
  vfs_add VFS_DIR s path md.
Definition vfs_create (s : vfs) (path : list Z) (md : Z) : outcome (option nat * vfs) :=
  vfs_add VFS_FILE s path md.

(** [buf] is what the pointer refers to; reading past it is a [Fault]. *)
Definition vfs_write (s : vfs) (nd : option nat) (buf : list Z) (sz : Z) : outcome (Z * vfs) :=
  match nd with
  | None => mret (-1, s)
  | Some i =>
      n ← node_at s i;
      if negb (type n =? VFS_FILE) then mret (-1, s)
      else
        '(p, h) ← ba_alloc (heap s) (u64 (sz + 1));
        if p =? 0 then mret (-1, mk_vfs (nodes s) (node_count s) (root s) (cwd s) (blocks s) h)
        else if Z.of_nat (length buf) <? sz then Fault
        else
          let bl := <[p := take (Z.to_nat sz) buf ++ [0]]> (blocks s) in
          h' ← (if negb (data n =? 0) then ba_free h (data n) else mret h);
          let bl' := if negb (data n =? 0) then delete (data n) bl else bl in
          mret (i32 sz, mk_vfs (<[i := set_content p sz n]> (nodes s)) (node_count s) (root s) (cwd s) bl' h')
  end.

(** The return value, and the bytes that arrive in the caller's buffer; [*out_size] gets
    their number. *)
Definition vfs_read (s : vfs) (nd : option nat) (max : Z) : outcome (Z * list Z) :=
  match nd with
  | None => mret (-1, [])
  | Some i =>
      n ← node_at s i;
      if negb (type n =? VFS_FILE) then mret (-1, [])
      else
        let k := if size n <? max then size n else max in
        b ← (if negb (k =? 0) && negb (data n =? 0) then
               match blocks s !! data n with
               | Some b => if Z.of_nat (length b) <? k then Fault else mret (take (Z.to_nat k) b)
               | None => Fault
               end
             else mret []);
        mret (i32 k, b)
  end.

(** The node before [i] among the siblings from [c] on gets [i]'s successor. *)
Definition unlink_sibling (s : vfs) (first : option nat) (i : nat) (nx : option nat) : outcome vfs :=
  loop sibling_fuel (fun c =>
    match c with
    | None => mret (inr s)
    | Some j =>
        n ← node_at s j;
        if bool_decide (sibling n = Some i)
        then s' ← upd s j (set_sibling nx); mret (inr s')
        else mret (inl (sibling n))
    end) first.

Definition vfs_unlink (s : vfs) (path : list Z) : outcome (Z * vfs) :=
  r ← vfs_resolve s path;
  match r with
  | None => mret (-1, s)
  | Some i =>
      if bool_decide (root s = Some i) then mret (-1, s)
      else
        n ← node_at s i;
        match parent n with
        | None => mret (-1, s)
        | Some p =>
            pn ← node_at s p;
            s1 ← (if bool_decide (child pn = Some i) then upd s p (set_child (sibling n))
                  else unlink_sibling s (child pn) i (sibling n));
            n1 ← node_at s1 i;
            h ← (if negb (data n1 =? 0) then ba_free (heap s1) (data n1) else mret (heap s1));
            let bl := if negb (data n1 =? 0) then delete (data n1) (blocks s1) else blocks s1 in
            nm ← arr_set (name n1) 0 0;
            mret (0, mk_vfs (<[i := set_name nm (set_content 0 0 n1)]> (nodes s1))
                       (node_count s1) (root s1) (cwd s1) bl h)
        end
  end.

Definition vfs_copy (s : vfs) (src dst : list Z) : outcome (Z * vfs) :=
  r ← vfs_resolve s src;
  match r with
  | None => mret (-1, s)
  | Some i =>
      n ← node_at s i;
      if negb (type n =? VFS_FILE) then mret (-1, s)
      else
        '(d, s1) ← vfs_create s dst (if negb (mode n =? 0) then mode n else 420);
        match d with
        | None => mret (-1, s1)
        | Some j =>
            n1 ← node_at s1 i;
            if negb (size n1 =? 0) && negb (data n1 =? 0) then
              match blocks s1 !! data n1 with
              | Some b => vfs_write s1 (Some j) b (size n1)
              | None => Fault
              end
            else mret (0, s1)
        end
  end.

Definition vfs_rename (s : vfs) (src dst : list Z) : outcome (Z * vfs) :=
  '(r, s1) ← vfs_copy s src dst;
  if negb (r =? 0) then mret (-1, s1) else vfs_unlink s1 src.

(** The nodes the callback is called with, in order. *)
Definition vfs_list (s : vfs) (dir : option nat) : outcome (list nat) :=
  match dir with
  | None => mret []
  | Some d =>
      n ← node_at s d;
      if negb (type n =? VFS_DIR) then mret []
      else
        loop sibling_fuel (fun '(c, acc) =>
          match c with
          | None => mret (inr acc)
          | Some i => m ← node_at s i; mret (inl (sibling m, acc ++ [i]))
          end) (child n, [])
  end.

(** [parts] of [vfs_chdir], innermost first; a name of 127 characters leaves its row
    without a NUL, which the later [strcat] would run past. *)
Definition collect_parts (s : vfs) (i : nat) : outcome (list (list Z)) :=
  loop sibling_fuel (fun '(cur, acc) =>
    match cur with
    | None => mret (inr acc)
    | Some j =>
        if bool_decide (root s = Some j) then mret (inr acc)
        else
          n ← node_at s j;
          acc' ← (if (length acc <? 32)%nat then
                    nm ← buf_str (VFS_NAME_MAX - 1) (cstr (name n)); mret (acc ++ [nm])
                  else mret acc);
          mret (inl (parent n, acc'))
    end) (Some i, []).

Definition join_parts (parts : list (list Z)) : outcome (list Z) :=
  foldl (fun m part =>
    c ← m;
    c ← (if (1 <? length c)%nat then buf_str VFS_PATH_MAX (c ++ [slash]) else mret c);
    buf_str VFS_PATH_MAX (c ++ part)) (mret (chars "/")) (rev parts).

Definition vfs_chdir (s : vfs) (path : list Z) : outcome (Z * vfs) :=
  r ← vfs_resolve s path;
  match r with
  | None => mret (-1, s)
  | Some i =>
      n ← node_at s i;
      if negb (type n =? VFS_DIR) then mret (-1, s)
      else
        parts ← collect_parts s i;
        c ← join_parts parts;
        mret (0, set_cwd c s)
  end.

(** The contents seeded at boot; 34 is the double quote, 10 the newline and
    226, 128, 148 the em dash. *)
Definition motd_text : list Z :=
  chars "Welcome to H3OS " ++ [226; 128; 148] ++ chars " The Future Starts Here." ++ [10].
Definition quoted (x : string) : list Z := [34] ++ chars x ++ [34; 10].
Definition release_text : list Z :=
  chars "NAME=" ++ quoted "H3OS" ++ chars "VERSION=" ++ quoted "0.1.0" ++ chars "CODENAME=" ++ quoted "Horizon".
Definition pkgdb_text : list Z :=
  chars "base-system 0.1.0 installed" ++ [10] ++ chars "horizon-desktop 0.1.0 installed" ++ [10].

Definition boot_dirs : list (list Z * Z) :=
  [(chars "/bin", 493); (chars "/etc", 493); (chars "/home", 493); (chars "/home/user", 493);
   (chars "/tmp", 511); (chars "/var", 493); (chars "/usr", 493); (chars "/usr/share", 493);
   (chars "/dev", 493); (chars "/proc", 493); (chars "/var/lib", 493);
   (chars "/var/lib/h3pkg", 493); (chars "/usr/share/packages", 493)].
Definition boot_files : list (list Z * list Z) :=
  [(chars "/etc/motd", motd_text); (chars "/etc/h3os-release", release_text);
   (chars "/var/lib/h3pkg/db", pkgdb_text)].

Definition boot_dir (s : vfs) (d : list Z * Z) : outcome vfs :=
  '(_, s) ← vfs_mkdir s (fst d) (snd d); mret s.
Definition boot_file (s : vfs) (f : list Z * list Z) : outcome vfs :=
  '(n, s) ← vfs_create s (fst f) 420;
  match n with
  | None => mret s
  | Some i => '(_, s) ← vfs_write s (Some i) (snd f ++ [0]) (Z.of_nat (length (snd f))); mret s
  end.

Definition run_all {A} (f : vfs -> A -> outcome vfs) (l : list A) (s : vfs) : outcome vfs :=
  foldl (fun m a => s ← m; f s a) (mret s) l.

Definition vfs_init (s : vfs) : outcome vfs :=
  '(r, s) ← alloc_node (mk_vfs (replicate 256 zero_node) 0 (root s) (cwd s) (blocks s) (heap s))
              (chars "/") VFS_DIR 493;
  s ← run_all boot_dir boot_dirs (mk_vfs (nodes s) (node_count s) r (chars "/") (blocks s) (heap s));
  run_all boot_file boot_files s.

Definition vfs_root (s : vfs) : option nat := root s.
Definition vfs_cwd (s : vfs) : list Z := cwd s.
(** ** The tree

    [kids i] are the children of node [i], in the order of the sibling list; a node
    is created after its parent, so the indices grow downwards. *)
Definition nm (n : node) : list Z := cstr (name n).

Fixpoint sibs (ns : list node) (p : option nat) (l : list nat) : Prop :=
  match l with
  | [] => p = None
  | i :: l' => p = Some i /\ exists n, ns !! i = Some n /\ sibs ns (sibling n) l'
  end.

Definition count (s : vfs) : nat := Z.to_nat (node_count s).

(** The name of a node, [] for none. *)
Definition name_at (ns : list node) (i : nat) : list Z :=
  match ns !! i with Some n => nm n | None => [] end.

Lemma name_at_Some ns i n : ns !! i = Some n -> name_at ns i = nm n.
Proof. intros E. unfold name_at. rewrite E. reflexivity. Qed.

Record tree (s : vfs) (kids : nat -> list nat) : Prop := {
  t_len : length (nodes s) = 256%nat;
  t_count : 1 <= node_count s <= 256;
  t_root : root s = Some 0%nat;
  t_top : exists n, nodes s !! 0%nat = Some n /\ type n = VFS_DIR /\ parent n = None;
  t_kids : forall i n, (i < count s)%nat -> nodes s !! i = Some n -> sibs (nodes s) (child n) (kids i);
  t_parent : forall i j, j ∈ kids i -> (i < j < count s)%nat /\
    exists n, nodes s !! j = Some n /\ parent n = Some i;
  t_dir : forall i j, j ∈ kids i -> exists n, nodes s !! i = Some n /\ type n = VFS_DIR;
  t_nodup : forall i, NoDup (kids i);
  t_names : forall i, NoDup (map (name_at (nodes s)) (kids i));
  t_up : forall i n p, (i < count s)%nat -> nodes s !! i = Some n -> parent n = Some p -> (p < i)%nat;
  t_name : forall i n, (i < count s)%nat -> nodes s !! i = Some n -> length (name n) = 128%nat
}.

Lemma cstr_ok b : Forall (fun c => c <> 0) (cstr b).
Proof.
  induction b as [|c b IH]; cbn [cstr]; [constructor|]. destruct (Z.eqb_spec c 0); [constructor|].
  constructor; assumption.
Qed.

Lemma str_eq_true a b :
  Forall (fun c => c <> 0) a -> Forall (fun c => c <> 0) b -> str_eq a b = bool_decide (a = b).
Proof.
  intros Ha Hb. unfold str_eq. pose proof (str_cmp_eq a b Ha Hb) as E.
  destruct (Z.eqb_spec (str_cmp a b) 0) as [Hz|Hz].
  - symmetry. apply bool_decide_eq_true, E, Hz.
  - symmetry. apply bool_decide_eq_false. tauto.
Qed.

Lemma name_is_spec n x : Forall (fun c => c <> 0) x -> name_is n x = bool_decide (nm n = x).
Proof. intros Hx. exact (str_eq_true (nm n) x (cstr_ok _) Hx). Qed.

Lemma node_at_Done s i n : nodes s !! i = Some n -> node_at s i = Done n.
Proof. intros E. unfold node_at. rewrite E. reflexivity. Qed.

Lemma upd_node_Done s i f n :
  nodes s !! i = Some n -> upd s i f = Done (set_nodes (<[i := f n]> (nodes s)) s).
Proof. intros E. unfold upd. rewrite (node_at_Done _ _ _ E). reflexivity. Qed.

Lemma tree_node s kids i : tree s kids -> (i < count s)%nat -> exists n, nodes s !! i = Some n.
Proof.
  intros Ht Hi. apply lookup_lt_is_Some_2. rewrite (t_len _ _ Ht).
  pose proof (t_count _ _ Ht). unfold count in Hi. lia.
Qed.

(** A list of distinct numbers below [n] has at most [n] elements. *)
Lemma nodup_below (l : list nat) n : NoDup l -> (forall x, x ∈ l -> (x < n)%nat) -> (length l <= n)%nat.
Proof.
  intros Hnd Hb. rewrite <- (length_seq n 0). apply submseteq_length, NoDup_submseteq; [exact Hnd|].
  intros x Hx. apply elem_of_seq. specialize (Hb x Hx). lia.
Qed.

Lemma kids_length s kids i : tree s kids -> (length (kids i) < sibling_fuel)%nat.
Proof.
  intros Ht. apply Nat.lt_succ_r. apply (nodup_below _ 256 (t_nodup _ _ Ht i)). intros x Hx.
  pose proof (t_parent _ _ Ht i x Hx) as [[_ Hc] _]. pose proof (t_count _ _ Ht). unfold count in Hc. lia.
Qed.

(** The child of a node that has a name. *)
Definition lookup_child (s : vfs) (kids : nat -> list nat) (i : nat) (x : list Z) : option nat :=
  List.find (fun j => bool_decide (name_at (nodes s) j = x)) (kids i).

Lemma find_child_loop ns (s : vfs) x l : forall p fuel,
  nodes s = ns -> Forall (fun c => c <> 0) x -> sibs ns p l -> (length l < fuel)%nat ->
  loop fuel (fun c =>
    match c with
    | None => mret (inr None)
    | Some i => n ← node_at s i; mret (if name_is n x then inr (Some i) else inl (sibling n))
    end) p = Done (List.find (fun j => bool_decide (name_at ns j = x)) l).
Proof.
  induction l as [|i l IH]; intros p fuel Hns Hx Hs Hf; (destruct fuel as [|f]; [cbn in Hf; lia|]); cbn [sibs] in Hs.
  - subst p. reflexivity.
  - destruct Hs as [-> (n & En & Hs)]. cbn [loop List.find]. subst ns.
    rewrite (node_at_Done _ _ _ En), bind_Done, name_is_spec by exact Hx.
    rewrite (name_at_Some _ _ _ En). destruct (bool_decide (nm n = x)); [reflexivity|].
    cbn [mret outcome_ret]. rewrite bind_Done. apply IH; [reflexivity|exact Hx|exact Hs|cbn in Hf; lia].
Qed.

Lemma find_child_returns s kids i x :
  tree s kids -> (i < count s)%nat -> Forall (fun c => c <> 0) x ->
  find_child s i x = Done (lookup_child s kids i x).
Proof.
  intros Ht Hi Hx. destruct (tree_node _ _ _ Ht Hi) as [n En]. unfold find_child.
  rewrite (node_at_Done _ _ _ En), bind_Done.
  apply (find_child_loop (nodes s)); [reflexivity|exact Hx|exact (t_kids _ _ Ht i n Hi En)|exact (kids_length _ _ _ Ht)].
Qed.

Lemma lookup_child_Some s kids i x j :
  lookup_child s kids i x = Some j -> j ∈ kids i /\ name_at (nodes s) j = x.
Proof.
  intros Hf. apply List.find_some in Hf as [Hin Hn]. apply bool_decide_eq_true in Hn.
  split; [apply list_elem_of_In; exact Hin|exact Hn].
Qed.

Lemma lookup_child_None s kids i x j :
  lookup_child s kids i x = None -> j ∈ kids i -> name_at (nodes s) j <> x.
Proof.
  intros Hf Hj E. apply list_elem_of_In in Hj. pose proof (List.find_none _ _ Hf j Hj) as Hn.
  apply bool_decide_eq_false in Hn. exact (Hn E).
Qed.

(** ** Paths as components *)
Fixpoint comps (fuel : nat) (p : list Z) : list (list Z) :=
  match fuel with
  | O => []
  | S f =>
      if bool_decide (p = []) then []
      else
        let '(part, p1) := take_part (Z.to_nat (VFS_NAME_MAX - 1)) p in
        let r := comps f (skip_slashes p1) in
        if bool_decide (part = []) then r else part :: r
  end.
Definition components (p : list Z) : list (list Z) := comps (S (length p)) p.

Definition walk_step (s : vfs) (kids : nat -> list nat) (cur : nat) (x : list Z) : option nat :=
  if bool_decide (x = chars ".") then Some cur
  else if bool_decide (x = chars "..") then
    match nodes s !! cur with Some n => Some (default cur (parent n)) | None => None end
  else lookup_child s kids cur x.

Fixpoint walk (s : vfs) (kids : nat -> list nat) (cur : nat) (parts : list (list Z)) : option nat :=
  match parts with
  | [] => Some cur
  | x :: r => match walk_step s kids cur x with Some c => walk s kids c r | None => None end
  end.

Lemma take_part_split k p : fst (take_part k p) ++ snd (take_part k p) = p.
Proof.
  revert p. induction k as [|k IH]; intros [|c p]; cbn [take_part]; try reflexivity.
  destruct (c =? slash); [reflexivity|]. specialize (IH p). destruct (take_part k p). cbn [fst snd app] in *.
  rewrite IH. reflexivity.
Qed.

Lemma skip_slashes_length p : (length (skip_slashes p) <= length p)%nat.
Proof. induction p as [|c p IH]; cbn [skip_slashes length]; [lia|]. destruct (_ =? _); cbn [length]; lia. Qed.

(** A turn of the loop shortens the path. *)
Lemma turn_shorter k p part p1 :
  (0 < k)%nat -> p <> [] -> take_part k p = (part, p1) -> (length (skip_slashes p1) < length p)%nat.
Proof.
  intros Hk Hp E. pose proof (take_part_split k p) as Hs. rewrite E in Hs. cbn [fst snd] in Hs.
  pose proof (skip_slashes_length p1). destruct part as [|c part].
  - cbn [app] in Hs. subst p1. destruct p as [|c p]; [congruence|]. destruct k as [|k]; [lia|].
    cbn [take_part] in E. cbn [skip_slashes]. destruct (c =? slash) eqn:Ec.
    + pose proof (skip_slashes_length p). cbn [length]. lia.
    + destruct (take_part k p). discriminate.
  - rewrite <- Hs, length_app. cbn [length]. lia.
Qed.

Lemma comps_enough f f' p : (length p < f)%nat -> (length p < f')%nat -> comps f p = comps f' p.
Proof.
  revert f' p. induction f as [|f IH]; intros f' p Hf Hf'; [lia|]. destruct f' as [|f']; [lia|].
  cbn [comps]. destruct (bool_decide (p = [])) eqn:Ep; [reflexivity|]. apply bool_decide_eq_false in Ep.
  destruct (take_part _ p) as [part p1] eqn:E.
  pose proof (turn_shorter (Z.to_nat (VFS_NAME_MAX - 1)) p part p1 ltac:(vm_compute; lia) Ep E).
  rewrite (IH f' (skip_slashes p1)) by lia. reflexivity.
Qed.

Lemma skip_slashes_ok p : Forall (fun c => c <> 0) p -> Forall (fun c => c <> 0) (skip_slashes p).
Proof. induction 1 as [|c p Hc Hp IH]; cbn [skip_slashes]; [constructor|]. destruct (_ =? _); [exact IH|constructor; assumption]. Qed.

Lemma walk_step_valid s kids cur x c :
  tree s kids -> (cur < count s)%nat -> walk_step s kids cur x = Some c -> (c < count s)%nat.
Proof.
  intros Ht Hc. unfold walk_step. destruct (bool_decide _); [congruence|]. destruct (bool_decide _).
  - destruct (nodes s !! cur) as [n|] eqn:En; [|discriminate]. intros [= <-].
    destruct (parent n) as [p|] eqn:Ep; [|exact Hc]. pose proof (t_up _ _ Ht cur n p Hc En Ep). simpl. lia.
  - intros Hl. apply lookup_child_Some in Hl as [Hin _]. apply (t_parent _ _ Ht _ _ Hin).
Qed.

Lemma dots_ok : Forall (fun c => c <> 0) (chars ".") /\ Forall (fun c => c <> 0) (chars "..").
Proof. split; vm_compute; repeat constructor; discriminate. Qed.

Lemma resolve_loop_returns s kids : tree s kids -> forall fuel cur p,
  (cur < count s)%nat -> Forall (fun c => c <> 0) p -> (length p < fuel)%nat ->
  resolve_loop fuel s cur p = Done (walk s kids cur (comps fuel p)).
Proof.
  intros Ht. unfold resolve_loop. induction fuel as [|f IH]; intros cur p Hc Hp Hf; [lia|]. cbn [loop comps].
  destruct (bool_decide (p = [])) eqn:Ep; [reflexivity|]. apply bool_decide_eq_false in Ep.
  destruct (take_part _ p) as [part p1] eqn:E.
  pose proof (turn_shorter (Z.to_nat (VFS_NAME_MAX - 1)) p part p1 ltac:(vm_compute; lia) Ep E) as Hlt.
  pose proof (take_part_split (Z.to_nat (VFS_NAME_MAX - 1)) p) as Hs. rewrite E in Hs. cbn [fst snd] in Hs.
  rewrite <- Hs in Hp. apply Forall_app in Hp as [Hpart Hp1]. apply skip_slashes_ok in Hp1.
  destruct dots_ok as [Hd1 Hd2].
  destruct (bool_decide (part = [])); [rewrite bind_Done; apply IH; [exact Hc|exact Hp1|lia]|].
  rewrite !str_eq_true by assumption. cbn [walk]. unfold walk_step.
  destruct (bool_decide (part = chars ".")); [rewrite bind_Done; apply IH; [exact Hc|exact Hp1|lia]|].
  destruct (bool_decide (part = chars "..")).
  - destruct (tree_node _ _ _ Ht Hc) as [n En]. rewrite (node_at_Done _ _ _ En), En, bind_Done. cbn [mret outcome_ret].
    rewrite bind_Done. apply IH; [|exact Hp1|lia].
    destruct (parent n) as [q|] eqn:Eq; [|exact Hc]. pose proof (t_up _ _ Ht cur n q Hc En Eq). simpl. lia.
  - rewrite (find_child_returns s kids cur part Ht Hc Hpart), bind_Done. cbn [mret outcome_ret].
    destruct (lookup_child s kids cur part) as [c|] eqn:El; [|reflexivity]. rewrite bind_Done.
    apply IH; [|exact Hp1|lia]. apply lookup_child_Some in El as [Hin _]. apply (t_parent _ _ Ht _ _ Hin).
Qed.
(** ** Absolute paths *)
Definition str_ok (x : list Z) : Prop := Forall (fun c => c <> 0) x.

Definition absolute (path : list Z) : Prop :=
  head path = Some slash /\ (length path <= 255)%nat /\ str_ok path.

Lemma normalize_absolute s path : absolute path -> normalize_path s path = Done path.
Proof.
  intros (Hh & Hl & _). unfold normalize_path. rewrite bool_decide_true by exact Hh.
  rewrite take_ge by (change (Z.to_nat (VFS_PATH_MAX - 1)) with 255%nat; lia). reflexivity.
Qed.

Lemma resolve_absolute s kids path :
  tree s kids -> absolute path ->
  vfs_resolve s path = Done (walk s kids 0 (components (drop 1 path))).
Proof.
  intros Ht Ha. unfold vfs_resolve. rewrite (normalize_absolute s path Ha), bind_Done.
  destruct Ha as (Hh & Hl & Hok). pose proof (t_root _ _ Ht) as Hr. pose proof (t_count _ _ Ht) as Hc.
  rewrite str_eq_true by (first [exact Hok|vm_compute; repeat constructor; discriminate]). rewrite Hr.
  destruct (bool_decide (path = chars "/")) eqn:E.
  - apply bool_decide_eq_true in E. subst path. reflexivity.
  - rewrite (resolve_loop_returns s kids Ht).
    + f_equal. unfold components. apply f_equal, comps_enough; rewrite length_drop; lia.
    + unfold count. lia.
    + apply Forall_drop, Hok.
    + rewrite length_drop. lia.
Qed.

(** *** A path with a last component *)
Record proper (leaf : list Z) : Prop := {
  pr_ne : leaf <> [];
  pr_slash : slash ∉ leaf;
  pr_len : (length leaf <= 127)%nat;
  pr_ok : str_ok leaf;
  pr_dot : leaf <> chars ".";
  pr_dots : leaf <> chars ".."
}.

Definition dir_ok (dir : list Z) : Prop := dir = [] \/ head dir = Some slash.

Lemma take_part_app k d l :
  take_part k (d ++ slash :: l) = (fst (take_part k d), snd (take_part k d) ++ slash :: l).
Proof.
  revert d. induction k as [|k IH]; intros [|c d]; try reflexivity. cbn [app take_part].
  destruct (c =? slash); [reflexivity|]. rewrite IH. destruct (take_part k d). reflexivity.
Qed.

Lemma take_part_leaf k leaf : slash ∉ leaf -> (length leaf <= k)%nat -> take_part k leaf = (leaf, []).
Proof.
  revert k. induction leaf as [|c leaf IH]; intros k Hs Hl; [destruct k; reflexivity|].
  cbn [length] in Hl. destruct k as [|k]; [lia|]. apply not_elem_of_cons in Hs as [Hc Hs]. cbn [take_part].
  destruct (Z.eqb_spec c slash); [congruence|]. rewrite IH by (first [exact Hs|lia]). reflexivity.
Qed.

Lemma skip_slashes_app b leaf :
  proper leaf ->
  skip_slashes (b ++ slash :: leaf) =
    match skip_slashes b with [] => leaf | c => c ++ slash :: leaf end.
Proof.
  intros Hp. induction b as [|c b IH]; cbn [app skip_slashes].
  - rewrite Z.eqb_refl. destruct leaf as [|x leaf]; [destruct (pr_ne _ Hp); reflexivity|]. cbn [skip_slashes].
    pose proof (pr_slash _ Hp) as Hs. apply not_elem_of_cons in Hs as [Hs _].
    destruct (Z.eqb_spec x slash); [congruence|reflexivity].
  - destruct (c =? slash); [exact IH|reflexivity].
Qed.

Lemma comps_leaf f leaf : proper leaf -> comps (S f) leaf = [leaf].
Proof.
  intros Hp. cbn [comps]. rewrite bool_decide_false by exact (pr_ne _ Hp).
  change (Z.to_nat (VFS_NAME_MAX - 1)) with 127%nat.
  rewrite take_part_leaf by apply Hp. rewrite bool_decide_false by exact (pr_ne _ Hp).
  destruct f; reflexivity.
Qed.

Lemma components_snoc d leaf : proper leaf -> components (d ++ slash :: leaf) = components d ++ [leaf].
Proof.
  intros Hp. unfold components.
  remember (S (length (d ++ slash :: leaf))) as f eqn:Ef.
  remember (S (length d)) as g eqn:Eg.
  assert (Hf : (length (d ++ slash :: leaf) < f)%nat) by lia. assert (Hg : (length d < g)%nat) by lia.
  clear Ef Eg. revert g d Hf Hg. induction f as [|f IH]; intros g d Hf Hg; [lia|]. destruct g as [|g]; [lia|].
  cbn [comps]. rewrite bool_decide_false by (destruct d; discriminate).
  rewrite take_part_app, skip_slashes_app by exact Hp. rewrite length_app in Hf. cbn [length] in Hf.
  assert (Hl1 : (1 <= length leaf)%nat) by (pose proof (pr_ne _ Hp); destruct leaf; [congruence|cbn; lia]).
  destruct (decide (d = [])) as [->|Hd].
  - replace (take_part _ []) with (@nil Z, @nil Z) by reflexivity. cbn [fst snd skip_slashes app].
    rewrite !bool_decide_true by reflexivity. destruct f as [|f]; [cbn in Hf; lia|]. apply comps_leaf, Hp.
  - rewrite (bool_decide_false (d = [])) by exact Hd. destruct (take_part _ d) as [part p1] eqn:E.
    pose proof (turn_shorter (Z.to_nat (VFS_NAME_MAX - 1)) d part p1 ltac:(vm_compute; lia) Hd E) as Hlt.
    cbn [fst snd]. destruct (skip_slashes p1) as [|c r] eqn:Es.
    + destruct f as [|f]; [lia|]. rewrite comps_leaf by exact Hp.
      assert (comps g [] = []) as -> by (destruct g; reflexivity). destruct (bool_decide (part = [])); reflexivity.
    + rewrite (IH g (c :: r)); [destruct (bool_decide (part = [])); reflexivity| |lia].
      rewrite length_app. cbn [length] in *. lia.
Qed.

Lemma last_slash_app i b d leaf : slash ∉ leaf -> last_slash i b (d ++ slash :: leaf) = (i + length d)%nat.
Proof.
  intros Hs.
  assert (Hn : forall l i b, slash ∉ l -> last_slash i b l = b).
  { induction l as [|c l IHl]; intros j b' Hl; [reflexivity|]. apply not_elem_of_cons in Hl as [Hc Hl].
    cbn [last_slash]. destruct (Z.eqb_spec c slash); [congruence|]. apply IHl, Hl. }
  revert i b. induction d as [|c d IH]; intros i b; cbn [app last_slash length].
  - rewrite Z.eqb_refl, Hn by exact Hs. lia.
  - rewrite IH. lia.
Qed.

Lemma buf_str_ok cap x : Z.of_nat (length x) < cap -> buf_str cap x = Done x.
Proof. intros Hl. unfold buf_str. destruct (Z.ltb_spec (Z.of_nat (length x)) cap); [reflexivity|lia]. Qed.

(** The path of a leaf below a directory. *)
Definition join (dir leaf : list Z) : list Z := dir ++ slash :: leaf.

Lemma join_absolute dir leaf :
  dir_ok dir -> str_ok dir -> proper leaf -> (length (join dir leaf) <= 255)%nat -> absolute (join dir leaf).
Proof.
  intros Hd Ho Hp Hl. unfold absolute, join in *. split; [|split; [exact Hl|]].
  - destruct Hd as [->|Hd]; [reflexivity|]. destruct dir; [discriminate|exact Hd].
  - apply Forall_app. split; [exact Ho|]. constructor; [discriminate|apply Hp].
Qed.

Lemma resolve_join s kids dir leaf :
  tree s kids -> dir_ok dir -> str_ok dir -> proper leaf -> (length (join dir leaf) <= 255)%nat ->
  vfs_resolve s (join dir leaf) =
    Done (match walk s kids 0 (components (drop 1 dir)) with
          | Some p => lookup_child s kids p leaf
          | None => None
          end).
Proof.
  intros Ht Hd Ho Hp Hl. rewrite (resolve_absolute s kids) by (first [exact Ht|apply join_absolute; assumption]).
  f_equal.
  assert (E : components (drop 1 (join dir leaf)) = components (drop 1 dir) ++ [leaf]).
  { unfold join. destruct dir as [|c dir]; [|apply components_snoc, Hp].
    cbn [app drop]. unfold components at 1. rewrite comps_leaf by exact Hp. reflexivity. }
  rewrite E. assert (Hw : forall l cur, walk s kids cur (l ++ [leaf]) =
      match walk s kids cur l with Some p => lookup_child s kids p leaf | None => None end).
  { induction l as [|x l IH]; intros cur; cbn [app walk].
    - unfold walk_step. rewrite !bool_decide_false by apply Hp. destruct (lookup_child s kids cur leaf); reflexivity.
    - destruct (walk_step s kids cur x); [apply IH|reflexivity]. }
  apply Hw.
Qed.

Lemma ensure_parent_join s kids dir leaf :
  tree s kids -> dir_ok dir -> str_ok dir -> proper leaf -> (length (join dir leaf) <= 255)%nat ->
  ensure_parent s (join dir leaf) = Done (walk s kids 0 (components (drop 1 dir)), leaf).
Proof.
  intros Ht Hd Ho Hp Hl. unfold ensure_parent.
  rewrite normalize_absolute by (apply join_absolute; assumption). rewrite bind_Done.
  pose proof (pr_len _ Hp) as Hpl. unfold join in *. rewrite last_slash_app by apply Hp. cbn [Nat.add].
  destruct dir as [|c dir].
  - cbn [length Nat.eqb]. change (drop 1 ([] ++ slash :: leaf)) with leaf.
    rewrite buf_str_ok by (unfold VFS_NAME_MAX; lia). rewrite bind_Done.
    rewrite (t_root _ _ Ht). reflexivity.
  - destruct Hd as [Hd|Hd]; [discriminate|]. cbn [length Nat.eqb].
    rewrite drop_app_ge by (cbn [length]; lia). cbn [length].
    replace (S (S (length dir)) - S (length dir))%nat with 1%nat by lia.
    change (drop 1 (slash :: leaf)) with leaf.
    rewrite buf_str_ok by (unfold VFS_NAME_MAX; lia). rewrite bind_Done.
    rewrite take_app_le by (cbn [length]; lia). rewrite take_ge by (cbn [length]; lia).
    rewrite bool_decide_false by discriminate. rewrite (resolve_absolute s kids (c :: dir)); [reflexivity|exact Ht|].
    split; [exact Hd|]. split; [|exact Ho]. rewrite length_app in Hl. cbn [length] in *. lia.
Qed.
(** ** Adding a node *)

(** [ns'] has the nodes of [ns] below [c], the same up to child links and contents. *)
Definition same_node (n n' : node) : Prop :=
  name n' = name n /\ type n' = type n /\ mode n' = mode n /\ parent n' = parent n.

Definition extends (c : nat) (ns ns' : list node) : Prop :=
  forall i n, (i < c)%nat -> ns !! i = Some n -> exists n', ns' !! i = Some n' /\ same_node n n'.

Lemma sibs_frame ns ns' p l :
  sibs ns p l ->
  (forall i n, i ∈ l -> ns !! i = Some n -> exists n', ns' !! i = Some n' /\ sibling n' = sibling n) ->
  sibs ns' p l.
Proof.
  revert p. induction l as [|i l IH]; intros p; cbn [sibs]; [auto|].
  intros [-> (n & En & Hs)] Hf. destruct (Hf i n ltac:(left) En) as (n' & En' & Es).
  split; [reflexivity|]. exists n'. split; [exact En'|]. rewrite Es. apply IH; [exact Hs|].
  intros j m Hj. apply Hf. right. exact Hj.
Qed.

Lemma kids_below s kids i j : tree s kids -> j ∈ kids i -> (j < count s)%nat.
Proof. intros Ht Hj. apply (t_parent _ _ Ht i j Hj). Qed.

Lemma kids_fresh s kids i : tree s kids -> (count s <= i)%nat -> kids i = [].
Proof.
  intros Ht Hi. destruct (kids i) as [|j l] eqn:E; [reflexivity|].
  pose proof (t_parent _ _ Ht i j ltac:(rewrite E; left)) as [Hj _]. lia.
Qed.

Lemma name_at_extends s kids ns' j :
  tree s kids -> extends (count s) (nodes s) ns' -> (j < count s)%nat ->
  name_at ns' j = name_at (nodes s) j.
Proof.
  intros Ht He Hj. destruct (tree_node _ _ _ Ht Hj) as [n En]. destruct (He j n Hj En) as (n' & En' & Hs).
  rewrite (name_at_Some _ _ _ En), (name_at_Some _ _ _ En'). unfold nm. destruct Hs as [-> _]. reflexivity.
Qed.

(** The nodes after [alloc_node] and [link_child]. *)
Record added (s s' : vfs) (p i : nat) (leaf : list Z) (ty md : Z) : Prop := {
  ad_index : i = count s;
  ad_count : node_count s' = node_count s + 1;
  ad_len : length (nodes s') = 256%nat;
  ad_rest : root s' = root s /\ cwd s' = cwd s /\ blocks s' = blocks s /\ heap s' = heap s;
  ad_new : exists pn, nodes s !! p = Some pn /\
    nodes s' !! p = Some (set_child (Some i) pn) /\
    nodes s' !! i = Some (set_sibling (child pn) (set_parent (Some p) (new_node leaf ty md)));
  ad_same : forall j, j <> p -> j <> i -> nodes s' !! j = nodes s !! j
}.

Lemma alloc_link_returns s kids p leaf ty md :
  tree s kids -> (p < count s)%nat -> node_count s < 256 ->
  returns ('(n, s1) ← alloc_node s leaf ty md;
           match n with
           | None => mret (None, s1)
           | Some i => s2 ← link_child s1 p i; mret (Some i, s2)
           end)
    (fun '(r, s') => r = Some (count s) /\ added s s' p (count s) leaf ty md).
Proof.
  intros Ht Hp Hc. pose proof (t_count _ _ Ht) as Hr. unfold alloc_node.
  destruct (Z.leb_spec VFS_MAX_NODES (node_count s)) as [Hge|_]; [unfold VFS_MAX_NODES in Hge; lia|].
  fold (count s). assert (Hlt : (count s < length (nodes s))%nat) by (rewrite (t_len _ _ Ht); unfold count; lia).
  destruct (lookup_lt_is_Some_2 _ _ Hlt) as [n0 En0]. destruct (tree_node _ _ _ Ht Hp) as [pn Epn].
  rewrite (upd_node_Done s (count s) _ n0 En0), bind_Done. cbn [mret outcome_ret]. rewrite bind_Done.
  unfold link_child. set (s1 := mk_vfs _ _ _ _ _ _). set (nn := new_node leaf ty md) in *.
  assert (E1 : nodes s1 !! count s = Some nn) by (apply list_lookup_insert_eq; exact Hlt).
  rewrite (upd_node_Done s1 _ _ nn E1), bind_Done. set (s2 := set_nodes _ s1).
  assert (Hl2 : length (nodes s2) = 256%nat)
    by (unfold s2, s1; cbn [nodes set_nodes]; rewrite !length_insert; apply Ht).
  assert (Hpi : p <> count s) by lia.
  assert (E2p : nodes s2 !! p = Some pn)
    by (unfold s2, s1; cbn [nodes set_nodes]; rewrite !list_lookup_insert_ne by congruence; exact Epn).
  assert (E2 : nodes s2 !! count s = Some (set_parent (Some p) nn))
    by (apply list_lookup_insert_eq; unfold s1; cbn [nodes set_nodes]; rewrite length_insert; exact Hlt).
  rewrite (node_at_Done _ _ _ E2p), bind_Done, (upd_node_Done s2 _ _ _ E2), bind_Done. set (s3 := set_nodes _ s2).
  assert (E3p : nodes s3 !! p = Some pn)
    by (unfold s3; cbn [nodes set_nodes]; rewrite list_lookup_insert_ne by congruence; exact E2p).
  rewrite (upd_node_Done s3 _ _ _ E3p), bind_Done. apply returns_Done. split; [reflexivity|].
  rewrite (t_len _ _ Ht) in Hlt. split.
  - reflexivity.
  - reflexivity.
  - cbn [nodes set_nodes s3]. rewrite !length_insert. exact Hl2.
  - auto.
  - exists pn. split; [exact Epn|]. cbn [nodes set_nodes]. split.
    + apply list_lookup_insert_eq. cbn [nodes set_nodes s3]. rewrite length_insert, Hl2. lia.
    + rewrite list_lookup_insert_ne by congruence. apply list_lookup_insert_eq. rewrite Hl2. exact Hlt.
  - intros j Hjp Hji. unfold s3, s2, s1. cbn [nodes set_nodes].
    rewrite !list_lookup_insert_ne by congruence. reflexivity.
Qed.

Lemma added_extends s s' p leaf ty md :
  added s s' p (count s) leaf ty md -> extends (count s) (nodes s) (nodes s').
Proof.
  intros Ha i n Hi En. destruct (ad_new _ _ _ _ _ _ _ Ha) as (pn & Epn & Ep & _).
  destruct (decide (i = p)) as [->|Hne].
  - exists (set_child (Some (count s)) pn). split; [exact Ep|]. replace pn with n by congruence.
    repeat split.
  - exists n. rewrite (ad_same _ _ _ _ _ _ _ Ha) by lia. split; [exact En|]. repeat split.
Qed.

Definition add_kid (kids : nat -> list nat) (p i : nat) : nat -> list nat :=
  fun j => if decide (j = p) then i :: kids p else kids j.

Lemma new_node_name leaf ty md : str_ok leaf -> (length leaf <= 127)%nat -> nm (new_node leaf ty md) = leaf.
Proof.
  intros Ho Hl. unfold nm, new_node. cbn [name]. change (Z.to_nat (VFS_NAME_MAX - 1)) with 127%nat.
  change (name zero_node) with (replicate 128 0). rewrite cstr_strncpy_zero by exact Ho.
  apply take_ge, Hl.
Qed.

Lemma new_node_length leaf ty md : length (name (new_node leaf ty md)) = 128%nat.
Proof.
  unfold new_node, strncpy_arr. cbn [name]. change (Z.to_nat (VFS_NAME_MAX - 1)) with 127%nat.
  rewrite !length_app, length_take, length_replicate, length_drop. change (length (name zero_node)) with 128%nat. lia.
Qed.

Lemma added_sibling s s' p leaf ty md j n :
  added s s' p (count s) leaf ty md -> (j < count s)%nat -> nodes s !! j = Some n ->
  exists n', nodes s' !! j = Some n' /\ sibling n' = sibling n.
Proof.
  intros Ha Hj En. destruct (ad_new _ _ _ _ _ _ _ Ha) as (pn & Epn & Ep & _).
  destruct (decide (j = p)) as [->|Hne].
  - exists (set_child (Some (count s)) pn). split; [exact Ep|]. replace pn with n by congruence. reflexivity.
  - exists n. rewrite (ad_same _ _ _ _ _ _ _ Ha) by lia. auto.
Qed.

Lemma added_count s s' p i leaf ty md :
  added s s' p i leaf ty md -> 0 <= node_count s -> count s' = S (count s).
Proof. intros Ha Hc. unfold count. rewrite (ad_count _ _ _ _ _ _ _ Ha). lia. Qed.

Lemma added_tree s s' kids p leaf ty md pn :
  tree s kids -> node_count s < 256 -> (p < count s)%nat -> str_ok leaf -> (length leaf <= 127)%nat ->
  nodes s !! p = Some pn -> type pn = VFS_DIR -> lookup_child s kids p leaf = None ->
  added s s' p (count s) leaf ty md -> tree s' (add_kid kids p (count s)).
Proof.
  intros Ht Hc Hp Hpr Hpl Epn Hty Hnone Ha. pose proof (added_extends _ _ _ _ _ _ Ha) as Hext.
  pose proof (t_count _ _ Ht) as Hcount. pose proof (added_count _ _ _ _ _ _ _ Ha ltac:(lia)) as Hc'.
  destruct (ad_new _ _ _ _ _ _ _ Ha) as (pn' & Epn' & Ep' & Ei'). replace pn' with pn in * by congruence.
  set (i := count s) in *. unfold add_kid.
  assert (Hkin : forall q j, j ∈ (if decide (q = p) then i :: kids p else kids q) ->
            j = i /\ q = p \/ j ∈ kids q).
  { intros q j. case_decide as E; [|auto]. subst q. rewrite elem_of_cons. tauto. }
  assert (Hname : forall j, (j < i)%nat -> name_at (nodes s') j = name_at (nodes s) j)
    by (intros; apply (name_at_extends s kids); assumption).
  assert (Hback : forall j n', (j < i)%nat -> nodes s' !! j = Some n' ->
            exists n, nodes s !! j = Some n /\ same_node n n').
  { intros j n' Hj En'. destruct (tree_node _ _ _ Ht Hj) as [n En]. exists n. split; [exact En|].
    destruct (Hext j n Hj En) as (n2 & En2 & Hs). replace n' with n2 by congruence. exact Hs. }
  split.
  - apply Ha.
  - rewrite (ad_count _ _ _ _ _ _ _ Ha). lia.
  - destruct (ad_rest _ _ _ _ _ _ _ Ha) as [-> _]. apply Ht.
  - destruct (t_top _ _ Ht) as (n & En & Hn1 & Hn2). destruct (Hext 0%nat n) as (n' & En' & Hs);
      [unfold i, count; lia|exact En|]. exists n'. split; [exact En'|]. destruct Hs as (_ & -> & _ & ->). auto.
  - intros j n' Hj En'. rewrite Hc' in Hj. destruct (decide (j = i)) as [->|Hji].
    + rewrite decide_False by lia. rewrite Ei' in En'. injection En' as <-.
      rewrite (kids_fresh _ _ _ Ht) by reflexivity. reflexivity.
    + assert (Hlt : (j < i)%nat) by lia. destruct (tree_node _ _ _ Ht Hlt) as [n En].
      pose proof (t_kids _ _ Ht j n Hlt En) as Hs.
      assert (Hs' : sibs (nodes s') (child n) (kids j)).
      { apply (sibs_frame (nodes s)); [exact Hs|]. intros k m Hk. apply (added_sibling _ _ _ _ _ _ _ _ Ha).
        exact (kids_below _ _ _ _ Ht Hk). }
      case_decide as E.
      * subst j. replace n with pn in * by congruence. rewrite Ep' in En'. injection En' as <-.
        cbn [sibs child set_child set_links]. split; [reflexivity|]. eexists. split; [exact Ei'|]. exact Hs'.
      * rewrite (ad_same _ _ _ _ _ _ _ Ha) in En' by lia. replace n' with n by congruence. exact Hs'.
  - intros q j Hj. rewrite Hc'. destruct (Hkin q j Hj) as [[-> ->]|Hk].
    + split; [lia|]. eexists. split; [exact Ei'|reflexivity].
    + destruct (t_parent _ _ Ht q j Hk) as [Hb (n & En & Hpar)]. fold i in Hb. split; [lia|].
      destruct (Hext j n ltac:(lia) En) as (n' & En' & Hs). exists n'. split; [exact En'|].
      destruct Hs as (_ & _ & _ & ->). exact Hpar.
  - intros q j Hj. assert (Hq : exists n, nodes s !! q = Some n /\ type n = VFS_DIR).
    { destruct (Hkin q j Hj) as [[_ ->]|Hk]; [eauto|exact (t_dir _ _ Ht q j Hk)]. }
    destruct Hq as (n & En & Hn). assert (Hqi : (q < i)%nat).
    { destruct (Hkin q j Hj) as [[_ ->]|Hk]; [exact Hp|]. pose proof (t_parent _ _ Ht q j Hk). unfold i. lia. }
    destruct (Hext q n Hqi En) as (n' & En' & Hs). exists n'. split; [exact En'|].
    destruct Hs as (_ & -> & _). exact Hn.
  - intros q. case_decide; [|apply Ht]. apply NoDup_cons. split; [|apply Ht].
    intros Hin. apply (kids_below _ _ _ _ Ht) in Hin. unfold i in Hin. lia.
  - intros q. assert (Hmap : forall q, map (name_at (nodes s')) (kids q) = map (name_at (nodes s)) (kids q)).
    { intros q'. apply map_ext_in. intros j Hj. apply Hname. apply list_elem_of_In in Hj.
      exact (kids_below _ _ _ _ Ht Hj). }
    case_decide as E; [|rewrite Hmap; apply Ht]. subst q. cbn [map]. rewrite Hmap. apply NoDup_cons.
    split; [|apply Ht]. rewrite (name_at_Some _ _ _ Ei').
    change (nm (set_sibling _ _)) with (nm (new_node leaf ty md)). rewrite new_node_name by assumption.
    intros Hin. apply list_elem_of_fmap in Hin as (j & Ej & Hj).
    exact (lookup_child_None _ _ _ _ _ Hnone Hj (eq_sym Ej)).
  - intros j n' q Hj En' Hpar. rewrite Hc' in Hj. destruct (decide (j = i)) as [->|Hji].
    + rewrite Ei' in En'. injection En' as <-. injection Hpar as <-. exact Hp.
    + assert (Hlt : (j < i)%nat) by lia. destruct (Hback j n' Hlt En') as (n & En & Hs).
      destruct Hs as (_ & _ & _ & Hpp). apply (t_up _ _ Ht j n q Hlt En). congruence.
  - intros j n' Hj En'. rewrite Hc' in Hj. destruct (decide (j = i)) as [->|Hji].
    + rewrite Ei' in En'. injection En' as <-. cbn [name set_sibling set_parent set_links].
      exact (new_node_length leaf ty md).
    + assert (Hlt : (j < i)%nat) by lia. destruct (Hback j n' Hlt En') as (n & En & -> & _).
      exact (t_name _ _ Ht j n Hlt En).
Qed.

(** A walk that succeeded still does, with the same result. *)
Lemma added_walk s s' kids p leaf ty md :
  tree s kids -> proper leaf -> lookup_child s kids p leaf = None ->
  added s s' p (count s) leaf ty md ->
  forall parts cur r, (cur < count s)%nat -> walk s kids cur parts = Some r ->
  walk s' (add_kid kids p (count s)) cur parts = Some r.
Proof.
  intros Ht Hpr Hnone Ha. pose proof (added_extends _ _ _ _ _ _ Ha) as Hext.
  destruct (ad_new _ _ _ _ _ _ _ Ha) as (pn & Epn & Ep' & Ei').
  induction parts as [|x parts IH]; intros cur r Hc; cbn [walk]; [auto|].
  destruct (walk_step s kids cur x) as [c|] eqn:E; [|discriminate]. intros Hw.
  assert (E' : walk_step s' (add_kid kids p (count s)) cur x = Some c).
  { unfold walk_step in *. destruct (bool_decide (x = chars ".")); [exact E|].
    destruct (bool_decide (x = chars "..")).
    - destruct (tree_node _ _ _ Ht Hc) as [n En]. rewrite En in E. destruct (Hext cur n Hc En) as (n' & -> & Hs).
      destruct Hs as (_ & _ & _ & ->). exact E.
    - unfold lookup_child in *.
      assert (Hf : List.find (fun j => bool_decide (name_at (nodes s') j = x)) (kids cur) = Some c).
      { rewrite <- E. clear E. assert (Hb : forall j, j ∈ kids cur -> (j < count s)%nat)
          by (intros j; apply (kids_below _ _ _ _ Ht)).
        induction (kids cur) as [|j l IHl]; [reflexivity|]. cbn [List.find].
        rewrite (name_at_extends s kids _ j Ht Hext (Hb j ltac:(left))).
        destruct (bool_decide _); [reflexivity|]. apply IHl. intros k Hk. apply Hb. right. exact Hk. }
      unfold add_kid. case_decide as Ecur; [|exact Hf]. subst cur. cbn [List.find].
      rewrite (name_at_Some _ _ _ Ei'). change (nm (set_sibling _ _)) with (nm (new_node leaf ty md)).
      rewrite new_node_name by apply Hpr. rewrite bool_decide_false; [exact Hf|]. intros <-.
      apply List.find_some in E as [Hin Hnm]. apply bool_decide_eq_true in Hnm.
      apply list_elem_of_In in Hin. exact (lookup_child_None _ _ _ _ _ Hnone Hin Hnm). }
  rewrite E'. apply (IH c r); [exact (walk_step_valid _ _ _ _ _ Ht Hc E)|exact Hw].
Qed.

(** What [vfs_mkdir] and [vfs_create] do with a path. *)
Lemma vfs_add_returns s kids dir leaf ty md p :
  tree s kids -> dir_ok dir -> str_ok dir -> proper leaf -> (length (join dir leaf) <= 255)%nat ->
  walk s kids 0 (components (drop 1 dir)) = Some p -> (p < count s)%nat ->
  (exists pn, nodes s !! p = Some pn /\ type pn = VFS_DIR) ->
  returns (vfs_add ty s (join dir leaf) md) (fun '(r, s') =>
    match lookup_child s kids p leaf with
    | Some i => r = Some i /\ s' = s
    | None =>
        if node_count s <? 256 then
          r = Some (count s) /\ added s s' p (count s) leaf ty md /\ tree s' (add_kid kids p (count s))
        else r = None /\ s' = s
    end).
Proof.
  intros Ht Hd Ho Hp Hl Hw Hlt (pn & Epn & Hty). unfold vfs_add.
  rewrite (ensure_parent_join s kids) by assumption. rewrite bind_Done, Hw.
  rewrite (node_at_Done _ _ _ Epn), bind_Done, Hty. change (VFS_DIR =? VFS_DIR) with true.
  rewrite bool_decide_false by exact (pr_ne _ Hp). cbn [negb orb].
  rewrite (find_child_returns s kids p leaf Ht Hlt (pr_ok _ Hp)), bind_Done.
  destruct (lookup_child s kids p leaf) as [i|] eqn:El; [apply returns_Done; auto|].
  destruct (Z.ltb_spec (node_count s) 256) as [Hc|Hc].
  - eapply returns_mono; [exact (alloc_link_returns s kids p leaf ty md Ht Hlt Hc)|].
    intros [r s'] [-> Ha]. split; [reflexivity|]. split; [exact Ha|].
    exact (added_tree s s' kids p leaf ty md pn Ht Hc Hlt (pr_ok _ Hp) (pr_len _ Hp) Epn Hty El Ha).
  - unfold alloc_node. destruct (Z.leb_spec VFS_MAX_NODES (node_count s)) as [_|Hlt'];
      [|unfold VFS_MAX_NODES in Hlt'; lia]. apply returns_Done. auto.
Qed.
End Vfs.

(** ** File contents *)
Section Contents.
Context {H : Type} `{BlockAllocLaws H}.
Implicit Types s : @vfs H.

(** Every file's content is a live block of its own, with more bytes than the file
    and at most those the heap set aside. *)
Record store s : Prop := {
  st_ok : ba_ok (heap s);
  st_size : forall i n, (i < count s)%nat -> nodes s !! i = Some n ->
    0 <= size n < 2 ^ 62 /\ (data n = 0 -> size n = 0);
  st_data : forall i n, (i < count s)%nat -> nodes s !! i = Some n -> data n <> 0 ->
    ba_live (heap s) (data n) /\ exists b, blocks s !! data n = Some b /\
      size n < Z.of_nat (length b) <= ba_room (heap s) (data n);
  st_inj : forall i j n m, (i < count s)%nat -> (j < count s)%nat ->
    nodes s !! i = Some n -> nodes s !! j = Some m -> data n <> 0 -> data n = data m -> i = j
}.

(** The bytes of a file. *)
Definition file_bytes s (i : nat) : list Z :=
  match nodes s !! i with
  | Some n => match blocks s !! data n with
              | Some b => if data n =? 0 then [] else take (Z.to_nat (size n)) b
              | None => []
              end
  | None => []
  end.

Lemma vfs_read_returns s i n mx :
  store s -> (i < count s)%nat -> nodes s !! i = Some n -> type n = VFS_FILE -> 0 <= mx ->
  vfs_read s (Some i) mx =
    Done (i32 (Z.min (size n) mx), take (Z.to_nat mx) (file_bytes s i)).
Proof.
  intros Hs Hi En Hty Hmx. unfold vfs_read. rewrite (node_at_Done _ _ _ En), bind_Done, Hty.
  change (VFS_FILE =? VFS_FILE) with true. cbn [negb]. destruct (st_size _ Hs i n Hi En) as [Hsz Hz].
  replace (if size n <? mx then size n else mx) with (Z.min (size n) mx) by (case_cmp; lia).
  unfold file_bytes. rewrite En. destruct (Z.eqb_spec (data n) 0) as [E0|E0].
  - rewrite (Hz E0). rewrite andb_false_r. cbn [mret outcome_ret]. rewrite bind_Done.
    destruct (blocks s !! data n); rewrite take_nil; reflexivity.
  - destruct (st_data _ Hs i n Hi En E0) as (_ & b & -> & Hb).
    destruct (Z.eqb_spec (Z.min (size n) mx) 0) as [Ek|Ek]; cbn [negb andb].
    + cbn [mret outcome_ret]. rewrite bind_Done, take_take. rewrite Ek.
      replace (Nat.min (Z.to_nat mx) (Z.to_nat (size n))) with 0%nat by lia. reflexivity.
    + destruct (Z.ltb_spec (Z.of_nat (length b)) (Z.min (size n) mx)); [lia|].
      cbn [mret outcome_ret]. rewrite bind_Done, take_take.
      replace (Nat.min (Z.to_nat mx) (Z.to_nat (size n))) with (Z.to_nat (Z.min (size n) mx)) by lia. reflexivity.
Qed.

(** New content for one node; links and names are as before. *)
Lemma content_tree s kids i n d z bl (h : H) :
  tree s kids -> nodes s !! i = Some n ->
  tree (mk_vfs (<[i := set_content d z n]> (nodes s)) (node_count s) (root s) (cwd s) bl h) kids.
Proof.
  intros Ht En. pose proof (lookup_lt_Some _ _ _ En) as Hlt. set (ns' := <[i := _]> (nodes s)).
  assert (Hl : forall j m, nodes s !! j = Some m -> exists m', ns' !! j = Some m' /\ same_node m m' /\
             child m' = child m /\ sibling m' = sibling m).
  { intros j m Em. unfold ns'. destruct (decide (j = i)) as [->|Hne].
    - exists (set_content d z n). rewrite list_lookup_insert_eq by exact Hlt. replace m with n by congruence.
      repeat split.
    - exists m. rewrite list_lookup_insert_ne by congruence. repeat split. exact Em. }
  assert (Hb : forall j m', ns' !! j = Some m' -> exists m, nodes s !! j = Some m /\ same_node m m' /\
             child m' = child m /\ sibling m' = sibling m).
  { intros j m' Em'. pose proof (lookup_lt_Some _ _ _ Em') as Hj. unfold ns' in Hj. rewrite length_insert in Hj.
    destruct (lookup_lt_is_Some_2 _ _ Hj) as [m Em]. destruct (Hl j m Em) as (m2 & Em2 & Hr).
    exists m. replace m' with m2 by congruence. auto. }
  assert (Hname : forall j, name_at ns' j = name_at (nodes s) j).
  { intros j. unfold name_at. destruct (ns' !! j) as [m'|] eqn:E.
    - destruct (Hb j m' E) as (m & -> & [Hnm _] & _). unfold nm. rewrite Hnm. reflexivity.
    - destruct (nodes s !! j) as [m|] eqn:E2; [|reflexivity]. destruct (Hl j m E2) as (m' & E3 & _). congruence. }
  destruct Ht as [Hlen Hc Hr (n0 & En0 & Hn0) Hk Hp Hd Hnd Hnn Hup Hst]. split; cbn [nodes node_count root].
  - unfold ns'. rewrite length_insert. exact Hlen.
  - exact Hc.
  - exact Hr.
  - destruct (Hl _ _ En0) as (m' & Em' & (_ & Ht' & _ & Hp') & _). exists m'. rewrite Ht', Hp'. auto.
  - intros j m' Hj Em'. destruct (Hb j m' Em') as (m & Em & _ & -> & _).
    apply (sibs_frame (nodes s)); [exact (Hk j m Hj Em)|]. intros k mk _ Ek.
    destruct (Hl k mk Ek) as (mk' & Ek' & _ & _ & Es). exists mk'. auto.
  - intros q j Hj. destruct (Hp q j Hj) as [Hbd (m & Em & Epar)]. split; [exact Hbd|].
    destruct (Hl j m Em) as (m' & Em' & (_ & _ & _ & Ep') & _). exists m'. rewrite Ep'. auto.
  - intros q j Hj. destruct (Hd q j Hj) as (m & Em & Ety). destruct (Hl q m Em) as (m' & Em' & (_ & Et' & _) & _).
    exists m'. rewrite Et'. auto.
  - exact Hnd.
  - intros q. replace (map (name_at ns') (kids q)) with (map (name_at (nodes s)) (kids q))
      by (apply map_ext; intros; symmetry; apply Hname). apply Hnn.
  - intros j m' q Hj Em' Epar. destruct (Hb j m' Em') as (m & Em & (_ & _ & _ & Ep') & _).
    apply (Hup j m q Hj Em). congruence.
  - intros j m' Hj Em'. destruct (Hb j m' Em') as (m & Em & (-> & _) & _). exact (Hst j m Hj Em).
Qed.

(** What a write leaves: everything but the node, the heap and the blocks. *)
Record written s s' (i : nat) (buf : list Z) : Prop := {
  wr_store : store s';
  wr_tree : forall kids, tree s kids -> tree s' kids;
  wr_count : node_count s' = node_count s;
  wr_root : root s' = root s;
  wr_bytes : file_bytes s' i = buf;
  wr_others : forall j, (j < count s)%nat -> j <> i -> file_bytes s' j = file_bytes s j;
  wr_nodes : forall j m, nodes s !! j = Some m -> exists m', nodes s' !! j = Some m' /\
    same_node m m' /\ (j <> i -> m' = m);
  wr_names : forall j, name_at (nodes s') j = name_at (nodes s) j;
  wr_cwd : cwd s' = cwd s
}.

Lemma vfs_write_returns s i n buf sz :
  store s -> (i < count s)%nat -> nodes s !! i = Some n -> type n = VFS_FILE ->
  0 <= sz <= Z.of_nat (length buf) -> sz < 2 ^ 62 ->
  returns (vfs_write s (Some i) buf sz) (fun '(r, s') =>
    (r = i32 sz /\ written s s' i (take (Z.to_nat sz) buf)) \/
    (r = -1 /\ exists h', s' = mk_vfs (nodes s) (node_count s) (root s) (cwd s) (blocks s) h' /\ store s')).
Proof.
  intros Hs Hi En Hty Hsz Hmax. unfold vfs_write. rewrite (node_at_Done _ _ _ En), bind_Done, Hty.
  change (VFS_FILE =? VFS_FILE) with true. cbn [negb]. rewrite u64_small by lia.
  destruct (ba_alloc_post (heap s) (sz + 1) (st_ok _ Hs) ltac:(lia)) as ([p h] & -> & Hok & Hkept & Hpost).
  cbn [fst snd] in *. rewrite bind_Done. destruct Hpost as [[-> Hsame]|(Hp0 & Hroom & Hnew & Hlive)].
  { apply returns_Done. right. split; [reflexivity|]. exists h. split; [reflexivity|].
    destruct Hs as [_ Hs2 Hs3 Hs4]. split; cbn [heap nodes blocks]; [exact Hok|exact Hs2| |exact Hs4].
    intros j m Hj Em Hd. destruct (Hs3 j m Hj Em Hd) as [Hl Hb].
    rewrite (Hkept _ Hl) by (apply Hsame, Hl). rewrite Hsame. auto. }
  destruct (Z.eqb_spec p 0); [lia|]. destruct (Z.ltb_spec (Z.of_nat (length buf)) sz); [lia|].
  set (bl := <[p := take (Z.to_nat sz) buf ++ [0]]> (blocks s)).
  assert (Hfree : returns (if negb (data n =? 0) then ba_free h (data n) else mret h)
     (fun h' => ba_ok h' /\ rooms_kept h h' /\
        forall q, ba_live h' q <-> (ba_live (heap s) q \/ q = p) /\ (q <> data n \/ data n = 0))).
  { destruct (Z.eqb_spec (data n) 0) as [E0|E0]; cbn [negb].
    - apply returns_Done. split; [exact Hok|]. split; [intros q _ _; reflexivity|]. intros q. rewrite Hlive. tauto.
    - destruct (st_data _ Hs i n Hi En E0) as (Hl & _).
      eapply returns_mono; [apply (ba_free_post h (data n) Hok); rewrite Hlive; tauto|].
      intros h' (Hok' & Hk' & Hl'). split; [exact Hok'|]. split; [exact Hk'|]. intros q. rewrite Hl', Hlive. tauto. }
  destruct Hfree as (h' & -> & Hok' & Hkept' & Hl'). rewrite bind_Done. apply returns_Done. left. split; [reflexivity|].
  set (bl' := if negb (data n =? 0) then delete (data n) bl else bl).
  assert (Hpn : data n <> p).
  { intros E. destruct (Z.eq_dec (data n) 0) as [E0|E0]; [lia|].
    destruct (st_data _ Hs i n Hi En E0) as (Hl & _). rewrite E in Hl. exact (Hnew Hl). }
  assert (Hblp : bl' !! p = Some (take (Z.to_nat sz) buf ++ [0])).
  { unfold bl', bl. destruct (negb _); [rewrite lookup_delete_ne by exact Hpn|]; apply lookup_insert_eq. }
  assert (Hbl : forall q, q <> p -> q <> data n \/ data n = 0 -> bl' !! q = blocks s !! q).
  { intros q Hq Hd. unfold bl', bl. destruct (Z.eqb_spec (data n) 0) as [E0|E0]; cbn [negb].
    - apply lookup_insert_ne. congruence.
    - rewrite lookup_delete_ne by (destruct Hd; congruence). apply lookup_insert_ne. congruence. }
  pose proof (lookup_lt_Some _ _ _ En) as Hlt.
  assert (Hoth : forall j m, (j < count s)%nat -> j <> i -> nodes s !! j = Some m -> data m <> 0 ->
            data m <> p /\ (data m <> data n \/ data n = 0)).
  { intros j m Hj Hne Em Hd. destruct (st_data _ Hs j m Hj Em Hd) as (Hl & _). split.
    - intros E. rewrite E in Hl. exact (Hnew Hl).
    - left. intros E. apply Hne. exact (st_inj _ Hs j i m n Hj Hi Em En Hd E). }
  set (s' := mk_vfs _ _ _ _ _ _). split.
  - split; cbn [heap nodes blocks s'].
    + exact Hok'.
    + intros j m Hj Em. destruct (decide (j = i)) as [->|Hne].
      * rewrite list_lookup_insert_eq in Em by exact Hlt. injection Em as <-. cbn [size data set_content]. lia.
      * rewrite list_lookup_insert_ne in Em by congruence. exact (st_size _ Hs j m Hj Em).
    + intros j m Hj Em Hd. destruct (decide (j = i)) as [->|Hne].
      * rewrite list_lookup_insert_eq in Em by exact Hlt. injection Em as <-. cbn [size data set_content] in *.
        assert (Hlp : ba_live h' p) by (apply Hl'; split; [tauto|left; congruence]).
        split; [exact Hlp|]. eexists. split; [exact Hblp|].
        rewrite (Hkept' p) by (first [exact Hlp|apply Hlive; tauto]).
        rewrite length_app, length_take. cbn [length]. lia.
      * rewrite list_lookup_insert_ne in Em by congruence. destruct (Hoth j m Hj Hne Em Hd) as [Hnp Hnd].
        destruct (st_data _ Hs j m Hj Em Hd) as (Hl & b & Eb & Hb).
        assert (Hlm : ba_live h' (data m)) by (apply Hl'; tauto). split; [exact Hlm|].
        exists b. rewrite Hbl by assumption. split; [exact Eb|].
        rewrite (Hkept' _), (Hkept _ Hl) by (first [exact Hlm|apply Hlive; tauto]). exact Hb.
    + intros j k m m' Hj Hk Em Ek Hd E. destruct (decide (j = i)) as [->|Hji], (decide (k = i)) as [->|Hki].
      * reflexivity.
      * rewrite list_lookup_insert_eq in Em by exact Hlt. rewrite list_lookup_insert_ne in Ek by congruence.
        injection Em as <-. cbn [data set_content] in *. destruct (Hoth k m' Hk Hki Ek) as [Hnp _]; congruence.
      * rewrite list_lookup_insert_eq in Ek by exact Hlt. rewrite list_lookup_insert_ne in Em by congruence.
        injection Ek as <-. cbn [data set_content] in *. destruct (Hoth j m Hj Hji Em Hd) as [Hnp _]. congruence.
      * rewrite list_lookup_insert_ne in Em by congruence. rewrite list_lookup_insert_ne in Ek by congruence.
        exact (st_inj _ Hs j k m m' Hj Hk Em Ek Hd E).
  - intros kids Ht. exact (content_tree s kids i n p sz _ _ Ht En).
  - reflexivity.
  - reflexivity.
  - unfold file_bytes. cbn [nodes blocks s']. rewrite list_lookup_insert_eq by exact Hlt.
    cbn [data size set_content]. rewrite Hblp. destruct (Z.eqb_spec p 0); [lia|].
    rewrite take_app_le by (rewrite length_take; lia). rewrite take_take. f_equal. lia.
  - intros j Hj Hne. unfold file_bytes. cbn [nodes blocks s']. rewrite list_lookup_insert_ne by congruence.
    destruct (nodes s !! j) as [m|] eqn:Em; [|reflexivity].
    destruct (Z.eqb_spec (data m) 0) as [E0|E0].
    + destruct (bl' !! data m), (blocks s !! data m); reflexivity.
    + destruct (Hoth j m Hj Hne Em E0) as [Hnp Hnd]. rewrite Hbl by assumption. reflexivity.
  - intros j m Em. cbn [nodes s']. destruct (decide (j = i)) as [->|Hne].
    + rewrite list_lookup_insert_eq by exact Hlt. eexists. split; [reflexivity|].
      replace m with n by congruence. repeat split. congruence.
    + rewrite list_lookup_insert_ne by congruence. exists m. split; [exact Em|repeat split].
  - intros j. unfold name_at. cbn [nodes s']. destruct (decide (j = i)) as [->|Hne].
    + rewrite list_lookup_insert_eq, En by exact Hlt. reflexivity.
    + rewrite list_lookup_insert_ne by congruence. reflexivity.
  - reflexivity.
Qed.
End Contents.
