(* ===== verification/VfsOps.v ===== *)
(** * File system: what the operations of [Vfs.v] do *)
From Stdlib Require Import ZArith Lia Bool String.
From stdpp Require Import base tactics option list numbers gmap.
From S2P Require Import Prelude CInt CString BlockAlloc Vfs.
#[local] Close Scope string_scope.
#[local] Open Scope Z_scope.

(** ** Nodes that are linked to the root *)
Inductive linked (kids : nat -> list nat) : nat -> Prop :=
  | linked_root : linked kids 0
  | linked_kid p i : linked kids p -> i ∈ kids p -> linked kids i.

Section Removal.
Context {H : Type} `{BlockAllocLaws H}.
Implicit Types s : @vfs H.

Lemma linked_parent s kids i :
  tree s kids -> linked kids i -> i <> 0%nat ->
  exists p n, linked kids p /\ i ∈ kids p /\ nodes s !! i = Some n /\ parent n = Some p.
Proof.
  intros Ht [|p j Hp Hj] Hne; [congruence|]. destruct (t_parent _ _ Ht p j Hj) as [_ (n & En & Epar)].
  exists p, n. auto.
Qed.

Lemma linked_below s kids i : tree s kids -> linked kids i -> (i < count s)%nat.
Proof.
  intros Ht [|p j Hp Hj]; [|exact (kids_below _ _ _ _ Ht Hj)].
  pose proof (t_count _ _ Ht). unfold count. lia.
Qed.

Lemma top_node s kids n : tree s kids -> nodes s !! 0%nat = Some n -> parent n = None.
Proof. intros Ht En. destruct (t_top _ _ Ht) as (m & Em & _ & Hm). congruence. Qed.

Lemma step_linked s kids cur x c :
  tree s kids -> linked kids cur -> walk_step s kids cur x = Some c -> linked kids c.
Proof.
  intros Ht Hl. unfold walk_step. destruct (bool_decide _); [congruence|]. destruct (bool_decide _).
  - destruct (nodes s !! cur) as [n|] eqn:En; [|discriminate]. intros [= <-].
    destruct (decide (cur = 0%nat)) as [->|Hne].
    + rewrite (top_node _ _ _ Ht En). constructor.
    + destruct (linked_parent _ _ _ Ht Hl Hne) as (p & m & Hp & _ & Em & Epar).
      replace m with n in * by congruence. rewrite Epar. exact Hp.
  - intros Hf. apply lookup_child_Some in Hf as [Hin _]. exact (linked_kid _ _ _ Hl Hin).
Qed.

Lemma walk_linked s kids parts : forall cur c,
  tree s kids -> linked kids cur -> walk s kids cur parts = Some c -> linked kids c.
Proof.
  induction parts as [|x parts IH]; intros cur c Ht Hl; cbn [walk]; [congruence|].
  destruct (walk_step s kids cur x) as [d|] eqn:E; [|discriminate].
  apply IH; [exact Ht|]. exact (step_linked _ _ _ _ _ Ht Hl E).
Qed.

(** ** Taking a node out of the sibling list *)
Lemma filter_notin (l : list nat) (i : nat) : i ∉ l -> filter (fun k => k <> i) l = l.
Proof.
  induction l as [|a l IH]; intros Hi; [reflexivity|]. apply not_elem_of_cons in Hi as [Hne Hi].
  rewrite filter_cons_True by congruence. rewrite IH by exact Hi. reflexivity.
Qed.

Lemma unlink_sibling_returns s i ni l : forall c fuel,
  sibs (nodes s) c l -> NoDup l -> i ∈ l -> c <> Some i -> nodes s !! i = Some ni -> (length l < fuel)%nat ->
  returns (loop fuel (fun c =>
    match c with
    | None => mret (inr s)
    | Some j =>
        n ← node_at s j;
        if bool_decide (sibling n = Some i)
        then s' ← upd s j (set_sibling (sibling ni)); mret (inr s')
        else mret (inl (sibling n))
    end) c)
  (fun s' => exists j nj, j ∈ l /\ j <> i /\ nodes s !! j = Some nj /\
     s' = set_nodes (<[j := set_sibling (sibling ni) nj]> (nodes s)) s /\
     sibs (nodes s') c (filter (fun k => k <> i) l)).
Proof.
  induction l as [|a l IH]; intros c fuel Hs Hnd Hin Hc Ei Hf; [inversion Hin|].
  destruct fuel as [|f]; [cbn in Hf; lia|]. cbn [sibs] in Hs. destruct Hs as [-> (n & En & Hs)].
  apply NoDup_cons in Hnd as [Ha Hnd]. assert (Hai : a <> i) by congruence.
  apply elem_of_cons in Hin as [->|Hin]; [congruence|]. cbn [loop].
  rewrite (node_at_Done _ _ _ En), bind_Done. rewrite filter_cons_True by exact Hai.
  pose proof (lookup_lt_Some _ _ _ En) as Hlt.
  destruct (bool_decide (sibling n = Some i)) eqn:E.
  - apply bool_decide_eq_true in E. rewrite (upd_node_Done _ _ _ _ En), bind_Done. apply returns_Done.
    exists a, n. split; [left|]. split; [exact Hai|]. split; [exact En|]. split; [reflexivity|].
    destruct l as [|b l]; [inversion Hin|]. cbn [sibs] in Hs. destruct Hs as [Eb (m & Em & Hs)].
    assert (b = i) by congruence. subst b. replace m with ni in * by congruence.
    apply NoDup_cons in Hnd as [Hil Hnd]. rewrite filter_cons_False by tauto. rewrite filter_notin by exact Hil.
    cbn [sibs nodes set_nodes]. split; [reflexivity|]. eexists.
    split; [apply list_lookup_insert_eq; exact Hlt|]. cbn [sibling set_sibling set_links].
    apply (sibs_frame (nodes s)); [exact Hs|]. intros k mk Hk Ek. exists mk.
    rewrite list_lookup_insert_ne; [auto|]. intros <-. apply Ha. right. exact Hk.
  - apply bool_decide_eq_false in E. cbn [mret outcome_ret]. rewrite bind_Done.
    eapply returns_mono; [apply (IH (sibling n) f Hs Hnd Hin E Ei); cbn in Hf; lia|].
    intros s' (j & nj & Hj & Hji & Enj & -> & Hsib). exists j, nj.
    split; [right; exact Hj|]. split; [exact Hji|]. split; [exact Enj|]. split; [reflexivity|].
    cbn [sibs]. split; [reflexivity|]. exists n. split; [|exact Hsib].
    cbn [nodes set_nodes]. rewrite list_lookup_insert_ne; [exact En|]. intros ->. exact (Ha Hj).
Qed.

(** [ns'] is [ns] with node [i] out of the children of its parent. *)
Record detached (ns ns' : list node) (n : nat) (kids : nat -> list nat) (i : nat) : Prop := {
  dt_len : length ns' = length ns;
  dt_node : forall k m, ns !! k = Some m -> exists m', ns' !! k = Some m' /\
    name m' = name m /\ type m' = type m /\ parent m' = parent m /\ size m' = size m /\ data m' = data m;
  dt_kids : forall q m', (q < n)%nat -> ns' !! q = Some m' ->
    sibs ns' (child m') (filter (fun k => k <> i) (kids q))
}.

Lemma kids_unique s kids p q i : tree s kids -> i ∈ kids p -> i ∈ kids q -> p = q.
Proof.
  intros Ht Hp Hq. destruct (t_parent _ _ Ht p i Hp) as [_ (n & En & E1)].
  destruct (t_parent _ _ Ht q i Hq) as [_ (m & Em & E2)]. congruence.
Qed.

(** Children lists that node [i] is not in are as before. *)
Lemma other_kids s kids i p ns' q :
  tree s kids -> i ∈ kids p -> q <> p -> (q < count s)%nat ->
  (forall k m, k ∈ kids q -> nodes s !! k = Some m -> exists m', ns' !! k = Some m' /\ sibling m' = sibling m) ->
  forall m m', nodes s !! q = Some m -> ns' !! q = Some m' -> child m' = child m ->
  sibs ns' (child m') (filter (fun k => k <> i) (kids q)).
Proof.
  intros Ht Hi Hq Hlt Hf m m' Em Em' ->. rewrite filter_notin.
  - apply (sibs_frame (nodes s)); [exact (t_kids _ _ Ht q m Hlt Em)|exact Hf].
  - intros Hin. exact (Hq (kids_unique _ _ _ _ _ Ht Hin Hi)).
Qed.

Lemma detach_first s kids i p pn ni :
  tree s kids -> i ∈ kids p -> nodes s !! p = Some pn -> nodes s !! i = Some ni -> child pn = Some i ->
  detached (nodes s) (<[p := set_child (sibling ni) pn]> (nodes s)) (count s) kids i.
Proof.
  intros Ht Hi Ep Ei Hc. pose proof (lookup_lt_Some _ _ _ Ep) as Hlt.
  assert (Hpc : (p < count s)%nat) by (destruct (t_parent _ _ Ht p i Hi) as [? _]; lia).
  assert (Hsib : forall k m, nodes s !! k = Some m ->
            exists m', <[p := set_child (sibling ni) pn]> (nodes s) !! k = Some m' /\ sibling m' = sibling m).
  { intros k m Em. destruct (decide (k = p)) as [->|Hne].
    - rewrite list_lookup_insert_eq by exact Hlt. eexists. split; [reflexivity|]. replace m with pn by congruence. reflexivity.
    - rewrite list_lookup_insert_ne by congruence. eauto. }
  split.
  - apply length_insert.
  - intros k m Em. destruct (decide (k = p)) as [->|Hne].
    + rewrite list_lookup_insert_eq by exact Hlt. eexists. split; [reflexivity|].
      replace m with pn by congruence. repeat split.
    + rewrite list_lookup_insert_ne by congruence. exists m. repeat split. exact Em.
  - intros q m' Hq Em'. destruct (decide (q = p)) as [->|Hne].
    + rewrite list_lookup_insert_eq in Em' by exact Hlt. injection Em' as <-. cbn [child set_child set_links].
      pose proof (t_kids _ _ Ht p pn Hpc Ep) as Hs. pose proof (t_nodup _ _ Ht p) as Hnd. rewrite Hc in Hs.
      destruct (kids p) as [|a l]; [discriminate|]. cbn [sibs] in Hs. destruct Hs as [[= <-] (m & Em & Hs)].
      replace m with ni in Hs by congruence. apply NoDup_cons in Hnd as [Ha _].
      rewrite filter_cons_False by tauto. rewrite filter_notin by exact Ha.
      apply (sibs_frame (nodes s)); [exact Hs|]. intros; apply Hsib; assumption.
    + destruct (tree_node _ _ _ Ht Hq) as [m Em].
      apply (other_kids s kids i p _ q Ht Hi Hne Hq (fun k m _ => Hsib k m) m m' Em Em').
      rewrite list_lookup_insert_ne in Em' by congruence. congruence.
Qed.

Lemma detach_later s kids i p pn ni :
  tree s kids -> i ∈ kids p -> nodes s !! p = Some pn -> nodes s !! i = Some ni -> child pn <> Some i ->
  returns (unlink_sibling s (child pn) i (sibling ni))
    (fun s' => exists ns', s' = set_nodes ns' s /\ detached (nodes s) ns' (count s) kids i).
Proof.
  intros Ht Hi Ep Ei Hc.
  assert (Hpc : (p < count s)%nat) by (destruct (t_parent _ _ Ht p i Hi) as [? _]; lia).
  eapply returns_mono; [apply (unlink_sibling_returns s i ni (kids p) (child pn) sibling_fuel);
    [exact (t_kids _ _ Ht p pn Hpc Ep)|apply Ht|exact Hi|exact Hc|exact Ei|exact (kids_length _ _ _ Ht)]|].
  intros s' (j & nj & Hj & Hji & Ej & -> & Hsibs). eexists. split; [reflexivity|].
  pose proof (lookup_lt_Some _ _ _ Ej) as Hlt. cbn [nodes set_nodes] in Hsibs. split.
  - apply length_insert.
  - intros k m Em. destruct (decide (k = j)) as [->|Hne].
    + rewrite list_lookup_insert_eq by exact Hlt. eexists. split; [reflexivity|].
      replace m with nj by congruence. repeat split.
    + rewrite list_lookup_insert_ne by congruence. exists m. repeat split. exact Em.
  - intros q m' Hq Em'. destruct (tree_node _ _ _ Ht Hq) as [m Em].
    assert (Hch : child m' = child m).
    { destruct (decide (q = j)) as [->|Hne].
      - rewrite list_lookup_insert_eq in Em' by exact Hlt. injection Em' as <-. replace m with nj by congruence. reflexivity.
      - rewrite list_lookup_insert_ne in Em' by congruence. congruence. }
    destruct (decide (q = p)) as [->|Hne].
    + rewrite Hch. replace m with pn by congruence. exact Hsibs.
    + apply (other_kids s kids i p _ q Ht Hi Hne Hq) with (m := m); [|exact Em|exact Em'|exact Hch].
      intros k mk Hk Ek. exists mk. split; [|reflexivity]. rewrite list_lookup_insert_ne; [exact Ek|].
      intros ->. exact (Hne (kids_unique _ _ _ _ _ Ht Hk Hj)).
Qed.

Lemma NoDup_map_filter {A} (f : nat -> A) (i : nat) l :
  NoDup (map f l) -> NoDup (map f (filter (fun k => k <> i) l)).
Proof.
  intros Hnd. apply (sublist_NoDup _ _ Hnd). apply (fmap_sublist f). apply sublist_filter.
Qed.

(** ** What [vfs_unlink] leaves *)
Definition drop_kid (kids : nat -> list nat) (i : nat) : nat -> list nat :=
  fun q => filter (fun k => k <> i) (kids q).

Record removed s s' (kids : nat -> list nat) (i : nat) : Prop := {
  rm_tree : tree s' (drop_kid kids i);
  rm_store : store s';
  rm_count : node_count s' = node_count s;
  rm_node : forall j n, nodes s !! j = Some n -> exists n', nodes s' !! j = Some n' /\
    type n' = type n /\ parent n' = parent n /\ (j <> i -> name n' = name n);
  rm_bytes : forall j, (j < count s)%nat -> j <> i -> file_bytes s' j = file_bytes s j;
  rm_name : name_at (nodes s') i = [];
  rm_cwd : cwd s' = cwd s
}.

Lemma removed_tree s kids i ns' bl (h : H) :
  tree s kids -> i <> 0%nat -> length ns' = length (nodes s) ->
  (forall j n, nodes s !! j = Some n -> exists n', ns' !! j = Some n' /\
    type n' = type n /\ parent n' = parent n /\ length (name n') = length (name n) /\ (j <> i -> name n' = name n)) ->
  (forall q m', (q < count s)%nat -> ns' !! q = Some m' -> sibs ns' (child m') (drop_kid kids i q)) ->
  tree (mk_vfs ns' (node_count s) (root s) (cwd s) bl h) (drop_kid kids i).
Proof.
  intros Ht Hi0 Hlen Hn Hk.
  assert (Hb : forall j n', (j < count s)%nat -> ns' !! j = Some n' -> exists n, nodes s !! j = Some n /\
    type n' = type n /\ parent n' = parent n /\ length (name n') = length (name n)).
  { intros j n' Hj En'. destruct (tree_node _ _ _ Ht Hj) as [n En]. exists n. split; [exact En|].
    destruct (Hn j n En) as (n2 & En2 & Hty & Hp & Hl & _). replace n' with n2 by congruence. auto. }
  assert (Hsub : forall q j, j ∈ drop_kid kids i q -> j <> i /\ j ∈ kids q)
    by (intros q j; unfold drop_kid; rewrite list_elem_of_filter; tauto).
  split; cbn [nodes node_count root].
  - rewrite Hlen. apply Ht.
  - apply Ht.
  - apply Ht.
  - destruct (t_top _ _ Ht) as (n & En & Hty & Hp). destruct (Hn _ _ En) as (n' & En' & Ht' & Hp' & _).
    exists n'. split; [exact En'|]. split; congruence.
  - exact Hk.
  - intros q j Hj. destruct (Hsub q j Hj) as [Hji Hin]. destruct (t_parent _ _ Ht q j Hin) as [Hlt (n & En & Hp)].
    split; [exact Hlt|]. destruct (Hn j n En) as (n' & En' & _ & Hp' & _). exists n'. split; [exact En'|congruence].
  - intros q j Hj. destruct (Hsub q j Hj) as [Hji Hin]. destruct (t_dir _ _ Ht q j Hin) as (n & En & Hty).
    destruct (Hn q n En) as (n' & En' & Hty' & _). exists n'. split; [exact En'|congruence].
  - intros q. apply (sublist_NoDup _ _ (t_nodup _ _ Ht q)), sublist_filter.
  - intros q. rewrite (map_ext_in _ (name_at (nodes s))).
    + apply NoDup_map_filter, Ht.
    + intros j Hj. apply list_elem_of_In in Hj. destruct (Hsub q j Hj) as [Hji Hin].
      destruct (t_parent _ _ Ht q j Hin) as [_ (n & En & _)]. destruct (Hn j n En) as (n' & En' & _ & _ & _ & Hnm).
      rewrite (name_at_Some _ _ _ En), (name_at_Some _ _ _ En'). unfold nm. rewrite Hnm by exact Hji. reflexivity.
  - intros j n' q Hj En' Hp'. destruct (Hb j n' Hj En') as (n & En & _ & Hp & _).
    apply (t_up _ _ Ht j n q Hj En). congruence.
  - intros j n' Hj En'. destruct (Hb j n' Hj En') as (n & En & _ & _ & ->). exact (t_name _ _ Ht j n Hj En).
Qed.

(** The heap, the blocks and the nodes after node [i] has given up its content. *)
Lemma freed_store s i ni ns' h nm0 :
  store s -> (i < count s)%nat -> nodes s !! i = Some ni ->
  (forall j n, nodes s !! j = Some n -> exists n', ns' !! j = Some n' /\ size n' = size n /\ data n' = data n) ->
  (forall j n', ns' !! j = Some n' -> exists n, nodes s !! j = Some n /\ size n' = size n /\ data n' = data n) ->
  ba_ok h -> rooms_kept (heap s) h ->
  (forall q, ba_live h q <-> ba_live (heap s) q /\ (data ni = 0 \/ q <> data ni)) ->
  forall n1, ns' !! i = Some n1 ->
  let s' := mk_vfs (<[i := set_name nm0 (set_content 0 0 n1)]> ns') (node_count s) (root s) (cwd s)
              (if negb (data ni =? 0) then delete (data ni) (blocks s) else blocks s) h in
  store s' /\ forall j, (j < count s)%nat -> j <> i -> file_bytes s' j = file_bytes s j.
Proof.
  intros Hs Hi Ei Hf Hb Hok Hkept Hlive n1 E1 s'. pose proof (lookup_lt_Some _ _ _ E1) as Hlt.
  assert (Hother : forall j n', j <> i -> nodes s' !! j = Some n' ->
            exists n, nodes s !! j = Some n /\ size n' = size n /\ data n' = data n).
  { intros j n' Hne E. cbn [nodes s'] in E. rewrite list_lookup_insert_ne in E by congruence. exact (Hb j n' E). }
  assert (Hself : forall n', nodes s' !! i = Some n' -> size n' = 0 /\ data n' = 0).
  { intros n' E. cbn [nodes s'] in E. rewrite list_lookup_insert_eq in E by exact Hlt. injection E as <-. auto. }
  assert (Hkeep : forall j n, (j < count s)%nat -> j <> i -> nodes s !! j = Some n -> data n <> 0 ->
            (data ni = 0 \/ data n <> data ni) /\ blocks s' !! data n = blocks s !! data n).
  { intros j n Hj Hne En Hd. assert (Hni : data ni = 0 \/ data n <> data ni).
    { destruct (Z.eq_dec (data ni) 0) as [|Hz]; [auto|]. right. intros E. apply Hne.
      exact (st_inj _ Hs j i n ni Hj Hi En Ei Hd E). }
    split; [exact Hni|]. cbn [blocks s']. destruct (Z.eqb_spec (data ni) 0); [reflexivity|].
    cbn [negb]. apply lookup_delete_ne. destruct Hni; congruence. }
  split; [split|].
  - exact Hok.
  - intros j n' Hj E. destruct (decide (j = i)) as [->|Hne].
    + destruct (Hself n' E) as [-> ->]. lia.
    + destruct (Hother j n' Hne E) as (n & En & -> & ->). exact (st_size _ Hs j n Hj En).
  - intros j n' Hj E Hd. destruct (decide (j = i)) as [->|Hne]; [destruct (Hself n' E); congruence|].
    destruct (Hother j n' Hne E) as (n & En & Hsz & Hdt). rewrite Hdt in *. rewrite Hsz.
    destruct (Hkeep j n Hj Hne En Hd) as [Hni ->]. destruct (st_data _ Hs j n Hj En Hd) as [Hl Hbk].
    assert (Hl' : ba_live h (data n)) by (apply Hlive; auto).
    split; [exact Hl'|]. cbn [heap s']. rewrite (Hkept _ Hl Hl'). exact Hbk.
  - intros j k n' m' Hj Hk E1' E2' Hd Heq. destruct (decide (j = i)) as [->|Hji]; [destruct (Hself n' E1'); congruence|].
    destruct (decide (k = i)) as [->|Hki]; [destruct (Hself m' E2'); congruence|].
    destruct (Hother j n' Hji E1') as (n & En & _ & Hdn). destruct (Hother k m' Hki E2') as (m & Em & _ & Hdm).
    apply (st_inj _ Hs j k n m Hj Hk En Em); congruence.
  - intros j Hj Hne. unfold file_bytes. cbn [nodes s']. rewrite list_lookup_insert_ne by congruence.
    destruct (nodes s !! j) as [n|] eqn:En.
    + destruct (Hf j n En) as (n' & -> & Hsz & ->). rewrite Hsz.
      destruct (Z.eqb_spec (data n) 0) as [E0|E0].
      * destruct (blocks s' !! data n), (blocks s !! data n); reflexivity.
      * destruct (Hkeep j n Hj Hne En E0) as [_ ->]. reflexivity.
    + destruct (ns' !! j) as [n'|] eqn:En'; [|reflexivity]. destruct (Hb j n' En') as (n & En2 & _). congruence.
Qed.

(** The two nodes tables of [freed_store] and [removed_tree]. *)
Lemma detached_back ns ns' n kids i :
  detached ns ns' n kids i -> forall j m', ns' !! j = Some m' ->
  exists m, ns !! j = Some m /\ name m' = name m /\ type m' = type m /\ parent m' = parent m /\
    size m' = size m /\ data m' = data m.
Proof.
  intros Hd j m' Em'. pose proof (lookup_lt_Some _ _ _ Em') as Hj. rewrite (dt_len _ _ _ _ _ Hd) in Hj.
  destruct (lookup_lt_is_Some_2 _ _ Hj) as [m Em]. exists m. split; [exact Em|].
  destruct (dt_node _ _ _ _ _ Hd j m Em) as (m2 & Em2 & Hr). replace m' with m2 by congruence. exact Hr.
Qed.

(** The end of [vfs_unlink], once the node is out of its siblings. *)
Lemma clear_returns s kids i ni ns' :
  tree s kids -> store s -> i <> 0%nat -> (i < count s)%nat -> nodes s !! i = Some ni ->
  detached (nodes s) ns' (count s) kids i ->
  let s1 := set_nodes ns' s in
  returns (n1 ← node_at s1 i;
    h ← (if negb (data n1 =? 0) then ba_free (heap s1) (data n1) else mret (heap s1));
    nm ← arr_set (name n1) 0 0;
    mret (0, mk_vfs (<[i := set_name nm (set_content 0 0 n1)]> (nodes s1)) (node_count s1) (root s1) (cwd s1)
               (if negb (data n1 =? 0) then delete (data n1) (blocks s1) else blocks s1) h))
  (fun '(r, s') => r = 0 /\ removed s s' kids i).
Proof.
  intros Ht Hs Hi0 Hi Ei Hd s1. destruct (dt_node _ _ _ _ _ Hd i ni Ei) as (n1 & E1 & Hnm & Hty & Hpar & Hsz & Hdt).
  assert (E1' : nodes s1 !! i = Some n1) by exact E1. rewrite (node_at_Done _ _ _ E1'), bind_Done. cbv zeta.
  rewrite Hdt. assert (Hfree : returns (if negb (data ni =? 0) then ba_free (heap s1) (data ni) else mret (heap s1))
     (fun h => ba_ok h /\ rooms_kept (heap s) h /\
        forall q, ba_live h q <-> ba_live (heap s) q /\ (data ni = 0 \/ q <> data ni))).
  { destruct (Z.eqb_spec (data ni) 0) as [E0|E0]; cbn [negb].
    - apply returns_Done. split; [apply Hs|]. split; [intros q _ _; reflexivity|]. intros q. cbn [heap s1 set_nodes]. tauto.
    - destruct (st_data _ Hs i ni Hi Ei E0) as (Hl & _).
      eapply returns_mono; [apply (ba_free_post (heap s) (data ni) (st_ok _ Hs) Hl)|].
      intros h (Hok & Hk & Hl'). split; [exact Hok|]. split; [exact Hk|]. intros q. rewrite Hl'. tauto. }
  destruct Hfree as (h & -> & Hok & Hkept & Hlive). rewrite bind_Done.
  rewrite arr_set_Done by (rewrite Hnm, (t_name _ _ Ht i ni Hi Ei); lia). rewrite bind_Done.
  apply returns_Done. split; [reflexivity|].
  pose proof (freed_store s i ni ns' h (<[Z.to_nat 0 := 0]> (name n1)) Hs Hi Ei) as Hfs.
  assert (Hfwd : forall j n, nodes s !! j = Some n ->
            exists n', ns' !! j = Some n' /\ size n' = size n /\ data n' = data n).
  { intros j n En. destruct (dt_node _ _ _ _ _ Hd j n En) as (n' & En' & _ & _ & _ & ? & ?). eauto. }
  assert (Hbwd : forall j n', ns' !! j = Some n' ->
            exists n, nodes s !! j = Some n /\ size n' = size n /\ data n' = data n).
  { intros j n' En'. destruct (detached_back _ _ _ _ _ Hd j n' En') as (n & En & _ & _ & _ & ? & ?). eauto. }
  destruct (Hfs Hfwd Hbwd Hok Hkept Hlive n1 E1) as [Hst Hby].
  set (nn := set_name (<[Z.to_nat 0 := 0]> (name n1)) (set_content 0 0 n1)) in *.
  pose proof (lookup_lt_Some _ _ _ E1) as Hlt.
  assert (Hnode : forall j n, nodes s !! j = Some n -> exists n', <[i := nn]> ns' !! j = Some n' /\
    type n' = type n /\ parent n' = parent n /\ length (name n') = length (name n) /\ (j <> i -> name n' = name n)).
  { intros j n En. destruct (decide (j = i)) as [->|Hne].
    - exists nn. replace n with ni by congruence. rewrite list_lookup_insert_eq by exact Hlt.
      cbn [nn type parent name set_name set_content]. rewrite length_insert. repeat split; congruence.
    - rewrite list_lookup_insert_ne by congruence. destruct (dt_node _ _ _ _ _ Hd j n En) as (n' & En' & Hn1 & Hn2 & Hn3 & _).
      exists n'. repeat split; congruence. }
  split; [|exact Hst|reflexivity| |exact Hby| |reflexivity].
  - apply (removed_tree s); [exact Ht|exact Hi0|rewrite length_insert; apply Hd|exact Hnode|].
    assert (Hsib : forall k m, ns' !! k = Some m -> exists m', <[i := nn]> ns' !! k = Some m' /\ sibling m' = sibling m).
    { intros k m Em. destruct (decide (k = i)) as [->|Hne].
      - exists nn. rewrite list_lookup_insert_eq by exact Hlt. split; [reflexivity|]. replace m with n1 by congruence. reflexivity.
      - rewrite list_lookup_insert_ne by congruence. eauto. }
    intros q m' Hq Em'. apply (sibs_frame ns'); [|intros; apply Hsib; assumption].
    destruct (decide (q = i)) as [->|Hne].
    + rewrite list_lookup_insert_eq in Em' by exact Hlt. injection Em' as <-.
      change (child nn) with (child n1). exact (dt_kids _ _ _ _ _ Hd i n1 Hq E1).
    + rewrite list_lookup_insert_ne in Em' by congruence. exact (dt_kids _ _ _ _ _ Hd q m' Hq Em').
  - intros j n En. destruct (Hnode j n En) as (n' & En' & ? & ? & _ & ?). eauto.
  - unfold name_at. cbn [nodes]. rewrite list_lookup_insert_eq by exact Hlt. unfold nn, nm. cbn [name set_name].
    pose proof (t_name _ _ Ht i ni Hi Ei) as Hl. rewrite <- Hnm in Hl. destruct (name n1); [discriminate|reflexivity].
Qed.

Lemma vfs_unlink_returns s kids path i :
  tree s kids -> store s -> absolute path -> walk s kids 0 (components (drop 1 path)) = Some i -> i <> 0%nat ->
  returns (vfs_unlink s path) (fun '(r, s') => r = 0 /\ removed s s' kids i).
Proof.
  intros Ht Hs Ha Hw Hi0. unfold vfs_unlink. rewrite (resolve_absolute s kids path Ht Ha), bind_Done, Hw.
  rewrite (t_root _ _ Ht). rewrite bool_decide_false by congruence.
  pose proof (walk_linked s kids _ 0 i Ht (linked_root kids) Hw) as Hl.
  destruct (linked_parent _ _ _ Ht Hl Hi0) as (p & n & _ & Hin & En & Epar).
  destruct (t_parent _ _ Ht p i Hin) as [[Hpi Hi] _].
  rewrite (node_at_Done _ _ _ En), bind_Done, Epar.
  destruct (tree_node _ _ p Ht ltac:(lia)) as [pn Ep]. rewrite (node_at_Done _ _ _ Ep), bind_Done.
  destruct (bool_decide (child pn = Some i)) eqn:Ec.
  - apply bool_decide_eq_true in Ec. rewrite (upd_node_Done _ _ _ _ Ep), bind_Done.
    apply (clear_returns s kids i n _ Ht Hs Hi0 Hi En). exact (detach_first s kids i p pn n Ht Hin Ep En Ec).
  - apply bool_decide_eq_false in Ec.
    destruct (detach_later s kids i p pn n Ht Hin Ep En Ec) as (s1 & -> & ns' & -> & Hd). rewrite bind_Done.
    exact (clear_returns s kids i n _ Ht Hs Hi0 Hi En Hd).
Qed.

(** ** Walks after a removal: a walk that meets the removed node fails there, any
    other goes on as before. *)
Lemma find_filter (f g : nat -> list Z) (x : list Z) (i : nat) l :
  (forall k, k ∈ l -> k <> i -> f k = g k) -> NoDup (map g l) ->
  List.find (fun k => bool_decide (f k = x)) (filter (fun k => k <> i) l) =
  match List.find (fun k => bool_decide (g k = x)) l with
  | Some k => if decide (k = i) then None else Some k
  | None => None
  end.
Proof.
  intros Hfg Hnd. induction l as [|a l IH]; [reflexivity|]. cbn [map] in Hnd. apply NoDup_cons in Hnd as [Ha Hnd].
  assert (IH' := IH (fun k Hk => Hfg k ltac:(right; exact Hk)) Hnd). clear IH. cbn [List.find].
  destruct (decide (a = i)) as [->|Hne].
  - rewrite filter_cons_False by tauto. destruct (bool_decide (g i = x)) eqn:E; [|exact IH'].
    apply bool_decide_eq_true in E. rewrite decide_True by reflexivity. rewrite IH'.
    destruct (List.find _ l) as [k|] eqn:Ef; [|reflexivity].
    apply List.find_some in Ef as [Hk HQ]. apply bool_decide_eq_true in HQ. exfalso. apply Ha. rewrite E, <- HQ.
    apply list_elem_of_fmap. exists k. split; [reflexivity|]. apply list_elem_of_In. exact Hk.
  - rewrite filter_cons_True by exact Hne. cbn [List.find]. rewrite (Hfg a) by (first [left|exact Hne]).
    destruct (bool_decide _); [rewrite decide_False by exact Hne; reflexivity|exact IH'].
Qed.

Lemma linked_drop kids i j : i <> 0%nat -> linked (drop_kid kids i) j -> j <> i.
Proof.
  intros Hi0 Hl. destruct Hl as [|p j _ Hj]; [congruence|]. apply list_elem_of_filter in Hj as [? _]. assumption.
Qed.

Lemma removed_step s s' kids i cur x :
  tree s kids -> removed s s' kids i -> i <> 0%nat -> linked (drop_kid kids i) cur ->
  walk_step s' (drop_kid kids i) cur x =
  match walk_step s kids cur x with Some c => if decide (c = i) then None else Some c | None => None end.
Proof.
  intros Ht Hr Hi0 Hl. pose proof (linked_drop _ _ _ Hi0 Hl) as Hci.
  pose proof (linked_below _ _ _ (rm_tree _ _ _ _ Hr) Hl) as Hlt.
  unfold count in Hlt. rewrite (rm_count _ _ _ _ Hr) in Hlt. fold (count s) in Hlt.
  unfold walk_step. destruct (bool_decide (x = chars ".")); [rewrite decide_False by exact Hci; reflexivity|].
  destruct (bool_decide (x = chars "..")).
  - destruct (tree_node _ _ _ Ht Hlt) as [n En]. rewrite En.
    destruct (rm_node _ _ _ _ Hr cur n En) as (n' & -> & _ & -> & _). rewrite decide_False; [reflexivity|].
    destruct Hl as [|p j Hp Hj].
    + rewrite (top_node _ _ _ Ht En). exact Hci.
    + apply list_elem_of_filter in Hj as [_ Hj]. destruct (t_parent _ _ Ht p j Hj) as [_ (m & Em & Epar)].
      replace n with m by congruence. rewrite Epar. exact (linked_drop _ _ _ Hi0 Hp).
  - unfold lookup_child. apply find_filter; [|apply (t_names _ _ Ht cur)].
    intros k Hk Hne. destruct (t_parent _ _ Ht cur k Hk) as [_ (n & En & _)].
    destruct (rm_node _ _ _ _ Hr k n En) as (n' & En' & _ & _ & Hnm).
    rewrite (name_at_Some _ _ _ En), (name_at_Some _ _ _ En'). unfold nm. rewrite Hnm by exact Hne. reflexivity.
Qed.

(** Does the walk along [parts] from [cur] meet node [i]? *)
Fixpoint meets s (kids : nat -> list nat) (i cur : nat) (parts : list (list Z)) : bool :=
  (cur =? i)%nat ||
  match parts with
  | [] => false
  | x :: r => match walk_step s kids cur x with Some c => meets s kids i c r | None => false end
  end.

Lemma removed_walk s s' kids i : tree s kids -> removed s s' kids i -> i <> 0%nat ->
  forall parts cur, linked (drop_kid kids i) cur ->
  walk s' (drop_kid kids i) cur parts = if meets s kids i cur parts then None else walk s kids cur parts.
Proof.
  intros Ht Hr Hi0. induction parts as [|x parts IH]; intros cur Hl; cbn [walk meets];
    pose proof (linked_drop _ _ _ Hi0 Hl) as Hci; destruct (Nat.eqb_spec cur i) as [|_]; try congruence; cbn [orb].
  { reflexivity. }
  rewrite (removed_step _ _ _ _ _ _ Ht Hr Hi0 Hl).
  destruct (walk_step s kids cur x) as [c|] eqn:E; [|reflexivity]. destruct (decide (c = i)) as [->|Hne].
  - destruct parts; cbn [meets]; rewrite Nat.eqb_refl; reflexivity.
  - apply IH. apply (step_linked s' _ cur x c (rm_tree _ _ _ _ Hr) Hl).
    rewrite (removed_step _ _ _ _ _ _ Ht Hr Hi0 Hl), E. rewrite decide_False by exact Hne. reflexivity.
Qed.

Lemma meets_end s kids i parts : forall cur, walk s kids cur parts = Some i -> meets s kids i cur parts = true.
Proof.
  induction parts as [|x parts IH]; intros cur; cbn [walk meets].
  - intros [= ->]. rewrite Nat.eqb_refl. reflexivity.
  - destruct (walk_step s kids cur x) as [c|]; [|discriminate]. intros Hw. rewrite (IH c Hw). apply orb_true_r.
Qed.
End Removal.

(** ** Creating, writing and copying *)
Section Changes.
Context {H : Type} `{BlockAllocLaws H}.
Implicit Types s : @vfs H.

(** The path of a directory, [] for the root as in [join]. *)
Definition dir_path (dir : list Z) : list Z := if bool_decide (dir = []) then chars "/" else dir.

Lemma resolve_dir s kids dir :
  tree s kids -> dir_ok dir -> str_ok dir -> (length dir <= 255)%nat ->
  vfs_resolve s (dir_path dir) = Done (walk s kids 0 (components (drop 1 dir))).
Proof.
  intros Ht Hd Ho Hl. unfold dir_path. case_bool_decide as E.
  - subst dir. rewrite (resolve_absolute s kids); [reflexivity|exact Ht|].
    split; [reflexivity|]. split; [vm_compute; lia|apply dots_ok || (vm_compute; repeat constructor; discriminate)].
  - apply resolve_absolute; [exact Ht|]. destruct Hd as [|Hd]; [congruence|]. split; [exact Hd|auto].
Qed.

Lemma added_store s s' kids p leaf ty md :
  tree s kids -> store s -> (p < count s)%nat -> added s s' p (count s) leaf ty md ->
  store s' /\ (forall j, (j < count s)%nat -> file_bytes s' j = file_bytes s j) /\
  file_bytes s' (count s) = [].
Proof.
  intros Ht Hs Hp Ha. pose proof (t_count _ _ Ht) as Hcount.
  pose proof (added_count _ _ _ _ _ _ _ Ha ltac:(lia)) as Hc'.
  destruct (ad_rest _ _ _ _ _ _ _ Ha) as (_ & _ & Hbl & Hh).
  destruct (ad_new _ _ _ _ _ _ _ Ha) as (pn & Epn & Ep' & Ei').
  assert (Hback : forall j n', (j < count s')%nat -> nodes s' !! j = Some n' ->
            (j = count s /\ size n' = 0 /\ data n' = 0) \/
            ((j < count s)%nat /\ exists n, nodes s !! j = Some n /\ size n' = size n /\ data n' = data n)).
  { intros j n' Hj En'. destruct (decide (j = count s)) as [->|Hne].
    - left. rewrite Ei' in En'. injection En' as <-. auto.
    - right. split; [lia|]. destruct (decide (j = p)) as [->|Hjp].
      + exists pn. rewrite Ep' in En'. injection En' as <-. auto.
      + exists n'. rewrite (ad_same _ _ _ _ _ _ _ Ha) in En' by assumption. auto. }
  split; [split|split].
  - rewrite Hh. apply Hs.
  - intros j n' Hj En'. destruct (Hback j n' Hj En') as [(_ & -> & ->)|(Hlt & n & En & -> & ->)]; [lia|].
    exact (st_size _ Hs j n Hlt En).
  - intros j n' Hj En' Hd. destruct (Hback j n' Hj En') as [(_ & _ & ?)|(Hlt & n & En & Hsz & Hdt)]; [congruence|].
    rewrite Hh, Hbl, Hsz, Hdt in *. exact (st_data _ Hs j n Hlt En Hd).
  - intros j k n' m' Hj Hk En' Em' Hd E.
    destruct (Hback j n' Hj En') as [(_ & _ & ?)|(Hltj & n & En & _ & Hdn)]; [congruence|].
    destruct (Hback k m' Hk Em') as [(_ & _ & ?)|(Hltk & m & Em & _ & Hdm)]; [congruence|].
    apply (st_inj _ Hs j k n m); congruence.
  - intros j Hj. unfold file_bytes. destruct (tree_node _ _ _ Ht Hj) as [n En]. rewrite En, Hbl.
    destruct (decide (j = p)) as [->|Hjp].
    + rewrite Ep'. replace n with pn by congruence. reflexivity.
    + rewrite (ad_same _ _ _ _ _ _ _ Ha) by lia. rewrite En. reflexivity.
  - unfold file_bytes. rewrite Ei'. cbn [data set_sibling set_parent set_links new_node].
    destruct (blocks s' !! 0); reflexivity.
Qed.

(** Walks depend on the names and the parents only. *)
Lemma walk_same s s' kids :
  tree s kids ->
  (forall j m, nodes s !! j = Some m -> exists m', nodes s' !! j = Some m' /\ parent m' = parent m) ->
  (forall j, name_at (nodes s') j = name_at (nodes s) j) ->
  forall parts cur, (cur < count s)%nat -> walk s' kids cur parts = walk s kids cur parts.
Proof.
  intros Ht Hn Hnm. induction parts as [|x parts IH]; intros cur Hc; [reflexivity|]. cbn [walk].
  assert (E : walk_step s' kids cur x = walk_step s kids cur x).
  { unfold walk_step. destruct (tree_node _ _ _ Ht Hc) as [n En]. destruct (Hn cur n En) as (n' & En' & Hp).
    rewrite En, En', Hp. unfold lookup_child.
    replace (List.find _ (kids cur)) with (List.find (fun j => bool_decide (name_at (nodes s) j = x)) (kids cur));
      [reflexivity|]. clear -Hnm. induction (kids cur) as [|a l IHl]; [reflexivity|]. cbn [List.find].
    rewrite Hnm, IHl. reflexivity. }
  rewrite E. destruct (walk_step s kids cur x) as [c|] eqn:Ec; [|reflexivity].
  apply IH. exact (walk_step_valid _ _ _ _ _ Ht Hc Ec).
Qed.

(** [s'] has the tree of [s] and the bytes of every file but [i]'s. *)
Record same_tree s s' (kids : nat -> list nat) (i : nat) : Prop := {
  sm_tree : tree s' kids;
  sm_store : store s';
  sm_count : node_count s' = node_count s;
  sm_node : forall j m, nodes s !! j = Some m -> exists m', nodes s' !! j = Some m' /\
    same_node m m' /\ (j <> i -> m' = m);
  sm_resolve : forall q, absolute q -> vfs_resolve s' q = vfs_resolve s q;
  sm_bytes : forall j, (j < count s)%nat -> j <> i -> file_bytes s' j = file_bytes s j;
  sm_cwd : cwd s' = cwd s
}.

Lemma written_same s s' kids i buf :
  tree s kids -> written s s' i buf -> same_tree s s' kids i.
Proof.
  intros Ht Hw. assert (Ht' : tree s' kids) by (apply (wr_tree _ _ _ _ Hw), Ht).
  split; [exact Ht'|apply Hw|apply Hw| | |apply Hw|apply Hw].
  - apply (wr_nodes _ _ _ _ Hw).
  - intros q Hq. rewrite (resolve_absolute s kids), (resolve_absolute s' kids) by assumption. f_equal.
    apply (walk_same s s' kids Ht); [|apply Hw|pose proof (t_count _ _ Ht); unfold count; lia].
    intros j m Em. destruct (wr_nodes _ _ _ _ Hw j m Em) as (m' & Em' & (_ & _ & _ & Hp) & _). eauto.
Qed.

Lemma heap_tree s kids (h : H) :
  tree s kids -> tree (mk_vfs (nodes s) (node_count s) (root s) (cwd s) (blocks s) h) kids.
Proof. intros [? ? ? ? ? ? ? ? ? ? ?]. split; assumption. Qed.

Lemma heap_same s kids i (h : H) :
  let s' := mk_vfs (nodes s) (node_count s) (root s) (cwd s) (blocks s) h in
  tree s kids -> store s' -> same_tree s s' kids i.
Proof.
  intros s' Ht Hs. pose proof (heap_tree s kids h Ht) as Ht'.
  split; [exact Ht'|exact Hs|reflexivity| | |reflexivity|reflexivity].
  - intros j m Em. exists m. repeat split. exact Em.
  - intros q Hq. rewrite (resolve_absolute s kids), (resolve_absolute s' kids) by assumption. f_equal.
    apply (walk_same s s' kids Ht); [eauto|reflexivity|pose proof (t_count _ _ Ht); unfold count; lia].
Qed.

Lemma same_tree_refl s kids i : tree s kids -> store s -> same_tree s s kids i.
Proof.
  intros Ht Hs. split; auto. intros j m Em. exists m. repeat split. exact Em.
Qed.

(** [vfs_write] on any node: the length, or -1 and nothing written. *)
Lemma vfs_write_same s kids i n buf sz :
  tree s kids -> store s -> (i < count s)%nat -> nodes s !! i = Some n ->
  0 <= sz <= Z.of_nat (length buf) -> sz < 2 ^ 62 ->
  returns (vfs_write s (Some i) buf sz) (fun '(r, s') => same_tree s s' kids i /\
    (type n = VFS_FILE /\ r = i32 sz /\ file_bytes s' i = take (Z.to_nat sz) buf \/
     r = -1 /\ file_bytes s' i = file_bytes s i)).
Proof.
  intros Ht Hs Hi En Hsz Hmax. destruct (decide (type n = VFS_FILE)) as [Hty|Hty].
  - eapply returns_mono; [apply (vfs_write_returns s i n buf sz Hs Hi En Hty Hsz Hmax)|].
    intros (r & s') [[-> Hw]|(-> & h & -> & Hst)].
    + split; [exact (written_same _ _ _ _ _ Ht Hw)|]. left. split; [exact Hty|]. split; [reflexivity|apply Hw].
    + split; [exact (heap_same s kids i h Ht Hst)|]. right. auto.
  - unfold vfs_write. rewrite (node_at_Done _ _ _ En), bind_Done. destruct (Z.eqb_spec (type n) VFS_FILE); [congruence|].
    apply returns_Done. split; [exact (same_tree_refl _ _ _ Ht Hs)|auto].
Qed.

Lemma file_bytes_length s i n :
  store s -> (i < count s)%nat -> nodes s !! i = Some n -> Z.of_nat (length (file_bytes s i)) = size n.
Proof.
  intros Hs Hi En. unfold file_bytes. rewrite En. destruct (st_size _ Hs i n Hi En) as [Hge Hz].
  destruct (Z.eqb_spec (data n) 0) as [E|E].
  - rewrite (Hz E). destruct (blocks s !! data n); reflexivity.
  - destruct (st_data _ Hs i n Hi En E) as (_ & b & -> & Hb). rewrite length_take. lia.
Qed.

(** What the path of a new or existing node gives. *)
Lemma vfs_add_resolve s kids dir leaf ty md p :
  tree s kids -> store s -> dir_ok dir -> str_ok dir -> proper leaf -> (length (join dir leaf) <= 255)%nat ->
  walk s kids 0 (components (drop 1 dir)) = Some p -> (p < count s)%nat ->
  (exists pn, nodes s !! p = Some pn /\ type pn = VFS_DIR) ->
  returns (vfs_add ty s (join dir leaf) md) (fun '(r, s') =>
    exists kids', tree s' kids' /\ store s' /\
      (forall q j, absolute q -> vfs_resolve s q = Done (Some j) -> vfs_resolve s' q = Done (Some j)) /\
      (forall j, (j < count s)%nat -> file_bytes s' j = file_bytes s j) /\
      (forall j n, (j < count s)%nat -> nodes s !! j = Some n -> type n <> VFS_DIR -> nodes s' !! j = Some n) /\
      match r with
      | Some i => (i < count s')%nat /\ vfs_resolve s' (join dir leaf) = Done (Some i) /\
          (s' = s /\ lookup_child s kids p leaf = Some i \/
           node_count s' = node_count s + 1 /\ i = count s /\ file_bytes s' i = [] /\
           exists n, nodes s' !! i = Some n /\ type n = ty /\ nm n = leaf)
      | None => node_count s = 256 /\ s' = s
      end).
Proof.
  intros Ht Hs Hd Ho Hp Hl Hw Hlt Hpn. pose proof (t_count _ _ Ht) as Hcount.
  pose proof (fun s0 k (T : tree s0 k) => resolve_join s0 k dir leaf T Hd Ho Hp Hl) as Hrj.
  eapply returns_mono; [exact (vfs_add_returns s kids dir leaf ty md p Ht Hd Ho Hp Hl Hw Hlt Hpn)|].
  intros [r s']. destruct (lookup_child s kids p leaf) as [i|] eqn:El.
  { intros [-> ->]. exists kids. split; [exact Ht|]. split; [exact Hs|]. split; [auto|]. split; [auto|].
    split; [auto|]. pose proof (lookup_child_Some _ _ _ _ _ El) as [Hin _].
    split; [exact (kids_below _ _ _ _ Ht Hin)|]. split; [|auto]. rewrite (Hrj s kids Ht), Hw, El. reflexivity. }
  destruct (Z.ltb_spec (node_count s) 256) as [Hc|Hc].
  2:{ intros [-> ->]. exists kids. repeat (split; [auto; fail|]). split; [lia|reflexivity]. }
  intros (-> & Ha & Ht'). set (kids' := add_kid kids p (count s)) in *.
  pose proof (added_walk s s' kids p leaf ty md Ht Hp El Ha) as Hmono. fold kids' in Hmono.
  destruct (added_store s s' kids p leaf ty md Ht Hs Hlt Ha) as (Hs' & Hb & Hb0).
  pose proof (added_count _ _ _ _ _ _ _ Ha ltac:(lia)) as Hc'.
  destruct (ad_new _ _ _ _ _ _ _ Ha) as (pn & Epn & Ep' & Ei').
  assert (Hroot : (0 < count s)%nat) by (unfold count; lia).
  exists kids'. split; [exact Ht'|]. split; [exact Hs'|]. split; [|split; [exact Hb|split]].
  - intros q j Hq. rewrite (resolve_absolute s kids), (resolve_absolute s' kids') by assumption.
    intros [= Hj]. rewrite (Hmono _ 0%nat j Hroot Hj). reflexivity.
  - intros j n Hj En Hty. destruct Hpn as (pn2 & Epn2 & Hpn2). rewrite (ad_same _ _ _ _ _ _ _ Ha); [exact En|congruence|lia].
  - split; [lia|]. split.
    + rewrite (Hrj s' kids' Ht'), (Hmono _ 0%nat p Hroot Hw). unfold lookup_child, kids', add_kid.
      rewrite decide_True by reflexivity. cbn [List.find]. rewrite (name_at_Some _ _ _ Ei').
      change (nm (set_sibling _ _)) with (nm (new_node leaf ty md)). rewrite new_node_name by apply Hp.
      rewrite bool_decide_true by reflexivity. reflexivity.
    + right. split; [apply Ha|]. split; [reflexivity|]. split; [exact Hb0|]. eexists. split; [exact Ei'|].
      split; [reflexivity|]. exact (new_node_name leaf ty md (pr_ok _ Hp) (pr_len _ Hp)).
Qed.

(** [vfs_copy] of a file that is not empty. *)
Lemma vfs_copy_returns s kids src i n dir leaf p :
  tree s kids -> store s -> absolute src -> walk s kids 0 (components (drop 1 src)) = Some i ->
  nodes s !! i = Some n -> type n = VFS_FILE -> 0 < size n < 2 ^ 31 ->
  dir_ok dir -> str_ok dir -> proper leaf -> (length (join dir leaf) <= 255)%nat ->
  walk s kids 0 (components (drop 1 dir)) = Some p ->
  (exists pn, nodes s !! p = Some pn /\ type pn = VFS_DIR) ->
  returns (vfs_copy s src (join dir leaf)) (fun '(r, s') =>
    vfs_resolve s' src = Done (Some i) /\ file_bytes s' i = file_bytes s i /\
    (r = -1 \/ r = size n /\ exists j, vfs_resolve s' (join dir leaf) = Done (Some j) /\
       file_bytes s' j = file_bytes s i)).
Proof.
  intros Ht Hs Ha Hw En Hty Hsz Hd Ho Hp Hl Hwp Hpn.
  pose proof (linked_below _ _ _ Ht (walk_linked _ _ _ _ _ Ht (linked_root kids) Hw)) as Hi.
  pose proof (linked_below _ _ _ Ht (walk_linked _ _ _ _ _ Ht (linked_root kids) Hwp)) as Hpc.
  pose proof (resolve_absolute s kids src Ht Ha) as Hr. rewrite Hw in Hr.
  unfold vfs_copy. rewrite Hr, bind_Done, (node_at_Done _ _ _ En), bind_Done, Hty.
  change (VFS_FILE =? VFS_FILE) with true. cbn [negb].
  set (md := if negb (mode n =? 0) then mode n else 420).
  destruct (vfs_add_resolve s kids dir leaf VFS_FILE md p Ht Hs Hd Ho Hp Hl Hwp Hpc Hpn)
    as ([r s1] & Ec & kids1 & Ht1 & Hs1 & Hres & Hby & Hnd & Hm).
  unfold vfs_create. rewrite Ec, bind_Done. destruct r as [j|].
  2:{ apply returns_Done. destruct Hm as [_ ->]. auto. }
  destruct Hm as (Hj & Hrj & _).
  assert (En1 : nodes s1 !! i = Some n) by (apply (Hnd i n Hi En); rewrite Hty; discriminate).
  assert (Hi1 : (i < count s1)%nat).
  { pose proof (linked_below s1 kids1 i Ht1) as Hlb. apply Hlb.
    apply (walk_linked s1 kids1 (components (drop 1 src)) 0 i Ht1 (linked_root kids1)).
    pose proof (Hres src i Ha Hr) as E. rewrite (resolve_absolute s1 kids1 src Ht1 Ha) in E. congruence. }
  assert (Hdn : data n <> 0) by (intros E; pose proof (proj2 (st_size _ Hs i n Hi En) E); lia).
  rewrite (node_at_Done _ _ _ En1), bind_Done. destruct (Z.eqb_spec (size n) 0); [lia|].
  destruct (Z.eqb_spec (data n) 0); [lia|]. cbn [negb andb].
  destruct (st_data _ Hs1 i n Hi1 En1 Hdn) as (_ & b & Eb & Hlen). rewrite Eb.
  assert (Hbi : file_bytes s1 i = take (Z.to_nat (size n)) b).
  { unfold file_bytes. rewrite En1, Eb. destruct (Z.eqb_spec (data n) 0); [lia|reflexivity]. }
  destruct (tree_node _ _ _ Ht1 Hj) as [nj Enj].
  eapply returns_mono; [apply (vfs_write_same s1 kids1 j nj b (size n) Ht1 Hs1 Hj Enj); lia|].
  intros (r & s') [Hsm Hw']. rewrite !(sm_resolve _ _ _ _ Hsm) by (first [exact Ha|apply join_absolute; assumption]).
  split; [exact (Hres src i Ha Hr)|]. rewrite <- (Hby i Hi). split.
  - destruct (decide (i = j)) as [->|Hne]; [|exact (sm_bytes _ _ _ _ Hsm i Hi1 Hne)].
    destruct Hw' as [(_ & _ & ->)|(_ & ->)]; [symmetry; exact Hbi|reflexivity].
  - destruct Hw' as [(_ & -> & Hfb)|(-> & _)]; [|auto]. right. split; [apply i32_small; lia|].
    exists j. split; [exact Hrj|]. rewrite Hfb, Hbi. reflexivity.
Qed.
End Changes.

(** ** The properties *)
Section Properties.
Context {H : Type} `{BlockAllocLaws H}.
Implicit Types s : @vfs H.

(** A place for a node: an existing directory and the name of a child. *)
Record place s (dir leaf : list Z) (p : nat) : Prop := {
  pl_dir : dir_ok dir;
  pl_str : str_ok dir;
  pl_leaf : proper leaf;
  pl_len : (length (join dir leaf) <= 255)%nat;
  pl_at : vfs_resolve s (dir_path dir) = Done (Some p);
  pl_type : exists pn, nodes s !! p = Some pn /\ type pn = VFS_DIR
}.

Lemma place_walk s kids dir leaf p :
  tree s kids -> place s dir leaf p -> walk s kids 0 (components (drop 1 dir)) = Some p /\ (p < count s)%nat.
Proof.
  intros Ht [Hd Ho Hp Hl Hat _]. rewrite (resolve_dir s kids) in Hat;
    [|assumption..|unfold join in Hl; rewrite length_app in Hl; lia].
  injection Hat as Hw. split; [exact Hw|].
  exact (linked_below _ _ _ Ht (walk_linked _ _ _ _ _ Ht (linked_root kids) Hw)).
Qed.

Lemma resolve_walk s kids path i :
  tree s kids -> absolute path -> vfs_resolve s path = Done (Some i) ->
  walk s kids 0 (components (drop 1 path)) = Some i /\ (i < count s)%nat.
Proof.
  intros Ht Ha Hr. rewrite (resolve_absolute s kids path Ht Ha) in Hr. injection Hr as Hw.
  split; [exact Hw|]. exact (linked_below _ _ _ Ht (walk_linked _ _ _ _ _ Ht (linked_root kids) Hw)).
Qed.

(** What is behind the last slash. *)
Fixpoint leaf_of (p : list Z) : list Z :=
  match p with
  | [] => []
  | c :: p' => if bool_decide (slash ∈ c :: p') then leaf_of p' else c :: p'
  end.

Lemma leaf_of_app d x : leaf_of (d ++ slash :: x) = leaf_of x.
Proof.
  induction d as [|c d IH]; cbn [app leaf_of].
  - rewrite bool_decide_true by left. reflexivity.
  - rewrite bool_decide_true by (rewrite elem_of_cons, elem_of_app, elem_of_cons; auto). exact IH.
Qed.

Lemma leaf_of_plain x : slash ∉ x -> leaf_of x = x.
Proof. destruct x as [|c x]; [reflexivity|]. intros Hx. cbn [leaf_of]. rewrite bool_decide_false by exact Hx. reflexivity. Qed.

(** Any path, absolute or not, resolves to a node or to none when it fits behind the
    working directory. *)
Lemma normalize_returns s p :
  absolute (cwd s) -> str_ok p -> (length (cwd s) + length p <= 254)%nat ->
  exists q, absolute q /\ normalize_path s p = Done q /\ leaf_of q = leaf_of p /\
    (length q <= S (length (cwd s) + length p))%nat.
Proof.
  intros (Hh & Hl & Ho) Hp Hlen. destruct (decide (head p = Some slash)) as [Eh|Eh].
  { exists p. assert (Ha : absolute p) by (split; [exact Eh|split; [lia|exact Hp]]).
    split; [exact Ha|]. split; [exact (normalize_absolute s p Ha)|]. split; [reflexivity|lia]. }
  unfold normalize_path. rewrite bool_decide_false by exact Eh. rewrite buf_str_ok by (unfold VFS_PATH_MAX; lia).
  rewrite bind_Done. destruct (cwd s) as [|c w] eqn:Ew; [discriminate|].
  destruct (last (c :: w)) as [z|] eqn:El; [|destruct (app_cons_not_nil [] w c); symmetry; exact (proj1 (last_None _) El)].
  set (out := if negb (z =? slash) then (c :: w) ++ [slash] else c :: w).
  assert (Hout : head out = Some slash /\ str_ok out /\ (length out <= S (length (c :: w)))%nat /\ exists d, out = d ++ [slash]).
  { unfold out. destruct (Z.eqb_spec z slash) as [->|_]; cbn [negb].
    - split; [exact Hh|]. split; [exact Ho|]. split; [lia|]. exact (proj1 (last_Some _ _) El).
    - split; [exact Hh|]. split; [apply Forall_app; split; [exact Ho|repeat constructor; discriminate]|].
      split; [rewrite length_app; cbn [length]; lia|eauto]. }
  destruct Hout as (Ho1 & Ho2 & Ho3 & d & Ed). exists (out ++ p). split; [|split; [|split]].
  - split; [destruct out; [discriminate|exact Ho1]|]. rewrite length_app. split; [lia|]. apply Forall_app. auto.
  - replace (if negb (z =? slash) then buf_str VFS_PATH_MAX ((c :: w) ++ [slash]) else mret (c :: w)) with (Done out).
    + rewrite bind_Done. apply buf_str_ok. rewrite length_app. unfold VFS_PATH_MAX. lia.
    + unfold out. destruct (negb _); [|reflexivity]. symmetry. apply buf_str_ok. rewrite length_app. cbn [length] in *.
      unfold VFS_PATH_MAX. lia.
  - rewrite Ed, <- app_assoc. apply leaf_of_app.
  - rewrite length_app. cbn [length] in *. lia.
Qed.

Lemma vfs_resolve_returns s kids p :
  tree s kids -> absolute (cwd s) -> str_ok p -> (length (cwd s) + length p <= 254)%nat ->
  returns (vfs_resolve s p) (fun r => match r with Some i => (i < count s)%nat | None => True end).
Proof.
  intros Ht Hc Hp Hl. destruct (normalize_returns s p Hc Hp Hl) as (q & Ha & Eq & _).
  assert (Er : vfs_resolve s p = vfs_resolve s q)
    by (unfold vfs_resolve; rewrite Eq, (normalize_absolute s q Ha); reflexivity).
  rewrite Er, (resolve_absolute s kids q Ht Ha). apply returns_Done. destruct (walk _ _ _ _) as [i|] eqn:Ew; [|exact I].
  exact (linked_below _ _ _ Ht (walk_linked _ _ _ _ _ Ht (linked_root kids) Ew)).
Qed.

(** [vfs_list] of a directory gives its children, in order. *)
Lemma list_loop s l : forall c acc fuel,
  sibs (nodes s) c l -> (length l < fuel)%nat ->
  loop fuel (fun '(c, acc) =>
    match c with
    | None => mret (inr acc)
    | Some i => m ← node_at s i; mret (inl (sibling m, acc ++ [i]))
    end) (c, acc) = Done (acc ++ l).
Proof.
  induction l as [|i l IH]; intros c acc [|fuel] Hc Hf; cbn [length] in Hf; try lia; rewrite loop_S; cbn [sibs] in Hc.
  - subst c. rewrite app_nil_r. reflexivity.
  - destruct Hc as (-> & n & En & Hc). rewrite (node_at_Done _ _ _ En), !bind_Done.
    rewrite (IH (sibling n) (acc ++ [i]) fuel Hc) by lia. rewrite <- app_assoc. reflexivity.
Qed.

Lemma vfs_list_returns s kids d n :
  tree s kids -> (d < count s)%nat -> nodes s !! d = Some n ->
  vfs_list s (Some d) = Done (if type n =? VFS_DIR then kids d else []).
Proof.
  intros Ht Hd En. unfold vfs_list. rewrite (node_at_Done _ _ _ En), bind_Done. destruct (type n =? VFS_DIR); cbn [negb]; [|reflexivity].
  exact (list_loop s (kids d) (child n) [] _ (t_kids _ _ Ht d n Hd En) (kids_length s kids d Ht)).
Qed.

(** C13: [vfs_mkdir] and [vfs_create] in an existing directory: a node that has the
    name already is returned and nothing changes; else a node of the wanted type,
    with that name and no content, is added and its path resolves to it, and NULL is
    returned only when all 256 nodes are used.  The tree stays well formed, every
    absolute path that resolved still resolves to the same node, and the contents of
    all other nodes are kept. *)
Theorem vfs_add_then_resolve s kids ty md dir leaf p :
  tree s kids -> store s -> place s dir leaf p ->
  returns (vfs_add ty s (join dir leaf) md) (fun '(r, s') =>
    exists kids', tree s' kids' /\ store s' /\
      (forall q j, absolute q -> vfs_resolve s q = Done (Some j) -> vfs_resolve s' q = Done (Some j)) /\
      (forall j, (j < count s)%nat -> file_bytes s' j = file_bytes s j) /\
      match r with
      | Some i => vfs_resolve s' (join dir leaf) = Done (Some i) /\
          (s' = s \/
           vfs_resolve s (join dir leaf) = Done None /\ node_count s' = node_count s + 1 /\
           file_bytes s' i = [] /\ exists n, nodes s' !! i = Some n /\ type n = ty /\ nm n = leaf)
      | None => node_count s = 256 /\ s' = s
      end).
Proof.
  intros Ht Hs Hpl. destruct (place_walk _ _ _ _ _ Ht Hpl) as [Hw Hlt]. destruct Hpl as [Hd Ho Hp Hl _ Hty].
  pose proof (resolve_join s kids dir leaf Ht Hd Ho Hp Hl) as Hrj. rewrite Hw in Hrj.
  eapply returns_mono; [exact (vfs_add_resolve s kids dir leaf ty md p Ht Hs Hd Ho Hp Hl Hw Hlt Hty)|].
  intros [r s'] (kids' & Ht' & Hs' & Hmono & Hb & _ & Hr). exists kids'.
  split; [exact Ht'|]. split; [exact Hs'|]. split; [exact Hmono|]. split; [exact Hb|].
  destruct r as [i|]; [|exact Hr]. destruct Hr as (Hi & Hres & Hcase). split; [exact Hres|].
  destruct Hcase as [(-> & _)|(Hc & -> & Hrest)]; [auto|]. right. split; [|auto].
  rewrite Hrj. destruct (lookup_child s kids p leaf) as [j|] eqn:El; [exfalso|reflexivity].
  pose proof (lookup_child_Some _ _ _ _ _ El) as [Hin _]. pose proof (kids_below _ _ _ _ Ht Hin) as Hjc.
  pose proof (resolve_walk s' kids' _ (count s) Ht' (join_absolute _ _ Hd Ho Hp Hl) Hres) as [Hwn _].
  pose proof (Hmono (join dir leaf) j (join_absolute _ _ Hd Ho Hp Hl) ltac:(rewrite Hrj; exact (f_equal Done eq_refl))).
  assert (Some (count s) = Some j) as [= E] by congruence. lia.
Qed.

(** Every path resolves as before, and every node but [i] reads as before. *)
Definition others_unchanged (s s' : @vfs H) (i : nat) (mx : Z) : Prop :=
  (forall q, absolute q -> vfs_resolve s' q = vfs_resolve s q) /\
  (forall j, (j < count s)%nat -> j <> i -> vfs_read s' (Some j) mx = vfs_read s (Some j) mx).

(** C12: [vfs_write] then [vfs_read]: a write of [sz] bytes to a file returns [sz]
    and a read of at most [mx] bytes then delivers the first [min sz mx] of them; a
    write that finds no memory, or on a directory, returns -1 and the file keeps its
    bytes.  Either way every path resolves as before and every read of another node
    gives what it gave. *)
Theorem vfs_write_then_read s kids i n buf sz mx :
  tree s kids -> store s -> (i < count s)%nat -> nodes s !! i = Some n ->
  0 <= sz <= Z.of_nat (length buf) -> sz < 2 ^ 31 -> 0 <= mx < 2 ^ 31 ->
  returns (vfs_write s (Some i) buf sz) (fun '(r, s') =>
    tree s' kids /\ store s' /\
    (r = sz /\ vfs_read s' (Some i) mx = Done (Z.min sz mx, take (Z.to_nat (Z.min sz mx)) buf) \/
     r = -1 /\ vfs_read s' (Some i) mx = vfs_read s (Some i) mx) /\
    others_unchanged s s' i mx).
Proof.
  intros Ht Hs Hi En Hsz Hmax Hmx.
  assert (Hread : forall s0 j m, store s0 -> (j < count s0)%nat -> nodes s0 !! j = Some m ->
    vfs_read s0 (Some j) mx = if type m =? VFS_FILE
      then Done (i32 (Z.min (Z.of_nat (length (file_bytes s0 j))) mx), take (Z.to_nat mx) (file_bytes s0 j))
      else Done (-1, [])).
  { intros s0 j m Hs0 Hj Em. destruct (Z.eqb_spec (type m) VFS_FILE) as [E|E].
    - rewrite (vfs_read_returns s0 j m mx Hs0 Hj Em E) by lia. rewrite (file_bytes_length s0 j m Hs0 Hj Em). reflexivity.
    - unfold vfs_read. rewrite (node_at_Done _ _ _ Em), bind_Done.
      destruct (Z.eqb_spec (type m) VFS_FILE); [congruence|reflexivity]. }
  eapply returns_mono; [apply (vfs_write_same s kids i n buf sz Ht Hs Hi En Hsz); lia|].
  intros [r s'] [Hsm Hw]. assert (Hc : count s' = count s) by (unfold count; rewrite (sm_count _ _ _ _ Hsm); reflexivity).
  pose proof (sm_store _ _ _ _ Hsm) as Hs'.
  assert (Hsame : forall j, (j < count s)%nat -> file_bytes s' j = file_bytes s j ->
            vfs_read s' (Some j) mx = vfs_read s (Some j) mx).
  { intros j Hj E. destruct (tree_node _ _ _ Ht Hj) as [m Em].
    destruct (sm_node _ _ _ _ Hsm j m Em) as (m' & Em' & (_ & Hty & _) & _).
    rewrite (Hread s j m Hs Hj Em), (Hread s' j m' Hs' ltac:(lia) Em'), Hty, E. reflexivity. }
  split; [apply Hsm|]. split; [exact Hs'|]. split; [|split; [apply Hsm|]].
  - destruct Hw as [(Hty & -> & Hfb)|(-> & Hfb)]; [left|right; auto]. split; [apply i32_small; lia|].
    destruct (sm_node _ _ _ _ Hsm i n En) as (n' & En' & (_ & Hty' & _) & _).
    rewrite (Hread s' i n' Hs' ltac:(lia) En'), Hty', Hty. change (VFS_FILE =? VFS_FILE) with true. cbv iota.
    rewrite Hfb, length_take, take_take. f_equal. f_equal; [rewrite i32_small; lia|f_equal; lia].
  - intros j Hj Hne. apply (Hsame j Hj), (sm_bytes _ _ _ _ Hsm j Hj Hne).
Qed.

(** C14: [vfs_unlink] of an existing node other than the root returns 0.  After it a
    path whose resolution passed through the node, its own path first, resolves to
    nothing, and every other absolute path resolves as before; the tree and the
    store stay well formed and all other contents are kept. *)
Theorem vfs_unlink_removes s kids path i :
  tree s kids -> store s -> absolute path -> vfs_resolve s path = Done (Some i) -> i <> 0%nat ->
  returns (vfs_unlink s path) (fun '(r, s') =>
    r = 0 /\ store s' /\ (exists kids', tree s' kids') /\
    vfs_resolve s' path = Done None /\
    (forall q, absolute q -> vfs_resolve s' q =
       if meets s kids i 0 (components (drop 1 q)) then Done None else vfs_resolve s q) /\
    (forall j, (j < count s)%nat -> j <> i -> file_bytes s' j = file_bytes s j)).
Proof.
  intros Ht Hs Ha Hr Hi0. destruct (resolve_walk s kids path i Ht Ha Hr) as [Hw Hi].
  eapply returns_mono; [exact (vfs_unlink_returns s kids path i Ht Hs Ha Hw Hi0)|].
  intros [r s'] [-> Hrm]. split; [reflexivity|]. split; [apply Hrm|]. split; [eexists; apply Hrm|].
  assert (Hq : forall q, absolute q -> vfs_resolve s' q =
       if meets s kids i 0 (components (drop 1 q)) then Done None else vfs_resolve s q).
  { intros q Hq. rewrite (resolve_absolute s' _ q (rm_tree _ _ _ _ Hrm) Hq), (resolve_absolute s kids q Ht Hq).
    rewrite (removed_walk s s' kids i Ht Hrm Hi0) by constructor. destruct (meets _ _ _ _ _); reflexivity. }
  split; [|split; [exact Hq|apply Hrm]].
  rewrite (Hq path Ha), (meets_end s kids i _ 0 Hw). reflexivity.
Qed.

(** [vfs_copy] of a file with content to an existing directory returns its size
    and the copy's path resolves to a node with the same bytes, or returns -1; the
    source keeps its path and its bytes. *)
Theorem vfs_copy_duplicates s kids src i n dir leaf p :
  tree s kids -> store s -> absolute src -> vfs_resolve s src = Done (Some i) ->
  nodes s !! i = Some n -> type n = VFS_FILE -> 0 < size n < 2 ^ 31 -> place s dir leaf p ->
  returns (vfs_copy s src (join dir leaf)) (fun '(r, s') =>
    vfs_resolve s' src = Done (Some i) /\ file_bytes s' i = file_bytes s i /\
    (r = -1 \/ r = size n /\ exists j, vfs_resolve s' (join dir leaf) = Done (Some j) /\
       file_bytes s' j = file_bytes s i)).
Proof.
  intros Ht Hs Ha Hr En Hty Hsz Hpl. destruct (resolve_walk s kids src i Ht Ha Hr) as [Hw _].
  destruct (place_walk _ _ _ _ _ Ht Hpl) as [Hwp _]. destruct Hpl as [Hd Ho Hp Hl _ Hpt].
  exact (vfs_copy_returns s kids src i n dir leaf p Ht Hs Ha Hw En Hty Hsz Hd Ho Hp Hl Hwp Hpt).
Qed.

(** [vfs_rename] never moves a file that has content: [vfs_copy] reports the
    number of bytes it wrote, which [vfs_rename] takes for a failure, so the rename
    returns -1 and the source is still there, with its bytes. *)
Theorem vfs_rename_keeps_source s kids src i n dir leaf p :
  tree s kids -> store s -> absolute src -> vfs_resolve s src = Done (Some i) ->
  nodes s !! i = Some n -> type n = VFS_FILE -> 0 < size n < 2 ^ 31 -> place s dir leaf p ->
  returns (vfs_rename s src (join dir leaf)) (fun '(r, s') =>
    r = -1 /\ vfs_resolve s' src = Done (Some i) /\ file_bytes s' i = file_bytes s i).
Proof.
  intros Ht Hs Ha Hr En Hty Hsz Hpl. destruct (resolve_walk s kids src i Ht Ha Hr) as [Hw _].
  destruct (place_walk _ _ _ _ _ Ht Hpl) as [Hwp _]. destruct Hpl as [Hd Ho Hp Hl _ Hpt].
  destruct (vfs_copy_returns s kids src i n dir leaf p Ht Hs Ha Hw En Hty Hsz Hd Ho Hp Hl Hwp Hpt)
    as ([r s'] & Ec & Hres & Hb & Hcase).
  unfold vfs_rename. rewrite Ec, bind_Done. destruct (Z.eqb_spec r 0) as [->|_].
  - destruct Hcase as [|[]]; lia.
  - apply returns_Done. auto.
Qed.
End Properties.

(** ** A small file system *)
Definition demo_node (nm : list Z) (ty z d : Z) (p c : option nat) : node :=
  mk_node (strncpy_arr (replicate 128 0) nm 127) ty 420 0 0 z d p c None.
Definition demo_vfs : @vfs numbered :=
  mk_vfs (demo_node (chars "/") VFS_DIR 0 0 None (Some 1%nat)
          :: demo_node (chars "motd") VFS_FILE 2 1 (Some 0%nat) None :: replicate 254 zero_node)
    2 (Some 0%nat) (chars "/") {[1 := [72; 105; 0]]} (mk_numbered 4 {[1 := 3]}).
Definition demo_kids (q : nat) : list nat := match q with O => [1%nat] | _ => [] end.

Lemma demo_tree : tree demo_vfs demo_kids.
Proof.
  assert (Hin : forall i j, j ∈ demo_kids i -> i = 0%nat /\ j = 1%nat).
  { intros [|i] j; cbn [demo_kids]; [rewrite list_elem_of_singleton; auto|intros Hj; inversion Hj]. }
  split.
  - reflexivity.
  - vm_compute. split; discriminate.
  - reflexivity.
  - eexists. repeat split.
  - intros [|[|i]] n Hi; [..|change (count demo_vfs) with 2%nat in Hi; lia]; intros [= <-].
    + split; [reflexivity|]. eexists. split; reflexivity.
    + reflexivity.
  - intros i j Hj. destruct (Hin i j Hj) as [-> ->]. split; [change (count demo_vfs) with 2%nat; lia|].
    eexists. split; reflexivity.
  - intros i j Hj. destruct (Hin i j Hj) as [-> ->]. eexists. split; reflexivity.
  - intros [|i]; [apply NoDup_singleton|apply NoDup_nil_2].
  - intros [|i]; [apply NoDup_singleton|apply NoDup_nil_2].
  - intros [|[|i]] n p Hi; [..|change (count demo_vfs) with 2%nat in Hi; lia]; intros [= <-] [= <-]; lia.
  - intros [|[|i]] n Hi; [..|change (count demo_vfs) with 2%nat in Hi; lia]; intros [= <-]; reflexivity.
Qed.

Lemma demo_store : store demo_vfs.
Proof.
  split.
  - assert (Hone : forall p n, live_blocks (heap demo_vfs) !! p = Some n -> p = 1 /\ n = 3).
    { intros p n E. change (({[1 := 3]} : gmap Z Z) !! p = Some n) in E.
      apply lookup_singleton_Some in E as [<- <-]. auto. }
    split; [reflexivity|]. split; [intros p n E; destruct (Hone _ _ E) as [-> ->]; cbn; lia|].
    intros p q n m E1 E2. destruct (Hone _ _ E1) as [-> _], (Hone _ _ E2) as [-> _]. congruence.
  - intros [|[|i]] n Hi; [..|change (count demo_vfs) with 2%nat in Hi; lia]; intros [= <-]; cbn; lia.
  - intros [|[|i]] n Hi; [..|change (count demo_vfs) with 2%nat in Hi; lia]; intros [= <-] Hd; cbn in Hd; [congruence|].
    split; [exists 3; reflexivity|].
    eexists. split; [reflexivity|]. vm_compute. split; [reflexivity|discriminate].
  - intros [|[|i]] [|[|j]] n m Hi Hj; try (change (count demo_vfs) with 2%nat in *; lia);
      intros [= <-] [= <-]; cbn; congruence.
Qed.

Lemma demo_place : place demo_vfs [] (chars "copy") 0.
Proof.
  split.
  - left. reflexivity.
  - constructor.
  - split.
    + discriminate.
    + intros Hin. apply list_elem_of_In in Hin. vm_compute in Hin. intuition discriminate.
    + apply Nat.leb_le. vm_compute. reflexivity.
    + vm_compute. repeat constructor; discriminate.
    + discriminate.
    + discriminate.
  - apply Nat.leb_le. vm_compute. reflexivity.
  - vm_compute. reflexivity.
  - eexists. split; reflexivity.
Qed.

Lemma demo_motd : absolute (chars "/motd") /\ vfs_resolve demo_vfs (chars "/motd") = Done (Some 1%nat).
Proof.
  split; [|vm_compute; reflexivity]. split; [reflexivity|].
  split; [apply Nat.leb_le; vm_compute; reflexivity|vm_compute; repeat constructor; discriminate].
Qed.

Lemma vfs_add_then_resolve_witness :
  returns (vfs_create demo_vfs (chars "/copy") 420) (fun '(r, s') =>
    r = Some 2%nat /\ vfs_resolve s' (chars "/motd") = Done (Some 1%nat)).
Proof.
  destruct (vfs_add_then_resolve demo_vfs demo_kids VFS_FILE 420 [] (chars "copy") 0 demo_tree demo_store demo_place)
    as ([r s'] & E & kids' & _ & _ & Hres & _).
  exists (r, s'). split; [exact E|]. split; [vm_compute in E; congruence|].
  apply Hres; apply demo_motd.
Defined.

Lemma vfs_write_then_read_witness :
  returns (vfs_write demo_vfs (Some 1%nat) [1; 2; 3] 3) (fun '(r, s') =>
    r = 3 /\ vfs_read s' (Some 1%nat) 2 = Done (2, [1; 2])).
Proof.
  destruct (vfs_write_then_read demo_vfs demo_kids 1 (demo_node (chars "motd") VFS_FILE 2 1 (Some 0%nat) None)
    [1; 2; 3] 3 2 demo_tree demo_store) as ([r s'] & E & _ & _ & [[-> Hr]|[-> _]] & _);
    [change (count demo_vfs) with 2%nat; lia|reflexivity|cbn; lia|lia|lia| |vm_compute in E; discriminate].
  exists (3, s'). auto.
Defined.

Lemma vfs_unlink_removes_witness :
  returns (vfs_unlink demo_vfs (chars "/motd")) (fun '(r, s') =>
    r = 0 /\ vfs_resolve s' (chars "/motd") = Done None).
Proof.
  destruct demo_motd as [Ha Hr].
  destruct (vfs_unlink_removes demo_vfs demo_kids (chars "/motd") 1 demo_tree demo_store Ha Hr ltac:(lia))
    as ([r s'] & E & -> & _ & _ & Hn & _).
  exists (0, s'). auto.
Defined.

Lemma vfs_copy_duplicates_witness :
  returns (vfs_copy demo_vfs (chars "/motd") (chars "/copy")) (fun '(r, s') =>
    r = 2 /\ file_bytes s' 1 = [72; 105]).
Proof.
  destruct demo_motd as [Ha Hr].
  destruct (vfs_copy_duplicates demo_vfs demo_kids (chars "/motd") 1
    (demo_node (chars "motd") VFS_FILE 2 1 (Some 0%nat) None) [] (chars "copy") 0
    demo_tree demo_store Ha Hr eq_refl eq_refl ltac:(cbn; lia) demo_place)
    as ([r s'] & E & _ & Hb & _).
  exists (r, s'). split; [exact E|]. split; [vm_compute in E; congruence|]. rewrite Hb. vm_compute. reflexivity.
Defined.

Lemma vfs_rename_keeps_source_witness :
  returns (vfs_rename demo_vfs (chars "/motd") (chars "/copy")) (fun '(r, s') =>
    r = -1 /\ vfs_resolve s' (chars "/motd") = Done (Some 1%nat)).
Proof.
  destruct demo_motd as [Ha Hr].
  destruct (vfs_rename_keeps_source demo_vfs demo_kids (chars "/motd") 1
    (demo_node (chars "motd") VFS_FILE 2 1 (Some 0%nat) None) [] (chars "copy") 0
    demo_tree demo_store Ha Hr eq_refl eq_refl ltac:(cbn; lia) demo_place)
    as ([r s'] & E & -> & Hres & _).
  exists (-1, s'). auto.
Defined.
