(* ===== verification/VfsLive.v ===== *)
(** * File system: every operation at any path

    [VfsOps.v] says what the operations do where they apply.  Here they are called with
    whatever a user may type: paths that lead nowhere, through files or above the root,
    names that exist, full tables and a heap that is used up.  As long as names and paths
    fit the buffers of [vfs.c], each of them returns and leaves a file system that every
    other one can be called on; how long they may be is a class, [Room]. *)
From Stdlib Require Import ZArith Lia Bool String.
From stdpp Require Import base tactics option list numbers gmap.
From S2P Require Import Prelude CInt CString BlockAlloc Vfs VfsOps.
#[local] Close Scope string_scope.
#[local] Open Scope Z_scope.

(** How long names and the working directory may be.  The buffers of [vfs.c] have room for
    names of 126 characters in [vfs_chdir] and, with a typed path of 127 behind it, for a
    working directory of 125: with a longer one the copy of the path can run out of its
    buffer. *)
Class Room := {
  name_room : nat; (* names are shorter *)
  cwd_room : nat;
  name_fits : (name_room <= 127)%nat;
  cwd_fits : (cwd_room <= 125)%nat
}.

Record browsable {K} {R : Room} (s : @vfs K) : Prop := {
  br_tree : exists kids, tree s kids;
  br_names : forall i, (i < count s)%nat -> (length (name_at (nodes s) i) < name_room)%nat;
  br_cwd : absolute (cwd s) /\ (length (cwd s) <= cwd_room)%nat
}.

(** Arithmetic with what the buffers have room for. *)
#[local] Ltac room := pose proof name_fits; pose proof cwd_fits; unfold VFS_NAME_MAX in *; lia.

(** ** Leaves *)
Lemma leaf_of_Forall (Q : Z -> Prop) p : Forall Q p -> Forall Q (leaf_of p).
Proof.
  induction 1 as [|c p Hc Hp IH]; cbn [leaf_of]; [constructor|]. destruct (bool_decide _); [exact IH|].
  constructor; assumption.
Qed.

Lemma leaf_split p : slash ∈ p -> exists d, p = d ++ slash :: leaf_of p /\ slash ∉ leaf_of p.
Proof.
  induction p as [|c p IH]; intros Hp; [destruct (not_elem_of_nil _ Hp)|]. cbn [leaf_of]. rewrite bool_decide_true by exact Hp.
  destruct (decide (slash ∈ p)) as [Hin|Hin].
  - destruct (IH Hin) as (d & E & Hn). exists (c :: d). split; [cbn [app]; congruence|exact Hn].
  - rewrite (leaf_of_plain p Hin). exists []. split; [|exact Hin]. apply elem_of_cons in Hp as [<-|Hp]; [reflexivity|contradiction].
Qed.

Section Live.
Context {H : Type} `{BlockAllocLaws H} {R : Room}.
Implicit Types s : @vfs H.

Record living s : Prop := { lv_dirs : browsable s; lv_store : store s }.

Lemma living_cwd s : living s -> absolute (cwd s) /\ (length (cwd s) <= cwd_room)%nat.
Proof. intros [[_ _ Hc] _]. exact Hc. Qed.

(** A path that is typed. *)
Definition typed_path (p : list Z) : Prop := str_ok p /\ (length p <= 127)%nat.

Lemma typed_walk s kids p :
  tree s kids -> living s -> typed_path p ->
  exists q, absolute q /\ (length q <= 253)%nat /\ normalize_path s p = Done q /\ leaf_of q = leaf_of p /\
    vfs_resolve s p = vfs_resolve s q /\ vfs_resolve s q = Done (walk s kids 0 (components (drop 1 q))).
Proof.
  intros Ht Hl [Hp Hn]. destruct (living_cwd s Hl) as [Hc Hcl].
  destruct (normalize_returns s p Hc Hp ltac:(room)) as (q & Ha & Eq & Elf & Hlen). exists q.
  split; [exact Ha|]. split; [room|]. split; [exact Eq|]. split; [exact Elf|].
  split; [|exact (resolve_absolute s kids q Ht Ha)]. unfold vfs_resolve. rewrite Eq, (normalize_absolute s q Ha). reflexivity.
Qed.

Lemma walk_below s kids parts i : tree s kids -> walk s kids 0 parts = Some i -> (i < count s)%nat.
Proof. intros Ht Hw. exact (linked_below _ _ _ Ht (walk_linked _ _ _ _ _ Ht (linked_root kids) Hw)). Qed.

Lemma typed_resolve s p :
  living s -> typed_path p ->
  returns (vfs_resolve s p) (fun r => match r with Some i => (i < count s)%nat | None => True end).
Proof.
  intros Hl Hp. destruct (br_tree _ (lv_dirs _ Hl)) as [kids Ht].
  destruct (typed_walk s kids p Ht Hl Hp) as (q & _ & _ & _ & _ & -> & ->). apply returns_Done.
  destruct (walk _ _ _ _) eqn:E; [exact (walk_below _ _ _ _ Ht E)|exact I].
Qed.

(** ** Creating nodes *)

(** More nodes; those that were there and are no directories are as they were. *)
Definition grown s s' : Prop :=
  (count s <= count s')%nat /\
  forall j n, (j < count s)%nat -> nodes s !! j = Some n -> type n <> VFS_DIR -> nodes s' !! j = Some n.

Lemma ensure_parent_returns s kids p :
  tree s kids -> living s -> typed_path p ->
  returns (ensure_parent s p) (fun '(par, leaf) => leaf = leaf_of p /\
    match par with Some i => (i < count s)%nat | None => True end).
Proof.
  intros Ht Hl Hp. destruct (typed_walk s kids p Ht Hl Hp) as (q & Ha & Hlen & Eq & Elf & _).
  pose proof Ha as (Hh & _ & Ho). destruct (leaf_split q) as (d & Ed & Hns).
  { destruct q; [discriminate|]. injection Hh as ->. left. }
  assert (Hlf : (length (leaf_of q) <= 127)%nat).
  { rewrite Elf. destruct Hp as [_ Hp]. clear -Hp. induction p as [|c p IH]; cbn [leaf_of length] in *; [lia|].
    destruct (bool_decide _); cbn [length]; [apply IH|]; lia. }
  unfold ensure_parent. rewrite Eq, bind_Done. rewrite <- Elf. set (x := leaf_of q) in *. clearbody x.
  rewrite Ed, last_slash_app by exact Hns. destruct d as [|c d]; cbn [Nat.add].
  - cbn [length Nat.eqb]. change (drop 1 ([] ++ slash :: x)) with x.
    rewrite buf_str_ok by (unfold VFS_NAME_MAX; lia). rewrite bind_Done. apply returns_Done. split; [reflexivity|].
    rewrite (t_root _ _ Ht). pose proof (t_count _ _ Ht). unfold count. lia.
  - cbn [length Nat.eqb]. rewrite drop_app_ge by (cbn [length]; lia). cbn [length].
    replace (S (S (length d)) - S (length d))%nat with 1%nat by lia. change (drop 1 (slash :: x)) with x.
    rewrite buf_str_ok by (unfold VFS_NAME_MAX; lia). rewrite bind_Done, take_app_le, take_ge by (cbn [length]; lia).
    rewrite bool_decide_false by discriminate. rewrite (resolve_absolute s kids (c :: d)); [|exact Ht|].
    + rewrite bind_Done. apply returns_Done. split; [reflexivity|].
      destruct (walk _ _ _ _) eqn:E; [exact (walk_below _ _ _ _ Ht E)|exact I].
    + rewrite Ed in Hh, Hlen, Ho. apply Forall_app in Ho as [Ho _]. rewrite length_app in Hlen. cbn [length] in *.
      split; [exact Hh|]. split; [cbn [length]; lia|exact Ho].
Qed.

Lemma added_living s s' kids p leaf ty md pn :
  tree s kids -> living s -> node_count s < 256 -> (p < count s)%nat -> str_ok leaf -> (length leaf < name_room)%nat ->
  nodes s !! p = Some pn -> type pn = VFS_DIR -> lookup_child s kids p leaf = None ->
  added s s' p (count s) leaf ty md -> living s' /\ grown s s' /\ (count s < count s')%nat.
Proof.
  intros Ht [[_ Hn Hc] Hs] Hlt Hp Ho Hl Epn Hty Hnone Ha.
  pose proof (added_tree s s' kids p leaf ty md pn Ht Hlt Hp Ho ltac:(room) Epn Hty Hnone Ha) as Ht'.
  destruct (added_store s s' kids p leaf ty md Ht Hs Hp Ha) as (Hs' & _).
  pose proof (added_count _ _ _ _ _ _ _ Ha ltac:(pose proof (t_count _ _ Ht); lia)) as Hc'.
  destruct (ad_new _ _ _ _ _ _ _ Ha) as (pn' & Epn' & _ & Ei').
  split; [split; [split|exact Hs']|].
  - eauto.
  - intros i Hi. destruct (decide (i = count s)) as [->|Hne].
    + rewrite (name_at_Some _ _ _ Ei'). change (nm (set_sibling _ _)) with (nm (new_node leaf ty md)).
      rewrite new_node_name by (first [exact Ho|room]). exact Hl.
    + rewrite (name_at_extends s kids _ i Ht (added_extends _ _ _ _ _ _ Ha)) by lia. apply Hn. lia.
  - destruct (ad_rest _ _ _ _ _ _ _ Ha) as (_ & -> & _). exact Hc.
  - split; [|lia]. split; [lia|]. intros j n Hj En Hd. rewrite (ad_same _ _ _ _ _ _ _ Ha); [exact En|congruence|lia].
Qed.

Lemma vfs_add_living ty s p md :
  living s -> typed_path p -> (length (leaf_of p) < name_room)%nat ->
  returns (vfs_add ty s p md) (fun '(r, s') => living s' /\ grown s s' /\
    match r with Some i => (i < count s')%nat | None => True end).
Proof.
  intros Hl Hp Hlf. destruct (br_tree _ (lv_dirs _ Hl)) as [kids Ht].
  assert (Hsame : living s /\ grown s s) by (split; [exact Hl|split; [lia|auto]]).
  unfold vfs_add. apply returns_bind. eapply returns_mono; [exact (ensure_parent_returns s kids p Ht Hl Hp)|].
  intros [[i|] leaf] [-> Hi]; [|apply returns_Done; tauto]. destruct (tree_node _ _ _ Ht Hi) as [pn Epn].
  rewrite (node_at_Done _ _ _ Epn), bind_Done. destruct (Z.eqb_spec (type pn) VFS_DIR) as [Hty|_]; cbn [negb orb]; [|apply returns_Done; tauto].
  destruct (bool_decide _); [apply returns_Done; tauto|].
  assert (Ho : str_ok (leaf_of p)) by (apply leaf_of_Forall, Hp).
  rewrite (find_child_returns s kids i _ Ht Hi Ho), bind_Done. destruct (lookup_child s kids i (leaf_of p)) as [j|] eqn:El.
  { apply returns_Done. split; [apply Hsame|]. split; [apply Hsame|]. apply lookup_child_Some in El as [Hin _].
    exact (kids_below _ _ _ _ Ht Hin). }
  destruct (Z.ltb_spec (node_count s) 256) as [Hc|Hc].
  - eapply returns_mono; [exact (alloc_link_returns s kids i (leaf_of p) ty md Ht Hi Hc)|]. intros [r s'] [-> Ha].
    destruct (added_living s s' kids i _ ty md pn Ht Hl Hc Hi Ho Hlf Epn Hty El Ha) as (? & ? & ?). auto.
  - unfold alloc_node. destruct (Z.leb_spec VFS_MAX_NODES (node_count s)) as [_|Hlt]; [|unfold VFS_MAX_NODES in Hlt; lia].
    apply returns_Done. tauto.
Qed.

(** ** Contents *)
Lemma same_tree_living s s' kids i : living s -> same_tree s s' kids i -> living s' /\ count s' = count s.
Proof.
  intros [[[k0 Ht0] Hn Hc] _] Hsm. assert (Ec : count s' = count s) by (unfold count; rewrite (sm_count _ _ _ _ Hsm); reflexivity).
  split; [|exact Ec]. split; [split|apply Hsm].
  - exists kids. apply Hsm.
  - intros j Hj. rewrite Ec in Hj. destruct (tree_node _ _ _ Ht0 Hj) as [m Em].
    destruct (sm_node _ _ _ _ Hsm j m Em) as (m' & Em' & [Hnm _] & _). specialize (Hn j Hj).
    rewrite (name_at_Some _ _ _ Em) in Hn. rewrite (name_at_Some _ _ _ Em'). unfold nm in *. rewrite Hnm. exact Hn.
  - rewrite (sm_cwd _ _ _ _ Hsm). exact Hc.
Qed.

Lemma vfs_write_living s i buf sz :
  living s -> (i < count s)%nat -> 0 <= sz <= Z.of_nat (length buf) -> sz < 2 ^ 62 ->
  returns (vfs_write s (Some i) buf sz) (fun '(r, s') => living s' /\ count s' = count s).
Proof.
  intros Hl Hi Hsz Hmax. destruct (br_tree _ (lv_dirs _ Hl)) as [kids Ht]. destruct (tree_node _ _ _ Ht Hi) as [n En].
  eapply returns_mono; [exact (vfs_write_same s kids i n buf sz Ht (lv_store _ Hl) Hi En Hsz Hmax)|].
  intros [r s'] [Hsm _]. exact (same_tree_living s s' kids i Hl Hsm).
Qed.

Lemma vfs_copy_living s src dst :
  living s -> typed_path src -> typed_path dst -> (length (leaf_of dst) < name_room)%nat ->
  returns (vfs_copy s src dst) (fun '(r, s') => living s').
Proof.
  intros Hl Hsrc Hdst Hlf. destruct (br_tree _ (lv_dirs _ Hl)) as [kids Ht]. unfold vfs_copy. apply returns_bind.
  eapply returns_mono; [exact (typed_resolve s src Hl Hsrc)|]. intros [i|] Hi; [|apply returns_Done; exact Hl].
  destruct (tree_node _ _ _ Ht Hi) as [n En]. rewrite (node_at_Done _ _ _ En), bind_Done.
  destruct (Z.eqb_spec (type n) VFS_FILE) as [Hty|_]; cbn [negb]; [|apply returns_Done; exact Hl]. apply returns_bind.
  eapply returns_mono; [exact (vfs_add_living VFS_FILE s dst _ Hl Hdst Hlf)|]. intros [[j|] s1] (Hl1 & [Hc1 Hg] & Hj); [|apply returns_Done; exact Hl1].
  assert (En1 : nodes s1 !! i = Some n) by (apply Hg; [exact Hi|exact En|rewrite Hty; discriminate]).
  rewrite (node_at_Done _ _ _ En1), bind_Done. destruct (Z.eqb_spec (size n) 0); [apply returns_Done; exact Hl1|].
  destruct (Z.eqb_spec (data n) 0) as [|Hd]; [apply returns_Done; exact Hl1|]. cbn [negb andb].
  destruct (st_data _ (lv_store _ Hl1) i n ltac:(lia) En1 Hd) as (_ & b & -> & Hb).
  destruct (st_size _ (lv_store _ Hl1) i n ltac:(lia) En1) as [Hsz _].
  eapply returns_mono; [apply (vfs_write_living s1 j b (size n) Hl1 Hj); lia|]. intros [r s'] [Hl' _]. exact Hl'.
Qed.

(** ** Removal *)
Lemma removed_living s s' kids i : living s -> tree s kids -> removed s s' kids i -> living s'.
Proof.
  intros [[_ Hn Hc] _] Ht Hr. assert (Ec : count s' = count s) by (unfold count; rewrite (rm_count _ _ _ _ Hr); reflexivity).
  split; [split|apply Hr].
  - eexists. apply Hr.
  - intros j Hj. rewrite Ec in Hj. destruct (decide (j = i)) as [->|Hne]; [rewrite (rm_name _ _ _ _ Hr); specialize (Hn i Hj); cbn [length]; lia|].
    destruct (tree_node _ _ _ Ht Hj) as [m Em]. destruct (rm_node _ _ _ _ Hr j m Em) as (m' & Em' & _ & _ & Hnm).
    specialize (Hn j Hj). rewrite (name_at_Some _ _ _ Em) in Hn. rewrite (name_at_Some _ _ _ Em'). unfold nm in *.
    rewrite (Hnm Hne). exact Hn.
  - rewrite (rm_cwd _ _ _ _ Hr). exact Hc.
Qed.

Lemma vfs_unlink_living s p : living s -> typed_path p -> returns (vfs_unlink s p) (fun '(r, s') => living s').
Proof.
  intros Hl Hp. destruct (br_tree _ (lv_dirs _ Hl)) as [kids Ht].
  destruct (typed_walk s kids p Ht Hl Hp) as (q & Ha & _ & _ & _ & E & Eq).
  assert (Eu : vfs_unlink s p = vfs_unlink s q) by (unfold vfs_unlink; rewrite E; reflexivity). rewrite Eu.
  destruct (walk s kids 0 (components (drop 1 q))) as [i|] eqn:Ew.
  - destruct (decide (i = 0%nat)) as [->|Hne].
    + unfold vfs_unlink. rewrite Eq, bind_Done, (t_root _ _ Ht), bool_decide_true by reflexivity. apply returns_Done. exact Hl.
    + eapply returns_mono; [exact (vfs_unlink_returns s kids q i Ht (lv_store _ Hl) Ha Ew Hne)|].
      intros [r s'] [_ Hr]. exact (removed_living s s' kids i Hl Ht Hr).
  - unfold vfs_unlink. rewrite Eq, bind_Done. apply returns_Done. exact Hl.
Qed.

Lemma vfs_rename_living s src dst :
  living s -> typed_path src -> typed_path dst -> (length (leaf_of dst) < name_room)%nat ->
  returns (vfs_rename s src dst) (fun '(r, s') => living s').
Proof.
  intros Hl Hsrc Hdst Hlf. unfold vfs_rename. apply returns_bind.
  eapply returns_mono; [exact (vfs_copy_living s src dst Hl Hsrc Hdst Hlf)|]. intros [r s1] Hl1.
  destruct (negb _); [apply returns_Done; exact Hl1|exact (vfs_unlink_living s1 src Hl1 Hsrc)].
Qed.

(** ** Changing the directory

    [vfs_chdir] writes the path of the directory it found, from the names of its ancestors:
    no longer than the path that led there, so that it fits. *)
Fixpoint trail (fuel : nat) (ns : list node) (i : nat) : list (list Z) :=
  match fuel, i with
  | S f, S _ =>
      match ns !! i with
      | Some n => nm n :: match parent n with Some q => trail f ns q | None => [] end
      | None => []
      end
  | _, _ => []
  end.
Definition climb s (i : nat) : list (list Z) := trail (S i) (nodes s) i.

(** The room parts take with a slash before each. *)
Definition weight (parts : list (list Z)) : nat := sum_list_with (fun x => S (length x)) parts.

Lemma trail_enough s kids : tree s kids -> forall f g i,
  (i < count s)%nat -> (i < f)%nat -> (i < g)%nat -> trail f (nodes s) i = trail g (nodes s) i.
Proof.
  intros Ht. induction f as [|f IH]; intros [|g] [|i] Hi Hf Hg; try lia; try reflexivity. cbn [trail].
  destruct (nodes s !! S i) as [n|] eqn:En; [|reflexivity]. f_equal. destruct (parent n) as [q|] eqn:Eq; [|reflexivity].
  pose proof (t_up _ _ Ht _ n q Hi En Eq). apply IH; lia.
Qed.

Lemma climb_parent s kids i n q :
  tree s kids -> (i < count s)%nat -> nodes s !! i = Some n -> parent n = Some q -> climb s i = nm n :: climb s q.
Proof.
  intros Ht Hi En Eq. pose proof (t_up _ _ Ht i n q Hi En Eq) as Hlt. destruct i as [|i]; [lia|].
  change (climb s (S i)) with (match nodes s !! S i with
    | Some n => nm n :: match parent n with Some q => trail (S i) (nodes s) q | None => [] end
    | None => []
    end).
  rewrite En, Eq. f_equal. apply (trail_enough s kids Ht); lia.
Qed.

Lemma walk_weight s kids parts : forall cur i,
  tree s kids -> (cur < count s)%nat -> walk s kids cur parts = Some i ->
  (weight (climb s i) <= weight (climb s cur) + weight parts)%nat.
Proof.
  induction parts as [|x parts IH]; intros cur i Ht Hc; cbn [walk]; [intros [= <-]; lia|].
  destruct (walk_step s kids cur x) as [c|] eqn:E; [|discriminate]. intros Hw.
  pose proof (walk_step_valid _ _ _ _ _ Ht Hc E) as Hc'. specialize (IH c i Ht Hc' Hw).
  assert (Hstep : (weight (climb s c) <= weight (climb s cur) + S (length x))%nat).
  { unfold walk_step in E. destruct (bool_decide _); [injection E as <-; lia|]. destruct (bool_decide _).
    - destruct (nodes s !! cur) as [n|] eqn:En; [|discriminate]. injection E as <-. destruct (parent n) as [q|] eqn:Eq; simpl; [|lia].
      rewrite (climb_parent s kids cur n q Ht Hc En Eq). unfold weight. cbn [sum_list_with]. lia.
    - apply lookup_child_Some in E as [Hin Hnm]. destruct (t_parent _ _ Ht cur c Hin) as [_ (n & En & Eq)].
      rewrite (climb_parent s kids c n cur Ht Hc' En Eq), <- (name_at_Some _ _ _ En), Hnm. unfold weight. cbn [sum_list_with]. lia. }
  unfold weight in *. cbn [sum_list_with]. lia.
Qed.

Lemma take_part_cut k p :
  snd (take_part k p) = [] \/ head (snd (take_part k p)) = Some slash \/ length (fst (take_part k p)) = k.
Proof.
  revert p. induction k as [|k IH]; intros [|c p]; cbn [take_part]; try (cbn; auto; fail).
  destruct (Z.eqb_spec c slash) as [->|_]; [right; left; reflexivity|]. specialize (IH p).
  destruct (take_part k p) as [a b]. cbn [fst snd length] in *. destruct IH as [E|[E|E]]; auto.
Qed.

(** A component of more than 127 characters is cut into several. *)
Lemma comps_weight f : forall p, (length p < f)%nat -> (127 * weight (comps f p) <= 128 * S (length p))%nat.
Proof.
  induction f as [|f IH]; intros p Hf; [lia|]. cbn [comps]. destruct (decide (p = [])) as [->|Hp]; [cbn; lia|].
  rewrite bool_decide_false by exact Hp. destruct (take_part _ p) as [part p1] eqn:E.
  pose proof (turn_shorter (Z.to_nat (VFS_NAME_MAX - 1)) p part p1 ltac:(vm_compute; lia) Hp E) as Hlt.
  pose proof (take_part_split (Z.to_nat (VFS_NAME_MAX - 1)) p) as Hs. rewrite E in Hs. cbn [fst snd] in Hs.
  specialize (IH (skip_slashes p1) ltac:(lia)). assert (Hlen : length p = (length part + length p1)%nat) by (rewrite <- Hs, length_app; reflexivity).
  pose proof (skip_slashes_length p1) as Hsk. destruct (bool_decide_reflect (part = [])) as [->|Hne]; [cbn [length] in *; lia|].
  unfold weight in *. cbn [sum_list_with].
  assert (Hcut : p1 = [] \/ head p1 = Some slash \/ length part = 127%nat).
  { pose proof (take_part_cut (Z.to_nat (VFS_NAME_MAX - 1)) p) as Hc. rewrite E in Hc. exact Hc. }
  destruct Hcut as [->|[Hh|Hk]].
  - cbn [skip_slashes length] in *. destruct f as [|f']; [cbn; lia|]. cbn [comps] in *. rewrite bool_decide_true in * by reflexivity. cbn in *. lia.
  - destruct p1 as [|c p1]; [discriminate|]. injection Hh as ->. cbn [skip_slashes] in *.
    change (slash =? slash) with true in *. cbv iota in *. pose proof (skip_slashes_length p1). cbn [length] in *. lia.
  - lia.
Qed.

Lemma collect_parts_loop s kids : tree s kids -> browsable s -> forall fuel j acc,
  (j < count s)%nat -> (j < fuel)%nat -> Forall str_ok acc ->
  returns (loop fuel (fun '(cur, acc) =>
    match cur with
    | None => mret (inr acc)
    | Some j =>
        if bool_decide (root s = Some j) then mret (inr acc)
        else
          n ← node_at s j;
          acc' ← (if (length acc <? 32)%nat then
                    nm ← buf_str (VFS_NAME_MAX - 1) (cstr (name n)); mret (acc ++ [nm])
                  else mret acc);
          mret (inl (parent n, acc'))
    end) (Some j, acc))
  (fun parts => Forall str_ok parts /\ (weight parts <= weight acc + weight (climb s j))%nat).
Proof.
  intros Ht Hb. rewrite (t_root _ _ Ht). induction fuel as [|fuel IH]; intros j acc Hj Hf Hacc; [lia|]. rewrite loop_S.
  destruct (decide (j = 0%nat)) as [->|Hne].
  { rewrite bool_decide_true by reflexivity. apply returns_Done. split; [exact Hacc|lia]. }
  rewrite bool_decide_false by congruence. destruct (tree_node _ _ _ Ht Hj) as [n En]. rewrite (node_at_Done _ _ _ En), bind_Done.
  pose proof (br_names _ Hb j Hj) as Hnm. rewrite (name_at_Some _ _ _ En) in Hnm. unfold nm in Hnm.
  set (acc' := if (length acc <? 32)%nat then acc ++ [cstr (name n)] else acc).
  assert (Hacc' : Forall str_ok acc').
  { unfold acc'. destruct (_ <? _)%nat; [|exact Hacc]. apply Forall_app. split; [exact Hacc|]. repeat constructor. apply cstr_ok. }
  assert (Hw : (weight acc' <= weight acc + S (length (cstr (name n))))%nat).
  { unfold acc', weight. destruct (_ <? _)%nat; [|lia]. rewrite sum_list_with_app. cbn. lia. }
  match goal with |- returns (mbind _ (mbind _ ?M)) _ =>
    replace M with (Done acc') by (unfold acc'; destruct (_ <? _)%nat; [|reflexivity];
      rewrite buf_str_ok by room; reflexivity) end.
  rewrite !bind_Done. destruct (parent n) as [q|] eqn:Eq.
  - pose proof (t_up _ _ Ht j n q Hj En Eq) as Hlt.
    eapply returns_mono; [apply (IH q acc'); [lia|lia|exact Hacc']|]. intros parts [Hok Hle]. split; [exact Hok|].
    rewrite (climb_parent s kids j n q Ht Hj En Eq). unfold weight, nm in *. cbn [sum_list_with]. lia.
  - destruct fuel as [|fuel]; [lia|]. rewrite loop_S. apply returns_Done. split; [exact Hacc'|].
    destruct j as [|j]; [lia|]. unfold climb. cbn [trail]. rewrite En, Eq. unfold weight, nm in *. cbn [sum_list_with]. lia.
Qed.

Lemma join_parts_loop l : forall c,
  head c = Some slash -> str_ok c -> Forall str_ok l -> (length c + weight l <= 255)%nat ->
  returns (foldl (fun m part =>
    c ← m;
    c ← (if (1 <? length c)%nat then buf_str VFS_PATH_MAX (c ++ [slash]) else mret c);
    buf_str VFS_PATH_MAX (c ++ part)) (mret c) l) (fun r => absolute r /\
      (length r <= if (1 <? length c)%nat then length c + weight l else Nat.max 1 (weight l))%nat).
Proof.
  induction l as [|x l IH]; intros c Hh Ho Hl Hw; unfold weight in *; cbn [foldl sum_list_with] in *.
  { apply returns_Done. split; [|destruct (Nat.ltb_spec 1 (length c)); lia]. split; [exact Hh|]. split; [lia|exact Ho]. }
  inversion Hl as [|? ? Hx Hl']; subst. cbn [mret outcome_ret]. rewrite bind_Done.
  set (c1 := if (1 <? length c)%nat then c ++ [slash] else c).
  assert (Hc1 : head c1 = Some slash /\ str_ok c1 /\ length c1 = if (1 <? length c)%nat then S (length c) else 1%nat).
  { unfold c1. destruct c as [|z c]; [discriminate|]. destruct (Nat.ltb_spec 1 (length (z :: c))) as [_|Hlen].
    - split; [exact Hh|]. split; [apply Forall_app; split; [exact Ho|repeat constructor; discriminate]|].
      rewrite length_app. cbn [length]. lia.
    - split; [exact Hh|]. split; [exact Ho|]. cbn [length] in *. lia. }
  replace (if (1 <? length c)%nat then buf_str VFS_PATH_MAX (c ++ [slash]) else mret c) with (Done c1).
  2: { unfold c1. destruct (_ <? _)%nat; [|reflexivity]. symmetry. apply buf_str_ok. rewrite length_app. cbn [length]. unfold VFS_PATH_MAX. lia. }
  destruct Hc1 as (Hd1 & Hd2 & Hd3).
  assert (Hd4 : (length c1 <= S (length c))%nat) by (rewrite Hd3; destruct (_ <? _)%nat; lia).
  rewrite bind_Done, buf_str_ok by (rewrite length_app; unfold VFS_PATH_MAX; lia).
  eapply returns_mono; [apply IH|].
  - destruct c1; [discriminate|exact Hd1].
  - apply Forall_app. auto.
  - exact Hl'.
  - rewrite length_app. lia.
  - intros r [Ha Hr]. split; [exact Ha|]. rewrite length_app, Hd3 in Hr.
    destruct (Nat.ltb_spec 1 (length c)); cbv iota in *;
      [destruct (Nat.ltb_spec 1 (S (length c) + length x))|destruct (Nat.ltb_spec 1 (1 + length x))]; cbv iota in *; lia.
Qed.

(** There is room for the path typed, behind the working directory if it is relative, as
    the working directory. *)
Definition near s (p : list Z) : bool :=
  match normalize_path s p with Done q => (length q <=? cwd_room)%nat | _ => false end.

(** Every directory that is found can be changed to; what is written is a path no longer
    than the one that led to it. *)
Lemma vfs_chdir_returns s p :
  living s -> typed_path p ->
  returns (vfs_chdir s p) (fun '(r, s') => exists c, s' = set_cwd c s /\ absolute c /\
    (near s p = true -> (length c <= cwd_room)%nat)).
Proof.
  intros Hl Hp. pose proof (lv_dirs _ Hl) as Hb. destruct (br_tree _ Hb) as [kids Ht].
  assert (Hsame : exists c, s = set_cwd c s /\ absolute c /\ (near s p = true -> (length c <= cwd_room)%nat)).
  { exists (cwd s). split; [destruct s; reflexivity|]. split; [|intros _]; apply Hb. }
  destruct (typed_walk s kids p Ht Hl Hp) as (q & Hq & Hlen & En & _ & Er & Eq). unfold vfs_chdir. rewrite Er, Eq, bind_Done.
  destruct (walk s kids 0 (components (drop 1 q))) as [i|] eqn:Ew; [|apply returns_Done; exact Hsame].
  pose proof (walk_below _ _ _ _ Ht Ew) as Hi. destruct (tree_node _ _ _ Ht Hi) as [n Ei].
  rewrite (node_at_Done _ _ _ Ei), bind_Done. destruct (negb _); [apply returns_Done; exact Hsame|]. apply returns_bind.
  pose proof (t_count _ _ Ht) as Hc.
  eapply returns_mono; [apply (collect_parts_loop s kids Ht Hb sibling_fuel i []); [exact Hi|unfold sibling_fuel, count in *; lia|constructor]|].
  intros parts [Hok Hw]. apply returns_bind.
  pose proof (walk_weight s kids _ 0 i Ht ltac:(unfold count; lia) Ew) as Hw2.
  pose proof (comps_weight (S (length (drop 1 q))) (drop 1 q) ltac:(lia)) as Hw3. fold (components (drop 1 q)) in Hw3.
  assert (Hne : (1 <= length q)%nat) by (destruct Hq as [Hh _]; destruct q; [discriminate|cbn; lia]).
  rewrite length_drop in Hw3. replace (S (length q - 1)) with (length q) in Hw3 by lia.
  change (weight []) with 0%nat in Hw. change (weight (climb s 0)) with 0%nat in Hw2.
  assert (Erev : weight (rev parts) = weight parts).
  { unfold weight. clear. induction parts as [|x l IH]; [reflexivity|]. cbn [rev sum_list_with]. rewrite sum_list_with_app, IH. cbn. lia. }
  unfold join_parts. eapply returns_mono;
    [apply (join_parts_loop (rev parts) (chars "/")); [reflexivity|repeat constructor; discriminate|apply Forall_rev, Hok|]|].
  - rewrite Erev. change (length (chars "/")) with 1%nat. room.
  - intros c [Ha Hlc]. apply returns_Done. exists c. split; [reflexivity|]. split; [exact Ha|]. unfold near. rewrite En.
    intros Hnear. apply Nat.leb_le in Hnear. change (1 <? length (chars "/"))%nat with false in Hlc. cbv iota in Hlc.
    rewrite Erev in Hlc. room.
Qed.

Lemma set_cwd_living s c : living s -> absolute c -> (length c <= cwd_room)%nat -> living (set_cwd c s).
Proof.
  intros [[[kids [? ? ? ? ? ? ? ? ? ? ?]] Hn _] [? ? ? ?]] Ha Hc. split; [split|].
  - exists kids. split; assumption.
  - exact Hn.
  - auto.
  - split; assumption.
Qed.

Lemma vfs_chdir_living s p :
  living s -> typed_path p -> near s p = true -> returns (vfs_chdir s p) (fun '(r, s') => living s').
Proof.
  intros Hl Hp Hn. eapply returns_mono; [exact (vfs_chdir_returns s p Hl Hp)|]. intros [r s'] (c & -> & Ha & Hc).
  exact (set_cwd_living s c Hl Ha (Hc Hn)).
Qed.

(** ** Any sequence of calls *)
Inductive call :=
  | Mkdir (p : list Z) | Create (p : list Z) | WriteTo (p text : list Z) | Unlink (p : list Z)
  | Copy (src dst : list Z) | Rename (src dst : list Z) | Chdir (p : list Z).

Definition perform (c : call) s : outcome vfs :=
  match c with
  | Mkdir p => '(_, s) ← vfs_mkdir s p 493; mret s
  | Create p => '(_, s) ← vfs_create s p 420; mret s
  | WriteTo p text => n ← vfs_resolve s p; '(_, s) ← vfs_write s n text (Z.of_nat (length text)); mret s
  | Unlink p => '(_, s) ← vfs_unlink s p; mret s
  | Copy src dst => '(_, s) ← vfs_copy s src dst; mret s
  | Rename src dst => '(_, s) ← vfs_rename s src dst; mret s
  | Chdir p => '(_, s) ← vfs_chdir s p; mret s
  end.

(** Paths of at most 127 characters, new names of which there is room for, and no change to
    a directory whose path is too long to be the working directory. *)
Definition fitting s (c : call) : Prop :=
  match c with
  | Mkdir p | Create p => typed_path p /\ (length (leaf_of p) < name_room)%nat
  | WriteTo p text => typed_path p /\ Z.of_nat (length text) < 2 ^ 62
  | Unlink p => typed_path p
  | Copy src dst | Rename src dst => typed_path src /\ typed_path dst /\ (length (leaf_of dst) < name_room)%nat
  | Chdir p => typed_path p /\ near s p = true
  end.

Inductive reached s : vfs -> Prop :=
  | reached_start : reached s s
  | reached_call s1 c s2 : reached s s1 -> fitting s1 c -> perform c s1 = Done s2 -> reached s s2.

Lemma perform_living s c : living s -> fitting s c -> returns (perform c s) living.
Proof.
  intros Hl. destruct c; cbn [fitting perform]; intros Hc; apply returns_bind.
  - eapply returns_mono; [apply (vfs_add_living VFS_DIR s p); tauto|]. intros [r s'] [Hl' _]. apply returns_Done. exact Hl'.
  - eapply returns_mono; [apply (vfs_add_living VFS_FILE s p); tauto|]. intros [r s'] [Hl' _]. apply returns_Done. exact Hl'.
  - destruct Hc as [Hp Ht]. eapply returns_mono; [exact (typed_resolve s p Hl Hp)|]. intros [i|] Hi.
    + apply returns_bind. eapply returns_mono; [apply (vfs_write_living s i text _ Hl Hi); lia|].
      intros [r s'] [Hl' _]. apply returns_Done. exact Hl'.
    + apply returns_Done. exact Hl.
  - eapply returns_mono; [exact (vfs_unlink_living s p Hl Hc)|]. intros [r s'] Hl'. apply returns_Done. exact Hl'.
  - eapply returns_mono; [apply (vfs_copy_living s src dst Hl); tauto|]. intros [r s'] Hl'. apply returns_Done. exact Hl'.
  - eapply returns_mono; [apply (vfs_rename_living s src dst Hl); tauto|]. intros [r s'] Hl'. apply returns_Done. exact Hl'.
  - eapply returns_mono; [apply (vfs_chdir_living s p Hl); tauto|]. intros [r s'] Hl'. apply returns_Done. exact Hl'.
Qed.

Lemma reached_living s s' : living s -> reached s s' -> living s'.
Proof. intros Hl. induction 1 as [|s1 c s2 _ IH Hc E]; [exact Hl|]. exact (returns_eq _ _ _ (perform_living s1 c IH Hc) E). Qed.

(** C11: Whatever calls are made on the file system, in any order and with paths that lead
    anywhere or nowhere, each returns, and the tree stays well formed: its links agree, the
    names of siblings differ, every file has a live block of its own in the heap that its
    size fits, and the working directory stays an absolute path.

    The calls are those that fit the buffers of [vfs.c] ([fitting]): a path has at most 127
    characters, a new name is shorter than [name_room], which is at most 127, and [vfs_chdir]
    goes only to where the normalised path has at most [cwd_room] characters, which is at
    most 125.  Outside these bounds it is not true of the code: [normalize_path] writes
    past the end of its buffer for a long path behind a long working directory. *)
Theorem vfs_calls_stay_living s s' :
  living s -> reached s s' ->
  living s' /\ forall c, fitting s' c -> returns (perform c s') (fun s2 => living s2 /\ reached s s2).
Proof.
  intros Hl Hr. pose proof (reached_living s s' Hl Hr) as Hl'. split; [exact Hl'|]. intros c Hc.
  destruct (perform_living s' c Hl' Hc) as (s2 & E & Hl2). exists s2. split; [exact E|]. split; [exact Hl2|].
  exact (reached_call s s' c s2 Hr Hc E).
Qed.
End Live.

(** ** Two bounds

    The desktop's: names that fit the columns of the file manager and the line [filemanager.c]
    builds, and a working directory that leaves room for the prompt in the line of
    [terminal.c].  And the largest. *)
#[export, refine] Instance desk_room : Room := {| name_room := 20; cwd_room := 25 |}.
Proof. all: lia. Defined.

Lemma desk_names {K} (s : @vfs K) i : browsable s -> (i < count s)%nat -> (length (name_at (nodes s) i) < 20)%nat.
Proof. intros Hb. exact (br_names s Hb i). Qed.

Lemma desk_cwd {K} (s : @vfs K) : browsable s -> absolute (cwd s) /\ (length (cwd s) <= 25)%nat.
Proof. exact (br_cwd s). Qed.

#[refine] Definition wide_room : Room := {| name_room := 127; cwd_room := 125 |}.
Proof. all: lia. Defined.

(** ** Witness: on the tree of [VfsOps.v], a directory with a name of 120 characters is made
    and entered, and the file above it is moved into it *)
Lemma demo_living_in (R : Room) : (20 <= name_room)%nat -> (25 <= cwd_room)%nat -> living demo_vfs.
Proof.
  intros Hn Hc.
  split; [|exact demo_store]. split; [exists demo_kids; exact demo_tree| |].
  - intros [|[|i]] Hi; [..|change (count demo_vfs) with 2%nat in Hi; lia];
      (eapply Nat.lt_le_trans; [|exact Hn]); apply Nat.ltb_lt; vm_compute; reflexivity.
  - split; [|etransitivity; [|exact Hc]; apply Nat.leb_le; reflexivity]. split; [reflexivity|]. split; [apply Nat.leb_le; reflexivity|].
    vm_compute. repeat constructor; discriminate.
Qed.

Lemma demo_living : living demo_vfs.
Proof. apply demo_living_in; apply Nat.leb_le; reflexivity. Qed.

Ltac typed_text := split; [vm_compute; repeat constructor; discriminate|apply Nat.leb_le; vm_compute; reflexivity].

Definition long_name : list Z := replicate 120 100.

Definition demo_calls (s : @vfs numbered) : outcome vfs :=
  s ← perform (Mkdir long_name) s; s ← perform (Chdir (chars "./" ++ long_name)) s; perform (Rename (chars "../motd") (chars "new")) s.

Lemma vfs_calls_stay_living_witness :
  returns (demo_calls demo_vfs) (fun s => living (R := wide_room) s /\ cwd s = slash :: long_name).
Proof.
  pose proof (demo_living_in wide_room ltac:(apply Nat.leb_le; reflexivity) ltac:(apply Nat.leb_le; reflexivity)) as Hl.
  destruct (vfs_calls_stay_living (R := wide_room) demo_vfs demo_vfs Hl (reached_start _)) as [_ Hstep].
  destruct (Hstep (Mkdir long_name)) as (s1 & E1 & _ & Hr1); [split; [typed_text|apply Nat.ltb_lt; vm_compute; reflexivity]|].
  pose proof E1 as Ev1. vm_compute in Ev1. injection Ev1 as Ev1.
  destruct (vfs_calls_stay_living (R := wide_room) demo_vfs s1 Hl Hr1) as [_ Hstep1].
  destruct (Hstep1 (Chdir (chars "./" ++ long_name))) as (s2 & E2 & _ & Hr2);
    [split; [typed_text|rewrite <- Ev1; vm_compute; reflexivity]|].
  pose proof E2 as Ev2. rewrite <- Ev1 in Ev2. vm_compute in Ev2. injection Ev2 as Ev2.
  destruct (vfs_calls_stay_living (R := wide_room) demo_vfs s2 Hl Hr2) as [_ Hstep2].
  destruct (Hstep2 (Rename (chars "../motd") (chars "new"))) as (s3 & E3 & Hl3 & _);
    [split; [typed_text|split; [typed_text|apply Nat.ltb_lt; vm_compute; reflexivity]]|].
  exists s3. split.
  - unfold demo_calls. rewrite E1, bind_Done, E2, bind_Done. exact E3.
  - split; [exact Hl3|]. rewrite <- Ev2 in E3. vm_compute in E3. injection E3 as <-. reflexivity.
Defined.
