(* ===== verification/VfsBoot.v ===== *)
(** * File system: the state [vfs_init] leaves

    The tree and the store that the theorems of [VfsOps.v] start from: [vfs_init]
    establishes them over any heap with the laws of [BlockAlloc.v], among them the early
    heap of [HeapAlloc.v]. *)
From Stdlib Require Import ZArith Lia Bool String.
From stdpp Require Import base tactics option list numbers gmap.
From S2P Require Import Prelude CInt CString BlockAlloc HeapAlloc Vfs VfsOps.
From S2P Require Heap.
#[local] Close Scope string_scope.
#[local] Open Scope Z_scope.

Section Boot.
Context {H : Type} `{BlockAllocLaws H}.
Implicit Types s : @vfs H.

(** ** A new name *)
Definition unused s (x : list Z) : Prop := forall j, (j < count s)%nat -> name_at (nodes s) j <> x.

Lemma unused_lookup s kids p x : tree s kids -> unused s x -> lookup_child s kids p x = None.
Proof.
  intros Ht Hu. destruct (lookup_child s kids p x) as [j|] eqn:E; [|reflexivity].
  apply lookup_child_Some in E as [Hin Hn]. destruct (Hu j (kids_below _ _ _ _ Ht Hin) Hn).
Qed.

(** What stays of [s]: its paths, its names but [xs], and the types of its nodes. *)
Record kept s s' (xs : list (list Z)) : Prop := {
  kp_tree : exists kids, tree s' kids;
  kp_store : store s';
  kp_paths : forall q j, absolute q -> vfs_resolve s q = Done (Some j) -> vfs_resolve s' q = Done (Some j);
  kp_types : forall j n, (j < count s)%nat -> nodes s !! j = Some n ->
    exists n', nodes s' !! j = Some n' /\ type n' = type n;
  kp_names : forall x, unused s x -> x ∉ xs -> unused s' x;
  kp_cwd : cwd s' = cwd s
}.

(** A node that is added under a new name. *)
Lemma add_unused s kids ty md dir leaf p :
  tree s kids -> store s -> place s dir leaf p -> unused s leaf -> node_count s < 256 ->
  returns (vfs_add ty s (join dir leaf) md) (fun '(r, s') =>
    r = Some (count s) /\ kept s s' [leaf] /\ node_count s' = node_count s + 1 /\
    vfs_resolve s' (join dir leaf) = Done (Some (count s)) /\
    (exists n, nodes s' !! count s = Some n /\ type n = ty /\ data n = 0) /\ heap s' = heap s /\
    file_bytes s' (count s) = [] /\ forall j, (j < count s)%nat -> file_bytes s' j = file_bytes s j).
Proof.
  intros Ht Hs Hpl Hu Hc. destruct (place_walk _ _ _ _ _ Ht Hpl) as [Hw Hlt]. destruct Hpl as [Hd Ho Hp Hl _ Hty].
  destruct (vfs_add_returns s kids dir leaf ty md p Ht Hd Ho Hp Hl Hw Hlt Hty) as ([r s'] & E & Hadd).
  destruct (vfs_add_resolve s kids dir leaf ty md p Ht Hs Hd Ho Hp Hl Hw Hlt Hty) as ([r2 s2] & E2 & Hres).
  rewrite E in E2. injection E2 as <- <-. rewrite E. apply returns_Done.
  rewrite (unused_lookup s kids p leaf Ht Hu) in Hadd. destruct (Z.ltb_spec (node_count s) 256); [|lia].
  destruct Hadd as (-> & Ha & Ht'). destruct Hres as (_ & _ & Hs' & Hmono & Hb & _ & _ & Hr & Hcase).
  destruct Hcase as [(_ & El)|(Hcnt & _ & Hb0 & n & En & Hn & Hnm)];
    [rewrite (unused_lookup s kids p leaf Ht Hu) in El; discriminate|].
  destruct (ad_new _ _ _ _ _ _ _ Ha) as (pn & _ & _ & Enew). rewrite En in Enew.
  assert (Hd0 : data n = 0) by (injection Enew as ->; reflexivity).
  split; [reflexivity|]. split; [|split; [exact Hcnt|split; [exact Hr|split; [eauto|split; [apply (ad_rest _ _ _ _ _ _ _ Ha)|auto]]]]].
  pose proof (added_extends _ _ _ _ _ _ Ha) as Hext. split; [eauto|exact Hs'|exact Hmono| | |].
  - intros j m Hj Em. destruct (Hext j m Hj Em) as (m' & Em' & _ & Hm & _). eauto.
  - intros x Hx Hne j Hj. pose proof (t_count _ _ Ht).
    rewrite (added_count _ _ _ _ _ _ _ Ha) in Hj by lia. destruct (decide (j = count s)) as [->|Hji].
    + rewrite (name_at_Some _ _ _ En), Hnm. intros ->. apply Hne. left.
    + rewrite (name_at_extends s kids) by (first [exact Ht|exact Hext|lia]). apply Hx. lia.
  - apply (ad_rest _ _ _ _ _ _ _ Ha).
Qed.

Lemma same_tree_kept s s' kids i : tree s kids -> same_tree s s' kids i -> kept s s' [].
Proof.
  intros Ht Hsm. assert (Hc : count s' = count s) by (unfold count; rewrite (sm_count _ _ _ _ Hsm); reflexivity).
  split.
  - exists kids. apply Hsm.
  - apply Hsm.
  - intros q j Hq. rewrite (sm_resolve _ _ _ _ Hsm q Hq). auto.
  - intros j n _ En. destruct (sm_node _ _ _ _ Hsm j n En) as (n' & En' & (_ & Hn & _) & _). eauto.
  - intros x Hx _ j Hj. rewrite Hc in Hj. destruct (tree_node _ _ _ Ht Hj) as [n En].
    destruct (sm_node _ _ _ _ Hsm j n En) as (n' & En' & (Hn & _) & _). specialize (Hx j Hj).
    rewrite (name_at_Some _ _ _ En) in Hx. rewrite (name_at_Some _ _ _ En'). unfold nm in *. rewrite Hn. exact Hx.
  - apply Hsm.
Qed.

(** ** The state during the boot *)

(** [path] is a directory; [path] is a file that holds [c]; it holds [text], or nothing when
    there was no memory for it. *)
Definition has_dir s (path : list Z) : Prop :=
  exists i n, vfs_resolve s path = Done (Some i) /\ nodes s !! i = Some n /\ type n = VFS_DIR.
Definition has_content s (path c : list Z) : Prop :=
  exists i n, vfs_resolve s path = Done (Some i) /\ nodes s !! i = Some n /\ type n = VFS_FILE /\ file_bytes s i = c.
Definition has_file s (path text : list Z) : Prop :=
  exists i n, vfs_resolve s path = Done (Some i) /\ nodes s !! i = Some n /\ type n = VFS_FILE /\
    (file_bytes s i = text \/ file_bytes s i = []).

(** [used] are the names, [dirs] the directories and [files] the files so far, with what
    they hold. *)
Record booted s (used dirs : list (list Z)) (files : list (list Z * list Z)) : Prop := {
  bt_tree : exists kids, tree s kids;
  bt_store : store s;
  bt_count : node_count s = Z.of_nat (length used);
  bt_names : forall x, x ∉ used -> unused s x;
  bt_dirs : forall d, d ∈ dirs -> absolute d /\ has_dir s d;
  bt_files : forall f t, (f, t) ∈ files -> absolute f /\ has_content s f t;
  bt_cwd : cwd s = chars "/"
}.

Lemma kept_dir s s' xs d : (exists kids, tree s kids) -> kept s s' xs -> absolute d -> has_dir s d -> has_dir s' d.
Proof.
  intros [kids Ht] Hk Ha (i & n & Er & En & Hn). destruct (resolve_walk s kids d i Ht Ha Er) as [_ Hi].
  destruct (kp_types _ _ _ Hk i n Hi En) as (n' & En' & Hn'). exists i, n'.
  split; [exact (kp_paths _ _ _ Hk d i Ha Er)|]. split; [exact En'|congruence].
Qed.

Lemma kept_file s s' xs f t :
  (exists kids, tree s kids) -> kept s s' xs -> absolute f -> has_content s f t ->
  (forall i, (i < count s)%nat -> vfs_resolve s f = Done (Some i) -> file_bytes s' i = file_bytes s i) ->
  has_content s' f t.
Proof.
  intros [kids Ht] Hk Ha (i & n & Er & En & Hn & Hb) Hkeep. destruct (resolve_walk s kids f i Ht Ha Er) as [_ Hi].
  destruct (kp_types _ _ _ Hk i n Hi En) as (n' & En' & Hn'). exists i, n'.
  split; [exact (kp_paths _ _ _ Hk f i Ha Er)|]. split; [exact En'|]. split; [congruence|].
  rewrite (Hkeep i Hi Er). exact Hb.
Qed.

(** A node can go there next. *)
Record fits (used dirs : list (list Z)) (dir leaf : list Z) : Prop := {
  ft_dir : dir_path dir ∈ dirs;
  ft_ok : dir_ok dir /\ str_ok dir;
  ft_leaf : proper leaf;
  ft_len : (length (join dir leaf) <= 255)%nat;
  ft_new : leaf ∉ used;
  ft_room : (length used < 256)%nat
}.

Lemma fits_place s used dirs files dir leaf :
  booted s used dirs files -> fits used dirs dir leaf -> exists p, place s dir leaf p.
Proof.
  intros Hb [Hd [Hok Hs] Hl Hlen _ _]. destruct (bt_dirs _ _ _ _ Hb _ Hd) as (_ & i & n & Er & En & Hn).
  exists i. split; try assumption. exists n. auto.
Qed.

(** The common part of the two kinds of step. *)
Lemma boot_add s used dirs files ty md dir leaf :
  booted s used dirs files -> fits used dirs dir leaf ->
  returns (vfs_add ty s (join dir leaf) md) (fun '(r, s') =>
    r = Some (count s) /\ kept s s' [leaf] /\ booted s' (leaf :: used) dirs files /\
    vfs_resolve s' (join dir leaf) = Done (Some (count s)) /\
    (exists n, nodes s' !! count s = Some n /\ type n = ty /\ data n = 0) /\ heap s' = heap s /\
    file_bytes s' (count s) = []).
Proof.
  intros Hb Hf. destruct (fits_place _ _ _ _ _ _ Hb Hf) as [p Hpl]. destruct Hb as [Ht Hs Hc Hu Hds Hfs Hw].
  destruct Ht as [kids Ht]. pose proof (ft_room _ _ _ _ Hf) as Hroom.
  destruct (add_unused s kids ty md dir leaf p Ht Hs Hpl (Hu _ (ft_new _ _ _ _ Hf)) ltac:(lia)) as ([r s'] & -> & Hadd).
  apply returns_Done. destruct Hadd as (-> & Hk & Hc' & Hr & Hty & Hh & Hb0 & Hbytes).
  split; [reflexivity|]. split; [exact Hk|]. split; [|auto]. split.
  - apply Hk.
  - apply Hk.
  - cbn [length]. lia.
  - intros x Hx. apply not_elem_of_cons in Hx as [Hxl Hx]. apply (kp_names _ _ _ Hk); [exact (Hu x Hx)|].
    rewrite list_elem_of_singleton. exact Hxl.
  - intros d Hd. destruct (Hds d Hd) as [Ha Hdir]. split; [exact Ha|].
    exact (kept_dir s s' _ d (ex_intro _ kids Ht) Hk Ha Hdir).
  - intros f t Hft. destruct (Hfs f t Hft) as [Ha Hfile]. split; [exact Ha|].
    apply (kept_file s s' _ f t (ex_intro _ kids Ht) Hk Ha Hfile). auto.
  - rewrite (kp_cwd _ _ _ Hk). exact Hw.
Qed.

Lemma fits_absolute used dirs dir leaf : fits used dirs dir leaf -> absolute (join dir leaf).
Proof. intros [_ [Hd Ho] Hl Hlen _ _]. apply join_absolute; assumption. Qed.

Lemma boot_dir_returns s used dirs files dir leaf md :
  booted s used dirs files -> fits used dirs dir leaf ->
  returns (boot_dir s (join dir leaf, md)) (fun s' =>
    booted s' (leaf :: used) (join dir leaf :: dirs) files /\ heap s' = heap s).
Proof.
  intros Hb Hf. unfold boot_dir, vfs_mkdir. cbn [fst snd]. apply returns_bind.
  eapply returns_mono; [exact (boot_add s used dirs files VFS_DIR md dir leaf Hb Hf)|].
  intros [r s'] (-> & _ & Hb' & Hr & (n & En & Hn & _) & Hh & _). apply returns_Done. split; [|exact Hh]. destruct Hb' as [Ht Hs Hc Hu Hds Hfs Hw].
  split; try assumption. intros d Hd. apply elem_of_cons in Hd as [->|Hd]; [|exact (Hds d Hd)].
  split; [exact (fits_absolute _ _ _ _ Hf)|]. exists (count s), n. auto.
Qed.

(** What a new file holds when the block for it is at [p]. *)
Definition stored (p : Z) (text : list Z) : list Z := if p =? 0 then [] else text.

(** The first write to a file: whether it succeeds is up to the allocation. *)
Lemma first_write_heap s i n buf sz p h r s' :
  nodes s !! i = Some n -> type n = VFS_FILE -> data n = 0 -> 0 <= sz <= Z.of_nat (length buf) -> sz < 2 ^ 62 ->
  ba_alloc (heap s) (sz + 1) = Done (p, h) -> vfs_write s (Some i) buf sz = Done (r, s') ->
  heap s' = h /\ r = if p =? 0 then -1 else i32 sz.
Proof.
  intros En Hty Hd Hsz Hmax Ep. unfold vfs_write. rewrite (node_at_Done _ _ _ En), bind_Done, Hty, Hd.
  change (VFS_FILE =? VFS_FILE) with true. change (0 =? 0) with true. cbn [negb]. rewrite u64_small, Ep, bind_Done by lia.
  destruct (Z.eqb_spec p 0); [intros [= <- <-]; auto|]. destruct (Z.ltb_spec (Z.of_nat (length buf)) sz); [lia|].
  cbn [mret outcome_ret]. rewrite bind_Done. intros [= <- <-]. auto.
Qed.

(** A new file and a write of [sz] bytes of [buf] to it. *)
Lemma create_write_returns s used dirs files dir leaf md buf sz :
  booted s used dirs files -> fits used dirs dir leaf -> 0 <= sz <= Z.of_nat (length buf) -> sz < 2 ^ 31 ->
  returns ('(n, s) ← vfs_create s (join dir leaf) md;
           match n with None => mret s | Some i => '(_, s) ← vfs_write s (Some i) buf sz; mret s end)
    (fun s' => exists p, ba_alloc (heap s) (sz + 1) = Done (p, heap s') /\
       booted s' (leaf :: used) dirs ((join dir leaf, stored p (take (Z.to_nat sz) buf)) :: files)).
Proof.
  intros Hb Hf Hsz Hmax. unfold vfs_create. apply returns_bind. pose proof (fits_absolute _ _ _ _ Hf) as Ha.
  eapply returns_mono; [exact (boot_add s used dirs files VFS_FILE md dir leaf Hb Hf)|].
  intros [r s1] (-> & Hk1 & Hb1 & Hr & (n & En & Hn & Hd0) & Hh1 & Hb0). destruct Hb1 as [[kids Ht] Hs Hc Hu Hds Hfs Hcwd].
  destruct (resolve_walk s1 kids _ _ Ht Ha Hr) as [_ Hi]. apply returns_bind.
  destruct (vfs_write_same s1 kids (count s) n buf sz Ht Hs Hi En Hsz ltac:(lia)) as ([r s'] & Ew & Hsm & Hw).
  rewrite Ew. apply returns_Done, returns_Done. pose proof (same_tree_kept _ _ _ _ Ht Hsm) as Hk.
  assert (Hother : forall f t, (f, t) ∈ files -> has_content s f t) by (intros f t Hft; apply Hb, Hft).
  destruct (ba_alloc_post (heap s) (sz + 1) (st_ok _ (bt_store _ _ _ _ Hb)) ltac:(lia)) as ([p h] & Ep & _).
  destruct (first_write_heap s1 (count s) n buf sz p h r s' En Hn Hd0 Hsz ltac:(lia) ltac:(rewrite Hh1; exact Ep) Ew) as [Hh' Er].
  exists p. split; [rewrite Hh'; exact Ep|]. split.
  - apply Hk.
  - apply Hk.
  - rewrite (sm_count _ _ _ _ Hsm). exact Hc.
  - intros x Hx. apply (kp_names _ _ _ Hk); [exact (Hu x Hx)|]. apply not_elem_of_nil.
  - intros d Hd. destruct (Hds d Hd) as [Had Hdir]. split; [exact Had|].
    exact (kept_dir s1 s' _ d (ex_intro _ kids Ht) Hk Had Hdir).
  - intros f t Hft. apply elem_of_cons in Hft as [[= -> ->]|Hft].
    + split; [exact Ha|]. destruct (sm_node _ _ _ _ Hsm _ n En) as (n' & En' & (_ & Hn' & _) & _).
      exists (count s), n'. split; [exact (kp_paths _ _ _ Hk _ _ Ha Hr)|]. split; [exact En'|]. split; [congruence|].
      unfold stored. destruct (Z.eqb_spec p 0); subst r; destruct Hw as [(_ & E & ->)|(E & ->)]; try reflexivity; try exact Hb0;
        rewrite i32_small in E by lia; lia.
    + destruct (Hfs f t Hft) as [Haf Hfile]. split; [exact Haf|].
      apply (kept_file s1 s' _ f t (ex_intro _ kids Ht) Hk Haf Hfile). intros j Hj Ej.
      apply (sm_bytes _ _ _ _ Hsm j Hj). intros ->.
      destruct (Hother f t Hft) as (k & _ & Ek & _), (bt_tree _ _ _ _ Hb) as [kids0 Ht0].
      destruct (resolve_walk s kids0 f k Ht0 Haf Ek) as [_ Hk0].
      pose proof (kp_paths _ _ _ Hk1 f k Haf Ek) as Ek1. rewrite Ek1 in Ej. injection Ej as ->. lia.
  - rewrite (sm_cwd _ _ _ _ Hsm). exact Hcwd.
Qed.

Lemma boot_file_returns s used dirs files dir leaf text :
  booted s used dirs files -> fits used dirs dir leaf -> Z.of_nat (length text) < 2 ^ 31 ->
  returns (boot_file s (join dir leaf, text)) (fun s' =>
    exists p, ba_alloc (heap s) (Z.of_nat (length text) + 1) = Done (p, heap s') /\
      booted s' (leaf :: used) dirs ((join dir leaf, stored p text) :: files)).
Proof.
  intros Hb Hf Hlen.
  eapply returns_mono; [apply (create_write_returns s used dirs files dir leaf 420 (text ++ [0]) (Z.of_nat (length text)) Hb Hf)|].
  - rewrite length_app. cbn [length]. lia.
  - exact Hlen.
  - intros s'. rewrite Nat2Z.id, take_app_le, take_ge by lia. auto.
Qed.

(** [vfs_mkdir] of a directory that is there changes nothing. *)
Lemma mkdir_existing s used dirs files dir leaf md :
  booted s used dirs files -> join dir leaf ∈ dirs -> dir_path dir ∈ dirs ->
  dir_ok dir -> str_ok dir -> proper leaf -> (length (join dir leaf) <= 255)%nat ->
  returns (vfs_mkdir s (join dir leaf) md) (fun '(_, s') => s' = s).
Proof.
  intros Hb Hin Hd Hok Hstr Hpr Hlen. destruct (bt_tree _ _ _ _ Hb) as [kids Ht].
  destruct (bt_dirs _ _ _ _ Hb _ Hd) as (_ & p & n & Er & En & Hn).
  destruct (bt_dirs _ _ _ _ Hb _ Hin) as (_ & i & _ & Ei & _).
  assert (Hpl : place s dir leaf p) by (split; eauto).
  destruct (place_walk _ _ _ _ _ Ht Hpl) as [Hw Hlt].
  rewrite (resolve_join s kids dir leaf Ht Hok Hstr Hpr Hlen), Hw in Ei. injection Ei as Ei.
  eapply returns_mono; [apply (vfs_add_returns s kids dir leaf VFS_DIR md p Ht Hok Hstr Hpr Hlen Hw Hlt); eauto|].
  intros [r s']. rewrite Ei. intros [_ ->]. reflexivity.
Qed.

(** ** The whole boot *)
Lemma run_all_cons {A} (f : @vfs H -> A -> outcome (@vfs H)) a l s s1 :
  f s a = Done s1 -> run_all f (a :: l) s = run_all f l s1.
Proof. intros E. unfold run_all. cbn [foldl]. cbn [mret outcome_ret]. rewrite bind_Done, E. reflexivity. Qed.

(** A list of places that fit one after the other. *)
Fixpoint dirs_fit (used dirs : list (list Z)) (l : list (list Z * list Z * Z)) : Prop :=
  match l with
  | [] => True
  | (dir, leaf, _) :: l' =>
      fits used dirs dir leaf /\ dirs_fit (leaf :: used) (join dir leaf :: dirs) l'
  end.
Fixpoint files_fit (used dirs : list (list Z)) (l : list (list Z * list Z * list Z)) : Prop :=
  match l with
  | [] => True
  | (dir, leaf, text) :: l' =>
      fits used dirs dir leaf /\ Z.of_nat (length text) < 2 ^ 31 /\ files_fit (leaf :: used) dirs l'
  end.

Definition leaf_of {A} (x : list Z * list Z * A) : list Z := snd (fst x).
Definition joined {A} (x : list Z * list Z * A) : list Z * A := (join (fst (fst x)) (leaf_of x), snd x).

Lemma run_dirs l : forall s used dirs files,
  booted s used dirs files -> dirs_fit used dirs l ->
  returns (run_all boot_dir (map joined l) s) (fun s' =>
    booted s' (rev (map leaf_of l) ++ used) (rev (map fst (map joined l)) ++ dirs) files /\ heap s' = heap s).
Proof.
  induction l as [|[[dir leaf] md] l IH]; intros s used dirs files Hb Hf; cbn [dirs_fit map] in *.
  - apply returns_Done. auto.
  - destruct Hf as [Hf Hl]. destruct (boot_dir_returns s used dirs files dir leaf md Hb Hf) as (s1 & E & Hb1 & Hh1).
    rewrite (run_all_cons _ _ _ _ s1) by exact E. cbn [joined leaf_of fst snd rev].
    rewrite <- !app_assoc, <- Hh1. exact (IH s1 _ _ _ Hb1 Hl).
Qed.

(** What the files of a list hold when blocks of their sizes are allocated one after the
    other: their texts, or nothing where the heap has no block. *)
Fixpoint seeds (h : H) (l : list (list Z * list Z)) : outcome (list (list Z * list Z) * H) :=
  match l with
  | [] => mret ([], h)
  | (f, text) :: l' =>
      '(p, h) ← ba_alloc h (Z.of_nat (length text) + 1);
      '(fl, h) ← seeds h l';
      mret ((f, stored p text) :: fl, h)
  end.

Lemma seeds_In l : forall h fl h', seeds h l = Done (fl, h') ->
  forall f t, (f, t) ∈ l -> exists c, (f, c) ∈ fl /\ (c = t \/ c = []).
Proof.
  induction l as [|[f0 t0] l IH]; intros h fl h' E f t Hft; [apply elem_of_nil in Hft as []|]. cbn [seeds] in E.
  apply bind_Done_inv in E as ([p h1] & _ & E). apply bind_Done_inv in E as ([fl1 h2] & E1 & E). injection E as <- <-.
  apply elem_of_cons in Hft as [[= -> ->]|Hft].
  - exists (stored p t0). split; [left|]. unfold stored. destruct (p =? 0); auto.
  - destruct (IH _ _ _ E1 f t Hft) as (c & Hc & Hcase). exists c. split; [right; exact Hc|exact Hcase].
Qed.

Lemma seeds_paths l : forall h fl h', seeds h l = Done (fl, h') -> map fst fl = map fst l.
Proof.
  induction l as [|[f0 t0] l IH]; intros h fl h' E; cbn [seeds] in E; [injection E as <- _; reflexivity|].
  apply bind_Done_inv in E as ([p h1] & _ & E). apply bind_Done_inv in E as ([fl1 h2] & E1 & E). injection E as <- _.
  cbn [map fst]. f_equal. exact (IH _ _ _ E1).
Qed.

Lemma run_files l : forall s used dirs files,
  booted s used dirs files -> files_fit used dirs l ->
  returns (run_all boot_file (map joined l) s) (fun s' =>
    exists fl, seeds (heap s) (map joined l) = Done (fl, heap s') /\
      booted s' (rev (map leaf_of l) ++ used) dirs (rev fl ++ files)).
Proof.
  induction l as [|[[dir leaf] text] l IH]; intros s used dirs files Hb Hf; cbn [files_fit map] in *.
  - apply returns_Done. exists []. auto.
  - destruct Hf as (Hf & Hlen & Hl).
    destruct (boot_file_returns s used dirs files dir leaf text Hb Hf Hlen) as (s1 & E & p & Ep & Hb1).
    rewrite (run_all_cons _ _ _ _ s1) by exact E. eapply returns_mono; [exact (IH s1 _ _ _ Hb1 Hl)|].
    intros s' (fl & Efl & Hb'). exists ((join dir leaf, stored p text) :: fl). cbn [rev]. rewrite <- !app_assoc.
    split; [|exact Hb']. cbn [joined leaf_of fst snd seeds]. rewrite Ep, bind_Done, Efl. reflexivity.
Qed.

(** The root alone. *)
Lemma root_booted s :
  ba_ok (heap s) ->
  returns (alloc_node (mk_vfs (replicate 256 zero_node) 0 (root s) (cwd s) (blocks s) (heap s)) (chars "/") VFS_DIR 493)
    (fun '(r, s1) => booted (mk_vfs (nodes s1) (node_count s1) r (chars "/") (blocks s1) (heap s1))
                       [chars "/"] [chars "/"] [] /\ heap s1 = heap s).
Proof.
  intros Hok. unfold alloc_node. cbn [node_count]. change (VFS_MAX_NODES <=? 0) with false. cbv iota.
  rewrite (upd_node_Done _ _ _ zero_node) by reflexivity. rewrite bind_Done. apply returns_Done.
  cbn [nodes node_count root cwd blocks heap set_nodes].
  split; [|reflexivity]. set (s' := mk_vfs _ _ _ _ _ _). set (n0 := new_node (chars "/") VFS_DIR 493).
  assert (E0 : nodes s' !! 0%nat = Some n0) by reflexivity.
  assert (Hn : forall i n, (i < count s')%nat -> nodes s' !! i = Some n -> i = 0%nat /\ n = n0).
  { intros i n Hi En. change (count s') with 1%nat in Hi. assert (i = 0%nat) as -> by lia.
    rewrite E0 in En. injection En as <-. auto. }
  assert (Ht : tree s' (fun _ => [])).
  { split.
    - reflexivity.
    - cbn [node_count s']. lia.
    - reflexivity.
    - exists n0. auto.
    - intros i n Hi En. destruct (Hn i n Hi En) as [_ ->]. reflexivity.
    - intros i j Hj. apply elem_of_nil in Hj as [].
    - intros i j Hj. apply elem_of_nil in Hj as [].
    - intros i. constructor.
    - intros i. constructor.
    - intros i n p Hi En. destruct (Hn i n Hi En) as [_ ->]. discriminate.
    - intros i n Hi En. destruct (Hn i n Hi En) as [_ ->]. apply new_node_length. }
  split.
  - eauto.
  - split.
    + exact Hok.
    + intros i n Hi En. destruct (Hn i n Hi En) as [_ ->]. cbn. lia.
    + intros i n Hi En. destruct (Hn i n Hi En) as [_ ->]. intros Hd. destruct (Hd eq_refl).
    + intros i j n m Hi Hj En Em. destruct (Hn i n Hi En) as [-> _], (Hn j m Hj Em) as [-> _]. reflexivity.
  - reflexivity.
  - intros x Hx j Hj. change (count s') with 1%nat in Hj. assert (j = 0%nat) as -> by lia.
    rewrite (name_at_Some _ _ _ E0). intros <-. apply Hx. vm_compute. left.
  - intros d Hd. apply list_elem_of_singleton in Hd as ->. split.
    + split; [reflexivity|]. split; [apply Nat.leb_le; reflexivity|vm_compute; repeat constructor; discriminate].
    + exists 0%nat, n0. auto.
  - intros f t Hft. apply elem_of_nil in Hft as [].
  - reflexivity.
Qed.
End Boot.

(** ** The boot lists of [vfs_init] *)
Definition properb (leaf : list Z) : bool :=
  bool_decide ((leaf <> []) /\ (slash ∉ leaf) /\ (length leaf <= 127)%nat /\ Forall (fun c => c <> 0) leaf /\
    (leaf <> chars ".") /\ (leaf <> chars "..")).

Definition fitsb (used dirs : list (list Z)) (dir leaf : list Z) : bool :=
  properb leaf &&
  bool_decide (dir_path dir ∈ dirs /\ (dir = [] \/ head dir = Some slash) /\ Forall (fun c => c <> 0) dir /\
    (length (join dir leaf) <= 255)%nat /\ (leaf ∉ used) /\ (length used < 256)%nat).

Lemma fitsb_fits used dirs dir leaf : fitsb used dirs dir leaf = true -> fits used dirs dir leaf.
Proof.
  unfold fitsb, properb. rewrite andb_true_iff, !bool_decide_eq_true.
  intros [(H1 & H2 & H3 & H4 & H5 & H6) (H7 & H8 & H9 & H10 & H11 & H12)].
  split; [exact H7|split; assumption|split; assumption|exact H10|exact H11|exact H12].
Qed.

(** The directory and the name of every entry of [boot_dirs] and [boot_files]. *)
Definition dir_plan : list (list Z * list Z * Z) :=
  [([], chars "bin", 493); ([], chars "etc", 493); ([], chars "home", 493);
   (chars "/home", chars "user", 493); ([], chars "tmp", 511); ([], chars "var", 493);
   ([], chars "usr", 493); (chars "/usr", chars "share", 493); ([], chars "dev", 493);
   ([], chars "proc", 493); (chars "/var", chars "lib", 493);
   (chars "/var/lib", chars "h3pkg", 493); (chars "/usr/share", chars "packages", 493)].
Definition file_plan : list (list Z * list Z * list Z) :=
  [(chars "/etc", chars "motd", motd_text); (chars "/etc", chars "h3os-release", release_text);
   (chars "/var/lib/h3pkg", chars "db", pkgdb_text)].

Lemma dir_plan_joined : map joined dir_plan = boot_dirs.
Proof. vm_compute. reflexivity. Qed.
Lemma file_plan_joined : map joined file_plan = boot_files.
Proof. vm_compute. reflexivity. Qed.

Ltac plan := cbn [dirs_fit files_fit dir_plan file_plan];
  repeat (split; [first [apply fitsb_fits; vm_compute; reflexivity|vm_compute; reflexivity]|]); exact I.

Lemma dir_plan_fits : dirs_fit [chars "/"] [chars "/"] dir_plan.
Proof. plan. Qed.
Lemma file_plan_fits :
  files_fit (rev (map leaf_of dir_plan) ++ [chars "/"]) (rev (map fst (map joined dir_plan)) ++ [chars "/"]) file_plan.
Proof. plan. Qed.

Lemma elem_of_rev {A} (x : A) l : x ∈ l -> x ∈ rev l.
Proof. rewrite !list_elem_of_In. apply in_rev. Qed.

Section BootProperty.
Context {H : Type} `{BlockAllocLaws H}.
Implicit Types s : @vfs H.

(** The names, the directories and the files after [vfs_init]. *)
Definition boot_names : list (list Z) := rev (map leaf_of file_plan) ++ rev (map leaf_of dir_plan) ++ [chars "/"].
Definition boot_paths : list (list Z) := rev (map fst boot_dirs) ++ [chars "/"].

Lemma vfs_init_returns s :
  ba_ok (heap s) -> returns (vfs_init s) (fun s' =>
    exists fl, seeds (heap s) boot_files = Done (fl, heap s') /\ booted s' boot_names boot_paths (rev fl ++ [])).
Proof.
  intros Hok. unfold vfs_init. apply returns_bind.
  eapply returns_mono; [exact (root_booted s Hok)|]. intros [r s1] [Hb1 Hh1]. apply returns_bind.
  unfold boot_paths. rewrite <- dir_plan_joined. eapply returns_mono; [exact (run_dirs dir_plan _ _ _ _ Hb1 dir_plan_fits)|].
  intros s2 [Hb2 Hh2]. cbn [heap] in Hh2. rewrite Hh1 in Hh2. rewrite <- file_plan_joined, <- Hh2.
  exact (run_files file_plan _ _ _ _ Hb2 file_plan_fits).
Qed.

(** C10: [vfs_init], whatever was in the node table and over any heap that keeps the laws
    of [BlockAlloc.v], returns a file system with a well-formed tree and store, 17 nodes,
    every directory of the boot list at its path, and every file of it at its path.  The
    heap is the one that remains when a block is allocated for each file, of the length of
    its text and a NUL, one after the other ([seeds]); a read of up to [mx] bytes delivers
    the text of every file whose allocation succeeded, and nothing of the others. *)
Theorem vfs_init_boots s mx :
  ba_ok (heap s) -> 0 <= mx < 2 ^ 31 ->
  returns (vfs_init s) (fun s' =>
    (exists kids, tree s' kids) /\ store s' /\ node_count s' = 17 /\
    (forall d m, (d, m) ∈ boot_dirs -> has_dir s' d) /\
    exists fl, seeds (heap s) boot_files = Done (fl, heap s') /\ map fst fl = map fst boot_files /\
      forall f c, (f, c) ∈ fl -> exists i, vfs_resolve s' f = Done (Some i) /\
        vfs_read s' (Some i) mx = Done (Z.min (Z.of_nat (length c)) mx, take (Z.to_nat mx) c)).
Proof.
  intros Hok Hmx. eapply returns_mono; [exact (vfs_init_returns s Hok)|].
  intros s' (fl & Efl & [Ht Hs Hc _ Hds Hfs _]). split; [exact Ht|]. split; [exact Hs|]. split; [exact Hc|]. split.
  { intros d m Hd. apply (list_elem_of_fmap_2 fst) in Hd. apply Hds, elem_of_app. left. exact (elem_of_rev _ _ Hd). }
  exists fl. split; [exact Efl|]. split; [exact (seeds_paths _ _ _ _ Efl)|]. intros f c Hfc. destruct Ht as [kids Ht].
  destruct (Hfs f c) as (Ha & i & n & Er & En & Hty & Hb); [apply elem_of_app; left; exact (elem_of_rev _ _ Hfc)|].
  destruct (resolve_walk s' kids f i Ht Ha Er) as [_ Hi]. exists i. split; [exact Er|].
  rewrite (vfs_read_returns s' i n mx Hs Hi En Hty), <- (file_bytes_length s' i n Hs Hi En), Hb by lia.
  rewrite i32_small by lia. reflexivity.
Qed.
End BootProperty.

(** The file system over the heap that [heap_init] makes of a static arena. *)
Definition boot_on_arena (arena : Z) : outcome (@vfs Heap.heap) :=
  h ← Heap.heap_init arena (Heap.mk_heap ∅ 0 0 0 0); vfs_init (mk_vfs [] 0 None [] ∅ h).

(** There, the memory suffices. *)
Lemma vfs_init_boots_witness :
  returns (boot_on_arena 0x200000) (fun s' =>
    (exists kids, tree s' kids) /\ store s' /\
    forall f t, (f, t) ∈ boot_files -> exists i, vfs_resolve s' f = Done (Some i) /\
      vfs_read s' (Some i) 4096 = Done (Z.min (Z.of_nat (length t)) 4096, take 4096 t)).
Proof.
  unfold boot_on_arena. destruct (heap_init_returns 0x200000 (Heap.mk_heap ∅ 0 0 0 0)) as (h & E & Hh);
    [vm_compute; reflexivity|vm_compute; discriminate|]. rewrite E, bind_Done. vm_compute in E. injection E as Eh.
  eapply returns_mono; [apply (vfs_init_boots (mk_vfs [] 0 None [] ∅ h) 4096); [eexists; exact Hh|lia]|].
  intros s' (Ht & Hs & _ & _ & fl & Efl & _ & Hfs). split; [exact Ht|]. split; [exact Hs|]. cbn [heap] in Efl.
  assert (fl = boot_files) as ->.
  { apply (f_equal (fun r => match r with Done (l, _) => l | _ => [] end)) in Efl. rewrite <- Efl, <- Eh. vm_compute. reflexivity. }
  exact Hfs.
Defined.
