(* ===== verification/Mem.v ===== *)
(** * Wider accesses to the byte memory of [CString.v]

    Little-endian loads and stores of [k] bytes, as the x86 code does them through
    pointers to [u16], [u32] and [u64]. *)
From Stdlib Require Import ZArith Lia Bool.
From stdpp Require Import base tactics option list numbers gmap.
From S2P Require Import Prelude CInt CString.

Fixpoint ld_le (k : nat) (m : mem) (p : Z) : outcome Z :=
  match k with
  | O => mret 0
  | S k' => b ← ld m p; r ← ld_le k' m (p + 1); mret (b + 256 * r)
  end.

Fixpoint st_le (k : nat) (m : mem) (p v : Z) : outcome mem :=
  match k with
  | O => mret m
  | S k' => m' ← st m p (v mod 256); st_le k' m' (p + 1) (v / 256)
  end.

Definition ld16 : mem -> Z -> outcome Z := ld_le 2.
Definition ld32 : mem -> Z -> outcome Z := ld_le 4.
Definition ld64 : mem -> Z -> outcome Z := ld_le 8.
Definition st16 : mem -> Z -> Z -> outcome mem := st_le 2.
Definition st32 : mem -> Z -> Z -> outcome mem := st_le 4.
Definition st64 : mem -> Z -> Z -> outcome mem := st_le 8.

(** ** Loads depend on the bytes they read only *)
Lemma ld_le_ext k m m' p :
  (forall a, p <= a < p + Z.of_nat k -> m' !! a = m !! a) -> ld_le k m' p = ld_le k m p.
Proof.
  revert p. induction k as [|k IH]; intros p He; [reflexivity|]. cbn [ld_le]. unfold ld.
  rewrite He by lia. destruct (m !! p); [|reflexivity]. rewrite !bind_Done.
  rewrite IH; [reflexivity|]. intros a Ha. apply He. lia.
Qed.

Lemma ld_le_frame k m m' p q n :
  same_outside q n m m' -> p + Z.of_nat k <= q \/ q + n <= p -> ld_le k m' p = ld_le k m p.
Proof. intros Hs Hd. apply ld_le_ext. intros a Ha. apply Hs. lia. Qed.

Lemma ld_le_mapped k m p :
  mapped m p (Z.of_nat k) -> exists v, ld_le k m p = Done v.
Proof.
  revert p. induction k as [|k IH]; intros p Hm; [eexists; reflexivity|]. cbn [ld_le]. unfold ld.
  destruct (Hm p ltac:(lia)) as [b ->]. rewrite bind_Done.
  destruct (IH (p + 1)) as [v ->]; [intros a Ha; apply Hm; lia|]. eexists. reflexivity.
Qed.

(** ** A store is read back *)
Lemma st_le_returns k m p v :
  mapped m p (Z.of_nat k) ->
  returns (st_le k m p v) (fun m' =>
    same_outside p (Z.of_nat k) m m' /\ (forall q n, mapped m q n -> mapped m' q n) /\
    ld_le k m' p = Done (v mod 256 ^ Z.of_nat k)).
Proof.
  revert m p v. induction k as [|k IH]; intros m p v Hm.
  { apply returns_Done. split; [intros a _; reflexivity|]. split; [auto|]. cbn [ld_le]. rewrite Z.mod_1_r. reflexivity. }
  cbn [st_le]. rewrite st_mapped by (apply Hm; lia). rewrite bind_Done. set (m1 := <[p := v mod 256]> m).
  assert (Hm1 : forall q n, mapped m q n -> mapped m1 q n)
    by (intros q n Hq; apply mapped_insert; exact Hq).
  eapply returns_mono; [apply (IH m1 (p + 1) (v / 256)); intros a Ha; apply (Hm1 p (Z.of_nat (S k)) Hm); lia|].
  intros m' (Hout & Hmap & Hld). split; [|split].
  - intros a Ha. rewrite Hout by lia. apply lookup_insert_ne. lia.
  - intros q n Hq. apply Hmap, Hm1, Hq.
  - cbn [ld_le]. unfold ld. rewrite Hout by lia. unfold m1 at 1. rewrite lookup_insert_eq, bind_Done.
    rewrite Hld, bind_Done. unfold mret, outcome_ret. f_equal.
    replace (256 ^ Z.of_nat (S k)) with (256 * 256 ^ Z.of_nat k)
      by (rewrite Nat2Z.inj_succ, Z.pow_succ_r by lia; reflexivity).
    rewrite Z.rem_mul_r by lia. reflexivity.
Qed.

Lemma st32_returns m p v :
  mapped m p 4 -> returns (st32 m p v) (fun m' =>
    same_outside p 4 m m' /\ (forall q n, mapped m q n -> mapped m' q n) /\ ld32 m' p = Done (u32 v)).
Proof. exact (st_le_returns 4 m p v). Qed.
