(* ===== verification/Start.v ===== *)
(** * Boot code: [boot/boot.asm]

    The Multiboot2 header the boot loader looks for, and the code it jumps to: the page
    tables, the switch to long mode, the call of [kernel_main]. *)
From Stdlib Require Import ZArith Lia Bool.
From stdpp Require Import base tactics option list numbers gmap.
From S2P Require Import Prelude CInt CString Mem.
From S2P Require Vmm.
#[local] Open Scope Z_scope.

(** ** The header *)
Definition MB2_MAGIC : Z := 0xE85250D6.
Definition MB2_LOADED : Z := 0x36D76289.

(** Little-endian bytes; [align 8] of the assembler pads with [nop]. *)
Definition dw (v : Z) : list Z := [v mod 256; v / 256 mod 256].
Definition dd (v : Z) : list Z := [v mod 256; v / 256 mod 256; v / 65536 mod 256; v / 16777216 mod 256].
Definition nop : Z := 0x90.
Definition header_length : Z := 48.
Definition multiboot_header : list Z :=
  dd MB2_MAGIC ++ dd 0 ++ dd header_length ++ dd (u32 (- (MB2_MAGIC + 0 + header_length))) ++
  dw 5 ++ dw 1 ++ dd 20 ++ dd 1280 ++ dd 720 ++ dd 32 ++ replicate 4 nop ++
  dw 0 ++ dw 0 ++ dd 8.

(** ** The entry *)

(** The registers the code sets up. *)
Record control := mk_control { cr0 : Z; cr3 : Z; cr4 : Z; efer : Z }.

(** What [kernel_main] is called with. *)
Record entry := mk_entry { e_rdi : Z; e_rsp : Z; e_control : control; e_mem : mem }.

Section Start.
(** Where the linker puts the stack and the three tables. *)
Context (stack_top boot_pml4 boot_pdpt boot_pd : Z).

(** [.map_loop]: one 2 MiB page in each turn; the store is of 32 bits. *)
Definition map_loop (m : mem) : outcome mem :=
  loop 512 (fun '(ecx, m) =>
    m ← st32 m (boot_pd + ecx * 8) (Z.lor (u32 (Z.shiftl ecx 21)) 0x83);
    let ecx := ecx + 1 in
    mret (if ecx <? 512 then inl (ecx, m) else inr m)) (0, m).

(** [_start], entered with [eax] and [ebx]; [None] when it halts for lack of the magic.
    The entry is the state at [call kernel_main], before it pushes the return address. *)
Definition start (eax ebx : Z) (m : mem) (c : control) : outcome (option entry) :=
  let esi := ebx in
  if negb (eax =? MB2_LOADED) then mret None
  else
    m ← st32 m boot_pml4 (Z.lor boot_pdpt 0x03);
    m ← st32 m boot_pdpt (Z.lor boot_pd 0x03);
    m ← map_loop m;
    let c := mk_control (Z.lor (cr0 c) (Z.shiftl 1 31)) boot_pml4 (Z.lor (cr4 c) (Z.shiftl 1 5)) (Z.lor (efer c) (Z.shiftl 1 8)) in
    mret (Some (mk_entry (u32 esi) stack_top c m)).
End Start.

(** ** What a boot loader and the processor do with it *)

(** The tags of a header of [len] bytes from [off] on, up to the end tag. *)
Definition half (l : list Z) (i : nat) : option Z := a ← l !! i; b ← l !! S i; Some (a + 256 * b).
Definition word (l : list Z) (i : nat) : option Z := a ← half l i; b ← half l (i + 2); Some (a + 65536 * b).
Fixpoint header_tags (fuel : nat) (l : list Z) (off : nat) : option (list (Z * Z)) :=
  match fuel with
  | O => None
  | S f =>
      t ← half l off; sz ← word l (off + 4);
      if (t =? 0) && (sz =? 8) then Some []
      else r ← header_tags f l (off + Z.to_nat ((sz + 7) / 8 * 8)); Some ((t, sz) :: r)
  end.

(** The header is one a Multiboot2 loader accepts: its first four words add up to 0, its
    length is that of the bytes, and the tags are the request for a screen and the end. *)
Lemma header_accepted :
  (a ← word multiboot_header 0; b ← word multiboot_header 4; c ← word multiboot_header 8; d ← word multiboot_header 12;
   Some (u32 (a + b + c + d))) = Some 0 /\
  word multiboot_header 8 = Some (Z.of_nat (length multiboot_header)) /\
  header_tags 3 multiboot_header 16 = Some [(5, 20)] /\
  word multiboot_header 24 = Some 1280 /\ word multiboot_header 28 = Some 720 /\ word multiboot_header 32 = Some 32.
Proof. vm_compute. repeat split. Qed.

(** The translation of the processor in long mode, from the tables in memory. *)
Definition long_mode (c : control) : bool :=
  Z.testbit (cr0 c) 31 && Z.testbit (cr4 c) 5 && Z.testbit (efer c) 8.
Definition walk_next (m : mem) (t i : Z) : outcome (option Z) :=
  e ← ld64 m (t + 8 * i); mret (if Vmm.present e then Some e else None).
Definition translate (m : mem) (c : control) (v : Z) : outcome (option Z) :=
  o4 ← walk_next m (Vmm.entry_addr (cr3 c)) (Vmm.i4_of v);
  match o4 with
  | None => mret None
  | Some e4 =>
      o3 ← walk_next m (Vmm.entry_addr e4) (Vmm.i3_of v);
      match o3 with
      | None => mret None
      | Some e3 =>
          o2 ← walk_next m (Vmm.entry_addr e3) (Vmm.i2_of v);
          match o2 with
          | None => mret None
          | Some e2 =>
              if Vmm.huge e2 then mret (Some (Z.land e2 (Z.lnot 0x1FFFFF) + Z.land v 0x1FFFFF))
              else
                o1 ← walk_next m (Vmm.entry_addr e2) (Vmm.i1_of v);
                mret (e1 ← o1; Some (Vmm.page_bits e1 + Z.land v 0xFFF))
          end
      end
  end.

(** ** Entries in memory *)
Definition zeroed (m : mem) (p n : Z) : Prop := forall a, p <= a < p + n -> m !! a = Some 0.

Lemma ld_le_zero k m p : zeroed m p (Z.of_nat k) -> ld_le k m p = Done 0.
Proof.
  revert p. induction k as [|k IH]; intros p Hz; [reflexivity|]. cbn [ld_le]. unfold ld. rewrite Hz by lia. rewrite bind_Done.
  rewrite IH; [reflexivity|]. intros a Ha. apply Hz. lia.
Qed.

Lemma ld_le_add j k m p : ld_le (j + k) m p = (x ← ld_le j m p; y ← ld_le k m (p + Z.of_nat j); mret (x + 256 ^ Z.of_nat j * y)).
Proof.
  revert p. induction j as [|j IH]; intros p.
  - cbn [Nat.add ld_le]. rewrite bind_Done. replace (p + Z.of_nat 0) with p by lia.
    destruct (ld_le k m p) as [y| | |]; try reflexivity. rewrite bind_Done. change (256 ^ Z.of_nat 0) with 1.
    unfold mret, outcome_ret. f_equal. lia.
  - cbn [Nat.add ld_le]. destruct (ld m p) as [b| | |]; try reflexivity. rewrite !bind_Done, IH.
    replace (p + 1 + Z.of_nat j) with (p + Z.of_nat (S j)) by lia.
    destruct (ld_le j m (p + 1)) as [x| | |]; try reflexivity. rewrite !bind_Done.
    destruct (ld_le k m (p + Z.of_nat (S j))) as [y| | |]; try reflexivity. rewrite !bind_Done.
    unfold mret, outcome_ret. f_equal. rewrite Nat2Z.inj_succ, Z.pow_succ_r by lia. ring.
Qed.

(** A 32-bit store into an entry that is 0. *)
Lemma entry_stored m p v :
  zeroed m p 8 -> 0 <= v < 2 ^ 32 ->
  returns (st32 m p v) (fun m' => ld64 m' p = Done v /\ same_outside p 8 m m').
Proof.
  intros Hz Hv. eapply returns_mono; [apply (st32_returns m p v); intros a Ha; exists 0; apply Hz; lia|].
  intros m' (Hout & _ & Hld). split; [|intros a Ha; apply Hout; lia].
  unfold ld64. rewrite (ld_le_add 4 4). unfold ld32 in Hld. rewrite Hld, bind_Done.
  rewrite (ld_le_zero 4); [|intros a Ha; rewrite Hout by lia; apply Hz; lia].
  rewrite bind_Done, (u32_small v Hv). unfold mret, outcome_ret. f_equal. lia.
Qed.

(** The table at [t] has the entries of [f]. *)
Definition table_at (m : mem) (t : Z) (f : Z -> Z) : Prop := forall i, 0 <= i < 512 -> ld64 m (t + 8 * i) = Done (f i).

Lemma table_frame m m' t f p n :
  table_at m t f -> same_outside p n m m' -> t + 4096 <= p \/ p + n <= t -> table_at m' t f.
Proof. intros Ht Ho Hd i Hi. unfold ld64. rewrite (ld_le_frame 8 _ _ _ _ _ Ho) by lia. exact (Ht i Hi). Qed.

(** Only the first entry of a table of zeros was written. *)
Lemma first_entry m m' t v :
  zeroed m t 4096 -> ld64 m' t = Done v -> same_outside t 8 m m' -> table_at m' t (fun i => if i =? 0 then v else 0).
Proof.
  intros Hz Hv Ho i Hi. destruct (Z.eqb_spec i 0) as [->|Hn]; [replace (t + 8 * 0) with t by lia; exact Hv|].
  apply ld_le_zero. intros a Ha. rewrite Ho by lia. apply Hz. lia.
Qed.

Lemma zeroed_frame m m' p n q k :
  zeroed m p n -> same_outside q k m m' -> p + n <= q \/ q + k <= p -> zeroed m' p n.
Proof. intros Hz Ho Hd a Ha. rewrite Ho by lia. exact (Hz a Ha). Qed.

Definition identity_entry (i : Z) : Z := Z.lor (Z.shiftl i 21) 0x83.

Lemma lor_le_add a b : 0 <= a -> 0 <= b -> 0 <= Z.lor a b <= a + b.
Proof.
  intros Ha Hb. pose proof (Z.add_lor_land a b). pose proof (proj2 (Z.land_nonneg a b) (or_introl Ha)).
  pose proof (proj2 (Z.lor_nonneg a b) (conj Ha Hb)). lia.
Qed.

Lemma identity_entry_range i : 0 <= i < 512 -> u32 (Z.shiftl i 21) = Z.shiftl i 21 /\ 0 <= identity_entry i < 2 ^ 32.
Proof.
  intros Hi. unfold identity_entry. rewrite Z.shiftl_mul_pow2 by lia. pose proof (lor_le_add (i * 2 ^ 21) 0x83).
  split; [apply u32_small; lia|lia].
Qed.

(** ** The tables of the boot *)
Section Tables.
Context (stack_top boot_pml4 boot_pdpt boot_pd : Z).

(** Three distinct pages below 4 GiB, with zeros. *)
Record layout (m : mem) : Prop := {
  la_pages : Forall (fun t => 0 <= t < 2 ^ 32 /\ t mod 4096 = 0) [boot_pml4; boot_pdpt; boot_pd];
  la_distinct : boot_pml4 <> boot_pdpt /\ boot_pml4 <> boot_pd /\ boot_pdpt <> boot_pd;
  la_zero : Forall (fun t => zeroed m t 4096) [boot_pml4; boot_pdpt; boot_pd]
}.

Lemma map_loop_returns m :
  zeroed m boot_pd 4096 ->
  returns (map_loop boot_pd m) (fun m' => table_at m' boot_pd identity_entry /\ same_outside boot_pd 4096 m m').
Proof.
  intros Hz. unfold map_loop.
  apply (loop_total
    (fun '(ecx, m') => 0 <= ecx < 512 /\ (forall i, 0 <= i < ecx -> ld64 m' (boot_pd + 8 * i) = Done (identity_entry i)) /\
       zeroed m' (boot_pd + 8 * ecx) (4096 - 8 * ecx) /\ same_outside boot_pd 4096 m m') _
    (fun '(ecx, _) => Z.to_nat (511 - ecx))).
  2: { split; [lia|]. split; [lia|]. replace (boot_pd + 8 * 0) with boot_pd by lia. split; [exact Hz|]. intros a _. reflexivity. }
  2: lia.
  intros [ecx m'] (He & Hdone & Hrest & Hout). destruct (identity_entry_range ecx He) as [E Hr]. rewrite E. fold (identity_entry ecx).
  replace (boot_pd + ecx * 8) with (boot_pd + 8 * ecx) by lia. apply returns_bind.
  eapply returns_mono; [apply (entry_stored m' (boot_pd + 8 * ecx) _); [intros a Ha; apply Hrest; lia|exact Hr]|].
  intros m2 (Hld & Hout2). apply returns_Done.
  assert (Hdone2 : forall i, 0 <= i < ecx + 1 -> ld64 m2 (boot_pd + 8 * i) = Done (identity_entry i)).
  { intros i Hi. destruct (Z.eq_dec i ecx) as [->|Hn]; [exact Hld|]. unfold ld64.
    rewrite (ld_le_frame 8 _ _ _ _ _ Hout2) by lia. apply Hdone. lia. }
  assert (Hsame : same_outside boot_pd 4096 m m2) by (intros a Ha; rewrite Hout2 by lia; apply Hout; exact Ha).
  destruct (Z.ltb_spec (ecx + 1) 512); [|split; [intros i Hi; apply Hdone2; lia|exact Hsame]].
  split; [|lia]. split; [lia|]. split; [exact Hdone2|]. split; [|exact Hsame].
  intros a Ha. rewrite Hout2 by lia. apply Hrest. lia.
Qed.

(** The three tables, and nothing else written. *)
Lemma start_returns m ebx c :
  layout m ->
  returns (start stack_top boot_pml4 boot_pdpt boot_pd MB2_LOADED ebx m c) (fun r => exists m',
    r = Some (mk_entry (u32 ebx) stack_top
      (mk_control (Z.lor (cr0 c) (Z.shiftl 1 31)) boot_pml4 (Z.lor (cr4 c) (Z.shiftl 1 5)) (Z.lor (efer c) (Z.shiftl 1 8))) m') /\
    table_at m' boot_pml4 (fun i => if i =? 0 then Z.lor boot_pdpt 3 else 0) /\
    table_at m' boot_pdpt (fun i => if i =? 0 then Z.lor boot_pd 3 else 0) /\
    table_at m' boot_pd identity_entry).
Proof.
  intros [Hp (D1 & D2 & D3) Hz]. apply Forall_cons in Hp as [[R1 A1] Hp]. apply Forall_cons in Hp as [[R2 A2] Hp].
  apply Forall_cons in Hp as [[R3 A3] _]. apply Forall_cons in Hz as [Z1 Hz]. apply Forall_cons in Hz as [Z2 Hz].
  apply Forall_cons in Hz as [Z3 _].
  assert (Hs : forall s t, s mod 4096 = 0 -> t mod 4096 = 0 -> s <> t -> s + 4096 <= t \/ t + 4096 <= s)
    by (intros s t Hs Ht Hn; Z.to_euclidean_division_equations; lia).
  assert (Hv : forall t, 0 <= t < 2 ^ 32 -> t mod 4096 = 0 -> 0 <= Z.lor t 3 < 2 ^ 32)
    by (intros t Ht Hm; pose proof (lor_le_add t 3); Z.to_euclidean_division_equations; lia).
  pose proof (Hs _ _ A1 A2 D1) as S1. pose proof (Hs _ _ A1 A3 D2) as S2. pose proof (Hs _ _ A2 A3 D3) as S3.
  unfold start. rewrite Z.eqb_refl. cbn [negb]. apply returns_bind.
  eapply returns_mono; [apply (entry_stored m boot_pml4); [intros a Ha; apply Z1; lia|exact (Hv _ R2 A2)]|].
  intros m1 (L1 & O1). apply returns_bind.
  pose proof (first_entry _ _ _ _ Z1 L1 O1) as T1.
  assert (Z2' : zeroed m1 boot_pdpt 4096) by (apply (zeroed_frame _ _ _ _ _ _ Z2 O1); lia).
  assert (Z3' : zeroed m1 boot_pd 4096) by (apply (zeroed_frame _ _ _ _ _ _ Z3 O1); lia).
  eapply returns_mono; [apply (entry_stored m1 boot_pdpt); [intros a Ha; apply Z2'; lia|exact (Hv _ R3 A3)]|].
  intros m2 (L2 & O2). apply returns_bind.
  pose proof (first_entry _ _ _ _ Z2' L2 O2) as T2.
  eapply returns_mono; [apply (map_loop_returns m2), (zeroed_frame _ _ _ _ _ _ Z3' O2); lia|].
  intros m3 (T3 & O3). apply returns_Done. exists m3. split; [reflexivity|].
  split; [|split; [apply (table_frame _ _ _ _ _ _ T2 O3); lia|exact T3]].
  eapply table_frame; [|exact O3|lia]. apply (table_frame _ _ _ _ _ _ T1 O2); lia.
Qed.

Lemma walk_next_table m t f i :
  table_at m t f -> 0 <= i < 512 -> walk_next m t i = Done (if Vmm.present (f i) then Some (f i) else None).
Proof. intros Ht Hi. unfold walk_next. rewrite (Ht i Hi). reflexivity. Qed.

Lemma table_entry t : t mod 4096 = 0 -> Vmm.present (Z.lor t 3) = true /\ Vmm.entry_addr (Z.lor t 3) = t.
Proof.
  intros Ht. split; [|apply Vmm.land_lor_low; [exact Ht|lia]].
  rewrite Vmm.present_bit, Z.lor_spec. apply orb_true_r.
Qed.

Lemma low_indices v : 0 <= v < 2 ^ 47 ->
  Vmm.i4_of v = v / 2 ^ 39 /\ Vmm.i3_of v = v / 2 ^ 30 mod 512 /\ Vmm.i2_of v = v / 2 ^ 21 mod 512.
Proof.
  intros Hv. split; [|split; apply Vmm.ix_div; lia].
  unfold Vmm.i4_of. rewrite Vmm.ix_div by lia. apply Z.mod_small. Z.to_euclidean_division_equations. lia.
Qed.

Lemma identity_entry_present i : Vmm.present (identity_entry i) = true.
Proof. unfold identity_entry. rewrite Vmm.present_bit, Z.lor_spec. apply orb_true_r. Qed.

Lemma identity_entry_maps i : 0 <= i < 512 -> Z.land (identity_entry i) (Z.lnot 0x1FFFFF) = i * 2 ^ 21.
Proof.
  intros Hi. rewrite (land_lnot_pow2 _ 21) by lia. unfold identity_entry. rewrite <- Z.shiftr_div_pow2 by lia.
  rewrite Z.shiftr_lor, Z.shiftr_shiftl_l by lia. change (Z.shiftr 0x83 21) with 0.
  rewrite Z.lor_0_r. change (21 - 21) with 0. rewrite Z.shiftl_0_r. reflexivity.
Qed.

(** C7: Entered by a Multiboot2 loader, [_start] reaches [kernel_main] in long mode, on the
    boot stack and with the address of the boot information, under tables that translate
    the first GiB to itself and nothing else of the lower half - no surface above it, either;
    entered without the magic it halts. *)
Theorem start_maps_first_gib eax ebx m c :
  layout m ->
  (eax <> MB2_LOADED -> start stack_top boot_pml4 boot_pdpt boot_pd eax ebx m c = Done None) /\
  returns (start stack_top boot_pml4 boot_pdpt boot_pd MB2_LOADED ebx m c) (fun r => exists e, r = Some e /\
    e_rdi e = u32 ebx /\ e_rsp e = stack_top /\ long_mode (e_control e) = true /\
    forall v, 0 <= v < 2 ^ 47 -> translate (e_mem e) (e_control e) v = Done (if v <? 2 ^ 30 then Some v else None)).
Proof.
  intros Hl. split; [intros Hn; unfold start; rewrite (proj2 (Z.eqb_neq _ _) Hn); reflexivity|].
  eapply returns_mono; [exact (start_returns m ebx c Hl)|]. intros r (m' & -> & T4 & T3 & T2). eexists. split; [reflexivity|].
  destruct Hl as [Hp _ _]. apply Forall_cons in Hp as [[_ A1] Hp]. apply Forall_cons in Hp as [[_ A2] Hp].
  apply Forall_cons in Hp as [[_ A3] _]. cbn [e_rdi e_rsp e_control e_mem]. split; [reflexivity|]. split; [reflexivity|].
  split; [unfold long_mode; cbn [cr0 cr4 efer]; rewrite !Z.lor_spec; cbn; rewrite !orb_true_r; reflexivity|].
  intros v Hv. unfold translate. cbn [cr3]. destruct (low_indices v Hv) as (E4 & E3 & E2).
  rewrite Vmm.entry_addr_div. replace (boot_pml4 / 4096 * 4096) with boot_pml4 by (Z.to_euclidean_division_equations; lia).
  rewrite (walk_next_table _ _ _ _ T4 (Vmm.i4_index v)), bind_Done, E4. destruct (table_entry boot_pdpt A2) as [P2 N2].
  destruct (Z.eqb_spec (v / 2 ^ 39) 0) as [H4|H4].
  2: { destruct (Z.ltb_spec v (2 ^ 30)); [|reflexivity]. exfalso. apply H4, Z.div_small. lia. }
  rewrite P2, N2, (walk_next_table _ _ _ _ T3 (Vmm.i3_index v)), bind_Done, E3. destruct (table_entry boot_pd A3) as [P3 N3].
  destruct (Z.eqb_spec (v / 2 ^ 30 mod 512) 0) as [H3|H3].
  2: { destruct (Z.ltb_spec v (2 ^ 30)); [|reflexivity]. exfalso. apply H3. rewrite Z.div_small by lia. reflexivity. }
  rewrite P3, N3, (walk_next_table _ _ _ _ T2 (Vmm.i2_index v)), bind_Done. fold (identity_entry (Vmm.i2_of v)).
  assert (Hlow : v < 2 ^ 30) by (Z.to_euclidean_division_equations; lia). destruct (Z.ltb_spec v (2 ^ 30)); [|lia].
  rewrite identity_entry_present, identity_entry_maps by apply Vmm.i2_index. rewrite E2. unfold identity_entry.
  rewrite Vmm.boot_pd_huge. change 0x1FFFFF with (Z.ones 21). rewrite Z.land_ones by lia.
  unfold mret, outcome_ret. do 2 f_equal. rewrite Z.mod_small by (Z.to_euclidean_division_equations; lia).
  pose proof (Z.div_mod v (2 ^ 21)). lia.
Qed.
End Tables.

(** The tables of [Vmm.v] are those [_start] builds. *)
Lemma boot_tables_built stack_top ebx m c :
  layout 0x1000 0x2000 0x3000 m ->
  returns (start stack_top 0x1000 0x2000 0x3000 MB2_LOADED ebx m c) (fun r => exists e, r = Some e /\
    forall t i w, Vmm.is_index i -> Vmm.ldo Vmm.boot_tables t i = Some w -> ld64 (e_mem e) (t + 8 * i) = Done w).
Proof.
  intros Hl. eapply returns_mono; [exact (start_returns stack_top 0x1000 0x2000 0x3000 m ebx c Hl)|].
  intros r (m' & -> & T4 & T3 & T2). eexists. split; [reflexivity|]. intros t i w Hi Ht. cbn [e_mem].
  destruct (Vmm.boot_ldo i Hi) as (L4 & L3 & L2).
  destruct (Z.eq_dec t 0x1000) as [->|N4]; [rewrite L4 in Ht; injection Ht as <-; exact (T4 i Hi)|].
  destruct (Z.eq_dec t 0x2000) as [->|N3]; [rewrite L3 in Ht; injection Ht as <-; exact (T3 i Hi)|].
  destruct (Z.eq_dec t 0x3000) as [->|N2]; [rewrite L2 in Ht; injection Ht as <-; exact (T2 i Hi)|].
  unfold Vmm.ldo, Vmm.boot_tables in Ht. rewrite !lookup_insert_ne, lookup_empty in Ht by congruence. discriminate.
Qed.

(** ** A machine with its tables at 4 KiB *)
Definition start_memory : mem := mem_of_list 0 (replicate (Z.to_nat 16384) 0).

Lemma start_layout : layout 0x1000 0x2000 0x3000 start_memory.
Proof.
  split.
  - repeat constructor; lia.
  - lia.
  - assert (Hz : forall t, 0 <= t <= 12288 -> zeroed start_memory t 4096).
    { intros t Ht a Ha. unfold start_memory. replace a with (0 + Z.of_nat (Z.to_nat a)) by lia.
      apply mem_of_list_lookup, lookup_replicate_2. lia. }
    repeat constructor; apply Hz; lia.
Qed.

Lemma start_maps_first_gib_witness :
  returns (start 0x8000 0x1000 0x2000 0x3000 MB2_LOADED 0x9000 start_memory (mk_control 1 0 0 0)) (fun r => exists e,
    r = Some e /\ e_rdi e = 0x9000 /\ translate (e_mem e) (e_control e) 0xB8123 = Done (Some 0xB8123) /\
    translate (e_mem e) (e_control e) 0xFD000000 = Done None).
Proof.
  destruct (start_maps_first_gib 0x8000 0x1000 0x2000 0x3000 MB2_LOADED 0x9000 start_memory (mk_control 1 0 0 0) start_layout) as [_ H].
  eapply returns_mono; [exact H|]. intros r (e & -> & Hr & _ & _ & Ht). exists e. split; [reflexivity|]. split; [exact Hr|].
  split; [apply (Ht 0xB8123); lia|apply (Ht 0xFD000000); lia].
Defined.
