(* ===== verification/Framebuffer.v ===== *)
(** * Framebuffer renderer: [drivers/framebuffer/framebuffer.c]

    The surfaces are byte memory; a pixel is the little-endian [u32] at its address.
    [g_fb] is an argument [f], the memory is threaded through the drawing calls. *)
From Stdlib Require Import ZArith Lia Bool.
From stdpp Require Import base tactics option list numbers gmap.
From S2P Require Import Prelude CInt CString PageAlloc Pmm Mem.

(** ** State *)
Record fb := mk_fb {
  pixels : Z;
  width : Z;
  height : Z;
  pitch : Z;             (* bytes per row *)
  bpp : Z;
  double_buffered : bool;
  back : Z
}.

Definition font8x8_basic : list (list Z) :=
  [[0x00; 0x00; 0x00; 0x00; 0x00; 0x00; 0x00; 0x00];
   [0x18; 0x3C; 0x3C; 0x18; 0x18; 0x00; 0x18; 0x00];
   [0x36; 0x36; 0x00; 0x00; 0x00; 0x00; 0x00; 0x00];
   [0x36; 0x36; 0x7F; 0x36; 0x7F; 0x36; 0x36; 0x00];
   [0x0C; 0x3E; 0x03; 0x1E; 0x30; 0x1F; 0x0C; 0x00];
   [0x00; 0x63; 0x33; 0x18; 0x0C; 0x66; 0x63; 0x00];
   [0x1C; 0x36; 0x1C; 0x6E; 0x3B; 0x33; 0x6E; 0x00];
   [0x06; 0x06; 0x03; 0x00; 0x00; 0x00; 0x00; 0x00];
   [0x18; 0x0C; 0x06; 0x06; 0x06; 0x0C; 0x18; 0x00];
   [0x06; 0x0C; 0x18; 0x18; 0x18; 0x0C; 0x06; 0x00];
   [0x00; 0x66; 0x3C; 0xFF; 0x3C; 0x66; 0x00; 0x00];
   [0x00; 0x0C; 0x0C; 0x3F; 0x0C; 0x0C; 0x00; 0x00];
   [0x00; 0x00; 0x00; 0x00; 0x00; 0x0C; 0x0C; 0x06];
   [0x00; 0x00; 0x00; 0x3F; 0x00; 0x00; 0x00; 0x00];
   [0x00; 0x00; 0x00; 0x00; 0x00; 0x0C; 0x0C; 0x00];
   [0x60; 0x30; 0x18; 0x0C; 0x06; 0x03; 0x01; 0x00];
   [0x3E; 0x63; 0x73; 0x7B; 0x6F; 0x67; 0x3E; 0x00];
   [0x0C; 0x0E; 0x0C; 0x0C; 0x0C; 0x0C; 0x3F; 0x00];
   [0x1E; 0x33; 0x30; 0x1C; 0x06; 0x33; 0x3F; 0x00];
   [0x1E; 0x33; 0x30; 0x1C; 0x30; 0x33; 0x1E; 0x00];
   [0x38; 0x3C; 0x36; 0x33; 0x7F; 0x30; 0x78; 0x00];
   [0x3F; 0x03; 0x1F; 0x30; 0x30; 0x33; 0x1E; 0x00];
   [0x1C; 0x06; 0x03; 0x1F; 0x33; 0x33; 0x1E; 0x00];
   [0x3F; 0x33; 0x30; 0x18; 0x0C; 0x0C; 0x0C; 0x00];
   [0x1E; 0x33; 0x33; 0x1E; 0x33; 0x33; 0x1E; 0x00];
   [0x1E; 0x33; 0x33; 0x3E; 0x30; 0x18; 0x0E; 0x00];
   [0x00; 0x0C; 0x0C; 0x00; 0x00; 0x0C; 0x0C; 0x00];
   [0x00; 0x0C; 0x0C; 0x00; 0x00; 0x0C; 0x0C; 0x06];
   [0x18; 0x0C; 0x06; 0x03; 0x06; 0x0C; 0x18; 0x00];
   [0x00; 0x00; 0x3F; 0x00; 0x00; 0x3F; 0x00; 0x00];
   [0x06; 0x0C; 0x18; 0x30; 0x18; 0x0C; 0x06; 0x00];
   [0x1E; 0x33; 0x30; 0x18; 0x0C; 0x00; 0x0C; 0x00];
   [0x3E; 0x63; 0x7B; 0x7B; 0x7B; 0x03; 0x1E; 0x00];
   [0x0C; 0x1E; 0x33; 0x33; 0x3F; 0x33; 0x33; 0x00];
   [0x3F; 0x66; 0x66; 0x3E; 0x66; 0x66; 0x3F; 0x00];
   [0x3C; 0x66; 0x03; 0x03; 0x03; 0x66; 0x3C; 0x00];
   [0x1F; 0x36; 0x66; 0x66; 0x66; 0x36; 0x1F; 0x00];
   [0x7F; 0x06; 0x06; 0x3E; 0x06; 0x06; 0x7F; 0x00];
   [0x7F; 0x06; 0x06; 0x3E; 0x06; 0x06; 0x06; 0x00];
   [0x3C; 0x66; 0x03; 0x03; 0x73; 0x66; 0x7C; 0x00];
   [0x33; 0x33; 0x33; 0x3F; 0x33; 0x33; 0x33; 0x00];
   [0x1E; 0x0C; 0x0C; 0x0C; 0x0C; 0x0C; 0x1E; 0x00];
   [0x78; 0x30; 0x30; 0x30; 0x33; 0x33; 0x1E; 0x00];
   [0x67; 0x66; 0x36; 0x1E; 0x36; 0x66; 0x67; 0x00];
   [0x06; 0x06; 0x06; 0x06; 0x06; 0x06; 0x7F; 0x00];
   [0x63; 0x77; 0x7F; 0x6B; 0x63; 0x63; 0x63; 0x00];
   [0x63; 0x67; 0x6F; 0x7B; 0x73; 0x63; 0x63; 0x00];
   [0x1C; 0x36; 0x63; 0x63; 0x63; 0x36; 0x1C; 0x00];
   [0x3F; 0x66; 0x66; 0x3E; 0x06; 0x06; 0x06; 0x00];
   [0x1E; 0x33; 0x33; 0x33; 0x3B; 0x1E; 0x38; 0x00];
   [0x3F; 0x66; 0x66; 0x3E; 0x36; 0x66; 0x67; 0x00];
   [0x1E; 0x33; 0x07; 0x0E; 0x38; 0x33; 0x1E; 0x00];
   [0x3F; 0x2D; 0x0C; 0x0C; 0x0C; 0x0C; 0x1E; 0x00];
   [0x33; 0x33; 0x33; 0x33; 0x33; 0x33; 0x3F; 0x00];
   [0x33; 0x33; 0x33; 0x33; 0x33; 0x1E; 0x0C; 0x00];
   [0x63; 0x63; 0x63; 0x6B; 0x7F; 0x77; 0x63; 0x00];
   [0x63; 0x63; 0x36; 0x1C; 0x1C; 0x36; 0x63; 0x00];
   [0x33; 0x33; 0x33; 0x1E; 0x0C; 0x0C; 0x1E; 0x00];
   [0x7F; 0x63; 0x31; 0x18; 0x4C; 0x66; 0x7F; 0x00];
   [0x1E; 0x06; 0x06; 0x06; 0x06; 0x06; 0x1E; 0x00];
   [0x03; 0x06; 0x0C; 0x18; 0x30; 0x60; 0x40; 0x00];
   [0x1E; 0x18; 0x18; 0x18; 0x18; 0x18; 0x1E; 0x00];
   [0x08; 0x1C; 0x36; 0x63; 0x00; 0x00; 0x00; 0x00];
   [0x00; 0x00; 0x00; 0x00; 0x00; 0x00; 0x00; 0xFF];
   [0x0C; 0x0C; 0x18; 0x00; 0x00; 0x00; 0x00; 0x00];
   [0x00; 0x00; 0x1E; 0x30; 0x3E; 0x33; 0x6E; 0x00];
   [0x07; 0x06; 0x06; 0x3E; 0x66; 0x66; 0x3B; 0x00];
   [0x00; 0x00; 0x1E; 0x33; 0x03; 0x33; 0x1E; 0x00];
   [0x38; 0x30; 0x30; 0x3e; 0x33; 0x33; 0x6E; 0x00];
   [0x00; 0x00; 0x1E; 0x33; 0x3f; 0x03; 0x1E; 0x00];
   [0x1C; 0x36; 0x06; 0x0f; 0x06; 0x06; 0x0f; 0x00];
   [0x00; 0x00; 0x6E; 0x33; 0x33; 0x3E; 0x30; 0x1F];
   [0x07; 0x06; 0x36; 0x6E; 0x66; 0x66; 0x67; 0x00];
   [0x0C; 0x00; 0x0E; 0x0C; 0x0C; 0x0C; 0x1E; 0x00];
   [0x30; 0x00; 0x30; 0x30; 0x30; 0x33; 0x33; 0x1E];
   [0x07; 0x06; 0x66; 0x36; 0x1E; 0x36; 0x67; 0x00];
   [0x0E; 0x0C; 0x0C; 0x0C; 0x0C; 0x0C; 0x1E; 0x00];
   [0x00; 0x00; 0x33; 0x7F; 0x7F; 0x6B; 0x63; 0x00];
   [0x00; 0x00; 0x1F; 0x33; 0x33; 0x33; 0x33; 0x00];
   [0x00; 0x00; 0x1E; 0x33; 0x33; 0x33; 0x1E; 0x00];
   [0x00; 0x00; 0x3B; 0x66; 0x66; 0x3E; 0x06; 0x0F];
   [0x00; 0x00; 0x6E; 0x33; 0x33; 0x3E; 0x30; 0x78];
   [0x00; 0x00; 0x3B; 0x6E; 0x66; 0x06; 0x0F; 0x00];
   [0x00; 0x00; 0x3E; 0x03; 0x1E; 0x30; 0x1F; 0x00];
   [0x08; 0x0C; 0x3E; 0x0C; 0x0C; 0x2C; 0x18; 0x00];
   [0x00; 0x00; 0x33; 0x33; 0x33; 0x33; 0x6E; 0x00];
   [0x00; 0x00; 0x33; 0x33; 0x33; 0x1E; 0x0C; 0x00];
   [0x00; 0x00; 0x63; 0x6B; 0x7F; 0x7F; 0x36; 0x00];
   [0x00; 0x00; 0x63; 0x36; 0x1C; 0x36; 0x63; 0x00];
   [0x00; 0x00; 0x33; 0x33; 0x33; 0x3E; 0x30; 0x1F];
   [0x00; 0x00; 0x3F; 0x19; 0x0C; 0x26; 0x3F; 0x00];
   [0x38; 0x0C; 0x0C; 0x07; 0x0C; 0x0C; 0x38; 0x00];
   [0x18; 0x18; 0x18; 0x00; 0x18; 0x18; 0x18; 0x00];
   [0x07; 0x0C; 0x0C; 0x38; 0x0C; 0x0C; 0x07; 0x00];
   [0x6E; 0x3B; 0x00; 0x00; 0x00; 0x00; 0x00; 0x00];
   [0x00; 0x00; 0x00; 0x00; 0x00; 0x00; 0x00; 0x00]].

(** ** Initialisation *)
Definition MB2_TAG_FRAMEBUFFER : Z := 8.

(** The file has its own copy of the search in [pmm.c]. *)
Definition fb_mb2_find (fuel : nat) (mb2 : option (list Z)) (type : Z) : outcome (option (list Z * Z)) :=
  match mb2 with
  | None => mret None
  | Some info => o ← Pmm.mb2_find fuel info type; mret (match o with Some o => Some (info, o) | None => None end)
  end.

(** The tag's fields when it describes a 32-bit RGB surface. *)
Definition rgb_tag (info : list Z) (o : Z) : outcome (option (Z * Z * Z * Z * Z)) :=
  bits ← arr_get info (o + 28);
  ty ← arr_get info (o + 29);
  if (ty =? 1) && (bits =? 32) then
    addr ← get64 info (o + 8);
    pi ← get32 info (o + 16); w ← get32 info (o + 20); h ← get32 info (o + 24);
    mret (Some (addr, w, h, pi, bits))
  else mret None.

(** [fallback_surface] is the address of [g_fallback]. *)
Definition fb_init `{PageAlloc St} (fuel : nat) (fallback_surface : Z) (mb2 : option (list Z)) (ps : St) (m : mem)
    : outcome (fb * St * mem) :=
  tag ← fb_mb2_find fuel mb2 MB2_TAG_FRAMEBUFFER;
  rgb ← match tag with Some (info, o) => rgb_tag info o | None => mret None end;
  '(f, ps) ← match rgb with
    | Some (addr, w, h, pi, bits) => mret (mk_fb addr w h pi bits false 0, ps)
    | None =>
        let pi := u32 (1280 * 4) in
        let pages := ALIGN_UP (u32 (pi * 720)) PAGE_SIZE / PAGE_SIZE in
        '(p, ps) ← pa_alloc_pages ps pages;
        mret (mk_fb (if negb (p =? 0) then p else fallback_surface) 1280 720 pi 32 false 0, ps)
    end;
  let bytes := u64 (pitch f * height f) in
  let pages := ALIGN_UP bytes PAGE_SIZE / PAGE_SIZE in
  '(bk, ps) ← pa_alloc_pages ps pages;
  if negb (bk =? 0) then
    m ← memset m bk 0 bytes;
    mret (mk_fb (pixels f) (width f) (height f) (pitch f) (bpp f) true bk, ps, m)
  else mret (mk_fb (pixels f) (width f) (height f) (pitch f) (bpp f) false (pixels f), ps, m).

(** ** Drawing *)
Section Drawing.
Context (f : fb).

Definition surface : Z := if double_buffered f then back f else pixels f.
Definition fb_row (y : Z) : Z := surface + u64 (u64 y * pitch f).
Definition off_screen (x y : Z) : bool := (width f <=? u32 x) || (height f <=? u32 y).

Definition fb_put_pixel (m : mem) (x y color : Z) : outcome mem :=
  if off_screen x y then mret m else st32 m (fb_row y + 4 * x) color.

Definition fb_get_pixel (m : mem) (x y : Z) : outcome Z :=
  if off_screen x y then mret 0 else ld32 m (fb_row y + 4 * x).

Definition fb_clear (m : mem) (color : Z) : outcome mem :=
  for_to 0 (height f) (fun y m =>
    for_to 0 (width f) (fun x m => st32 m (fb_row (i32 y) + 4 * x) color) m) m.

(** [x + i] and [y + j] wrap around, as the processor adds; in C an overflow of them is
    undefined. *)
Definition fb_fill_rect (m : mem) (x y w h color : Z) : outcome mem :=
  for_to 0 h (fun j m =>
    for_to 0 w (fun i m => fb_put_pixel m (i32 (x + i)) (i32 (y + j)) color) m) m.

Definition fb_draw_rect (m : mem) (x y w h color : Z) : outcome mem :=
  m ← for_to 0 w (fun i m =>
    m ← fb_put_pixel m (i32 (x + i)) y color;
    fb_put_pixel m (i32 (x + i)) (i32 (y + h - 1)) color) m;
  for_to 0 h (fun j m =>
    m ← fb_put_pixel m x (i32 (y + j)) color;
    fb_put_pixel m (i32 (x + w - 1)) (i32 (y + j)) color) m.

(** One turn of the loop of [fb_draw_line] after the pixel: the next point and
    error term. *)
Definition line_step (dx dy sx sy : Z) (p : Z * Z * Z) : Z * Z * Z :=
  let '(x0, y0, err) := p in
  let e2 := i32 (2 * err) in
  let '(x0, err) := if dy <=? e2 then (i32 (x0 + sx), i32 (err + dy)) else (x0, err) in
  if e2 <=? dx then (x0, i32 (y0 + sy), i32 (err + dx)) else (x0, y0, err).

Definition line_dx (x0 x1 : Z) : Z := if x0 <? x1 then i32 (x1 - x0) else i32 (x0 - x1).
Definition line_dy (y0 y1 : Z) : Z := if y0 <? y1 then i32 (y0 - y1) else i32 (y1 - y0).
Definition line_fuel (x0 y0 x1 y1 : Z) : nat := S (Z.to_nat (Z.max (Z.abs (x1 - x0)) (Z.abs (y1 - y0)))).

Definition fb_draw_line (m : mem) (x0 y0 x1 y1 color : Z) : outcome mem :=
  let dx := line_dx x0 x1 in
  let sx := if x0 <? x1 then 1 else -1 in
  let dy := line_dy y0 y1 in
  let sy := if y0 <? y1 then 1 else -1 in
  loop (line_fuel x0 y0 x1 y1) (fun '(x, y, err, m) =>
    m ← fb_put_pixel m x y color;
    if (x =? x1) && (y =? y1) then mret (inr m)
    else mret (inl (line_step dx dy sx sy (x, y, err), m))) (x0, y0, i32 (dx + dy), m).

Definition in_rounded_corner (px py x y w h r : Z) : bool :=
  let corner (cx cy : Z) :=
    let dx := i32 (px - cx) in let dy := i32 (py - cy) in i32 (i32 (dx * dx) + i32 (dy * dy)) <=? i32 (r * r) in
  let l := i32 (x + r) in let t := i32 (y + r) in
  let rt := i32 (x + w - r) in let bt := i32 (y + h - r) in
  if (px <? l) && (py <? t) then corner l t
  else if (rt <=? px) && (py <? t) then corner (i32 (rt - 1)) t
  else if (px <? l) && (bt <=? py) then corner l (i32 (bt - 1))
  else if (rt <=? px) && (bt <=? py) then corner (i32 (rt - 1)) (i32 (bt - 1))
  else true.

Definition fb_fill_rounded_rect (m : mem) (x y w h r color : Z) : outcome mem :=
  if r <=? 0 then fb_fill_rect m x y w h color
  else
    for_to 0 h (fun j m =>
      for_to 0 w (fun i m =>
        if in_rounded_corner (i32 (x + i)) (i32 (y + j)) x y w h r
        then fb_put_pixel m (i32 (x + i)) (i32 (y + j)) color else mret m) m) m.

Definition fb_draw_rounded_rect (m : mem) (x y w h r color : Z) : outcome mem :=
  fb_draw_rect m x y w h color.

(** [src] is the array of pixels the pointer refers to. *)
Definition fb_blit (m : mem) (x y w h : Z) (src : list Z) (src_stride : Z) : outcome mem :=
  for_to 0 h (fun j m =>
    for_to 0 w (fun i m =>
      c ← arr_get src (j * src_stride + i);
      fb_put_pixel m (i32 (x + i)) (i32 (y + j)) c) m) m.

(** ** Text *)
Definition TRANSPARENT : Z := 0xFFFFFFFF.

Definition glyph_of (c : Z) : outcome (list Z) :=
  let c := if (u8 c <? 32) || (127 <? u8 c) then 63 else c in
  match font8x8_basic !! Z.to_nat (u8 c - 32) with Some g => mret g | None => Fault end.

Definition fb_draw_char (m : mem) (x y c fg bg : Z) : outcome mem :=
  glyph ← glyph_of c;
  for_to 0 8 (fun row m =>
    bits ← arr_get glyph row;
    for_to 0 8 (fun col m =>
      let lit := negb (Z.land bits (Z.shiftl 1 col) =? 0) in
      if negb (bg =? TRANSPARENT) || lit
      then fb_put_pixel m (i32 (x + col)) (i32 (y + row)) (if lit then fg else bg) else mret m) m) m.

Fixpoint draw_chars (m : mem) (x cx y : Z) (s : list Z) (fg bg : Z) : outcome mem :=
  match s with
  | [] => mret m
  | c :: s' =>
      if c =? 10 then draw_chars m x x (i32 (y + 10)) s' fg bg
      else m ← fb_draw_char m cx y c fg bg; draw_chars m x (i32 (cx + 8)) y s' fg bg
  end.
Definition fb_draw_string (m : mem) (x y : Z) (s : list Z) (fg bg : Z) : outcome mem :=
  draw_chars m x x y s fg bg.

(** ** Presenting the back buffer *)
Definition fb_swap (m : mem) : outcome mem :=
  if negb (double_buffered f) then mret m
  else memcpy m (pixels f) (back f) (u64 (pitch f * height f)).
End Drawing.

(** ** What is painted *)
Section Painting.
Context (f : fb).

Definition on_screen (a b : Z) : Prop := 0 <= a < width f /\ 0 <= b < height f.
Definition pixel_addr (a b : Z) : Z := surface f + b * pitch f + 4 * a.

(** The surface drawn to is mapped, and its rows do not overlap. *)
Record surf (m : mem) : Prop := {
  sf_size : 0 <= width f < 2 ^ 31 /\ 0 <= height f < 2 ^ 31;
  sf_pitch : 4 * width f <= pitch f < 2 ^ 32;
  sf_mapped : mapped m (surface f) (pitch f * height f)
}.

(** The value of a pixel. *)
Definition pixel (m : mem) (a b : Z) : outcome Z := ld32 m (pixel_addr a b).

(** [m'] is [m] with the pixels [g] gives a colour for painted in that colour. *)
Record painted (m m' : mem) (g : Z -> Z -> option Z) : Prop := {
  pt_surf : surf m';
  pt_pixel : forall a b, on_screen a b ->
    pixel m' a b = match g a b with Some c => Done (u32 c) | None => pixel m a b end;
  pt_rest : forall p, (forall a b, on_screen a b -> g a b <> None -> ~ (pixel_addr a b <= p < pixel_addr a b + 4)) -> m' !! p = m !! p
}.

(** [g] over [h]. *)
Definition over (g h : Z -> Z -> option Z) : Z -> Z -> option Z :=
  fun a b => match g a b with Some c => Some c | None => h a b end.

Lemma painted_refl m : surf m -> painted m m (fun _ _ => None).
Proof. intros Hs. split; [exact Hs|reflexivity|reflexivity]. Qed.

Lemma painted_trans m m1 m2 g h : painted m m1 h -> painted m1 m2 g -> painted m m2 (over g h).
Proof.
  intros H1 H2. split; [apply H2| |].
  - intros a b Hab. rewrite (pt_pixel _ _ _ H2 a b Hab). unfold over. destruct (g a b); [reflexivity|].
    apply (pt_pixel _ _ _ H1 a b Hab).
  - intros p Hp. unfold over in Hp. rewrite (pt_rest _ _ _ H2 p), (pt_rest _ _ _ H1 p); [reflexivity|..].
    + intros a b Hab Hh. apply (Hp a b Hab). destruct (g a b); [discriminate|exact Hh].
    + intros a b Hab Hg. apply (Hp a b Hab). destruct (g a b); [discriminate|congruence].
Qed.

Lemma painted_ext m m' g h :
  painted m m' g -> (forall a b, on_screen a b -> g a b = h a b) -> painted m m' h.
Proof.
  intros Hp He. split; [apply Hp| |].
  - intros a b Hab. rewrite <- He by exact Hab. apply (pt_pixel _ _ _ Hp a b Hab).
  - intros p Hout. apply (pt_rest _ _ _ Hp). intros a b Hab. rewrite He by exact Hab. exact (Hout a b Hab).
Qed.

(** A loop that paints [g j] in turn [j] paints [G] in the end. *)
Lemma painted_loop (G g : Z -> Z -> Z -> option Z) n body m :
  surf m -> (forall a b, on_screen a b -> G 0 a b = None) ->
  (forall j m1, 0 <= j < n -> surf m1 -> returns (body j m1) (fun m2 => painted m1 m2 (g j))) ->
  (forall j a b, 0 <= j < n -> on_screen a b -> over (g j) (G j) a b = G (j + 1) a b) ->
  returns (for_to 0 n body m) (fun m' => painted m m' (G (Z.max 0 n))).
Proof.
  intros Hs H0 Hb Hstep. apply (for_to_inv_max (fun j m' => painted m m' (G j))).
  - apply (painted_ext _ _ (fun _ _ => None)); [exact (painted_refl m Hs)|]. intros; symmetry; auto.
  - intros j m1 Hj Hp. eapply returns_mono; [apply (Hb j m1 Hj), Hp|]. intros m2 Hp2.
    apply (painted_ext _ _ (over (g j) (G j))); [exact (painted_trans _ _ _ _ _ Hp Hp2)|].
    intros; apply Hstep; assumption.
  - auto.
Qed.

(** ** One pixel *)
Lemma u32_coord x n : - 2 ^ 31 <= x < 2 ^ 31 -> 0 <= n < 2 ^ 31 -> (n <=? u32 x) = negb ((0 <=? x) && (x <? n)).
Proof.
  intros Hx Hn. destruct (Z.leb_spec 0 x) as [Hx0|Hx0].
  - rewrite u32_small by lia. destruct (Z.leb_spec n x), (Z.ltb_spec x n); (reflexivity || lia).
  - assert (E : u32 x = x + 2 ^ 32)
      by (unfold u32; rewrite <- (Z.mod_add x 1) by lia; rewrite Z.mod_small; lia).
    rewrite E. destruct (Z.leb_spec n (x + 2 ^ 32)); [reflexivity|lia].
Qed.

Lemma off_screen_spec m x y :
  surf m -> - 2 ^ 31 <= x < 2 ^ 31 -> - 2 ^ 31 <= y < 2 ^ 31 ->
  off_screen f x y = false <-> on_screen x y.
Proof.
  intros Hs Hx Hy. destruct (sf_size _ Hs) as [Hw Hh]. unfold off_screen, on_screen.
  rewrite (u32_coord x) by assumption. rewrite (u32_coord y) by assumption.
  destruct (Z.leb_spec 0 x), (Z.ltb_spec x (width f)), (Z.leb_spec 0 y), (Z.ltb_spec y (height f));
    cbn [andb negb orb]; split; (reflexivity || discriminate || lia || (intros; lia)).
Qed.

Lemma fb_row_addr m a b :
  surf m -> on_screen a b -> fb_row f b + 4 * a = pixel_addr a b.
Proof.
  intros Hs [Ha Hb]. destruct (sf_size _ Hs) as [Hw Hh]. pose proof (sf_pitch _ Hs) as Hp.
  unfold fb_row, pixel_addr. rewrite (u64_small b) by lia. rewrite u64_small by nia. lia.
Qed.

Lemma pixel_range m a b :
  surf m -> on_screen a b -> surface f <= pixel_addr a b /\ pixel_addr a b + 4 <= surface f + pitch f * height f.
Proof.
  intros Hs [Ha Hb]. pose proof (sf_pitch _ Hs). unfold pixel_addr. nia.
Qed.

Lemma pixel_apart m a b a' b' :
  surf m -> on_screen a b -> on_screen a' b' -> (a, b) <> (a', b') ->
  pixel_addr a b + 4 <= pixel_addr a' b' \/ pixel_addr a' b' + 4 <= pixel_addr a b.
Proof.
  intros Hs [Ha Hb] [Ha' Hb'] Hne. pose proof (sf_pitch _ Hs) as Hp. unfold pixel_addr.
  destruct (Z.lt_trichotomy b b') as [Hlt|[->|Hlt]].
  - left. nia.
  - assert (a <> a') by congruence. lia.
  - right. nia.
Qed.

Lemma store_painted m x y color :
  surf m -> on_screen x y ->
  returns (st32 m (fb_row f y + 4 * x) color)
    (fun m' => painted m m' (fun a b => if (a =? x) && (b =? y) then Some color else None)).
Proof.
  intros Hs Hxy. rewrite (fb_row_addr m) by assumption. destruct (pixel_range m x y Hs Hxy) as [Hlo Hhi].
  eapply returns_mono; [apply st32_returns; intros a Ha; apply (sf_mapped _ Hs); lia|].
  intros m' (Hout & Hmap & Hld). split.
  - split; [apply Hs|apply Hs|]. apply Hmap, Hs.
  - intros a b Hab. unfold pixel. destruct (Z.eqb_spec a x), (Z.eqb_spec b y); cbn [andb];
      [subst; exact Hld|apply (ld_le_frame 4 m m' _ _ _ Hout)..];
      (destruct (pixel_apart m a b x y Hs Hab Hxy); [congruence|lia|lia]).
  - intros p Hp. apply Hout, (Hp x y Hxy). rewrite !Z.eqb_refl. discriminate.
Qed.

Lemma fb_put_pixel_returns m x y color :
  surf m -> - 2 ^ 31 <= x < 2 ^ 31 -> - 2 ^ 31 <= y < 2 ^ 31 ->
  returns (fb_put_pixel f m x y color)
    (fun m' => painted m m' (fun a b => if (a =? x) && (b =? y) then Some color else None)).
Proof.
  intros Hs Hx Hy. unfold fb_put_pixel. pose proof (off_screen_spec m x y Hs Hx Hy) as Ho.
  destruct (off_screen f x y).
  - apply returns_Done. apply (painted_ext _ _ (fun _ _ => None)); [exact (painted_refl m Hs)|].
    intros a b Hab. destruct (Z.eqb_spec a x), (Z.eqb_spec b y); cbn [andb]; try reflexivity.
    subst. apply Ho in Hab. discriminate.
  - apply store_painted; [exact Hs|]. apply Ho. reflexivity.
Qed.

(** ** Rectangles and the whole screen *)
Definition in_rect (x y w h a b : Z) : bool := (x <=? a) && (a <? x + w) && (y <=? b) && (b <? y + h).

(** Solves the steps of the loops below: the pixels of one turn. *)
Ltac pixels_of_turn :=
  intros; unfold over, in_rect; repeat case_cmp; cbn [andb]; (reflexivity || lia).

(** No coordinate of the rectangle overflows. *)
Definition fits (x w : Z) : Prop := - 2 ^ 31 <= x < 2 ^ 31 /\ x + w <= 2 ^ 31.

Lemma fb_fill_rect_returns m x y w h color :
  surf m -> fits x w -> fits y h ->
  returns (fb_fill_rect f m x y w h color)
    (fun m' => painted m m' (fun a b => if in_rect x y w h a b then Some color else None)).
Proof.
  intros Hs [Hx Hw] [Hy Hh]. unfold fb_fill_rect.
  eapply returns_mono; [apply (painted_loop (fun j a b => if in_rect x y w j a b then Some color else None)
    (fun j a b => if in_rect x (y + j) w 1 a b then Some color else None)); [exact Hs| | |]|].
  - pixels_of_turn.
  - intros j m1 Hj Hs1.
    eapply returns_mono; [apply (painted_loop (fun i a b => if in_rect x (y + j) i 1 a b then Some color else None)
      (fun i a b => if (a =? x + i) && (b =? y + j) then Some color else None)); [exact Hs1| | |]|].
    + pixels_of_turn.
    + intros i m2 Hi Hs2. rewrite !i32_small by lia. apply fb_put_pixel_returns; [exact Hs2|lia|lia].
    + pixels_of_turn.
    + intros m2 Hp. apply (painted_ext _ _ _ _ Hp). pixels_of_turn.
  - pixels_of_turn.
  - intros m' Hp. apply (painted_ext _ _ _ _ Hp). pixels_of_turn.
Qed.

Lemma fb_clear_returns m color :
  surf m -> returns (fb_clear f m color) (fun m' => painted m m' (fun _ _ => Some color)).
Proof.
  intros Hs. destruct (sf_size _ Hs) as [Hw Hh]. unfold fb_clear.
  eapply returns_mono; [apply (painted_loop (fun j a b => if b <? j then Some color else None)
    (fun j a b => if b =? j then Some color else None)); [exact Hs| | |]|].
  - intros a b [_ Hb]. destruct (Z.ltb_spec b 0); [lia|reflexivity].
  - intros j m1 Hj Hs1.
    eapply returns_mono; [apply (painted_loop (fun i a b => if (a <? i) && (b =? j) then Some color else None)
      (fun i a b => if (a =? i) && (b =? j) then Some color else None)); [exact Hs1| | |]|].
    + intros a b [Ha _]. destruct (Z.ltb_spec a 0); [lia|reflexivity].
    + intros i m2 Hi Hs2. rewrite i32_small by lia. apply store_painted; [exact Hs2|]. split; lia.
    + pixels_of_turn.
    + intros m2 Hp. apply (painted_ext _ _ _ _ Hp). intros a b [Ha _]. repeat case_cmp; cbn [andb]; (reflexivity || lia).
  - pixels_of_turn.
  - intros m' Hp. apply (painted_ext _ _ _ _ Hp). intros a b [_ Hb]. repeat case_cmp; (reflexivity || lia).
Qed.

(** ** Characters *)
Definition glyph (c : Z) : list Z :=
  default [] (font8x8_basic !! Z.to_nat ((if (u8 c <? 32) || (127 <? u8 c) then 63 else u8 c) - 32)).
Definition lit (c col row : Z) : bool :=
  match glyph c !! Z.to_nat row with Some bits => Z.testbit bits col | None => false end.

(** The pixel at offset (dx, dy) of a character cell. *)
Definition cell (c fg bg dx dy : Z) : option Z :=
  if in_rect 0 0 8 8 dx dy then
    if lit c dx dy then Some fg else if negb (bg =? TRANSPARENT) then Some bg else None
  else None.

Lemma font_rows : Forall (fun g => length g = 8%nat) font8x8_basic /\ length font8x8_basic = 96%nat.
Proof. split; [|reflexivity]. unfold font8x8_basic. repeat constructor. Qed.

Lemma glyph_of_Done c : glyph_of c = Done (glyph c) /\ length (glyph c) = 8%nat.
Proof.
  destruct font_rows as [Hrows Hlen]. unfold glyph_of, glyph. pose proof (u8_range c) as Hc.
  set (k := if (u8 c <? 32) || (127 <? u8 c) then 63 else u8 c).
  replace (u8 (if (u8 c <? 32) || (127 <? u8 c) then 63 else c)) with k
    by (unfold k; destruct (_ || _); reflexivity).
  assert (Hk : (Z.to_nat (k - 32) < length font8x8_basic)%nat).
  { rewrite Hlen. unfold k. destruct (Z.ltb_spec (u8 c) 32), (Z.ltb_spec 127 (u8 c)); cbn [orb]; lia. }
  destruct (lookup_lt_is_Some_2 _ _ Hk) as [g Eg]. rewrite Eg. cbn [default]. split; [reflexivity|].
  rewrite Forall_lookup in Hrows. exact (Hrows _ _ Eg).
Qed.

Ltac by_cell := first [reflexivity | match goal with |- context [cell ?c ?fg ?bg ?d ?e] => destruct (cell c fg bg d e); reflexivity end].

Lemma fb_draw_char_returns m x y c fg bg :
  surf m -> fits x 8 -> fits y 8 ->
  returns (fb_draw_char f m x y c fg bg) (fun m' => painted m m' (fun a b => cell c fg bg (a - x) (b - y))).
Proof.
  intros Hs [Hx Hx8] [Hy Hy8]. unfold fb_draw_char. destruct (glyph_of_Done c) as [-> Hlen]. rewrite bind_Done.
  eapply returns_mono; [apply (painted_loop
    (fun j a b => if in_rect x y 8 j a b then cell c fg bg (a - x) (b - y) else None)
    (fun j a b => if in_rect x (y + j) 8 1 a b then cell c fg bg (a - x) j else None)); [exact Hs| | |]|].
  - pixels_of_turn.
  - intros row m1 Hrow Hs1.
    destruct (lookup_lt_is_Some_2 (glyph c) (Z.to_nat row) ltac:(lia)) as [bits Eb].
    rewrite (proj2 (arr_get_Done _ row bits)) by (split; [lia|exact Eb]). rewrite bind_Done.
    eapply returns_mono; [apply (painted_loop
      (fun i a b => if in_rect x (y + row) i 1 a b then cell c fg bg (a - x) row else None)
      (fun i a b => if (a =? x + i) && (b =? y + row) then cell c fg bg i row else None)); [exact Hs1| | |]|].
    + pixels_of_turn.
    + intros i m2 Hi Hs2. rewrite !i32_small by lia. rewrite land_bit_test by lia.
      assert (Ec : cell c fg bg i row =
        if Z.testbit bits i then Some fg else if negb (bg =? TRANSPARENT) then Some bg else None).
      { unfold cell, lit, in_rect. rewrite Eb. repeat case_cmp; cbn [andb]; (reflexivity || lia). }
      rewrite Ec. destruct (Z.testbit bits i); [rewrite orb_true_r; apply fb_put_pixel_returns; [exact Hs2|lia|lia]|].
      rewrite orb_false_r. destruct (negb (bg =? TRANSPARENT)); [apply fb_put_pixel_returns; [exact Hs2|lia|lia]|].
      apply returns_Done. apply (painted_ext _ _ (fun _ _ => None)); [exact (painted_refl m2 Hs2)|].
      intros a b _. destruct (_ && _); reflexivity.
    + intros i a b Hi _. unfold over, in_rect. repeat case_cmp; cbn [andb]; try lia;
        try (replace (a - x) with i by lia); by_cell.
    + intros m2 Hp. exact Hp.
  - intros row a b Hrow _. unfold over, in_rect. repeat case_cmp; cbn [andb]; try lia;
      try (replace (b - y) with row by lia); by_cell.
  - intros m' Hp. apply (painted_ext _ _ _ _ Hp). intros a b _. unfold cell, in_rect.
    change (Z.max 0 8) with 8. repeat case_cmp; cbn [andb]; (reflexivity || lia).
Qed.

(** ** Lines

    After [a] moves along x and [b] along y the error term is
    [(b + 1) dx - (a + 1) |dy|], and the point is within half a pixel of the line. *)
Lemma line_step_spec dx ndy ux uy x y e :
  Z.abs x < 2 ^ 30 -> Z.abs y < 2 ^ 30 -> Z.abs ux = 1 -> Z.abs uy = 1 -> Z.abs (2 * e) < 2 ^ 31 ->
  Z.abs ndy < 2 ^ 29 -> Z.abs dx < 2 ^ 29 ->
  line_step dx ndy ux uy (x, y, e) =
  (if ndy <=? 2 * e then x + ux else x, if 2 * e <=? dx then y + uy else y,
   e + (if ndy <=? 2 * e then ndy else 0) + (if 2 * e <=? dx then dx else 0)).
Proof.
  intros Hx Hy Hux Huy He Hn Hd. unfold line_step. rewrite (i32_small (2 * e)) by lia.
  destruct (ndy <=? 2 * e), (2 * e <=? dx); rewrite ?(i32_small (e + ndy)) by lia; rewrite ?i32_small by lia;
    (apply f_equal2; [reflexivity|lia]).
Qed.

(** Arithmetic of the error term, for a longer axis of [l] moves and a shorter
    one of [s]: the last point is reached exactly, and the shorter axis only
    moves while it has moves left. *)
Lemma near_end l s b : 0 <= b <= s -> s <= l -> 2 * Z.abs (l * s - b * l) <= l -> b = s.
Proof.
  intros Hb Hl Hn. destruct (Z.eq_dec b s) as [|Hne]; [assumption|].
  assert (1 * l <= (s - b) * l) by (apply Z.mul_le_mono_nonneg_r; lia). lia.
Qed.

Lemma step_room l s a b : 0 <= a < l -> 0 <= b <= s -> 2 * ((b + 1) * l - (a + 1) * s) <= l -> b < s.
Proof.
  intros Ha Hb Hn. destruct (Z.eq_dec b s) as [->|]; [|lia].
  assert ((a + 1) * s <= l * s) by (apply Z.mul_le_mono_nonneg_r; lia). lia.
Qed.

Lemma move_near p u a a' : Z.abs u = 1 -> 0 <= a' - a <= 1 -> Z.abs (p + u * a' - (p + u * a)) <= 1.
Proof.
  intros Hu Ha. replace (p + u * a' - (p + u * a)) with (u * (a' - a)) by ring.
  rewrite Z.abs_mul, Hu. lia.
Qed.

Section Line.
Context (m0 : mem) (x0 y0 x1 y1 color : Z).
Context (Hx0 : Z.abs x0 < 2 ^ 28) (Hy0 : Z.abs y0 < 2 ^ 28) (Hx1 : Z.abs x1 < 2 ^ 28) (Hy1 : Z.abs y1 < 2 ^ 28).
Let DX := Z.abs (x1 - x0).
Let DY := Z.abs (y1 - y0).
Let sx := if x0 <? x1 then 1 else -1.
Let sy := if y0 <? y1 then 1 else -1.

Lemma signs : Z.abs sx = 1 /\ Z.abs sy = 1.
Proof. unfold sx, sy. destruct (x0 <? x1), (y0 <? y1); auto. Qed.

(** The point after [a] and [b] moves, and the invariant of the loop when [n]
    turns are left. *)
Definition at_move (a b : Z) : Z * Z := (x0 + sx * a, y0 + sy * b).
Definition err_of (a b : Z) : Z := (b + 1) * DX - (a + 1) * DY.
Record on_line (a b n : Z) : Prop := {
  ol_a : 0 <= a <= DX;
  ol_b : 0 <= b <= DY;
  ol_near : 2 * Z.abs (a * DY - b * DX) <= Z.max DX DY;
  ol_left : n = Z.max DX DY - (if DY <=? DX then a else b)
}.

Lemma on_line_end a b : on_line a b 0 -> a = DX /\ b = DY.
Proof.
  intros [Ha Hb Hn Hl]. destruct (Z.leb_spec DY DX) as [Hle|Hlt].
  - assert (a = DX) by lia. subst a. split; [reflexivity|]. apply (near_end DX); lia.
  - assert (b = DY) by lia. subst b. split; [|reflexivity]. apply (near_end DY); lia.
Qed.

Lemma on_line_before a b n : on_line a b n -> 0 < n -> a < DX \/ b < DY.
Proof. intros [Ha Hb Hn Hl] Hp. destruct (Z.leb_spec DY DX); lia. Qed.

Lemma err_bound a b n : on_line a b n -> 2 * Z.abs (err_of a b) <= 3 * Z.max DX DY.
Proof. intros [Ha Hb Hn _]. unfold err_of. lia. Qed.

(** One turn moves along the longer axis, and along the other when that keeps the
    point near. *)
Lemma on_line_step a b n :
  on_line a b n -> 0 < n ->
  let mx := - DY <=? 2 * err_of a b in
  let my := 2 * err_of a b <=? DX in
  on_line (if mx then a + 1 else a) (if my then b + 1 else b) (n - 1).
Proof.
  intros [Ha Hb Hn Hl] Hp. cbv zeta. unfold err_of.
  destruct (Z.leb_spec DY DX) as [Hle|Hlt].
  - assert (Ha' : a < DX) by lia.
    destruct (Z.leb_spec (- DY) (2 * ((b + 1) * DX - (a + 1) * DY))) as [Hmx|Hmx]; [|lia].
    destruct (Z.leb_spec (2 * ((b + 1) * DX - (a + 1) * DY)) DX) as [Hmy|Hmy]; split; try lia.
    + assert (b < DY) by (apply (step_room DX DY a); lia). lia.
    + destruct (Z.leb_spec DY DX); lia.
    + destruct (Z.leb_spec DY DX); lia.
  - assert (Hb' : b < DY) by lia.
    destruct (Z.leb_spec (2 * ((b + 1) * DX - (a + 1) * DY)) DX) as [Hmy|Hmy]; [|lia].
    destruct (Z.leb_spec (- DY) (2 * ((b + 1) * DX - (a + 1) * DY))) as [Hmx|Hmx]; split; try lia.
    + assert (a < DX) by (apply (step_room DY DX b); lia). lia.
    + destruct (Z.leb_spec DY DX); lia.
    + destruct (Z.leb_spec DY DX); lia.
Qed.

Lemma line_deltas : line_dx x0 x1 = DX /\ line_dy y0 y1 = - DY /\ DX < 2 ^ 29 /\ DY < 2 ^ 29.
Proof.
  unfold line_dx, line_dy, DX, DY.
  destruct (Z.ltb_spec x0 x1), (Z.ltb_spec y0 y1); rewrite !i32_small by lia; lia.
Qed.

Lemma move_end a b : 0 <= a <= DX -> 0 <= b <= DY ->
  (at_move a b = (x1, y1) <-> a = DX /\ b = DY).
Proof.
  intros Ha Hb. unfold at_move, sx, sy, DX, DY in *. split.
  - intros [= E1 E2]. destruct (Z.ltb_spec x0 x1), (Z.ltb_spec y0 y1); lia.
  - intros [-> ->]. f_equal; destruct (Z.ltb_spec x0 x1), (Z.ltb_spec y0 y1); lia.
Qed.

Lemma line_step_moves a b n :
  on_line a b n -> 0 < n ->
  let a' := if - DY <=? 2 * err_of a b then a + 1 else a in
  let b' := if 2 * err_of a b <=? DX then b + 1 else b in
  line_step DX (- DY) sx sy (at_move a b, err_of a b) = (at_move a' b', err_of a' b').
Proof.
  intros Hon Hp. destruct line_deltas as (_ & _ & HDX & HDY). pose proof (err_bound _ _ _ Hon) as He.
  destruct Hon as [Ha Hb _ _]. cbv zeta. unfold at_move.
  assert (Hcx : Z.abs (x0 + sx * a) < 2 ^ 30) by (unfold sx; destruct (x0 <? x1); lia).
  assert (Hcy : Z.abs (y0 + sy * b) < 2 ^ 30) by (unfold sy; destruct (y0 <? y1); lia).
  assert (Hm : Z.abs (2 * err_of a b) < 2 ^ 31).
  { rewrite Z.abs_mul. apply (Z.le_lt_trans _ _ _ He). clear - HDX HDY. lia. }
  assert (HX : Z.abs DX < 2 ^ 29) by (rewrite Z.abs_eq by apply Z.abs_nonneg; exact HDX).
  assert (HY : Z.abs (- DY) < 2 ^ 29) by (rewrite Z.abs_opp, Z.abs_eq by apply Z.abs_nonneg; exact HDY).
  destruct signs as [Hsx Hsy].
  rewrite (line_step_spec _ _ _ _ _ _ _ Hcx Hcy Hsx Hsy Hm HY HX).
  destruct (- DY <=? 2 * err_of a b), (2 * err_of a b <=? DX);
    (apply f_equal2; [apply f_equal2|unfold err_of]); ring.
Qed.

(** The points of a drawn line. *)
Record line_points (pts : list (Z * Z)) (p : Z * Z) (n : Z) : Prop := {
  lp_length : Z.of_nat (length pts) = n + 1;
  lp_first : head pts = Some p;
  lp_last : last pts = Some (x1, y1);
  lp_near : forall a b, (a, b) ∈ pts -> 2 * Z.abs ((a - x0) * (y1 - y0) - (b - y0) * (x1 - x0)) <= Z.max DX DY;
  lp_steps : forall k a b a' b', pts !! k = Some (a, b) -> pts !! S k = Some (a', b') ->
    Z.abs (a' - a) <= 1 /\ Z.abs (b' - b) <= 1
}.

Definition color_at (pts : list (Z * Z)) : Z -> Z -> option Z :=
  fun a b => if bool_decide ((a, b) ∈ pts) then Some color else None.

Lemma near_move a b n : on_line a b n ->
  2 * Z.abs ((x0 + sx * a - x0) * (y1 - y0) - (y0 + sy * b - y0) * (x1 - x0)) <= Z.max DX DY.
Proof.
  intros [_ _ Hn _].
  assert (Ex : x1 - x0 = sx * DX) by (unfold sx, DX; destruct (Z.ltb_spec x0 x1); lia).
  assert (Ey : y1 - y0 = sy * DY) by (unfold sy, DY; destruct (Z.ltb_spec y0 y1); lia).
  assert (Hs : Z.abs (sx * sy) = 1) by (unfold sx, sy; destruct (x0 <? x1), (y0 <? y1); reflexivity).
  rewrite Ex, Ey. replace (_ - _) with (sx * sy * (a * DY - b * DX)) by ring.
  rewrite Z.abs_mul, Hs, Z.mul_1_l. exact Hn.
Qed.

Lemma move_range a b n : on_line a b n ->
  - 2 ^ 31 <= fst (at_move a b) < 2 ^ 31 /\ - 2 ^ 31 <= snd (at_move a b) < 2 ^ 31.
Proof.
  intros [Ha Hb _ _]. destruct line_deltas as (_ & _ & HX & HY). unfold at_move. cbn [fst snd].
  assert (Hs : Z.abs sx = 1 /\ Z.abs sy = 1) by (unfold sx, sy; destruct (x0 <? x1), (y0 <? y1); auto).
  nia.
Qed.

(** What the loop does from a point of the line with [n] turns left. *)
Definition draws (n a b : Z) (m m' : mem) : Prop :=
  exists pts, painted m m' (color_at pts) /\ line_points pts (at_move a b) n.

Lemma draws_last a b m m' : on_line a b 0 ->
  painted m m' (fun x y => if (x =? fst (at_move a b)) && (y =? snd (at_move a b)) then Some color else None) ->
  draws 0 a b m m'.
Proof.
  intros Hon Hp. pose proof (near_move a b _ Hon) as Hnear. exists [at_move a b]. split.
  - apply (painted_ext _ _ _ _ Hp). intros x y _. unfold color_at, at_move. cbn [fst snd].
    repeat case_cmp; cbn [andb]; [rewrite bool_decide_true|rewrite bool_decide_false..]; try reflexivity;
      rewrite list_elem_of_singleton; congruence.
  - split; [reflexivity|reflexivity| | |].
    + cbn [last]. f_equal. apply (move_end a b); [apply Hon|apply Hon|exact (on_line_end a b Hon)].
    + intros x y Hin. apply list_elem_of_singleton in Hin. injection Hin as -> ->. exact Hnear.
    + intros [|k] ? ? ? ? _ E; discriminate E.
Qed.

Lemma draws_cons n a b a' b' m m1 m' :
  0 < n -> on_line a b n -> (0 <= a' - a <= 1 /\ 0 <= b' - b <= 1) ->
  painted m m1 (fun x y => if (x =? fst (at_move a b)) && (y =? snd (at_move a b)) then Some color else None) ->
  draws (n - 1) a' b' m1 m' -> draws n a b m m'.
Proof.
  intros Hn Hon Hmv Hp (pts & Hp' & [Hl Hf Hla Hne Hst]). pose proof (near_move a b _ Hon) as Hnear.
  exists (at_move a b :: pts). split.
  - apply (painted_ext _ _ _ _ (painted_trans _ _ _ _ _ Hp Hp')). intros x y _. unfold over, color_at, at_move.
    cbn [fst snd]. destruct (decide ((x, y) ∈ pts)) as [Hin|Hin].
    + rewrite !bool_decide_true; [reflexivity|right; exact Hin|exact Hin].
    + rewrite (bool_decide_false _ Hin). repeat case_cmp; cbn [andb];
        [rewrite bool_decide_true|rewrite bool_decide_false..]; try reflexivity; rewrite elem_of_cons;
        [left; congruence|intros [E|E]; [injection E; congruence|tauto]..].
  - pose proof signs as Hs. destruct pts as [|q pts]; [discriminate|]. cbn [head] in Hf. injection Hf as ->. split.
    + cbn [length] in *. lia.
    + reflexivity.
    + exact Hla.
    + intros x y Hin. apply elem_of_cons in Hin as [E|Hin]; [injection E as -> ->; exact Hnear|exact (Hne x y Hin)].
    + intros [|k] u v u' v' E E'; [|exact (Hst k u v u' v' E E')].
      cbn in E, E'. unfold at_move in E, E'. injection E as <- <-. injection E' as <- <-.
      split; apply move_near; tauto.
Qed.

Lemma line_loop n : forall a b m,
  surf m -> on_line a b (Z.of_nat n) ->
  returns (loop (S n) (fun '(x, y, err, m) =>
      m ← fb_put_pixel f m x y color;
      if (x =? x1) && (y =? y1) then mret (inr m)
      else mret (inl (line_step DX (- DY) sx sy (x, y, err), m))) (at_move a b, err_of a b, m))
    (draws (Z.of_nat n) a b m).
Proof.
  induction n as [|n IH]; intros a b m Hs Hon; pose proof (move_range a b _ Hon) as [Hrx Hry];
    rewrite loop_S; rewrite (surjective_pairing (at_move a b)) at 1; cbn beta iota;
    destruct (fb_put_pixel_returns m _ _ color Hs Hrx Hry) as (m1 & -> & Hp1); rewrite bind_Done;
    pose proof (move_end a b (ol_a _ _ _ Hon) (ol_b _ _ _ Hon)) as Hend.
  - pose proof (proj2 Hend (on_line_end a b Hon)) as E. rewrite E in *. cbn [fst snd]. rewrite !Z.eqb_refl.
    apply returns_Done. apply draws_last; [exact Hon|]. rewrite E. exact Hp1.
  - assert (Hn0 : 0 < Z.of_nat (S n)) by lia.
    destruct ((fst (at_move a b) =? x1) && (snd (at_move a b) =? y1)) eqn:E.
    + exfalso. apply andb_true_iff in E as [E1 E2]. apply Z.eqb_eq in E1, E2.
      assert (Ea : at_move a b = (x1, y1)) by (rewrite (surjective_pairing (at_move a b)); congruence).
      destruct (proj1 Hend Ea), (on_line_before a b _ Hon Hn0); lia.
    + cbn [mret outcome_ret]. rewrite bind_Done. rewrite <- (surjective_pairing (at_move a b)).
      rewrite (line_step_moves a b _ Hon Hn0). pose proof (on_line_step a b _ Hon Hn0) as Hon'. cbv zeta in *.
      set (a' := if - DY <=? _ then a + 1 else a) in *. set (b' := if _ <=? DX then b + 1 else b) in *.
      replace (Z.of_nat (S n) - 1) with (Z.of_nat n) in Hon' by lia.
      eapply returns_mono; [exact (IH a' b' m1 (pt_surf _ _ _ Hp1) Hon')|]. intros m' Hd.
      apply (draws_cons (Z.of_nat (S n)) a b a' b' m m1 m' Hn0 Hon); [|exact Hp1|].
      * unfold a', b'. destruct (_ <=? _), (_ <=? _); lia.
      * replace (Z.of_nat (S n) - 1) with (Z.of_nat n) by lia. exact Hd.
Qed.
End Line.
End Painting.

(** ** The surface after [fb_init] *)
Section Init.
Context {St : Type} `{PageAllocLaws St}.

(** What the boot loader's tag describes is a surface. *)
Record tag_ok (m : mem) (addr w h pi : Z) : Prop := {
  tag_size : 0 <= w < 2 ^ 31 /\ 0 <= h < 2 ^ 31;
  tag_pitch : 4 * w <= pi < 2 ^ 32;
  tag_mapped : mapped m addr (pi * h)
}.

(** Memory behind the free pages. *)
Definition pages_mapped (m : mem) (ps : St) : Prop := forall p, pa_free ps p -> mapped m (p * PAGE_SIZE) PAGE_SIZE.

Lemma run_mapped m ps ps' p count :
  pages_mapped m ps -> pages_taken ps ps' p count -> mapped m (p * PAGE_SIZE) (count * PAGE_SIZE).
Proof.
  intros Hm [Hfree _] a Ha. unfold PAGE_SIZE in *.
  apply (Hm (p + (a - p * 4096) / 4096)); [apply Hfree|unfold PAGE_SIZE]; Z.to_euclidean_division_equations; lia.
Qed.

Lemma fb_init_returns fuel fallback mb2 info o ps m addr w h pi bits :
  fb_mb2_find fuel mb2 MB2_TAG_FRAMEBUFFER = Done (Some (info, o)) ->
  rgb_tag info o = Done (Some (addr, w, h, pi, bits)) -> tag_ok m addr w h pi ->
  pa_ok ps -> pages_mapped m ps ->
  returns (fb_init fuel fallback mb2 ps m) (fun '(f, ps', m') =>
    surf f m' /\ width f = w /\ height f = h /\ pa_ok ps' /\ (forall q, pa_free ps' q -> pa_free ps q) /\
    mapped m' (pixels f) (pitch f * height f)).
Proof.
  intros Hfind Htag [Hsz Hpi Hmap] Hok Hpg. unfold fb_init. rewrite Hfind, bind_Done, Htag, !bind_Done.
  cbn [pitch height pixels width bpp]. assert (Hb : 0 <= pi * h < 2 ^ 63) by nia. rewrite (u64_small (pi * h)) by lia.
  rewrite ALIGN_UP_page by lia. change PAGE_SIZE with 4096. rewrite Z.div_mul by lia.
  set (n := (pi * h + 4095) / 4096). assert (Hn : 0 <= n < 2 ^ 64 /\ pi * h <= n * 4096)
    by (subst n; Z.to_euclidean_division_equations; lia).
  apply returns_bind. eapply returns_mono; [exact (pa_alloc_pages_post ps n Hok ltac:(lia))|].
  intros [bk ps'] [Hok' Hcase]. cbn [fst snd] in *. destruct Hcase as [[-> Hsame]|(p & Hp & Hn0 & -> & Htaken)].
  - rewrite Z.eqb_refl. cbn [negb]. apply returns_Done. split; [split; cbn; assumption|].
    repeat split; try assumption. apply Hsame.
  - unfold PAGE_SIZE in *. destruct (Z.eqb_spec (p * 4096) 0) as [E|_]; [lia|]. cbn [negb]. apply returns_bind.
    pose proof (run_mapped m ps ps' p n Hpg Htaken) as Hrun. unfold PAGE_SIZE in Hrun.
    eapply returns_mono; [apply (memset_returns m (p * 4096) 0 (pi * h)); [lia|]|].
    { intros a Ha. apply Hrun. lia. }
    intros m' [Hout Hset]. apply returns_Done. split.
    + split; cbn; [assumption..|]. intros a Ha. unfold surface in Ha. cbn in Ha.
      replace a with (p * 4096 + (a - p * 4096)) by lia. rewrite Hset by lia. eauto.
    + repeat split; try assumption; [intros q Hq; apply Htaken, Hq|]. cbn [pixels pitch height].
      apply (same_outside_mapped (p * 4096) (pi * h) m m' addr (pi * h) Hout); [|exact Hmap].
      intros a Ha. replace a with (p * 4096 + (a - p * 4096)) by lia. rewrite Hset by lia. eauto.
Qed.
End Init.

(** The line loop ends, and paints the points it goes through. *)
Lemma fb_draw_line_returns f m x0 y0 x1 y1 color :
  surf f m -> Z.abs x0 < 2 ^ 28 -> Z.abs y0 < 2 ^ 28 -> Z.abs x1 < 2 ^ 28 -> Z.abs y1 < 2 ^ 28 ->
  returns (fb_draw_line f m x0 y0 x1 y1 color) (fun m' => exists pts,
    line_points x0 y0 x1 y1 pts (x0, y0) (Z.max (Z.abs (x1 - x0)) (Z.abs (y1 - y0))) /\
    painted f m m' (color_at color pts)).
Proof.
  intros Hs Hx0 Hy0 Hx1 Hy1. destruct (line_deltas x0 y0 x1 y1 Hx0 Hy0 Hx1 Hy1) as (Ex & Ey & HX & HY).
  unfold fb_draw_line. rewrite Ex, Ey. unfold line_fuel.
  assert (Hon : on_line x0 y0 x1 y1 0 0 (Z.of_nat (Z.to_nat (Z.max (Z.abs (x1 - x0)) (Z.abs (y1 - y0)))))).
  { split; [lia..|]. destruct (_ <=? _); lia. }
  destruct (line_loop f x0 y0 x1 y1 color Hx0 Hy0 Hx1 Hy1 _ 0 0 m Hs Hon) as (m' & Hrun & pts & Hp & Hpts).
  exists m'. split.
  - rewrite <- Hrun. unfold at_move. rewrite !Z.mul_0_r, !Z.add_0_r. rewrite i32_small by lia.
    replace (err_of x0 y0 x1 y1 0 0) with (Z.abs (x1 - x0) + - Z.abs (y1 - y0)) by (unfold err_of; lia).
    reflexivity.
  - exists pts. split; [|exact Hp].
    unfold at_move in Hpts. rewrite !Z.mul_0_r, !Z.add_0_r in Hpts. rewrite Z2Nat.id in Hpts by lia. exact Hpts.
Qed.

(** ** The properties *)

(** C35: [fb_fill_rect] paints exactly the pixels of the rectangle that are on the
    screen, whatever part of it is outside, and no other byte of memory. *)
Theorem fb_fill_rect_clips f m x y w h color :
  surf f m -> fits x w -> fits y h ->
  returns (fb_fill_rect f m x y w h color) (fun m' =>
    (forall a b, on_screen f a b ->
       pixel f m' a b = if in_rect x y w h a b then Done (u32 color) else pixel f m a b) /\
    (forall p, (forall a b, on_screen f a b -> in_rect x y w h a b = true ->
       ~ (pixel_addr f a b <= p < pixel_addr f a b + 4)) -> m' !! p = m !! p)).
Proof.
  intros Hs Hx Hy. eapply returns_mono; [exact (fb_fill_rect_returns f m x y w h color Hs Hx Hy)|].
  intros m' Hp. split.
  - intros a b Hab. rewrite (pt_pixel _ _ _ _ Hp a b Hab). destruct (in_rect x y w h a b); reflexivity.
  - intros p Hout. apply (pt_rest _ _ _ _ Hp). intros a b Hab Hin. apply (Hout a b Hab).
    destruct (in_rect x y w h a b); [reflexivity|congruence].
Qed.

(** C36: [fb_draw_line] terminates.  The points it paints are a chain of
    [max(|x1 - x0|, |y1 - y0|) + 1] neighbouring points from one end to the other, each
    within half a pixel of the ideal line; the on-screen ones get the colour and no
    other pixel changes.  The coordinates are below [2 ^ 28] in absolute value, which keeps
    the 32-bit error term from overflowing. *)
Theorem fb_draw_line_connects f m x0 y0 x1 y1 color :
  surf f m -> Z.abs x0 < 2 ^ 28 -> Z.abs y0 < 2 ^ 28 -> Z.abs x1 < 2 ^ 28 -> Z.abs y1 < 2 ^ 28 ->
  returns (fb_draw_line f m x0 y0 x1 y1 color) (fun m' => exists pts,
    line_points x0 y0 x1 y1 pts (x0, y0) (Z.max (Z.abs (x1 - x0)) (Z.abs (y1 - y0))) /\
    forall a b, on_screen f a b ->
      pixel f m' a b = if bool_decide ((a, b) ∈ pts) then Done (u32 color) else pixel f m a b).
Proof.
  intros Hs Hx0 Hy0 Hx1 Hy1. eapply returns_mono; [exact (fb_draw_line_returns f m x0 y0 x1 y1 color Hs Hx0 Hy0 Hx1 Hy1)|].
  intros m' (pts & Hl & Hp). exists pts. split; [exact Hl|]. intros a b Hab. rewrite (pt_pixel _ _ _ _ Hp a b Hab).
  unfold color_at. destruct (bool_decide _); reflexivity.
Qed.

(** [fb_draw_char] paints the 8 by 8 cell of the character: the bits of its
    glyph in the foreground, the other pixels in the background unless that is
    transparent; characters outside the font are drawn as a question mark. *)
Theorem fb_draw_char_glyph f m x y c fg bg :
  surf f m -> fits x 8 -> fits y 8 ->
  returns (fb_draw_char f m x y c fg bg) (fun m' => forall a b, on_screen f a b ->
    pixel f m' a b =
      if negb (in_rect x y 8 8 a b) then pixel f m a b
      else if lit c (a - x) (b - y) then Done (u32 fg)
      else if bg =? TRANSPARENT then pixel f m a b else Done (u32 bg)).
Proof.
  intros Hs Hx Hy. eapply returns_mono; [exact (fb_draw_char_returns f m x y c fg bg Hs Hx Hy)|].
  intros m' Hp a b Hab. rewrite (pt_pixel _ _ _ _ Hp a b Hab). unfold cell.
  replace (in_rect 0 0 8 8 (a - x) (b - y)) with (in_rect x y 8 8 a b).
  - destruct (in_rect x y 8 8 a b), (lit c (a - x) (b - y)), (bg =? TRANSPARENT); reflexivity.
  - unfold in_rect. repeat case_cmp; cbn [andb]; (reflexivity || lia).
Qed.

(** ** A small screen *)
Definition demo_fb : fb := mk_fb 0x1000 16 8 64 32 false 0.
Definition demo_surface : mem := mem_of_list 0x1000 (replicate 512 0).

Lemma demo_surf : surf demo_fb demo_surface.
Proof.
  split; [cbn; lia|cbn; lia|]. apply (mem_of_list_mapped 0x1000 (replicate 512 0)); vm_compute; discriminate.
Qed.

Lemma fb_fill_rect_clips_witness :
  returns (fb_fill_rect demo_fb demo_surface (-2) 6 4 5 7) (fun m' =>
    pixel demo_fb m' 1 7 = Done 7 /\ pixel demo_fb m' 2 7 = pixel demo_fb demo_surface 2 7).
Proof.
  destruct (fb_fill_rect_clips demo_fb demo_surface (-2) 6 4 5 7 demo_surf) as (m' & E & Hp & _);
    [unfold fits; lia|unfold fits; lia|].
  exists m'. split; [exact E|]. split; apply Hp; cbn; unfold on_screen; cbn; lia.
Defined.

Lemma fb_draw_line_connects_witness :
  returns (fb_draw_line demo_fb demo_surface 0 0 5 2 9) (fun m' => exists pts,
    line_points 0 0 5 2 pts (0, 0) 5 /\
    (pixel demo_fb m' 0 0 = if bool_decide ((0, 0) ∈ pts) then Done 9 else pixel demo_fb demo_surface 0 0)).
Proof.
  destruct (fb_draw_line_connects demo_fb demo_surface 0 0 5 2 9 demo_surf) as (m' & E & pts & Hl & Hp);
    [lia|lia|lia|lia|].
  exists m'. split; [exact E|]. exists pts. split; [exact Hl|]. apply (Hp 0 0). unfold on_screen. cbn. lia.
Defined.

Lemma fb_draw_char_glyph_witness :
  returns (fb_draw_char demo_fb demo_surface 3 0 65 5 TRANSPARENT) (fun m' => pixel demo_fb m' 5 0 = Done 5).
Proof.
  destruct (fb_draw_char_glyph demo_fb demo_surface 3 0 65 5 TRANSPARENT demo_surf) as (m' & E & Hp);
    [unfold fits; lia|unfold fits; lia|].
  exists m'. split; [exact E|]. apply (Hp 5 0). unfold on_screen. cbn. lia.
Defined.
