(* ===== verification/Adaptive.v ===== *)
(** * Performance profile: [kernel/core/adaptive.c]

    [adaptive_init] chooses the profile from the memory size and the CPU; the window
    manager and the desktop read the settings. *)
From Stdlib Require Import ZArith Lia Bool String.
From stdpp Require Import base tactics list numbers.
From S2P Require Import Prelude CInt CString.
#[local] Close Scope string_scope.
#[local] Open Scope Z_scope.

Inductive perf_profile := PERF_LOW | PERF_BALANCED | PERF_HIGH.

Record perf_settings := mk_perf {
  profile : perf_profile;
  animations : bool;
  blur : bool;
  shadows : bool;
  transparency : bool;
  target_fps : Z;
  max_windows : Z
}.

(** [total_bytes] of [pmm_get_stats], [logical_cpus] and [has_sse2] of [cpu_get_info]. *)
Definition adaptive_init (total_bytes logical_cpus : Z) (has_sse2 : bool) : perf_settings :=
  let mem_mb := total_bytes / (1024 * 1024) in
  if (mem_mb <? 512) || (logical_cpus <=? 1) || negb has_sse2
  then mk_perf PERF_LOW false false false false 30 4
  else if (mem_mb <? 2048) || (logical_cpus <? 4)
  then mk_perf PERF_BALANCED true false true true 60 12
  else mk_perf PERF_HIGH true true true true 60 32.

Definition adaptive_settings (g_perf : perf_settings) : perf_settings := g_perf.

Definition adaptive_profile_name (g_perf : perf_settings) : list Z :=
  match profile g_perf with
  | PERF_LOW => chars "Low-End / Lightweight"
  | PERF_BALANCED => chars "Balanced"
  | PERF_HIGH => chars "High-End / Enhanced"
  end.

(** Every profile allows at least one window and at most the 32 there are, and a
    machine without SSE2 always gets the lightest. *)
Lemma adaptive_init_windows bytes cpus sse2 :
  1 <= max_windows (adaptive_init bytes cpus sse2) <= 32.
Proof.
  unfold adaptive_init. destruct (_ || negb sse2); [simpl; lia|]. destruct (_ || _); simpl; lia.
Qed.

Lemma adaptive_init_mono bytes bytes' cpus cpus' :
  0 <= bytes <= bytes' -> cpus <= cpus' ->
  max_windows (adaptive_init bytes cpus true) <= max_windows (adaptive_init bytes' cpus' true).
Proof.
  intros Hb Hc. unfold adaptive_init. cbn [negb]. rewrite !orb_false_r.
  pose proof (Z.div_le_mono bytes bytes' (1024 * 1024) ltac:(lia) ltac:(lia)).
  repeat case_cmp; cbn [orb max_windows]; lia.
Qed.
