(* ===== verification/Wm.v ===== *)
(** * Window manager: [window_manager/wm.c]

    A [window_t*] is the index of a window in the table or [None]; the code only
    makes pointers to its 32 elements, so an index out of the table never arises.
    The callbacks of a window are parameters: [call_draw] draws its contents and
    [call_key] hands it a key. *)
From Stdlib Require Import ZArith Lia Bool String.
From stdpp Require Import base tactics option list numbers gmap.
From S2P Require Import Prelude CInt CString PageAlloc Pmm Mem Framebuffer Adaptive Mouse.
#[local] Close Scope string_scope.
#[local] Open Scope Z_scope.

(** ** State *)
Definition WM_MAX_WINDOWS : Z := 32.
Definition WM_TITLE_LEN : Z := 64.
Definition TASKBAR_H : Z := 48.

Inductive win_state := WIN_NORMAL | WIN_MAXIMIZED | WIN_MINIMIZED | WIN_FULLSCREEN.
#[export] Instance win_state_eq : EqDecision win_state.
Proof. solve_decision. Defined.

Record window := mk_window {
  active : bool;
  title : list Z;
  wx : Z; wy : Z; ww : Z; wh : Z;
  restore_x : Z; restore_y : Z; restore_w : Z; restore_h : Z;
  bg : Z;
  accent : Z;
  wstate : win_state;
  always_on_top : bool;
  is_focused : bool;
  draw : Z;       (* function pointers, 0 for NULL *)
  on_key : Z;
  user : Z
}.

Definition zero_window : window :=
  mk_window false (replicate 64 0) 0 0 0 0 0 0 0 0 0 0 WIN_NORMAL false false 0 0 0.

Record wm := mk_wm {
  windows : list window;
  focused : option nat;
  win_count : Z;
  drag_win : option nat;
  drag_off_x : Z;
  drag_off_y : Z;
  dragging : bool
}.

(** Assignments to fields. *)
Definition set_geometry (x y w h : Z) (v : window) : window :=
  mk_window (active v) (title v) x y w h (restore_x v) (restore_y v) (restore_w v) (restore_h v)
    (bg v) (accent v) (wstate v) (always_on_top v) (is_focused v) (draw v) (on_key v) (user v).
Definition save_geometry (v : window) : window :=
  mk_window (active v) (title v) (wx v) (wy v) (ww v) (wh v) (wx v) (wy v) (ww v) (wh v)
    (bg v) (accent v) (wstate v) (always_on_top v) (is_focused v) (draw v) (on_key v) (user v).
Definition set_flags (a : bool) (st : win_state) (fo : bool) (v : window) : window :=
  mk_window a (title v) (wx v) (wy v) (ww v) (wh v) (restore_x v) (restore_y v) (restore_w v) (restore_h v)
    (bg v) (accent v) st (always_on_top v) fo (draw v) (on_key v) (user v).
Definition set_state (st : win_state) (v : window) : window := set_flags (active v) st (is_focused v) v.
Definition set_is_focused (b : bool) (v : window) : window := set_flags (active v) (wstate v) b v.
Definition set_active (b : bool) (v : window) : window := set_flags b (wstate v) (is_focused v) v.

Definition set_windows (l : list window) (s : wm) : wm :=
  mk_wm l (focused s) (win_count s) (drag_win s) (drag_off_x s) (drag_off_y s) (dragging s).
Definition set_focused (f : option nat) (s : wm) : wm :=
  mk_wm (windows s) f (win_count s) (drag_win s) (drag_off_x s) (drag_off_y s) (dragging s).
Definition set_count (n : Z) (s : wm) : wm :=
  mk_wm (windows s) (focused s) n (drag_win s) (drag_off_x s) (drag_off_y s) (dragging s).
Definition set_drag (d : option nat) (ox oy : Z) (b : bool) (s : wm) : wm :=
  mk_wm (windows s) (focused s) (win_count s) d ox oy b.

Definition win (s : wm) (i : nat) : window := default zero_window (windows s !! i).
Definition upd_win (i : nat) (f : window -> window) (s : wm) : wm :=
  set_windows (alter f i (windows s)) s.

(** ** Operations *)
Definition wm_taskbar_height : Z := TASKBAR_H.

(** The drag state is not touched. *)
Definition wm_init (s : wm) : wm :=
  mk_wm (replicate 32 zero_window) None 0 (drag_win s) (drag_off_x s) (drag_off_y s) (dragging s).

Definition wm_focus (s : wm) (w : option nat) : wm :=
  let s := set_windows (map (set_is_focused false) (windows s)) s in
  match w with
  | None => s
  | Some i =>
      let s := set_focused (Some i) (upd_win i (set_is_focused true) s) in
      if decide (wstate (win s i) = WIN_MINIMIZED) then upd_win i (set_state WIN_NORMAL) s else s
  end.

(** The window [wm_create] fills a free slot with. *)
Definition new_window (ttl : option (list Z)) (x y w h : Z) : window :=
  mk_window true
    (strncpy_arr (title zero_window) (default (chars "Untitled") ttl) (Z.to_nat (WM_TITLE_LEN - 1)))
    x y w h x y w h 0xFF0E1A22 0xFF2EC4B6 WIN_NORMAL false false 0 0 0.

(** The index of the first window that is not active. *)
Fixpoint free_slot (i : nat) (l : list window) : option nat :=
  match l with
  | [] => None
  | v :: l' => if active v then free_slot (S i) l' else Some i
  end.

Definition wm_create (p : perf_settings) (s : wm) (ttl : option (list Z)) (x y w h : Z) : option nat * wm :=
  if max_windows p <=? win_count s then (None, s)
  else
    match free_slot 0 (windows s) with
    | None => (None, s)
    | Some i =>
        let s := upd_win i (fun _ => new_window ttl x y w h) s in
        (Some i, wm_focus (set_count (u32 (win_count s + 1)) s) (Some i))
    end.

Definition wm_destroy (s : wm) (w : option nat) : wm :=
  match w with
  | None => s
  | Some i =>
      if negb (active (win s i)) then s
      else
        let s := upd_win i (set_active false) s in
        let s := if decide (focused s = Some i) then set_focused None s else s in
        set_count (u32 (win_count s - 1)) s
  end.

Definition wm_restore_or_focus (s : wm) (w : option nat) : wm :=
  match w with
  | None => s
  | Some i =>
      if is_focused (win s i) && negb (bool_decide (wstate (win s i) = WIN_MINIMIZED))
      then set_focused None (upd_win i (set_state WIN_MINIMIZED) s)
      else wm_focus s w
  end.

Definition move_to (x y : Z) (v : window) : window := set_geometry x y (ww v) (wh v) v.
Definition wm_move (s : wm) (w : option nat) (x y : Z) : wm :=
  match w with None => s | Some i => upd_win i (move_to x y) s end.

Definition wm_resize (s : wm) (w : option nat) (dw dh : Z) : wm :=
  match w with
  | None => s
  | Some i =>
      let dw := if dw <? 160 then 160 else dw in
      let dh := if dh <? 100 then 100 else dh in
      upd_win i (fun v => set_geometry (wx v) (wy v) dw dh v) s
  end.

(** The window after [wm_set_state]. *)
Definition change_state (f : fb) (st : win_state) (v : window) : window :=
  let v :=
    if bool_decide (st = WIN_MAXIMIZED) && negb (bool_decide (wstate v = WIN_MAXIMIZED)) then
      set_geometry 0 0 (i32 (width f)) (i32 (i32 (height f) - TASKBAR_H)) (save_geometry v)
    else if bool_decide (st = WIN_NORMAL) && bool_decide (wstate v = WIN_MAXIMIZED) then
      set_geometry (restore_x v) (restore_y v) (restore_w v) (restore_h v) v
    else v in
  set_state st v.

Definition wm_set_state (f : fb) (s : wm) (w : option nat) (st : win_state) : wm :=
  match w with None => s | Some i => upd_win i (change_state f st) s end.

(** The rectangle of a snap layout; [None] for the other numbers. *)
Definition snap_rect (f : fb) (layout : Z) : option (Z * Z * Z * Z) :=
  let W := i32 (width f) in
  let H := i32 (i32 (height f) - TASKBAR_H) in
  let hw := Z.quot W 2 in
  let hh := Z.quot H 2 in
  if layout =? 0 then Some (0, 0, hw, H)
  else if layout =? 1 then Some (hw, 0, i32 (W - hw), H)
  else if layout =? 2 then Some (0, 0, hw, hh)
  else if layout =? 3 then Some (hw, 0, i32 (W - hw), hh)
  else if layout =? 4 then Some (0, hh, hw, i32 (H - hh))
  else if layout =? 5 then Some (hw, hh, i32 (W - hw), i32 (H - hh))
  else None.

Definition wm_snap (f : fb) (s : wm) (w : option nat) (layout : Z) : wm :=
  match w with
  | None => s
  | Some i =>
      let s := if negb (bool_decide (wstate (win s i) = WIN_MAXIMIZED)) && negb (layout =? 6)
               then upd_win i save_geometry s else s in
      if layout =? 6 then wm_set_state f s w WIN_MAXIMIZED
      else
        let s := match snap_rect f layout with
                 | Some (x, y, dw, dh) => upd_win i (set_geometry x y dw dh) s
                 | None => s
                 end in
        upd_win i (set_state WIN_NORMAL) s
  end.

Definition wm_focused (s : wm) : option nat := focused s.
Definition wm_count (s : wm) : Z := win_count s.

(** The [index]-th active window. *)
Fixpoint nth_active (i : nat) (n index : Z) (l : list window) : option nat :=
  match l with
  | [] => None
  | v :: l' =>
      if negb (active v) then nth_active (S i) n index l'
      else if n =? index then Some i else nth_active (S i) (u32 (n + 1)) index l'
  end.
Definition wm_get (s : wm) (index : Z) : option nat := nth_active 0 0 index (windows s).

(** ** Hit testing *)
Definition contains (v : window) (x y : Z) : bool :=
  (wx v <=? x) && (x <? i32 (wx v + ww v)) && (wy v <=? y) && (y <? i32 (wy v + wh v)).

Definition shown (v : window) : bool := active v && negb (bool_decide (wstate v = WIN_MINIMIZED)).

(** The last index whose window is shown and contains the point. *)
Fixpoint hit_down (i : nat) (l : list window) (x y : Z) (best : option nat) : option nat :=
  match l with
  | [] => best
  | v :: l' => hit_down (S i) l' x y (if shown v && contains v x y then Some i else best)
  end.

Definition wm_at (s : wm) (x y : Z) : option nat :=
  match focused s with
  | Some i => if shown (win s i) && contains (win s i) x y then Some i
              else hit_down 0 (windows s) x y None
  | None => hit_down 0 (windows s) x y None
  end.

(** ** Mouse *)
Definition wm_drag (f : fb) (s : wm) (m : mouse_state) (d : nat) : wm :=
  if left m then
    let s := if decide (wstate (win s d) = WIN_MAXIMIZED) then
               let s := wm_set_state f s (Some d) WIN_NORMAL in
               set_drag (drag_win s) (Z.quot (ww (win s d)) 2) 16 (dragging s) s
             else s in
    wm_move s (Some d) (i32 (x m - drag_off_x s)) (i32 (y m - drag_off_y s))
  else
    let s := if x m <=? 12 then wm_snap f s (Some d) 0
             else if i32 (i32 (width f) - 12) <=? x m then wm_snap f s (Some d) 1
             else if y m <=? 8 then wm_snap f s (Some d) 6
             else s in
    set_drag None (drag_off_x s) (drag_off_y s) false s.

(** A press on the title bar of window [h], which has the focus. *)
Definition caption_press (f : fb) (s : wm) (m : mouse_state) (h : nat) : wm :=
  let tx := wx (win s h) in let ty := wy (win s h) in let tw := ww (win s h) in
  if (ty <=? y m) && (y m <? i32 (ty + 32)) then
    if (i32 (tx + tw - 46) <=? x m) && (x m <? i32 (tx + tw)) then wm_destroy s (Some h)
    else if (i32 (tx + tw - 92) <=? x m) && (x m <? i32 (tx + tw - 46)) then
      if decide (wstate (win s h) = WIN_MAXIMIZED) then wm_set_state f s (Some h) WIN_NORMAL
      else wm_set_state f s (Some h) WIN_MAXIMIZED
    else if (i32 (tx + tw - 138) <=? x m) && (x m <? i32 (tx + tw - 92)) then
      let s := upd_win h (set_state WIN_MINIMIZED) s in
      if decide (focused s = Some h) then set_focused None s else s
    else set_drag (Some h) (i32 (x m - wx (win s h))) (i32 (y m - wy (win s h))) true s
  else s.

Definition drag_target (s : wm) : option nat :=
  match drag_win s with
  | Some d => if dragging s && active (win s d) then Some d else None
  | None => None
  end.

Definition wm_handle_mouse (f : fb) (s : wm) (m : mouse_state) : wm :=
  match drag_target s with
  | Some d => wm_drag f s m d
  | None =>
      if negb (left_pressed m) then s
      else
        match wm_at s (x m) (y m) with
        | None => s
        | Some h => caption_press f (wm_focus s (Some h)) m h
        end
  end.

(** ** Keyboard and drawing *)
Section Callbacks.
Context {A : Type} (call_key : Z -> nat -> Z -> A -> outcome A).
Context (call_draw : Z -> nat -> wm -> mem -> outcome mem).

(** The callback acts on the state [a] of the applications. *)
Definition wm_handle_key (s : wm) (c : Z) (a : A) : outcome A :=
  match focused s with
  | Some i => if negb (on_key (win s i) =? 0) then call_key (on_key (win s i)) i c a else mret a
  | None => mret a
  end.

Definition draw_caption_btn (f : fb) (m : mem) (x y fill : Z) (g : list Z) : outcome mem :=
  m ← fb_fill_rect f m x y 46 32 fill;
  fb_draw_string f m (i32 (x + 18)) (i32 (y + 12)) g 0xFFFFFFFF 0xFFFFFFFF.

Definition draw_window_chrome (f : fb) (p : perf_settings) (s : wm) (m : mem) (i : nat) : outcome mem :=
  let v := win s i in
  let x := wx v in let y := wy v in let w := ww v in let h := wh v in
  m ← (if shadows p && negb (bool_decide (wstate v = WIN_MAXIMIZED))
       then fb_fill_rect f m (i32 (x + 6)) (i32 (y + 6)) w h 0x55000000 else mret m);
  m ← fb_fill_rect f m x y w h (bg v);
  m ← fb_fill_rect f m x y w 32 (if is_focused v then 0xFF15232E else 0xFF101B24);
  m ← fb_draw_string f m (i32 (x + 14)) (i32 (y + 12)) (cstr (title v)) 0xFFF3F7FA 0xFFFFFFFF;
  m ← draw_caption_btn f m (i32 (x + w - 138)) y 0xFF1A2A35 (chars "_");
  m ← draw_caption_btn f m (i32 (x + w - 92)) y 0xFF1A2A35 (chars "O");
  m ← draw_caption_btn f m (i32 (x + w - 46)) y (if is_focused v then 0xFFE81123 else 0xFF3A2030) (chars "X");
  m ← (if is_focused v then fb_fill_rect f m x (i32 (y + 31)) w 2 (accent v)
       else fb_draw_rect f m x y w h 0xFF2A4552);
  if negb (draw v =? 0) then call_draw (draw v) i s m else mret m.

(** The windows [wm_render] draws, in order. *)
Definition render_order (s : wm) : list nat :=
  List.filter (fun i => shown (win s i) && negb (is_focused (win s i))) (seq 0 (length (windows s))) ++
  match focused s with Some i => if shown (win s i) then [i] else [] | None => [] end.

Definition wm_render (f : fb) (p : perf_settings) (s : wm) (m : mem) : outcome mem :=
  foldl (fun r i => m ← r; draw_window_chrome f p s m i) (mret m) (render_order s).
End Callbacks.

(** ** Windows after an update *)
Definition slots (s : wm) : nat := length (windows s).

Lemma win_lookup s i v : windows s !! i = Some v -> win s i = v.
Proof. intros E. unfold win. rewrite E. reflexivity. Qed.

Lemma win_upd s i j f :
  win (upd_win i f s) j = if decide (i = j /\ (j < slots s)%nat) then f (win s j) else win s j.
Proof.
  unfold win, upd_win, slots. cbn [windows set_windows]. rewrite list_lookup_alter.
  case_decide as E; case_decide as E'; [subst j| | |reflexivity].
  - destruct (lookup_lt_is_Some_2 (windows s) i ltac:(lia)) as [v ->]. reflexivity.
  - subst j. rewrite (proj2 (lookup_ge_None (windows s) i)); [reflexivity|].
    destruct (Nat.lt_ge_cases i (length (windows s))); [tauto|assumption].
  - destruct E' as [-> _]. congruence.
Qed.

Lemma slots_upd s i f : slots (upd_win i f s) = slots s.
Proof. apply length_alter. Qed.

Lemma win_map s f j : (j < slots s)%nat -> win (set_windows (map f (windows s)) s) j = f (win s j).
Proof.
  intros Hj. destruct (lookup_lt_is_Some_2 (windows s) j Hj) as [v E]. unfold win. cbn [windows set_windows].
  change (map f (windows s)) with (f <$> windows s). rewrite list_lookup_fmap, E. reflexivity.
Qed.

Lemma active_in_range s i : active (win s i) = true -> (i < slots s)%nat.
Proof.
  unfold win, slots. intros Ha. apply lookup_lt_is_Some_1. destruct (windows s !! i); [eauto|discriminate].
Qed.

Lemma shown_active v : shown v = true <-> active v = true /\ wstate v <> WIN_MINIMIZED.
Proof. unfold shown. rewrite andb_true_iff, negb_true_iff, bool_decide_eq_false. reflexivity. Qed.

(** The number of active windows of a table. *)
Fixpoint actives (l : list window) : Z :=
  match l with [] => 0 | v :: l' => (if active v then 1 else 0) + actives l' end.

Lemma actives_bounds l : 0 <= actives l <= Z.of_nat (length l).
Proof. induction l as [|v l IH]; cbn [actives length]; [lia|]. destruct (active v); lia. Qed.

Lemma actives_alter l i v f :
  l !! i = Some v ->
  actives (alter f i l) = actives l + (if active (f v) then 1 else 0) - (if active v then 1 else 0).
Proof.
  revert i. induction l as [|u l IH]; intros [|i] E; try discriminate.
  - injection E as ->. cbn. destruct (active (f v)), (active v); lia.
  - cbn in E |- *. change (alter f (S i) (u :: l)) with (u :: alter f i l). cbn [actives].
    rewrite (IH i E). lia.
Qed.

Lemma actives_keep l i f :
  (forall v, l !! i = Some v -> active (f v) = active v) -> actives (alter f i l) = actives l.
Proof.
  revert i. induction l as [|u l IH]; intros [|i] Hf; [reflexivity..| |].
  - cbn. rewrite (Hf u eq_refl). reflexivity.
  - change (alter f (S i) (u :: l)) with (u :: alter f i l). cbn [actives]. rewrite (IH i Hf). reflexivity.
Qed.

Lemma actives_same l (f : window -> window) : (forall v, active (f v) = active v) -> actives (map f l) = actives l.
Proof. intros Hf. induction l as [|v l IH]; [reflexivity|]. cbn [map actives]. rewrite Hf, IH. reflexivity. Qed.

(** ** Coherent states *)
Record coherent (s : wm) : Prop := {
  co_len : slots s = 32%nat;
  co_count : win_count s = actives (windows s);
  co_focus : forall i, focused s = Some i -> shown (win s i) = true /\ is_focused (win s i) = true;
  co_flag : forall i, shown (win s i) = true -> is_focused (win s i) = true -> focused s = Some i;
  co_drag : forall d, drag_win s = Some d -> dragging s = true -> active (win s d) = true ->
    wstate (win s d) <> WIN_MINIMIZED
}.

(** A change of one window that keeps what coherence reads of it. *)
Definition keeps (f : window -> window) (v : window) : Prop :=
  active (f v) = active v /\ is_focused (f v) = is_focused v /\ shown (f v) = shown v.

Lemma keeps_minimized f v : keeps f v -> active v = true ->
  (wstate (f v) <> WIN_MINIMIZED <-> wstate v <> WIN_MINIMIZED).
Proof.
  intros (Ha & _ & Hs) Hv. unfold shown in Hs. rewrite Ha, Hv in Hs. cbn [andb] in Hs.
  case_bool_decide; case_bool_decide; try discriminate; tauto.
Qed.

Lemma coherent_upd s i f : coherent s -> keeps f (win s i) -> coherent (upd_win i f s).
Proof.
  intros [Hl Hc Hf Hg Hd] Hk.
  assert (Hw : forall j, shown (win (upd_win i f s) j) = shown (win s j) /\
            is_focused (win (upd_win i f s) j) = is_focused (win s j)).
  { intros j. rewrite win_upd. case_decide as E; [|auto]. destruct E as [<- _]. split; apply Hk. }
  split.
  - rewrite slots_upd. exact Hl.
  - cbn [win_count upd_win set_windows windows]. rewrite Hc. symmetry. apply actives_keep.
    intros v Ev. rewrite <- (win_lookup _ _ _ Ev). apply Hk.
  - intros j Hj. destruct (Hw j) as [-> ->]. exact (Hf j Hj).
  - intros j. destruct (Hw j) as [-> ->]. exact (Hg j).
  - intros d Hd1 Hd2. rewrite win_upd. case_decide as E; [|exact (Hd d Hd1 Hd2)]. destruct E as [<- _].
    intros Ha. assert (Hv : active (win s i) = true) by (destruct Hk as [<- _]; exact Ha).
    apply (keeps_minimized f _ Hk Hv). exact (Hd i Hd1 Hd2 Hv).
Qed.

(** ** Every operation keeps coherence *)
Lemma keeps_geometry x y w h v : keeps (set_geometry x y w h) v.
Proof. repeat split. Qed.

Lemma keeps_move x y v : keeps (move_to x y) v.
Proof. repeat split. Qed.

Lemma keeps_save v : keeps save_geometry v.
Proof. repeat split. Qed.

Lemma keeps_set_state st v : st <> WIN_MINIMIZED -> wstate v <> WIN_MINIMIZED -> keeps (set_state st) v.
Proof.
  intros Hst Hv. split; [reflexivity|]. split; [reflexivity|]. unfold shown. cbn [active wstate set_state set_flags].
  rewrite !bool_decide_false by assumption. reflexivity.
Qed.

Lemma keeps_change f st v : st <> WIN_MINIMIZED -> wstate v <> WIN_MINIMIZED -> keeps (change_state f st) v.
Proof.
  intros Hst Hv. unfold keeps, change_state, shown.
  destruct (bool_decide (st = WIN_MAXIMIZED) && negb (bool_decide (wstate v = WIN_MAXIMIZED)));
    [|destruct (bool_decide (st = WIN_NORMAL) && bool_decide (wstate v = WIN_MAXIMIZED))]; (split; [reflexivity|]); (split; [reflexivity|]);
    cbn [active wstate set_state set_flags set_geometry save_geometry];
    rewrite !bool_decide_false by assumption; reflexivity.
Qed.

Lemma coherent_drag s d ox oy b :
  coherent s -> (forall i, d = Some i -> b = true -> active (win s i) = true -> wstate (win s i) <> WIN_MINIMIZED) ->
  coherent (set_drag d ox oy b s).
Proof. intros [Hl Hc Hf Hg _] Hd. split; assumption. Qed.

(** [wm_focus] on an active window. *)
Lemma focus_window s i j :
  (j < slots s)%nat ->
  win (wm_focus s (Some i)) j =
    if decide (j = i) then
      set_flags (active (win s i))
        (if decide (wstate (win s i) = WIN_MINIMIZED) then WIN_NORMAL else wstate (win s i)) true (win s i)
    else set_is_focused false (win s j).
Proof.
  intros Hj. unfold wm_focus. set (s1 := set_windows _ s). set (s2 := set_focused _ _).
  assert (Hl : slots s1 = slots s) by apply length_map.
  assert (E2 : forall k, (k < slots s)%nat ->
            win s2 k = if decide (k = i) then set_is_focused true (win s k) else set_is_focused false (win s k)).
  { intros k Hk. change (win s2 k) with (win (upd_win i (set_is_focused true) s1) k). rewrite win_upd.
    unfold s1. rewrite win_map by exact Hk. fold s1. case_decide as E; case_decide as E'; try reflexivity.
    - destruct E as [-> _]. congruence.
    - subst k. destruct E. split; [reflexivity|lia]. }
  assert (Hs2 : slots s2 = slots s) by (unfold s2; change (slots (set_focused _ ?x)) with (slots x); rewrite slots_upd; exact Hl).
  destruct (Nat.lt_ge_cases i (slots s)) as [Hi|Hi].
  - assert (Est : wstate (win s2 i) = wstate (win s i)) by (rewrite (E2 i Hi), decide_True by reflexivity; reflexivity).
    rewrite Est. case_decide as Em.
    + rewrite win_upd, (E2 j Hj). case_decide as E; case_decide as E'; try reflexivity.
      * subst j. reflexivity.
      * destruct E as [-> _]. congruence.
      * subst j. destruct E. split; [reflexivity|lia].
    + rewrite (E2 j Hj). case_decide as E'; [|reflexivity]. subst j. reflexivity.
  - rewrite (decide_False (P := j = i)) by lia.
    assert (Hend : win s2 j = set_is_focused false (win s j)) by (rewrite (E2 j Hj), decide_False by lia; reflexivity).
    case_decide; [rewrite win_upd, decide_False by lia|]; exact Hend.
Qed.

Lemma focus_fields s i :
  let s' := wm_focus s (Some i) in
  slots s' = slots s /\ focused s' = Some i /\ win_count s' = win_count s /\
  actives (windows s') = actives (windows s) /\
  drag_win s' = drag_win s /\ dragging s' = dragging s /\ drag_off_x s' = drag_off_x s /\ drag_off_y s' = drag_off_y s.
Proof.
  cbv zeta. unfold wm_focus. set (s1 := set_windows _ s). set (s2 := set_focused _ _).
  assert (Ha : actives (windows s2) = actives (windows s)).
  { transitivity (actives (windows s1)); [apply actives_keep; reflexivity|apply actives_same; reflexivity]. }
  assert (Hl : slots s2 = slots s)
    by (transitivity (slots s1); [apply length_alter|apply length_map]).
  case_decide; [|repeat split; assumption].
  repeat split; [rewrite slots_upd; exact Hl|]. transitivity (actives (windows s2)); [|exact Ha].
  apply actives_keep. reflexivity.
Qed.

Lemma focus_coherent s i : coherent s -> active (win s i) = true -> coherent (wm_focus s (Some i)).
Proof.
  intros [Hl Hc Hf Hg Hd] Ha. destruct (focus_fields s i) as (Hl' & Hf' & Hc' & Hac & Hdw & Hdr & _).
  pose proof (active_in_range _ _ Ha) as Hi.
  assert (Hself : shown (win (wm_focus s (Some i)) i) = true /\ is_focused (win (wm_focus s (Some i)) i) = true).
  { rewrite (focus_window s i i Hi), decide_True by reflexivity. split; [|reflexivity]. apply shown_active.
    cbn [active wstate set_flags]. split; [exact Ha|]. case_decide; [discriminate|assumption]. }
  split.
  - rewrite Hl'. exact Hl.
  - rewrite Hc', Hac. exact Hc.
  - intros j. rewrite Hf'. intros [= <-]. exact Hself.
  - intros j Hs Hfl. rewrite Hf'. f_equal. destruct (decide (j = i)) as [->|Hne]; [reflexivity|].
    pose proof (active_in_range _ j (proj1 (proj1 (shown_active _) Hs))) as Hj. rewrite Hl' in Hj.
    rewrite (focus_window s i j Hj), decide_False in Hfl by exact Hne. discriminate.
  - intros d. rewrite Hdw, Hdr. intros E1 E2 Had. pose proof (active_in_range _ _ Had) as Hdl. rewrite Hl' in Hdl.
    rewrite (focus_window s i d Hdl) in *. case_decide as E.
    + cbn [wstate set_flags]. case_decide; [discriminate|assumption].
    + exact (Hd d E1 E2 Had).
Qed.

Lemma free_slot_Some l : forall k i,
  free_slot k l = Some i -> exists v, (k <= i)%nat /\ l !! (i - k)%nat = Some v /\ active v = false.
Proof.
  induction l as [|u l IH]; intros k i; cbn [free_slot]; [discriminate|]. destruct (active u) eqn:E.
  - intros Hf. destruct (IH (S k) i Hf) as (v & Hk & Hv & Ha). exists v.
    replace (i - k)%nat with (S (i - S k)) by lia. split; [lia|auto].
  - intros [= <-]. exists u. rewrite Nat.sub_diag. auto.
Qed.

Lemma free_slot_None l : forall k, free_slot k l = None -> actives l = Z.of_nat (length l).
Proof.
  induction l as [|u l IH]; intros k; cbn [free_slot actives length]; [reflexivity|].
  destruct (active u); [|discriminate]. intros Hf. rewrite (IH _ Hf). lia.
Qed.

Lemma create_coherent p s ttl x y w h :
  coherent s -> coherent (snd (wm_create p s ttl x y w h)).
Proof.
  intros Hco. pose proof Hco as [Hl Hc Hf Hg Hd]. unfold wm_create.
  destruct (_ <=? _); [exact Hco|]. destruct (free_slot 0 (windows s)) as [i|] eqn:E; [|exact Hco]. cbn [snd].
  destruct (free_slot_Some _ _ _ E) as (v & _ & Ev & Hv). rewrite Nat.sub_0_r in Ev.
  pose proof (win_lookup _ _ _ Ev) as Ew. set (nw := new_window ttl x y w h).
  pose proof (lookup_lt_Some _ _ _ Ev) as Hi. fold (slots s) in Hi.
  set (s1 := upd_win i (fun _ => nw) s).
  assert (Hw : forall j, win s1 j = if decide (i = j) then nw else win s j).
  { intros j. unfold s1. rewrite win_upd. case_decide as E1; case_decide as E2; try reflexivity; try tauto.
    subst j. destruct E1. auto. }
  assert (Hact : actives (windows s1) = win_count s + 1).
  { unfold s1. cbn [windows upd_win set_windows]. rewrite (actives_alter _ _ _ _ Ev), Hv, Hc. cbn. lia. }
  assert (Hnf : forall j, shown (win s j) = true -> j <> i)
    by (intros j Hs ->; rewrite Ew in Hs; unfold shown in Hs; rewrite Hv in Hs; discriminate).
  assert (Hl1 : length (windows s1) = 32%nat) by (rewrite <- Hl; exact (slots_upd s i (fun _ => nw))).
  pose proof (actives_bounds (windows s1)) as Hb. rewrite Hl1 in Hb.
  apply focus_coherent.
  2:{ change (active (win s1 i) = true). rewrite Hw, decide_True by reflexivity. reflexivity. }
  split; cbn [focused drag_win dragging set_count win_count windows].
  - change (slots s1 = 32%nat). unfold s1. rewrite slots_upd. exact Hl.
  - fold s1. rewrite Hact. apply u32_small. rewrite Hact in Hb. lia.
  - intros j Hj. destruct (Hf j Hj) as [Hs Hfl]. change (win (set_count _ _) j) with (win s1 j).
    rewrite Hw, decide_False by (intros <-; exact (Hnf i Hs eq_refl)). auto.
  - intros j. change (win (set_count _ _) j) with (win s1 j). rewrite Hw. case_decide as Ej; [discriminate|]. apply Hg.
  - intros d Hd1 Hd2. change (win (set_count _ _) d) with (win s1 d). rewrite Hw.
    case_decide as Ej; [discriminate|]. exact (Hd d Hd1 Hd2).
Qed.

(** Leaving the shown windows: closed or minimised. *)
Lemma hide_coherent s i f (n : Z) :
  coherent s -> active (win s i) = true ->
  shown (f (win s i)) = false -> is_focused (f (win s i)) = is_focused (win s i) ->
  n = win_count s + (if active (f (win s i)) then 1 else 0) - 1 ->
  (drag_win s = Some i -> dragging s = true -> active (f (win s i)) = false) ->
  coherent (mk_wm (alter f i (windows s)) (if decide (focused s = Some i) then None else focused s) n
              (drag_win s) (drag_off_x s) (drag_off_y s) (dragging s)).
Proof.
  intros [Hl Hc Hf Hg Hd] Ha Hs Hfl Hn Hdr. pose proof (active_in_range _ _ Ha) as Hi.
  destruct (lookup_lt_is_Some_2 (windows s) i Hi) as [v Ev]. pose proof (win_lookup _ _ _ Ev) as Ew.
  set (s' := mk_wm _ _ _ _ _ _ _).
  assert (Hw : forall j, win s' j = if decide (i = j) then f (win s i) else win s j).
  { intros j. change (win s' j) with (win (upd_win i f s) j). rewrite win_upd.
    case_decide as E1; case_decide as E2; try reflexivity; [destruct E1 as [<- _]; reflexivity|tauto|].
    subst j. destruct E1. auto. }
  split; cbn [focused drag_win dragging win_count windows s'].
  - change (slots s') with (slots (upd_win i f s)). rewrite slots_upd. exact Hl.
  - rewrite (actives_alter _ _ _ _ Ev), Hn, Hc, <- Ew, Ha. lia.
  - intros j. case_decide as E; [discriminate|]. intros Hj. rewrite Hw, decide_False by congruence. exact (Hf j Hj).
  - intros j. rewrite Hw. case_decide as Ej; [rewrite Hs; discriminate|]. intros H1 H2. pose proof (Hg j H1 H2) as E.
    rewrite decide_False by congruence. exact E.
  - intros e He1 He2. rewrite Hw. case_decide as Ej; [|exact (Hd e He1 He2)].
    subst e. rewrite (Hdr He1 He2). discriminate.
Qed.

Lemma destroy_coherent s i : coherent s -> coherent (wm_destroy s (Some i)).
Proof.
  intros Hco. unfold wm_destroy. destruct (active (win s i)) eqn:Ha; [|exact Hco]. cbn [negb].
  pose proof (active_in_range _ _ Ha) as Hi. destruct (lookup_lt_is_Some_2 (windows s) i Hi) as [v Ev].
  pose proof (actives_alter _ _ _ (set_active false) Ev) as Hb. rewrite <- (win_lookup _ _ _ Ev), Ha in Hb.
  cbn [active set_active set_flags] in Hb.
  pose proof (actives_bounds (alter (set_active false) i (windows s))) as [Hb0 _].
  pose proof (actives_bounds (windows s)) as [_ Hb1]. rewrite (co_len _ Hco : length (windows s) = 32%nat) in Hb1.
  rewrite <- (co_count _ Hco) in Hb, Hb1.
  pose proof (hide_coherent s i (set_active false) (win_count s + 0 - 1) Hco Ha eq_refl eq_refl eq_refl
    (fun _ _ => eq_refl)) as Hh.
  unfold set_count, set_focused, upd_win, set_windows. cbn [focused].
  destruct (decide (focused s = Some i)); cbn [windows focused win_count drag_win drag_off_x drag_off_y dragging];
    (rewrite u32_small by lia); replace (win_count s - 1) with (win_count s + 0 - 1) by lia; exact Hh.
Qed.

Lemma minimize_coherent s i :
  coherent s -> active (win s i) = true -> (drag_win s = Some i -> dragging s = true -> False) ->
  let s1 := upd_win i (set_state WIN_MINIMIZED) s in
  coherent (if decide (focused s1 = Some i) then set_focused None s1 else s1).
Proof.
  intros Hco Ha Hdr s1. assert (Hsh : shown (set_state WIN_MINIMIZED (win s i)) = false).
  { unfold shown. cbn [active wstate set_state set_flags]. rewrite bool_decide_true by reflexivity. apply andb_false_r. }
  pose proof (hide_coherent s i (set_state WIN_MINIMIZED) (win_count s) Hco Ha Hsh eq_refl) as Hh.
  cbn [active set_state set_flags] in Hh. rewrite Ha in Hh.
  specialize (Hh ltac:(lia) (fun H1 H2 => False_ind _ (Hdr H1 H2))).
  unfold s1, set_focused, upd_win, set_windows. cbn [focused]. destruct (decide (focused s = Some i)); exact Hh.
Qed.

Lemma restore_coherent s i :
  coherent s -> active (win s i) = true -> drag_target s <> Some i -> coherent (wm_restore_or_focus s (Some i)).
Proof.
  intros Hco Ha Hdr. unfold wm_restore_or_focus.
  destruct (is_focused (win s i)) eqn:Ef; [|exact (focus_coherent _ _ Hco Ha)].
  case_bool_decide as Em; cbn [negb andb]; [exact (focus_coherent _ _ Hco Ha)|].
  assert (Hf : focused s = Some i) by (apply (co_flag _ Hco); [apply shown_active; auto|exact Ef]).
  assert (Hnd : drag_win s = Some i -> dragging s = true -> False)
    by (intros E1 E2; apply Hdr; unfold drag_target; rewrite E1, E2, Ha; reflexivity).
  pose proof (minimize_coherent s i Hco Ha Hnd) as Hm. cbv zeta in Hm.
  rewrite decide_True in Hm by exact Hf. exact Hm.
Qed.

Lemma win_upd_self s i f : active (win s i) = true -> win (upd_win i f s) i = f (win s i).
Proof. intros Ha. rewrite win_upd, decide_True; [reflexivity|]. split; [reflexivity|exact (active_in_range _ _ Ha)]. Qed.

(** [coherent_upd] for a window that stays shown. *)
Lemma shown_upd s i f :
  coherent s -> shown (win s i) = true -> keeps f (win s i) ->
  coherent (upd_win i f s) /\ shown (win (upd_win i f s) i) = true.
Proof.
  intros Hco Hs Hk. split; [exact (coherent_upd _ _ _ Hco Hk)|].
  rewrite win_upd_self by apply shown_active, Hs. destruct Hk as (_ & _ & ->). exact Hs.
Qed.

Lemma not_minimized v : shown v = true -> wstate v <> WIN_MINIMIZED.
Proof. intros Hs. apply shown_active, Hs. Qed.

Lemma set_state_coherent f s i st :
  coherent s -> shown (win s i) = true -> st <> WIN_MINIMIZED ->
  coherent (wm_set_state f s (Some i) st) /\ shown (win (wm_set_state f s (Some i) st) i) = true.
Proof.
  intros Hco Hs Hst. apply shown_upd; [exact Hco|exact Hs|]. apply keeps_change; [exact Hst|exact (not_minimized _ Hs)].
Qed.

Lemma snap_coherent f s i l :
  coherent s -> shown (win s i) = true -> coherent (wm_snap f s (Some i) l).
Proof.
  intros Hco Hs. unfold wm_snap. set (s1 := if _ && negb (l =? 6) then _ else s).
  assert (H1 : coherent s1 /\ shown (win s1 i) = true).
  { unfold s1. destruct (_ && _); [|auto]. exact (shown_upd _ _ _ Hco Hs (keeps_save _)). }
  destruct H1 as [Hco1 Hs1]. destruct (l =? 6).
  - apply (set_state_coherent f s1 i WIN_MAXIMIZED Hco1 Hs1). discriminate.
  - set (s2 := match snap_rect f l with Some _ => _ | None => s1 end).
    assert (H2 : coherent s2 /\ shown (win s2 i) = true).
    { unfold s2. destruct (snap_rect f l) as [[[[a b] c] d]|]; [|auto].
      exact (shown_upd _ _ _ Hco1 Hs1 (keeps_geometry a b c d _)). }
    destruct H2 as [Hco2 Hs2]. apply (coherent_upd _ _ _ Hco2), keeps_set_state; [discriminate|].
    exact (not_minimized _ Hs2).
Qed.

Lemma drag_shown s d : coherent s -> drag_target s = Some d -> shown (win s d) = true.
Proof.
  intros Hco. unfold drag_target. destruct (drag_win s) as [e|] eqn:Ew; [|discriminate].
  destruct (dragging s) eqn:Ed, (active (win s e)) eqn:Ea; cbn [andb]; try discriminate.
  intros [= ->]. apply shown_active. split; [exact Ea|]. exact (co_drag _ Hco d Ew Ed Ea).
Qed.

Lemma drag_coherent f s m d : coherent s -> drag_target s = Some d -> coherent (wm_drag f s m d).
Proof.
  intros Hco Hd. pose proof (drag_shown s d Hco Hd) as Hs. unfold wm_drag. destruct (left m).
  - set (s1 := if decide _ then _ else s).
    assert (Hco1 : coherent s1).
    { unfold s1. case_decide; [|exact Hco].
      destruct (set_state_coherent f s d WIN_NORMAL Hco Hs) as [Hco' _]; [discriminate|].
      apply coherent_drag; [exact Hco'|]. intros i Hi Hb. exact (co_drag _ Hco' i Hi Hb). }
    exact (coherent_upd _ _ _ Hco1 (keeps_move _ _ _)).
  - apply coherent_drag; [|discriminate].
    destruct (_ <=? _); [exact (snap_coherent f s d 0 Hco Hs)|].
    destruct (_ <=? _); [exact (snap_coherent f s d 1 Hco Hs)|].
    destruct (_ <=? _); [exact (snap_coherent f s d 6 Hco Hs)|exact Hco].
Qed.

Lemma caption_coherent f s m h :
  coherent s -> shown (win s h) = true -> drag_target s = None -> coherent (caption_press f s m h).
Proof.
  intros Hco Hs Hd. pose proof (proj1 (proj1 (shown_active _) Hs)) as Ha. unfold caption_press.
  destruct (_ && (y m <? _)); [|exact Hco].
  destruct (_ && _); [exact (destroy_coherent s h Hco)|].
  destruct (_ && _).
  { case_decide; apply (set_state_coherent f s h _ Hco Hs); discriminate. }
  destruct (_ && _).
  - apply (minimize_coherent s h Hco Ha). intros E1 E2. unfold drag_target in Hd. rewrite E1, E2, Ha in Hd. discriminate.
  - apply coherent_drag; [exact Hco|]. intros i [= <-] _ _. exact (not_minimized _ Hs).
Qed.

Lemma hit_down_Some l x y : forall k best i,
  hit_down k l x y best = Some i -> best = Some i \/
  exists v, (k <= i)%nat /\ l !! (i - k)%nat = Some v /\ shown v = true /\ contains v x y = true.
Proof.
  induction l as [|u l IH]; intros k best i; cbn [hit_down]; [auto|]. intros Hh.
  destruct (IH _ _ _ Hh) as [Hb|(v & Hk & Ev & Hv)].
  - destruct (shown u && contains u x y) eqn:E; [|auto]. injection Hb as <-. right. exists u.
    rewrite Nat.sub_diag. apply andb_true_iff in E. repeat split; [lia|tauto|tauto].
  - right. exists v. replace (i - k)%nat with (S (i - S k)) by lia. split; [lia|auto].
Qed.

Lemma wm_at_hit s x y i : wm_at s x y = Some i -> shown (win s i) = true /\ contains (win s i) x y = true.
Proof.
  assert (Hdown : hit_down 0 (windows s) x y None = Some i -> shown (win s i) = true /\ contains (win s i) x y = true).
  { intros Hh. destruct (hit_down_Some _ _ _ _ _ _ Hh) as [|(v & _ & Ev & Hv)]; [discriminate|].
    rewrite Nat.sub_0_r in Ev. rewrite (win_lookup _ _ _ Ev). exact Hv. }
  unfold wm_at. destruct (focused s) as [j|]; [|exact Hdown].
  destruct (shown (win s j) && contains (win s j) x y) eqn:E; [|exact Hdown].
  intros [= <-]. apply andb_true_iff, E.
Qed.

Lemma mouse_coherent f s m : coherent s -> coherent (wm_handle_mouse f s m).
Proof.
  intros Hco. unfold wm_handle_mouse. destruct (drag_target s) as [d|] eqn:Hd; [exact (drag_coherent f s m d Hco Hd)|].
  destruct (negb _); [exact Hco|]. destruct (wm_at s (x m) (y m)) as [h|] eqn:Eh; [|exact Hco].
  destruct (wm_at_hit _ _ _ _ Eh) as [Hs _]. pose proof (proj1 (proj1 (shown_active _) Hs)) as Ha.
  pose proof (focus_coherent s h Hco Ha) as Hco'. destruct (focus_fields s h) as (Hl & Hf & _ & _ & Hdw & Hdr & _).
  apply caption_coherent; [exact Hco'|apply (co_focus _ Hco' h Hf)|].
  unfold drag_target in *. rewrite Hdw, Hdr. destruct (drag_win s) as [d|]; [|reflexivity].
  destruct (active (win (wm_focus s (Some h)) d)) eqn:Ead; [|rewrite andb_false_r; reflexivity].
  pose proof (active_in_range _ _ Ead) as Hdl. rewrite Hl in Hdl. rewrite (focus_window s h d Hdl) in Ead.
  assert (Had : active (win s d) = true) by (case_decide; [subst d; exact Ead|exact Ead]).
  rewrite Had in Hd. destruct (dragging s); [discriminate|reflexivity].
Qed.

(** ** The window manager as a state machine

    The events are the calls the rest of the kernel makes: applications create
    windows, the desktop forwards the mouse, toggles a window from the taskbar
    ([wm_get] then [wm_restore_or_focus]) and snaps the focused window. *)
Inductive event :=
  | Create (p : perf_settings) (ttl : option (list Z)) (x y w h : Z)
  | MouseInput (m : mouse_state)
  | Taskbar (index : Z)
  | SnapFocused (layout : Z).

Definition run_event (f : fb) (s : wm) (e : event) : wm :=
  match e with
  | Create p ttl x y w h => snd (wm_create p s ttl x y w h)
  | MouseInput m => wm_handle_mouse f s m
  | Taskbar k => wm_restore_or_focus s (wm_get s k)
  | SnapFocused l => wm_snap f s (wm_focused s) l
  end.

(** [s] after the events [es]. *)
Definition run_events (f : fb) (s : wm) (es : list event) : wm := foldl (run_event f) s es.

(** The taskbar button of the window that is being dragged: a release and a press between two
    frames look like that. *)
Definition disturbs (s : wm) (e : event) : Prop :=
  match e with
  | Taskbar k => exists i, wm_get s k = Some i /\ drag_target s = Some i
  | _ => False
  end.

Fixpoint undisturbed (f : fb) (s : wm) (es : list event) : Prop :=
  match es with
  | [] => True
  | e :: es' => ~ disturbs s e /\ undisturbed f (run_event f s e) es'
  end.

(** The states the kernel's events lead to; the static variables start as zeros. *)
Definition reachable (f : fb) (s : wm) : Prop :=
  exists s0 es, dragging s0 = false /\ s = run_events f (wm_init s0) es.

Lemma wm_get_active s k i : wm_get s k = Some i -> active (win s i) = true.
Proof.
  unfold wm_get. assert (Hn : forall l b n, nth_active b n k l = Some i ->
    exists v, (b <= i)%nat /\ l !! (i - b)%nat = Some v /\ active v = true).
  { induction l as [|u l IH]; intros b n; cbn [nth_active]; [discriminate|].
    destruct (active u) eqn:Ea; cbn [negb].
    - destruct (n =? k).
      + intros [= <-]. exists u. rewrite Nat.sub_diag. auto.
      + intros Hh. destruct (IH _ _ Hh) as (v & Hb & Ev & Hv). exists v.
        replace (i - b)%nat with (S (i - S b)) by lia. split; [lia|auto].
    - intros Hh. destruct (IH _ _ Hh) as (v & Hb & Ev & Hv). exists v.
      replace (i - b)%nat with (S (i - S b)) by lia. split; [lia|auto]. }
  intros Hh. destruct (Hn _ _ _ Hh) as (v & _ & Ev & Hv). rewrite Nat.sub_0_r in Ev.
  rewrite (win_lookup _ _ _ Ev). exact Hv.
Qed.

Lemma init_coherent s0 : dragging s0 = false -> coherent (wm_init s0).
Proof.
  intros Hd. assert (Hw : forall i, win (wm_init s0) i = zero_window).
  { intros i. unfold win. cbn [windows wm_init]. destruct (replicate 32 zero_window !! i) as [v|] eqn:E; [|reflexivity].
    apply lookup_replicate in E as [-> _]. reflexivity. }
  split.
  - reflexivity.
  - reflexivity.
  - discriminate.
  - intros i. rewrite Hw. discriminate.
  - intros d _. cbn [dragging wm_init]. congruence.
Qed.

Lemma event_coherent f s e : coherent s -> ~ disturbs s e -> coherent (run_event f s e).
Proof.
  intros Hco Hal. destruct e as [p ttl x y w h|m|k|l]; cbn [run_event disturbs] in *.
  - exact (create_coherent p s ttl x y w h Hco).
  - exact (mouse_coherent f s m Hco).
  - destruct (wm_get s k) as [i|] eqn:E; [|exact Hco]. apply (restore_coherent s i Hco (wm_get_active _ _ _ E)). eauto.
  - unfold wm_focused. destruct (focused s) as [i|] eqn:E; [|exact Hco].
    exact (snap_coherent f s i l Hco (proj1 (co_focus _ Hco i E))).
Qed.

Lemma events_coherent f es : forall s, coherent s -> undisturbed f s es -> coherent (run_events f s es).
Proof.
  unfold run_events. induction es as [|e es IH]; intros s Hco Hu; [exact Hco|]. destruct Hu as [He Hu]. cbn [foldl].
  exact (IH _ (event_coherent f s e Hco He) Hu).
Qed.

(** ** What holds whatever happens

    The mark of the focus is never on two windows; the focus is only on a shown window with
    the mark. *)
Record consistent (s : wm) : Prop := {
  cs_len : slots s = 32%nat;
  cs_count : win_count s = actives (windows s);
  cs_focus : forall i, focused s = Some i -> shown (win s i) = true /\ is_focused (win s i) = true;
  cs_mark : forall i j, is_focused (win s i) = true -> is_focused (win s j) = true -> i = j
}.

(** A shown window with the mark, when no window has the focus. *)
Definition ghost (s : wm) (g : nat) : Prop :=
  shown (win s g) = true /\ is_focused (win s g) = true /\ focused s = None.

Lemma mark_in_range s i : is_focused (win s i) = true -> (i < slots s)%nat.
Proof.
  unfold win, slots. intros Ha. apply lookup_lt_is_Some_1. destruct (windows s !! i); [eauto|discriminate].
Qed.

Lemma consistent_upd s i f :
  consistent s -> active (f (win s i)) = active (win s i) -> is_focused (f (win s i)) = is_focused (win s i) ->
  (focused s = Some i -> shown (f (win s i)) = true) -> consistent (upd_win i f s).
Proof.
  intros [Hl Hc Hf Hm] Ha Hk Hs.
  assert (Hw : forall j, is_focused (win (upd_win i f s) j) = is_focused (win s j)).
  { intros j. rewrite win_upd. case_decide as E; [|reflexivity]. destruct E as [<- _]. exact Hk. }
  split.
  - rewrite slots_upd. exact Hl.
  - cbn [win_count upd_win set_windows windows]. rewrite Hc. symmetry. apply actives_keep.
    intros v Ev. rewrite <- (win_lookup _ _ _ Ev). exact Ha.
  - intros j Hj. rewrite Hw. split; [|apply Hf, Hj]. rewrite win_upd. case_decide as E; [|apply Hf, Hj].
    destruct E as [<- _]. exact (Hs Hj).
  - intros j k. rewrite !Hw. apply Hm.
Qed.

(** Losing the focus leaves the mark. *)
Lemma consistent_unfocus s : consistent s -> consistent (set_focused None s).
Proof. intros [Hl Hc _ Hm]. split; [exact Hl|exact Hc|discriminate|exact Hm]. Qed.

Lemma consistent_drag s d ox oy b : consistent s -> consistent (set_drag d ox oy b s).
Proof. intros [? ? ? ?]. split; assumption. Qed.

Lemma focus_consistent s i :
  slots s = 32%nat -> win_count s = actives (windows s) -> active (win s i) = true -> consistent (wm_focus s (Some i)).
Proof.
  intros Hl Hc Ha. destruct (focus_fields s i) as (Hl' & Hf' & Hc' & Hac & _). pose proof (active_in_range _ _ Ha) as Hi.
  assert (Hmark : forall j, is_focused (win (wm_focus s (Some i)) j) = true -> j = i).
  { intros j Hj. pose proof (mark_in_range _ _ Hj) as Hlt. rewrite Hl' in Hlt. rewrite (focus_window s i j Hlt) in Hj.
    case_decide; [assumption|discriminate]. }
  split.
  - congruence.
  - congruence.
  - intros j. rewrite Hf'. intros [= <-]. rewrite (focus_window s i i Hi), decide_True by reflexivity. split; [|reflexivity].
    apply shown_active. cbn [active wstate set_flags]. split; [exact Ha|]. case_decide; [discriminate|assumption].
  - intros j k Hj Hk. rewrite (Hmark j Hj), (Hmark k Hk). reflexivity.
Qed.

Lemma create_consistent p s ttl x y w h : consistent s -> consistent (snd (wm_create p s ttl x y w h)).
Proof.
  intros Hcs. pose proof Hcs as [Hl Hc _ _]. unfold wm_create.
  destruct (_ <=? _); [exact Hcs|]. destruct (free_slot 0 (windows s)) as [i|] eqn:E; [|exact Hcs]. cbn [snd].
  destruct (free_slot_Some _ _ _ E) as (v & _ & Ev & Hv). rewrite Nat.sub_0_r in Ev. set (nw := new_window ttl x y w h).
  pose proof (actives_alter _ _ _ (fun _ => nw) Ev) as Hact. rewrite Hv in Hact. cbn in Hact.
  pose proof (actives_bounds (alter (fun _ => nw) i (windows s))) as Hb. rewrite length_alter, (Hl : length (windows s) = 32%nat) in Hb.
  apply focus_consistent; cbn [set_count windows win_count upd_win set_windows].
  - unfold slots. cbn [windows set_count upd_win set_windows]. rewrite length_alter. exact Hl.
  - rewrite Hact, Hc in *. rewrite u32_small; lia.
  - change (win (set_count _ ?t) i) with (win t i). rewrite win_upd, decide_True; [reflexivity|].
    split; [reflexivity|exact (lookup_lt_Some _ _ _ Ev)].
Qed.

(** Closing or minimising a window takes the focus from it. *)
Lemma hide_consistent s i f n :
  consistent s -> active (win s i) = true -> is_focused (f (win s i)) = is_focused (win s i) ->
  n = win_count s + (if active (f (win s i)) then 1 else 0) - 1 ->
  consistent (mk_wm (alter f i (windows s)) (if decide (focused s = Some i) then None else focused s) n
                (drag_win s) (drag_off_x s) (drag_off_y s) (dragging s)).
Proof.
  intros [Hl Hc Hf Hm] Ha Hk Hn. pose proof (active_in_range _ _ Ha) as Hi.
  destruct (lookup_lt_is_Some_2 (windows s) i Hi) as [v Ev]. pose proof (win_lookup _ _ _ Ev) as Ew.
  set (s' := mk_wm _ _ _ _ _ _ _).
  assert (Hw : forall j, win s' j = if decide (i = j /\ (j < slots s)%nat) then f (win s j) else win s j)
    by (intros j; exact (win_upd s i j f)).
  assert (Hfl : forall j, is_focused (win s' j) = is_focused (win s j)).
  { intros j. rewrite Hw. case_decide as E; [|reflexivity]. destruct E as [<- _]. exact Hk. }
  split; cbn [focused win_count windows s'].
  - change (slots s') with (slots (upd_win i f s)). rewrite slots_upd. exact Hl.
  - rewrite (actives_alter _ _ _ _ Ev), Hn, Hc, <- Ew, Ha. lia.
  - intros j. case_decide as E; [discriminate|]. intros Hj. rewrite Hfl. split; [|apply Hf, Hj].
    rewrite Hw, decide_False by (intros [<- _]; congruence). apply Hf, Hj.
  - intros j k. rewrite !Hfl. apply Hm.
Qed.

Lemma destroy_consistent s i : consistent s -> consistent (wm_destroy s (Some i)).
Proof.
  intros Hcs. unfold wm_destroy. destruct (active (win s i)) eqn:Ha; [|exact Hcs]. cbn [negb].
  destruct (lookup_lt_is_Some_2 (windows s) i (active_in_range _ _ Ha)) as [v Ev].
  pose proof (actives_alter _ _ _ (set_active false) Ev) as Hb. rewrite <- (win_lookup _ _ _ Ev), Ha in Hb.
  cbn [active set_active set_flags] in Hb.
  pose proof (actives_bounds (alter (set_active false) i (windows s))) as [Hb0 _].
  pose proof (actives_bounds (windows s)) as [_ Hb1]. rewrite (cs_len _ Hcs : length (windows s) = 32%nat) in Hb1.
  rewrite <- (cs_count _ Hcs) in Hb, Hb1.
  pose proof (hide_consistent s i (set_active false) (win_count s + 0 - 1) Hcs Ha eq_refl eq_refl) as Hh.
  unfold set_count, set_focused, upd_win, set_windows. cbn [focused].
  destruct (decide (focused s = Some i)); cbn [windows focused win_count drag_win drag_off_x drag_off_y dragging];
    (rewrite u32_small by lia); replace (win_count s - 1) with (win_count s + 0 - 1) by lia; exact Hh.
Qed.

Lemma restore_consistent s i : consistent s -> active (win s i) = true -> consistent (wm_restore_or_focus s (Some i)).
Proof.
  intros Hcs Ha. unfold wm_restore_or_focus.
  destruct (_ && _); [|apply focus_consistent; [apply Hcs|apply Hcs|exact Ha]].
  change (set_focused None (upd_win i (set_state WIN_MINIMIZED) s)) with (upd_win i (set_state WIN_MINIMIZED) (set_focused None s)).
  apply consistent_upd; [exact (consistent_unfocus _ Hcs)|reflexivity|reflexivity|discriminate].
Qed.

(** Changes that hide nothing. *)
Lemma consistent_keep s i f :
  consistent s -> (forall v, active (f v) = active v /\ is_focused (f v) = is_focused v /\ (shown v = true -> shown (f v) = true)) ->
  consistent (upd_win i f s).
Proof.
  intros Hcs Hf. destruct (Hf (win s i)) as (H1 & H2 & H3). apply consistent_upd; [exact Hcs|exact H1|exact H2|].
  intros Hi. apply H3, (cs_focus _ Hcs i Hi).
Qed.

Lemma state_shown st v : st <> WIN_MINIMIZED -> shown v = true -> shown (set_state st v) = true.
Proof. intros Hst Hs. apply shown_active in Hs as [Ha _]. apply shown_active. split; [exact Ha|exact Hst]. Qed.

Lemma set_state_consistent f s i st : consistent s -> st <> WIN_MINIMIZED -> consistent (wm_set_state f s (Some i) st).
Proof.
  intros Hcs Hst. apply consistent_keep; [exact Hcs|]. intros v. unfold change_state.
  split; [repeat case_match; reflexivity|]. split; [repeat case_match; reflexivity|]. intros Hs. apply state_shown; [exact Hst|].
  repeat case_match; exact Hs.
Qed.

Lemma snap_consistent f s i l : consistent s -> consistent (wm_snap f s (Some i) l).
Proof.
  intros Hcs. unfold wm_snap. set (s1 := if _ && negb (l =? 6) then _ else s).
  assert (H1 : consistent s1) by (unfold s1; destruct (_ && _); [apply consistent_keep; auto|exact Hcs]).
  destruct (l =? 6); [apply set_state_consistent; [exact H1|discriminate]|].
  apply consistent_keep; [|intros v; split; [reflexivity|split; [reflexivity|apply state_shown; discriminate]]].
  destruct (snap_rect f l) as [[[[a b] c] d]|]; [apply consistent_keep; auto|exact H1].
Qed.

Lemma drag_consistent f s m d : consistent s -> consistent (wm_drag f s m d).
Proof.
  intros Hcs. unfold wm_drag. destruct (left m).
  - apply consistent_keep; [|auto]. case_decide; [|exact Hcs]. apply consistent_drag, set_state_consistent; [exact Hcs|discriminate].
  - apply consistent_drag. repeat (case_match; [apply snap_consistent, Hcs|]). exact Hcs.
Qed.

Lemma caption_consistent f s m h : consistent s -> active (win s h) = true -> consistent (caption_press f s m h).
Proof.
  intros Hcs Ha. unfold caption_press. destruct (_ && (y m <? _)); [|exact Hcs].
  destruct (_ && _); [exact (destroy_consistent s h Hcs)|].
  destruct (_ && _); [case_decide; apply set_state_consistent; first [exact Hcs|discriminate]|].
  destruct (_ && _); [|exact (consistent_drag _ _ _ _ _ Hcs)].
  pose proof (hide_consistent s h (set_state WIN_MINIMIZED) (win_count s) Hcs Ha eq_refl) as Hh.
  cbn [active set_state set_flags] in Hh. rewrite Ha in Hh. specialize (Hh ltac:(lia)).
  unfold set_focused, upd_win, set_windows. cbn [focused]. destruct (decide (focused s = Some h)); exact Hh.
Qed.

Lemma mouse_consistent f s m : consistent s -> consistent (wm_handle_mouse f s m).
Proof.
  intros Hcs. unfold wm_handle_mouse. destruct (drag_target s) as [d|]; [exact (drag_consistent f s m d Hcs)|].
  destruct (negb _); [exact Hcs|]. destruct (wm_at s (x m) (y m)) as [h|] eqn:Eh; [|exact Hcs].
  destruct (wm_at_hit _ _ _ _ Eh) as [Hs _]. pose proof (proj1 (proj1 (shown_active _) Hs)) as Ha.
  pose proof (focus_consistent s h (cs_len _ Hcs) (cs_count _ Hcs) Ha) as Hcs'.
  apply caption_consistent; [exact Hcs'|]. destruct (focus_fields s h) as (_ & Hf & _).
  exact (proj1 (proj1 (shown_active _) (proj1 (cs_focus _ Hcs' h Hf)))).
Qed.

Lemma event_consistent f s e : consistent s -> consistent (run_event f s e).
Proof.
  intros Hcs. destruct e as [p ttl x y w h|m|k|l]; cbn [run_event].
  - exact (create_consistent p s ttl x y w h Hcs).
  - exact (mouse_consistent f s m Hcs).
  - destruct (wm_get s k) as [i|] eqn:E; [|exact Hcs]. exact (restore_consistent s i Hcs (wm_get_active _ _ _ E)).
  - unfold wm_focused. destruct (focused s) as [i|]; [exact (snap_consistent f s i l Hcs)|exact Hcs].
Qed.

Lemma events_consistent f es : forall s, consistent s -> consistent (run_events f s es).
Proof.
  unfold run_events. induction es as [|e es IH]; intros s Hcs; [exact Hcs|]. exact (IH _ (event_consistent f s e Hcs)).
Qed.

Lemma init_consistent s0 : consistent (wm_init s0).
Proof.
  assert (Hw : forall i, win (wm_init s0) i = zero_window).
  { intros i. unfold win. cbn [windows wm_init]. destruct (replicate 32 zero_window !! i) as [v|] eqn:E; [|reflexivity].
    apply lookup_replicate in E as [-> _]. reflexivity. }
  split; [reflexivity|reflexivity|discriminate|]. intros i j. rewrite Hw. discriminate.
Qed.

(** ** Hit testing and the drawing order *)
Lemma last_cons_or {A} (a : A) l : last (a :: l) = match last l with Some b => Some b | None => Some a end.
Proof. destruct l as [|b l]; [reflexivity|]. rewrite last_cons. destruct (last (b :: l)); reflexivity. Qed.

Lemma hit_down_last l x y (g : nat -> bool) : forall k best,
  (forall j v, l !! j = Some v -> g (k + j)%nat = shown v && contains v x y) ->
  hit_down k l x y best =
  match last (List.filter g (seq k (length l))) with Some i => Some i | None => best end.
Proof.
  induction l as [|v l IH]; intros k best Hg; [reflexivity|]. cbn [hit_down length seq List.filter].
  rewrite (IH (S k)).
  - pose proof (Hg 0%nat v eq_refl) as H0. rewrite Nat.add_0_r in H0. rewrite <- H0.
    destruct (g k); [|reflexivity]. rewrite last_cons_or. destruct (last _); reflexivity.
  - intros j u Hj. rewrite <- (Hg (S j) u Hj). f_equal. lia.
Qed.

Lemma filter_filter {A} (p q r : A -> bool) l :
  (forall a, In a l -> r a = q a && p a) -> List.filter p (List.filter q l) = List.filter r l.
Proof.
  induction l as [|a l IH]; intros Hr; [reflexivity|]. cbn [List.filter].
  rewrite (Hr a (or_introl eq_refl)), <- IH by (intros; apply Hr; right; assumption).
  destruct (q a); cbn [List.filter andb]; [destruct (p a)|]; reflexivity.
Qed.

(** The topmost drawn window at a point. *)
Definition drawn_at (s : wm) (x y : Z) : option nat :=
  last (List.filter (fun i => contains (win s i) x y) (render_order s)).

(** [wm_at] without a focused window at the point: the highest shown one in the table. *)
Lemma hit_down_shown s x y :
  hit_down 0 (windows s) x y None =
  last (List.filter (fun i => shown (win s i) && contains (win s i) x y) (seq 0 (slots s))).
Proof.
  rewrite (hit_down_last _ _ _ (fun i => shown (win s i) && contains (win s i) x y)).
  - unfold slots. destruct (last _); reflexivity.
  - intros j v Ev. cbn [Nat.add]. rewrite (win_lookup _ _ _ Ev). reflexivity.
Qed.

(** Where no shown window with the mark contains the point, all shown ones that contain it
    are drawn below the focused one. *)
Lemma drawn_below s x y :
  consistent s -> (forall j, shown (win s j) = true -> is_focused (win s j) = true -> contains (win s j) x y = false) ->
  drawn_at s x y = hit_down 0 (windows s) x y None.
Proof.
  intros Hcs Hno. unfold drawn_at, render_order. rewrite hit_down_shown, List.filter_app.
  replace (List.filter _ (match focused s with Some _ => _ | None => [] end)) with (@nil nat).
  2: { destruct (focused s) as [i|] eqn:Ef; [|reflexivity]. destruct (cs_focus _ Hcs i Ef) as [Hs Hm]. rewrite Hs. cbn [List.filter].
       rewrite (Hno i Hs Hm). reflexivity. }
  rewrite app_nil_r. fold (slots s). f_equal. apply filter_filter. intros j _.
  destruct (shown (win s j)) eqn:Es; [|reflexivity]. destruct (is_focused (win s j)) eqn:Em; [|reflexivity].
  cbn [andb negb]. exact (Hno j Es Em).
Qed.

Lemma at_topmost s x y : consistent s -> wm_at s x y = drawn_at s x y \/ exists g, ghost s g /\ contains (win s g) x y = true /\
  wm_at s x y = last (List.filter (fun i => shown (win s i) && contains (win s i) x y) (seq 0 (slots s))).
Proof.
  intros Hcs. unfold wm_at. destruct (focused s) as [i|] eqn:Ef.
  - left. destruct (cs_focus _ Hcs i Ef) as [Hs Hm]. rewrite Hs. cbn [andb]. destruct (contains (win s i) x y) eqn:Ec.
    + unfold drawn_at, render_order. rewrite Ef, Hs, List.filter_app. cbn [List.filter]. rewrite Ec, last_snoc. reflexivity.
    + symmetry. apply drawn_below; [exact Hcs|]. intros j _ Hj. rewrite (cs_mark _ Hcs j i Hj Hm). exact Ec.
  - destruct (List.find (fun g => shown (win s g) && is_focused (win s g) && contains (win s g) x y) (seq 0 (slots s))) as [g|] eqn:Eg.
    + right. apply List.find_some in Eg as [_ Hg]. rewrite !andb_true_iff in Hg. exists g.
      split; [split; [apply Hg|split; [apply Hg|exact Ef]]|]. split; [apply Hg|exact (hit_down_shown s x y)].
    + left. symmetry. apply drawn_below; [exact Hcs|]. intros j Hs Hm.
      pose proof (List.find_none _ _ Eg j) as Hn. cbv beta in Hn. rewrite Hs, Hm in Hn. apply Hn, in_seq.
      pose proof (mark_in_range _ _ Hm). lia.
Qed.

(** C27: the window a click goes to, after any events: the topmost one that is drawn, the last
    [wm_render] draws among those that contain the point, and none when none does.  There is
    one exception, and it needs the taskbar button of the window that is being dragged: then
    a [ghost] can be left, a window that is shown and marked while no window has the focus,
    which is not drawn; where it contains the point, the highest shown window in the table
    takes the click, which may be the ghost. *)
Theorem wm_at_topmost f s0 es x y :
  dragging s0 = false ->
  let s := run_events f (wm_init s0) es in
  (undisturbed f (wm_init s0) es -> wm_at s x y = drawn_at s x y) /\
  (wm_at s x y = drawn_at s x y \/ exists g, ghost s g /\ contains (win s g) x y = true /\
     wm_at s x y = last (List.filter (fun i => shown (win s i) && contains (win s i) x y) (seq 0 (slots s)))).
Proof.
  intros Hd s. pose proof (at_topmost s x y (events_consistent f es _ (init_consistent s0))) as Hat. split; [|exact Hat].
  intros Hu. destruct Hat as [E|(g & (Hs & Hm & Hf) & _)]; [exact E|]. exfalso.
  pose proof (co_flag _ (events_coherent f es _ (init_coherent s0 Hd) Hu) g Hs Hm) as E. fold s in E. congruence.
Qed.

(** C22: the invariant of the window manager, after any events: [win_count] is the number of
    active windows, which is at most 32; the focused window is active, not minimised and
    marked, and no other window is marked.  Unless the taskbar button of the window that is
    being dragged was pressed on the way, also the converse holds: a shown window with the mark
    has the focus; and a window that is being dragged is not minimised.  (After such a press
    they can fail: [taskbar_press_makes_ghost].) *)
Theorem wm_reachable_coherent f s0 es :
  dragging s0 = false ->
  let s := run_events f (wm_init s0) es in
  consistent s /\ 0 <= wm_count s <= 32 /\ (undisturbed f (wm_init s0) es -> coherent s).
Proof.
  intros Hd s. pose proof (events_consistent f es _ (init_consistent s0)) as Hcs. fold s in Hcs.
  split; [exact Hcs|]. split; [|intros Hu; exact (events_coherent f es _ (init_coherent s0 Hd) Hu)]. unfold wm_count.
  rewrite (cs_count _ Hcs). pose proof (actives_bounds (windows s)) as Hb.
  rewrite (cs_len _ Hcs : length (windows s) = 32%nat) in Hb. lia.
Qed.

(** ** Snap layouts *)
Definition covers (f : fb) (px py : Z) (layout : Z) : bool :=
  match snap_rect f layout with Some (x, y, w, h) => in_rect x y w h px py | None => false end.

(** The screen without the taskbar. *)
Definition work_w (f : fb) : Z := width f.
Definition work_h (f : fb) : Z := height f - TASKBAR_H.

(** the snap layouts tile the work area: every point of the screen above the
    taskbar is in exactly one of the left and right halves and in exactly one of the
    four quarters, and no layout reaches outside. *)
Theorem wm_snap_tiles f px py :
  0 <= width f < 2 ^ 31 -> TASKBAR_H <= height f < 2 ^ 31 ->
  let k := if in_rect 0 0 (work_w f) (work_h f) px py then 1%nat else 0%nat in
  length (List.filter (covers f px py) [0; 1]) = k /\
  length (List.filter (covers f px py) [2; 3; 4; 5]) = k.
Proof.
  unfold TASKBAR_H. intros Hw Hh. cbv zeta.
  assert (Ew : i32 (width f) = width f) by (apply i32_small; lia).
  assert (Eh : i32 (i32 (height f) - 48) = height f - 48) by (rewrite (i32_small (height f)) by lia; apply i32_small; lia).
  unfold covers, snap_rect, work_w, work_h, TASKBAR_H. rewrite Ew, Eh. set (H := height f - 48).
  assert (HH : 0 <= H < 2 ^ 31) by (unfold H; lia). clearbody H.
  pose proof (Z.quot_div_nonneg (width f) 2 ltac:(lia) ltac:(lia)) as Qw.
  pose proof (Z.quot_div_nonneg H 2 ltac:(lia) ltac:(lia)) as Qh. rewrite Qw, Qh.
  assert (Hhw : 0 <= width f / 2 <= width f) by (split; [apply Z.div_pos; lia|apply Z.div_le_upper_bound; lia]).
  assert (Hhh : 0 <= H / 2 <= H) by (split; [apply Z.div_pos; lia|apply Z.div_le_upper_bound; lia]).
  generalize dependent (width f / 2). generalize dependent (H / 2). intros hh Qh Hhh hw Qw Hhw.
  rewrite !i32_small by lia. cbn [Z.eqb Pos.eqb List.filter]. unfold in_rect.
  split; repeat case_cmp; cbn [andb length]; (reflexivity || lia).
Qed.

(** ** Maximising and restoring *)
Definition geometry (v : window) : Z * Z * Z * Z := (wx v, wy v, ww v, wh v).

(** maximising a window that is not maximised makes it cover exactly the work area
    in front of the taskbar, setting it back to normal restores the place and size it
    had, and no other window changes. *)
Theorem wm_maximize_restores f s i :
  0 <= width f < 2 ^ 31 -> TASKBAR_H <= height f < 2 ^ 31 ->
  active (win s i) = true -> wstate (win s i) = WIN_NORMAL ->
  let s1 := wm_set_state f s (Some i) WIN_MAXIMIZED in
  let s2 := wm_set_state f s1 (Some i) WIN_NORMAL in
  geometry (win s1 i) = (0, 0, work_w f, work_h f) /\ wstate (win s1 i) = WIN_MAXIMIZED /\
  geometry (win s2 i) = geometry (win s i) /\ wstate (win s2 i) = WIN_NORMAL /\
  (forall j, j <> i -> win s2 j = win s j).
Proof.
  intros Hw Hh Ha Hst s1 s2. unfold TASKBAR_H in Hh.
  assert (E1 : win s1 i = change_state f WIN_MAXIMIZED (win s i)) by exact (win_upd_self s i _ Ha).
  assert (Ha1 : active (win s1 i) = true).
  { rewrite E1. unfold change_state. rewrite Hst. exact Ha. }
  assert (E2 : win s2 i = change_state f WIN_NORMAL (win s1 i)) by exact (win_upd_self s1 i _ Ha1).
  assert (Hch : geometry (win s1 i) = (0, 0, work_w f, work_h f) /\ wstate (win s1 i) = WIN_MAXIMIZED /\
            (restore_x (win s1 i), restore_y (win s1 i), restore_w (win s1 i), restore_h (win s1 i)) = geometry (win s i)).
  { rewrite E1. unfold change_state. rewrite Hst. cbn [bool_decide negb andb]. unfold geometry, work_w, work_h.
    cbn. rewrite (i32_small (width f)) by lia. rewrite (i32_small (height f)) by lia.
    rewrite i32_small by (unfold TASKBAR_H; lia). auto. }
  destruct Hch as (Hg & Hm & Hr). split; [exact Hg|]. split; [exact Hm|].
  rewrite E2. unfold change_state. rewrite Hm. cbn [bool_decide negb andb].
  split; [exact Hr|]. split; [reflexivity|].
  intros j Hj. unfold s2, s1, wm_set_state. rewrite !win_upd. rewrite !decide_False by (intros [-> _]; congruence). reflexivity.
Qed.

(** minimising a maximised window from the taskbar and bringing it back leaves it
    in the state NORMAL with the maximised size: [wm_focus] drops the old state, and
    when the window is maximised and restored again its real size is lost. *)
Theorem wm_minimize_forgets_maximized f s i v :
  windows s !! i = Some v -> active v = true -> is_focused v = true -> wstate v = WIN_MAXIMIZED ->
  let s1 := wm_restore_or_focus (wm_restore_or_focus s (Some i)) (Some i) in
  wstate (win s1 i) = WIN_NORMAL /\ geometry (win s1 i) = geometry v /\
  geometry (win (wm_set_state f (wm_set_state f s1 (Some i) WIN_MAXIMIZED) (Some i) WIN_NORMAL) i) = geometry v.
Proof.
  intros Ev Ha Hf Hm s1. pose proof (win_lookup _ _ _ Ev) as Ew. pose proof (lookup_lt_Some _ _ _ Ev) as Hi.
  set (sm := set_focused None (upd_win i (set_state WIN_MINIMIZED) s)).
  assert (Em : wm_restore_or_focus s (Some i) = sm).
  { unfold wm_restore_or_focus. rewrite Ew, Hf, Hm. reflexivity. }
  assert (Ewm : win sm i = set_state WIN_MINIMIZED v).
  { change (win sm i) with (win (upd_win i (set_state WIN_MINIMIZED) s) i). rewrite win_upd_self by (rewrite Ew; exact Ha).
    rewrite Ew. reflexivity. }
  assert (Es1 : s1 = wm_focus sm (Some i)).
  { unfold s1. rewrite Em. unfold wm_restore_or_focus. rewrite Ewm. cbn [is_focused wstate set_state set_flags].
    rewrite andb_false_r. reflexivity. }
  assert (Hl : slots sm = slots s) by exact (slots_upd s i _).
  assert (E1 : win s1 i = set_flags true WIN_NORMAL true v).
  { rewrite Es1, (focus_window sm i i) by (rewrite Hl; exact Hi). rewrite decide_True by reflexivity.
    rewrite Ewm. cbn. rewrite Ha. reflexivity. }
  rewrite E1. split; [reflexivity|]. split; [reflexivity|].
  assert (Ha1 : active (win s1 i) = true) by (rewrite E1; reflexivity).
  unfold wm_set_state. rewrite win_upd_self; rewrite win_upd_self by exact Ha1; rewrite E1; reflexivity.
Qed.

(** ** Dragging *)
Lemma drag_moves f h ox oy : forall ms s,
  drag_win s = Some h -> dragging s = true -> drag_off_x s = ox -> drag_off_y s = oy ->
  active (win s h) = true -> wstate (win s h) <> WIN_MAXIMIZED ->
  Forall (fun m => left m = true) ms ->
  let s' := foldl (fun s m => wm_handle_mouse f s m) s ms in
  geometry (win s' h) = match last ms with
    | Some m => (i32 (x m - ox), i32 (y m - oy), ww (win s h), wh (win s h))
    | None => geometry (win s h)
    end.
Proof.
  intros ms. induction ms as [|m ms IH]; intros s Hd Hdr Hox Hoy Ha Hst Hms; [reflexivity|].
  inversion Hms as [|? ? Hl Hms']; subst. cbn [foldl].
  set (s1 := wm_handle_mouse f s m).
  assert (E : s1 = upd_win h (move_to (i32 (x m - drag_off_x s)) (i32 (y m - drag_off_y s))) s).
  { unfold s1, wm_handle_mouse, drag_target. rewrite Hd, Hdr, Ha. cbn [andb]. unfold wm_drag. rewrite Hl.
    rewrite decide_False by exact Hst. reflexivity. }
  assert (Ew : win s1 h = move_to (i32 (x m - drag_off_x s)) (i32 (y m - drag_off_y s)) (win s h))
    by (rewrite E; exact (win_upd_self s h _ Ha)).
  assert (Ef : drag_win s1 = drag_win s /\ dragging s1 = dragging s /\ drag_off_x s1 = drag_off_x s /\ drag_off_y s1 = drag_off_y s)
    by (rewrite E; repeat split). destruct Ef as (E1 & E2 & E3 & E4).
  assert (Hrun : geometry (win (foldl (fun s m => wm_handle_mouse f s m) s1 ms) h) = match last ms with
    | Some m => (i32 (x m - drag_off_x s), i32 (y m - drag_off_y s), ww (win s1 h), wh (win s1 h))
    | None => geometry (win s1 h) end).
  { apply (IH s1); [congruence|congruence|exact E3|exact E4|rewrite Ew; exact Ha|rewrite Ew; exact Hst|exact Hms']. }
  cbv zeta. rewrite Hrun, last_cons_or. rewrite Ew. destruct (last ms); reflexivity.
Qed.

(** A press on the title bar left of its buttons picks the window up: while the
    button is held, whatever positions the mouse reports, the window is where the
    pointer's last position puts the point that was pressed, and keeps its size. *)
Theorem wm_drag_follows_pointer f s h m ms m' :
  drag_target s = None -> left_pressed m = true -> wm_at s (x m) (y m) = Some h ->
  wstate (win s h) <> WIN_MAXIMIZED ->
  y m < wy (win s h) + 32 -> x m < wx (win s h) + ww (win s h) - 138 -> ww (win s h) < 2 ^ 28 ->
  Z.abs (wx (win s h)) < 2 ^ 28 -> Z.abs (wy (win s h)) < 2 ^ 28 ->
  Forall (fun m => left m = true) (ms ++ [m']) -> Z.abs (x m') < 2 ^ 28 -> Z.abs (y m') < 2 ^ 28 ->
  let s' := foldl (fun s m => wm_handle_mouse f s m) s ([m] ++ ms ++ [m']) in
  geometry (win s' h) =
    (wx (win s h) + (x m' - x m), wy (win s h) + (y m' - y m), ww (win s h), wh (win s h)).
Proof.
  intros Hd Hp Hat Hst Hy Hx Hww Hwx Hwy Hms Hx' Hy'. destruct (wm_at_hit _ _ _ _ Hat) as [Hs Hc].
  pose proof (proj1 (proj1 (shown_active _) Hs)) as Ha. pose proof (not_minimized _ Hs) as Hm.
  pose proof (active_in_range _ _ Ha) as Hi.
  unfold contains in Hc. rewrite !andb_true_iff, !Z.leb_le, !Z.ltb_lt in Hc. destruct Hc as [[[Hcx _] Hcy] _].
  assert (E1 : win (wm_focus s (Some h)) h = set_flags true (wstate (win s h)) true (win s h)).
  { rewrite (focus_window s h h Hi), decide_True by reflexivity. rewrite decide_False by exact Hm. rewrite Ha. reflexivity. }
  set (s1 := wm_handle_mouse f s m).
  assert (Es1 : s1 = set_drag (Some h) (x m - wx (win s h)) (y m - wy (win s h)) true (wm_focus s (Some h))).
  { unfold s1, wm_handle_mouse. rewrite Hd, Hp, Hat. cbn [negb]. unfold caption_press. rewrite !E1.
    cbn [wx wy ww wstate set_flags]. rewrite !i32_small by lia.
    repeat (case_cmp; try lia). reflexivity. }
  cbn [app foldl]. fold s1. cbv zeta.
  rewrite (drag_moves f h (x m - wx (win s h)) (y m - wy (win s h)) (ms ++ [m']) s1);
    [|rewrite Es1; try reflexivity..|exact Hms].
  - rewrite last_snoc. rewrite Es1. change (win (set_drag _ _ _ _ ?t) h) with (win t h). rewrite E1.
    rewrite !i32_small by lia. cbn [ww wh set_flags]. repeat (apply f_equal2; [|reflexivity]). apply f_equal2; lia.
  - change (win (set_drag _ _ _ _ ?t) h) with (win t h). rewrite E1. reflexivity.
  - change (win (set_drag _ _ _ _ ?t) h) with (win t h). rewrite E1. exact Hst.
Qed.

(** ** A small desktop *)
Definition demo_screen : fb := mk_fb 0x1000 1280 720 5120 32 false 0.
Definition demo_perf : perf_settings := adaptive_init (4096 * 2 ^ 20) 8 true.
Definition no_windows : wm := mk_wm [] None 0 None 0 0 false.
Definition demo_events : list event :=
  [Create demo_perf (Some (chars "A")) 100 80 400 300; Create demo_perf (Some (chars "B")) 200 120 400 300].
Definition demo_wm : wm := run_events demo_screen (wm_init no_windows) demo_events.
Definition press (px py : Z) : mouse_state := mk_mouse px py 0 0 true false false true false false false.
Definition hold (px py : Z) : mouse_state := mk_mouse px py 0 0 true false false false false false false.

Lemma demo_undisturbed : undisturbed demo_screen (wm_init no_windows) demo_events.
Proof. repeat split; intros []. Qed.

Lemma demo_coherent : coherent demo_wm.
Proof. exact (events_coherent _ _ _ (init_coherent no_windows eq_refl) demo_undisturbed). Qed.

(** B is picked up by its title bar; before the next frame the button is released and its
    taskbar button pressed, which minimises it; then the pointer is released at the left edge,
    which shows it again as a half of the screen. *)
Definition ghost_events : list event :=
  demo_events ++ [MouseInput (press 250 130); Taskbar 1; MouseInput (hold 400 300); MouseInput (mk_mouse 5 300 0 0 false false false false false false false)].

(** It has the mark but not the focus: it is not drawn, and takes the clicks. *)
Theorem taskbar_press_makes_ghost :
  let s := run_events demo_screen (wm_init no_windows) ghost_events in
  ghost s 1 /\ render_order s = [0%nat] /\ wm_at s 150 100 = Some 1%nat /\ drawn_at s 150 100 = Some 0%nat.
Proof. vm_compute. repeat split. Qed.

Lemma wm_at_topmost_witness :
  wm_at demo_wm 250 150 = Some 1%nat /\ wm_at demo_wm 250 150 = drawn_at demo_wm 250 150.
Proof.
  split; [vm_compute; reflexivity|].
  exact (proj1 (wm_at_topmost demo_screen no_windows demo_events 250 150 eq_refl) demo_undisturbed).
Defined.

Lemma wm_reachable_coherent_witness :
  coherent demo_wm /\ consistent (run_events demo_screen (wm_init no_windows) ghost_events).
Proof.
  split; [apply (wm_reachable_coherent demo_screen no_windows demo_events eq_refl), demo_undisturbed|].
  apply (wm_reachable_coherent demo_screen no_windows ghost_events eq_refl).
Defined.

Lemma wm_snap_tiles_witness :
  length (List.filter (covers demo_screen 700 10) [0; 1]) = 1%nat /\
  length (List.filter (covers demo_screen 700 10) [2; 3; 4; 5]) = 1%nat.
Proof. apply (wm_snap_tiles demo_screen 700 10); unfold TASKBAR_H; cbn; lia. Defined.

Lemma wm_maximize_restores_witness :
  let s1 := wm_set_state demo_screen demo_wm (Some 1%nat) WIN_MAXIMIZED in
  geometry (win s1 1) = (0, 0, 1280, 672) /\
  geometry (win (wm_set_state demo_screen s1 (Some 1%nat) WIN_NORMAL) 1) = (200, 120, 400, 300).
Proof.
  destruct (wm_maximize_restores demo_screen demo_wm 1) as (H1 & _ & H2 & _);
    [cbn; lia|unfold TASKBAR_H; cbn; lia|vm_compute; reflexivity|vm_compute; reflexivity|].
  split; [exact H1|exact H2].
Defined.

Lemma wm_minimize_forgets_maximized_witness :
  let s := wm_set_state demo_screen demo_wm (Some 1%nat) WIN_MAXIMIZED in
  let s1 := wm_restore_or_focus (wm_restore_or_focus s (Some 1%nat)) (Some 1%nat) in
  wstate (win s1 1) = WIN_NORMAL /\ geometry (win s1 1) = (0, 0, 1280, 672).
Proof.
  set (s := wm_set_state demo_screen demo_wm (Some 1%nat) WIN_MAXIMIZED).
  destruct (wm_minimize_forgets_maximized demo_screen s 1 (win s 1)) as (H1 & H2 & _);
    [vm_compute; reflexivity..|]. split; [exact H1|exact H2].
Defined.

Lemma wm_drag_follows_pointer_witness :
  geometry (win (foldl (fun s m => wm_handle_mouse demo_screen s m) demo_wm
    ([press 250 130] ++ [hold 400 300] ++ [hold 270 125])) 1) = (220, 115, 400, 300).
Proof.
  apply (wm_drag_follows_pointer demo_screen demo_wm 1 (press 250 130) [hold 400 300] (hold 270 125));
    first [vm_compute; reflexivity|solve [repeat constructor]|vm_compute; discriminate].
Defined.
