(* ===== verification/Log.v ===== *)
(** * Kernel log: [kernel/core/log.c]

    The ring buffer, the serial port and the formatter.  The arguments of a variadic
    call are a list of slots: a word of 64 bits, which [va_arg] reads at the width of
    its type, or a pointer to a string ([None] for NULL).  Reading a slot that is
    missing or of the other kind is undefined in C and a [Fault] here. *)
From Stdlib Require Import ZArith Lia Bool String.
From stdpp Require Import base tactics option list numbers.
From S2P Require Import Prelude CInt CString Io.
#[local] Close Scope string_scope.
#[local] Open Scope Z_scope.

Definition LOG_RING_SIZE : Z := 8192.
Definition COM1 : Z := 0x3F8.

Inductive arg := Word (v : Z) | Str (s : option (list Z)).

(** [va_arg] at an integer or pointer type, and at [const char*]. *)
Definition va_word (args : list arg) : outcome (Z * list arg) :=
  match args with Word v :: rest => mret (v, rest) | _ => Fault end.
Definition va_str (args : list arg) : outcome (option (list Z) * list arg) :=
  match args with Str s :: rest => mret (s, rest) | _ => Fault end.

Section Log.
Context {D : Type} `{PortIO D}.
(** How often [serial_write] polls the line before the model gives up. *)
Context (polls : nat).

Record log := mk_log { log_ring : list Z; log_pos : Z; serial : D }.

(** ** Output *)
Definition serial_init (d : D) : D :=
  let d := outb d (COM1 + 1) 0x00 in
  let d := outb d (COM1 + 3) 0x80 in
  let d := outb d (COM1 + 0) 0x03 in
  let d := outb d (COM1 + 1) 0x00 in
  let d := outb d (COM1 + 3) 0x03 in
  let d := outb d (COM1 + 2) 0xC7 in
  outb d (COM1 + 4) 0x0B.

Definition serial_write (d : D) (c : Z) : outcome D :=
  d ← loop polls (fun d =>
        let '(v, d') := inb d (COM1 + 5) in
        mret (if Z.land v 0x20 =? 0 then inl d' else inr d')) d;
  mret (outb d COM1 (u8 c)).

Definition ring_putc (s : log) (c : Z) : outcome log :=
  r ← arr_set (log_ring s) (log_pos s mod LOG_RING_SIZE) c;
  d ← serial_write (serial s) c;
  mret (mk_log r (u64 (log_pos s + 1)) d).

Fixpoint ring_puts (s : log) (l : list Z) : outcome log :=
  match l with [] => mret s | c :: l' => s ← ring_putc s c; ring_puts s l' end.

(** ** Formatting *)
Definition ch (x : string) : Z := match chars x with c :: _ => c | [] => 0 end.

(** The conversions after a percent sign: what is printed, the rest of the format and
    of the arguments. *)
Definition conversion (c : Z) (fmt : list Z) (args : list arg) : outcome (list Z * list Z * list arg) :=
  if c =? ch "s" then
    '(p, args) ← va_str args; mret (default (chars "(null)") p, fmt, args)
  else if c =? ch "c" then '(v, args) ← va_word args; mret ([u8 v], fmt, args)
  else if (c =? ch "d") || (c =? ch "i") then
    '(v, args) ← va_word args; mret (itoa_str (i32 v) 10, fmt, args)
  else if c =? ch "u" then '(v, args) ← va_word args; mret (utoa_str (u32 v) 10, fmt, args)
  else if c =? ch "x" then '(v, args) ← va_word args; mret (utoa_str (u32 v) 16, fmt, args)
  else if c =? ch "p" then
    '(v, args) ← va_word args; mret (chars "0x" ++ utoa_str (u64 v) 16, fmt, args)
  else if c =? ch "l" then
    match fmt with
    | l :: fmt1 =>
        if l =? ch "l" then
          match fmt1 with
          | k :: fmt2 =>
              if k =? ch "u" then '(v, args) ← va_word args; mret (utoa_str (u64 v) 10, fmt2, args)
              else if k =? ch "x" then '(v, args) ← va_word args; mret (utoa_str (u64 v) 16, fmt2, args)
              else if k =? ch "d" then '(v, args) ← va_word args; mret (itoa_str (i64 v) 10, fmt2, args)
              else mret ([], fmt1, args)
          | [] => mret ([], fmt1, args)
          end
        else mret ([], fmt, args)
    | [] => mret ([], fmt, args)
    end
  else if c =? ch "%" then mret ([ch "%"], fmt, args)
  else mret ([ch "%"; c], fmt, args).

(** One turn of the loop of [kvprintf] on a format that is not empty.  A percent sign
    at the very end makes the loop go on behind the NUL: a [Fault]. *)
Definition format_turn (fmt : list Z) (args : list arg) : outcome (list Z * list Z * list arg) :=
  match fmt with
  | [] => Fault
  | c :: r =>
      if negb (c =? ch "%") then mret ([c], r, args)
      else match r with c' :: r' => conversion c' r' args | [] => Fault end
  end.

(** Every turn shortens the format, so its length is fuel enough. *)
Definition kvprintf (s : log) (fmt : list Z) (args : list arg) : outcome log :=
  loop (S (length fmt)) (fun '(s, fmt, args) =>
    if bool_decide (fmt = []) then mret (inr s)
    else
      '(out, fmt, args) ← format_turn fmt args;
      s ← ring_puts s out;
      mret (inl (s, fmt, args))) (s, fmt, args).

(** ** The interface *)
Definition LOG_DEBUG : Z := 1.
Definition min_level : Z := LOG_DEBUG.
Definition level_names : list (list Z) :=
  [chars "TRACE"; chars "DEBUG"; chars "INFO"; chars "WARN"; chars "ERROR"; chars "FATAL"].

Definition klog_init (s : log) : log :=
  mk_log (replicate (Z.to_nat LOG_RING_SIZE) 0) 0 (serial_init (serial s)).

Definition klog (s : log) (level : Z) (subsystem fmt : list Z) (args : list arg) : outcome log :=
  if level <? min_level then mret s
  else
    s ← ring_putc s (ch "[");
    nm ← match level_names !! Z.to_nat level with Some nm => mret nm | None => Fault end;
    s ← ring_puts s nm;
    s ← ring_puts s (chars "][");
    s ← ring_puts s subsystem;
    s ← ring_puts s (chars "] ");
    s ← kvprintf s fmt args;
    ring_putc s 10.

(** The state [kpanic] halts in; it never returns. *)
Definition kpanic (s : log) (fmt : list Z) (args : list arg) : outcome log :=
  s ← ring_puts s ([10] ++ chars "!!!! H3OS KERNEL PANIC !!!!" ++ [10]);
  s ← kvprintf s fmt args;
  ring_putc s 10.
End Log.

(** ** The serial line

    What the log relies on: a line that is ready reports an empty transmitter, and
    takes the byte that is written to it. *)
Class Uart (D : Type) `{PortIO D} := {
  uart_ready : D -> Prop;
  uart_sent : D -> list Z
}.

Class UartLaws (D : Type) `{Uart D} := {
  uart_status : forall d, uart_ready d -> exists v d',
    inb d (COM1 + 5) = (v, d') /\ Z.land v 0x20 <> 0 /\ uart_ready d' /\ uart_sent d' = uart_sent d;
  uart_send : forall d c, uart_ready d ->
    uart_ready (outb d COM1 c) /\ uart_sent (outb d COM1 c) = uart_sent d ++ [c]
}.

(** A line that is always ready; its state is what was sent. *)
Record line := mk_line { sent_bytes : list Z }.
#[export] Instance line_io : PortIO line := {
  inb d p := (if Z.eqb p (COM1 + 5) then 0x20 else 0, d);
  outb d p v := if Z.eqb p COM1 then mk_line (sent_bytes d ++ [v]) else d;
  outw d _ _ := d;
  in_l d _ := (0, d);
  out_l d _ _ := d
}.
#[export] Instance line_uart : Uart line := { uart_ready _ := True; uart_sent := sent_bytes }.
#[export] Instance line_laws : UartLaws line.
Proof.
  split.
  - intros d _. exists 0x20, d. repeat split. discriminate.
  - intros d c _. split; [exact I|reflexivity].
Qed.

(** ** Formats as directives *)
Inductive directive :=
  | Lit (c : Z) | PStr | PChr | PInt | PUint | PHex | PPtr | PUlong | PXlong | PLong | PPercent | POther (c : Z).

Definition directive_text (d : directive) : list Z :=
  match d with
  | Lit c => [c]
  | PStr => chars "%s" | PChr => chars "%c" | PInt => chars "%d" | PUint => chars "%u" | PHex => chars "%x"
  | PPtr => chars "%p" | PUlong => chars "%llu" | PXlong => chars "%llx" | PLong => chars "%lld"
  | PPercent => chars "%%"
  | POther c => [ch "%"; c]
  end.
Definition format_text (ds : list directive) : list Z := concat (map directive_text ds).

(** The letters that start a conversion; any other one is printed with its percent sign. *)
Definition conversions : list Z := chars "scdiuxpl%".

(** What a directive prints of the arguments, and the arguments it leaves. *)
Definition directive_out (d : directive) (args : list arg) : option (list Z * list arg) :=
  match d, args with
  | Lit c, _ => if c =? ch "%" then None else Some ([c], args)
  | PPercent, _ => Some ([ch "%"], args)
  | POther c, _ => if bool_decide (c ∈ conversions) then None else Some ([ch "%"; c], args)
  | PStr, Str s :: r => Some (default (chars "(null)") s, r)
  | PChr, Word v :: r => Some ([u8 v], r)
  | PInt, Word v :: r => Some (itoa_str (i32 v) 10, r)
  | PUint, Word v :: r => Some (utoa_str (u32 v) 10, r)
  | PHex, Word v :: r => Some (utoa_str (u32 v) 16, r)
  | PPtr, Word v :: r => Some (chars "0x" ++ utoa_str (u64 v) 16, r)
  | PUlong, Word v :: r => Some (utoa_str (u64 v) 10, r)
  | PXlong, Word v :: r => Some (utoa_str (u64 v) 16, r)
  | PLong, Word v :: r => Some (itoa_str (i64 v) 10, r)
  | _, _ => None
  end.
Fixpoint meaning (ds : list directive) (args : list arg) : option (list Z) :=
  match ds with
  | [] => Some []
  | d :: ds' =>
      match directive_out d args with
      | Some (out, r) => match meaning ds' r with Some t => Some (out ++ t) | None => None end
      | None => None
      end
  end.

(** A turn of [kvprintf] does one directive. *)
Lemma format_turn_directive d args out rest tail :
  directive_out d args = Some (out, rest) ->
  format_turn (directive_text d ++ tail) args = Done (out, tail, rest).
Proof.
  destruct d; cbn [directive_out];
    [destruct (Z.eqb_spec c (ch "%")) as [|Hc]; [discriminate|]; intros [= <- <-];
     unfold directive_text, format_turn; cbn [app];
     destruct (Z.eqb_spec c (ch "%")); [congruence|reflexivity]| ..];
    [..|destruct (bool_decide_reflect (c ∈ conversions)) as [|Hc]; [discriminate|]; intros [= <- <-];
        change conversions with [115; 99; 100; 105; 117; 120; 112; 108; 37] in Hc; rewrite !not_elem_of_cons in Hc;
        cbn [directive_text format_turn app]; change (ch "%" =? ch "%") with true; cbn [negb]; unfold conversion;
        destruct Hc as (H1 & H2 & H3 & H4 & H5 & H6 & H7 & H8 & H9 & _);
        change (ch "s") with 115; change (ch "c") with 99; change (ch "d") with 100; change (ch "i") with 105;
        change (ch "u") with 117; change (ch "x") with 120; change (ch "p") with 112; change (ch "l") with 108;
        change (ch "%") with 37;
        rewrite !(proj2 (Z.eqb_neq _ _)) by assumption; reflexivity];
    try (intros [= <- <-]; reflexivity);
    destruct args as [|[v|p] r]; try discriminate; intros [= <- <-]; reflexivity.
Qed.

Lemma directive_text_cons d : exists c l, directive_text d = c :: l.
Proof. destruct d; eexists _, _; reflexivity. Qed.

(** ** The ring holds the end of what was logged *)
Section Refinement.
Context {D : Type} `{UartLaws D}.
Context (polls : nat) (Hpolls : (0 < polls)%nat).

Record holds (s : @log D) (out : list Z) : Prop := {
  ho_len : Z.of_nat (length (log_ring s)) = LOG_RING_SIZE;
  ho_pos : log_pos s = u64 (Z.of_nat (length out));
  ho_ring : forall i c, out !! i = Some c -> Z.of_nat (length out) <= Z.of_nat i + LOG_RING_SIZE ->
    log_ring s !! Z.to_nat (Z.of_nat i mod LOG_RING_SIZE) = Some c;
  ho_ready : uart_ready (serial s)
}.

(** [text] was added to the ring and sent. *)
Definition appended (s s' : log) (out text : list Z) : Prop :=
  holds s' (out ++ text) /\ uart_sent (serial s') = uart_sent (serial s) ++ map u8 text.

Lemma serial_write_returns d c : uart_ready d ->
  returns (serial_write polls d c) (fun d' => uart_ready d' /\ uart_sent d' = uart_sent d ++ [u8 c]).
Proof.
  intros Hr. unfold serial_write. destruct polls as [|n]; [lia|].
  destruct (uart_status d Hr) as (v & d' & E & Hv & Hr' & Hs'). rewrite loop_S, E, bind_Done.
  destruct (Z.eqb_spec (Z.land v 0x20) 0); [congruence|]. rewrite bind_Done. apply returns_Done.
  destruct (uart_send d' (u8 c) Hr') as [Hr2 Hs2]. rewrite Hs2, Hs'. auto.
Qed.

(** The position wraps at a multiple of the size of the ring. *)
Lemma u64_ring n : u64 n mod 8192 = n mod 8192.
Proof.
  unfold u64. apply Z.mod_mod_divide. exists (2 ^ 51). reflexivity.
Qed.

Lemma ring_putc_returns s out c :
  holds s out ->
  returns (ring_putc polls s c) (fun s' => appended s s' out [c]).
Proof.
  intros [Hl Hp Hring Hr]. unfold ring_putc. unfold LOG_RING_SIZE in *.
  assert (Hpos : log_pos s mod 8192 = Z.of_nat (length out) mod 8192) by (rewrite Hp; apply u64_ring). rewrite Hpos.
  pose proof (Z.mod_pos_bound (Z.of_nat (length out)) 8192 ltac:(lia)) as Hm.
  rewrite arr_set_Done by lia. rewrite bind_Done.
  destruct (serial_write_returns (serial s) c Hr) as (d & -> & Hrd & Hsd). rewrite bind_Done.
  apply returns_Done. split; [|exact Hsd]. split; cbn [log_ring log_pos serial].
  - rewrite length_insert. exact Hl.
  - rewrite Hp, length_app. cbn [length]. rewrite Nat2Z.inj_add. unfold u64. apply Zplus_mod_idemp_l.
  - intros i x Hi Hlen. rewrite length_app in Hlen. cbn [length] in Hlen. unfold LOG_RING_SIZE in *.
    destruct (decide (i = length out)) as [->|Hne].
    + rewrite list_lookup_middle in Hi by reflexivity. injection Hi as <-.
      apply list_lookup_insert_eq. lia.
    + assert (Hlt : (i < length out)%nat).
      { apply lookup_lt_Some in Hi. rewrite length_app in Hi. cbn [length] in Hi. lia. }
      rewrite lookup_app_l in Hi by exact Hlt. rewrite list_lookup_insert_ne.
      * apply Hring; [exact Hi|lia].
      * intros E. apply (f_equal Z.of_nat) in E.
        rewrite !Z2Nat.id in E by (apply Z.mod_pos_bound; lia).
        revert E Hlt Hlen. clear. intros. Z.to_euclidean_division_equations. lia.
  - exact Hrd.
Qed.

Lemma appended_trans s s1 s2 out t1 t2 :
  appended s s1 out t1 -> appended s1 s2 (out ++ t1) t2 -> appended s s2 out (t1 ++ t2).
Proof.
  intros [A1 E1] [A2 E2]. split; [rewrite app_assoc; exact A2|].
  rewrite E2, E1, map_app, app_assoc. reflexivity.
Qed.

Lemma appended_nil s out : holds s out -> appended s s out [].
Proof. intros Hh. split; rewrite app_nil_r; [exact Hh|reflexivity]. Qed.

Lemma ring_puts_returns l : forall s out,
  holds s out ->
  returns (ring_puts polls s l) (fun s' => appended s s' out l).
Proof.
  induction l as [|c l IH]; intros s out Hh; cbn [ring_puts].
  - apply returns_Done, appended_nil, Hh.
  - destruct (ring_putc_returns s out c Hh) as (s1 & -> & A1). rewrite bind_Done.
    eapply returns_mono; [exact (IH s1 (out ++ [c]) (proj1 A1))|].
    intros s2 A2. exact (appended_trans s s1 s2 out [c] l A1 A2).
Qed.

Lemma kvprintf_returns ds : forall args text fuel s out,
  meaning ds args = Some text -> holds s out -> (length (format_text ds) < fuel)%nat ->
  returns (loop fuel (fun '(s, fmt, args) =>
    if bool_decide (fmt = []) then mret (inr s)
    else
      '(out, fmt, args) ← format_turn fmt args;
      s ← ring_puts polls s out;
      mret (inl (s, fmt, args))) (s, format_text ds, args))
  (fun s' => appended s s' out text).
Proof.
  induction ds as [|d ds IH]; intros args text fuel s out Hm Hh Hf; (destruct fuel as [|n]; [lia|]);
    rewrite loop_S; cbn [meaning] in Hm.
  - injection Hm as <-. apply returns_Done, appended_nil, Hh.
  - destruct (directive_out d args) as [[o r]|] eqn:Ed; [|discriminate].
    destruct (meaning ds r) as [t|] eqn:Em; [|discriminate]. injection Hm as <-.
    change (format_text (d :: ds)) with (directive_text d ++ format_text ds) in *.
    destruct (directive_text_cons d) as (c & l & Et). rewrite bool_decide_false by (rewrite Et; discriminate).
    rewrite (format_turn_directive d args o r _ Ed), bind_Done. rewrite length_app in *.
    destruct (ring_puts_returns o s out Hh) as (s1 & -> & A1). rewrite !bind_Done.
    eapply returns_mono; [apply (IH r t n s1 (out ++ o) Em (proj1 A1)); rewrite Et in Hf; cbn [length] in Hf; lia|].
    intros s2 A2. exact (appended_trans s s1 s2 out o t A1 A2).
Qed.

(** [ring_puts] after something was appended. *)
Lemma appended_puts s s1 out t l :
  appended s s1 out t -> returns (ring_puts polls s1 l) (fun s2 => appended s s2 out (t ++ l)).
Proof.
  intros A1. eapply returns_mono; [exact (ring_puts_returns l s1 (out ++ t) (proj1 A1))|].
  intros s2 A2. exact (appended_trans s s1 s2 out t l A1 A2).
Qed.
End Refinement.

(** The line of text [klog] writes. *)
Definition log_line (name subsystem text : list Z) : list Z :=
  chars "[" ++ name ++ chars "][" ++ subsystem ++ chars "] " ++ text ++ [10].

(** [klog] with a format made of directives appends exactly its line, the level's name, the
    subsystem and the formatted arguments: the ring buffer then holds the last 8192
    characters ever logged, in their places, and the same bytes went out on the serial
    line.  Levels below DEBUG are dropped. *)
Lemma klog_returns {D : Type} `{UartLaws D} polls (s : @log D) out level name subsystem ds args text :
  (0 < polls)%nat -> holds s out ->
  level_names !! Z.to_nat level = Some name -> meaning ds args = Some text ->
  returns (klog polls s level subsystem (format_text ds) args) (fun s' =>
    if level <? LOG_DEBUG then s' = s else appended s s' out (log_line name subsystem text)).
Proof.
  intros Hp Hh Hnm Hm. unfold klog, min_level. destruct (level <? LOG_DEBUG); [apply returns_Done; reflexivity|].
  destruct (ring_putc_returns polls Hp s out (ch "[") Hh) as (s1 & -> & A1). rewrite bind_Done, Hnm, bind_Done.
  destruct (appended_puts polls Hp _ _ _ _ name A1) as (s2 & -> & A2). rewrite bind_Done.
  destruct (appended_puts polls Hp _ _ _ _ (chars "][") A2) as (s3 & -> & A3). rewrite bind_Done.
  destruct (appended_puts polls Hp _ _ _ _ subsystem A3) as (s4 & -> & A4). rewrite bind_Done.
  destruct (appended_puts polls Hp _ _ _ _ (chars "] ") A4) as (s5 & -> & A5). rewrite bind_Done.
  destruct (kvprintf_returns polls Hp ds args text (S (length (format_text ds))) s5 _ Hm (proj1 A5)) as (s6 & E6 & A6); [lia|].
  unfold kvprintf. rewrite E6, bind_Done. pose proof (appended_trans _ _ _ _ _ _ A5 A6) as A7.
  destruct (ring_putc_returns polls Hp s6 _ 10 (proj1 A7)) as (s7 & -> & A8).
  apply returns_Done. pose proof (appended_trans _ _ _ _ _ _ A7 A8) as A9. unfold log_line.
  rewrite <- !app_assoc in A9. exact A9.
Qed.

(** [kpanic] writes its text and halts. *)
Lemma kpanic_returns {D : Type} `{UartLaws D} polls (s : @log D) out ds args text :
  (0 < polls)%nat -> holds s out -> meaning ds args = Some text ->
  returns (kpanic polls s (format_text ds) args) (fun s' =>
    appended s s' out (([10] ++ chars "!!!! H3OS KERNEL PANIC !!!!" ++ [10]) ++ text ++ [10])).
Proof.
  intros Hp Hh Hm. unfold kpanic. apply returns_bind.
  eapply returns_mono; [exact (ring_puts_returns polls Hp _ s out Hh)|]. intros s1 A1. apply returns_bind.
  unfold kvprintf. eapply returns_mono; [apply (kvprintf_returns polls Hp ds args text _ s1 _ Hm (proj1 A1)); lia|].
  intros s2 A2. pose proof (appended_trans _ _ _ _ _ _ A1 A2) as A3.
  eapply returns_mono; [exact (ring_putc_returns polls Hp s2 _ 10 (proj1 A3))|]. intros s3 A4.
  pose proof (appended_trans _ _ _ _ _ _ A3 A4) as A5. rewrite <- !app_assoc in *. exact A5.
Qed.

(** A format string that ends in a percent sign sends [kvprintf] behind its
    terminator, whatever the arguments. *)
Theorem kvprintf_trailing_percent {D : Type} `{UartLaws D} polls (s : @log D) out ds text args :
  (0 < polls)%nat -> holds s out -> meaning ds args = Some text ->
  kvprintf polls s (format_text ds ++ chars "%") args = Fault.
Proof.
  intros Hp. unfold kvprintf. revert s out text args.
  assert (Hgen : forall ds fuel s out text args, holds s out -> meaning ds args = Some text ->
    (length (format_text ds ++ chars "%") < fuel)%nat ->
    loop fuel (fun '(s, fmt, args) =>
      if bool_decide (fmt = []) then mret (inr s)
      else '(out, fmt, args) ← format_turn fmt args; s ← ring_puts polls s out; mret (inl (s, fmt, args)))
      (s, format_text ds ++ chars "%", args) = Fault).
  { clear ds. intros ds. induction ds as [|d ds IH]; intros [|n] s out text args Hh Hm Hf; try lia;
      rewrite loop_S; cbn [meaning] in Hm; [reflexivity|].
    destruct (directive_out d args) as [[o r]|] eqn:Ed; [|discriminate].
    destruct (meaning ds r) as [t|] eqn:Em; [|discriminate]. injection Hm as <-.
    change (format_text (d :: ds)) with (directive_text d ++ format_text ds) in *. rewrite <- app_assoc in *.
    destruct (directive_text_cons d) as (c & l & Et). rewrite bool_decide_false by (rewrite Et; discriminate).
    rewrite (format_turn_directive d args o r _ Ed), bind_Done. rewrite !length_app in *.
    destruct (ring_puts_returns polls Hp o s out Hh) as (s1 & -> & A1). rewrite !bind_Done.
    apply (IH n s1 (out ++ o) t r (proj1 A1) Em).
    rewrite Et in Hf. cbn [length] in *. lia. }
  intros s out text args Hh Hm. apply (Hgen ds _ s out text args Hh Hm). lia.
Qed.

(** ** Examples *)
Definition demo_log : log := klog_init (mk_log [] 0 (mk_line [])).

Lemma demo_holds : holds demo_log [].
Proof.
  split.
  - unfold demo_log, klog_init. cbn [log_ring]. rewrite length_replicate. reflexivity.
  - reflexivity.
  - intros i c Hi. rewrite lookup_nil in Hi. discriminate.
  - exact I.
Qed.

Lemma kvprintf_trailing_percent_witness : kvprintf 1 demo_log (chars "50%") [] = Fault.
Proof.
  refine (kvprintf_trailing_percent 1 demo_log [] [Lit 53; Lit 48] (chars "50") [] _ demo_holds _);
    [lia|vm_compute; reflexivity].
Defined.
