(* ===== verification/Pe.v ===== *)
(** * PE32+ loader: [loader/pe.c]

    The file is the list of its bytes, read at the offsets of the packed headers; a
    read past its end is a [Fault].  The image is loaded into the byte memory at the
    address the page allocator, or the heap when that fails, hands out.  Running the
    image is a parameter: [exec] takes the memory and the entry address and gives the
    memory, the calls of the functions of [g_api] and the value returned. *)
From Stdlib Require Import ZArith Lia Bool String.
From stdpp Require Import base tactics option list numbers gmap.
From S2P Require Import Prelude CInt CString PageAlloc Pmm BlockAlloc Mem.
#[local] Close Scope string_scope.
#[local] Open Scope Z_scope.

(** ** The headers: offsets and sizes of the packed structures *)
Definition sizeof_dos_header : Z := 64.
Definition sizeof_coff_header : Z := 24.
Definition sizeof_pe32plus_optional : Z := 112.
Definition sizeof_section_header : Z := 40.
Definition IMAGE_FILE_MACHINE_AMD64 : Z := 0x8664.
Definition IMAGE_REL_BASED_DIR64 : Z := 10.
Definition IMAGE_REL_BASED_HIGHLOW : Z := 3.

Definition get16 (b : list Z) (o : Z) : outcome Z :=
  b0 ← arr_get b o; b1 ← arr_get b (o + 1); mret (b0 + 2 ^ 8 * b1).

Definition e_magic (f : list Z) : outcome Z := get16 f 0.
Definition e_lfanew (f : list Z) : outcome Z := get32 f 60.

(** Fields of the COFF header at [c]. *)
Definition coff_signature (f : list Z) (c : Z) : outcome Z := get32 f c.
Definition coff_machine (f : list Z) (c : Z) : outcome Z := get16 f (c + 4).
Definition coff_sections (f : list Z) (c : Z) : outcome Z := get16 f (c + 6).
Definition coff_opt_size (f : list Z) (c : Z) : outcome Z := get16 f (c + 20).

(** Fields of the optional header at [o]. *)
Definition opt_magic (f : list Z) (o : Z) : outcome Z := get16 f o.
Definition opt_entry (f : list Z) (o : Z) : outcome Z := get32 f (o + 16).
Definition opt_image_base (f : list Z) (o : Z) : outcome Z := get64 f (o + 24).
Definition opt_size_of_image (f : list Z) (o : Z) : outcome Z := get32 f (o + 56).
Definition opt_size_of_headers (f : list Z) (o : Z) : outcome Z := get32 f (o + 60).
Definition opt_rva_count (f : list Z) (o : Z) : outcome Z := get32 f (o + 108).

Record section_header := mk_section { virtual_address : Z; size_of_raw_data : Z; pointer_to_raw_data : Z }.
Definition get_section (f : list Z) (p : Z) : outcome section_header :=
  va ← get32 f (p + 12); sz ← get32 f (p + 16); ptr ← get32 f (p + 20); mret (mk_section va sz ptr).

(** ** Probing *)
Record pe_info := mk_info {
  valid : bool;
  is_pe32plus : bool;
  machine : Z;
  entry_rva : Z;
  image_base : Z;
  size_of_image : Z;
  size_of_headers : Z;
  number_of_sections : Z;
  error : option (list Z)
}.

(** The rejected file: everything zero but the message. *)
Definition reject (msg : string) : bool * pe_info :=
  (false, mk_info false false 0 0 0 0 0 0 (Some (chars msg))).

Definition pe_probe (data : option (list Z)) : outcome (bool * pe_info) :=
  match data with
  | None => mret (reject "too small")
  | Some f =>
      let size := Z.of_nat (length f) in
      if size <? sizeof_dos_header then mret (reject "too small")
      else
        mz ← e_magic f;
        if negb (mz =? 0x5A4D) then mret (reject "not MZ")
        else
          lf ← e_lfanew f;
          if (lf =? 0) || (size <? lf + sizeof_coff_header + 4) then mret (reject "bad e_lfanew")
          else
            p0 ← arr_get f lf; p1 ← arr_get f (lf + 1); p2 ← arr_get f (lf + 2); p3 ← arr_get f (lf + 3);
            if negb (p0 =? 80) || negb (p1 =? 69) || negb (p2 =? 0) || negb (p3 =? 0)
            then mret (reject "no PE signature")
            else
              sig ← coff_signature f lf;
              if negb (sig =? 0x00004550) then mret (reject "bad PE sig")
              else
                mach ← coff_machine f lf;
                if negb (mach =? IMAGE_FILE_MACHINE_AMD64) then mret (reject "not AMD64")
                else
                  osz ← coff_opt_size f lf;
                  if osz <? sizeof_pe32plus_optional then mret (reject "optional header too small")
                  else
                    let opt := lf + sizeof_coff_header in
                    mg ← opt_magic f opt;
                    if negb (mg =? 0x20B) then mret (reject "not PE32+")
                    else
                      er ← opt_entry f opt; ib ← opt_image_base f opt;
                      si ← opt_size_of_image f opt; sh ← opt_size_of_headers f opt;
                      ns ← coff_sections f lf;
                      mret (true, mk_info true true mach er ib si sh ns None)
  end.

(** ** Relocation *)

(** One entry of a block of the page at [page_rva]. *)
Definition relocate_entry (image delta page_rva : Z) (m : mem) (e : Z) : outcome mem :=
  let type := Z.shiftr e 12 in
  let off := Z.land e 0xFFF in
  let target := image + page_rva + off in
  if type =? IMAGE_REL_BASED_DIR64 then
    val ← ld64 m target; st64 m target (u64 (i64 val + delta))
  else if type =? IMAGE_REL_BASED_HIGHLOW then
    val ← ld32 m target; st32 m target (u32 (i32 val + i32 delta))
  else mret m.

Definition relocate_block (image delta entries count page_rva : Z) (m : mem) : outcome mem :=
  for_to 0 count (fun i m => e ← ld16 m (entries + 2 * i); relocate_entry image delta page_rva m e) m.

(** A block takes at least 8 of the [dir_size] bytes. *)
Definition reloc_fuel (dir_size : Z) : nat := S (Z.to_nat (dir_size / 8)).

Definition relocate_blocks (image delta va dir_size : Z) (m : mem) : outcome mem :=
  loop (reloc_fuel dir_size) (fun '(pos, m) =>
    if u32 (pos + 8) <=? dir_size then
      page_rva ← ld32 m (image + va + pos);
      block_size ← ld32 m (image + va + pos + 4);
      if block_size <? 8 then mret (inr m)
      else
        m ← relocate_block image delta (image + va + pos + 8) ((block_size - 8) / 2) page_rva m;
        mret (inl (u32 (pos + block_size), m))
    else mret (inr m)) (0, m).

(** [file] and [opt] locate the optional header and the data directories after it. *)
Definition apply_relocations (m : mem) (image load_base preferred : Z) (file : list Z) (opt : Z) : outcome mem :=
  if load_base =? preferred then mret m
  else
    n ← opt_rva_count file opt;
    if n <? 6 then mret m
    else
      va ← get32 file (opt + 112 + 8 * 5);
      dsz ← get32 file (opt + 112 + 8 * 5 + 4);
      if (va =? 0) || (dsz =? 0) then mret m
      else relocate_blocks image (i64 (load_base - preferred)) va dsz m.

(** ** Loading *)

(** [memcpy(dst, file + off, n)] *)
Definition copy_in (m : mem) (dst : Z) (file : list Z) (off n : Z) : outcome mem :=
  for_to 0 n (fun i m => c ← arr_get file (off + i); st m (dst + i) c) m.

Definition load_section (image img_size : Z) (file : list Z) (m : mem) (s : section_header) : outcome mem :=
  let size := Z.of_nat (length file) in
  if (size_of_raw_data s =? 0) || (pointer_to_raw_data s =? 0) then mret m
  else if size <? pointer_to_raw_data s + size_of_raw_data s then mret m
  else if img_size <? virtual_address s + size_of_raw_data s then mret m
  else copy_in m (image + virtual_address s) file (pointer_to_raw_data s) (size_of_raw_data s).

Definition load_sections (image img_size : Z) (file : list Z) (secs count : Z) (m : mem) : outcome mem :=
  for_to 0 count (fun i m =>
    s ← get_section file (secs + sizeof_section_header * i);
    load_section image img_size file m s) m.

(** The image before relocation: zeroes, the headers, the sections. *)
Definition load_image (m : mem) (image : Z) (file : list Z) (info : pe_info) (secs : Z) : outcome mem :=
  m ← memset m image 0 (size_of_image info);
  let hdr := size_of_headers info in
  let hdr := if Z.of_nat (length file) <? hdr then Z.of_nat (length file) else hdr in
  let hdr := if size_of_image info <? hdr then size_of_image info else hdr in
  m ← copy_in m image file 0 hdr;
  load_sections image (size_of_image info) file secs (number_of_sections info) m.

(** ** The functions an image may call

    What the console functions act on is the parameter [C]; [None] is a NULL string. *)
Section Console.
Context {C : Type}.
Definition writer : Type := option (list Z) -> C -> outcome C.
Context (klog_info : list Z -> C -> outcome C).

(** [g_write] and [g_writeln], when set. *)
Record console := mk_console { g_write : option writer; g_writeln : option writer }.

Definition default_write (s : option (list Z)) (st : C) : outcome C := klog_info (default [] s) st.

Definition api_write (c : console) (s : option (list Z)) (st : C) : outcome C :=
  match g_write c with Some w => w s st | None => default_write s st end.

Definition api_writeln (c : console) (s : option (list Z)) (st : C) : outcome C :=
  match g_writeln c with
  | Some w => w s st
  | None => st ← api_write c s st; api_write c (Some [10]) st
  end.

Definition pe_set_console (write_fn writeln_fn : option writer) : console := mk_console write_fn writeln_fn.
End Console.
Arguments console : clear implicits.

Definition api_exec (path : list Z) : Z := -1.

(** A call of an image through [g_api]. *)
Inductive api_call :=
  | Write (s : option (list Z))
  | Writeln (s : option (list Z))
  | Exec (path : list Z)
  | Uptime_ms
  | Exit (code : Z).

(** Running code at an address: the memory it leaves, its calls in order, and the value
    it returns. *)
Definition processor : Type := mem -> Z -> mem * list api_call * Z.

Section Run.
Context {P : Type} `{PageAlloc P} {K : Type} `{BlockAlloc K} {C : Type}.
Context (klog_info : list Z -> C -> outcome C) (exec : processor).

Record machine_state := mk_machine {
  pages : P; kheap : K; memory : mem; g_exit_code : Z; g_exited : bool; con : console C; screen : C
}.

(** The address of the image, 0 when neither allocator has room. *)
Definition image_alloc (s : machine_state) (size : Z) : outcome (Z * machine_state) :=
  '(phys, pg) ← pa_alloc_pages (pages s) (ALIGN_UP size PAGE_SIZE / PAGE_SIZE);
  if phys =? 0 then
    '(p, h) ← ba_alloc (kheap s) size;
    mret (p, mk_machine pg h (memory s) (g_exit_code s) (g_exited s) (con s) (screen s))
  else mret (phys, mk_machine pg (kheap s) (memory s) (g_exit_code s) (g_exited s) (con s) (screen s)).

Definition set_memory (m : mem) (s : machine_state) : machine_state :=
  mk_machine (pages s) (kheap s) m (g_exit_code s) (g_exited s) (con s) (screen s).
Definition set_screen (x : C) (s : machine_state) : machine_state :=
  mk_machine (pages s) (kheap s) (memory s) (g_exit_code s) (g_exited s) (con s) x.

Definition api_exit (code : Z) (s : machine_state) : machine_state :=
  mk_machine (pages s) (kheap s) (memory s) code true (con s) (screen s).
Definition pe_last_exit_code (s : machine_state) : Z := g_exit_code s.

(** One call; [exec] and [uptime_ms] change nothing. *)
Definition api_step (s : machine_state) (c : api_call) : outcome machine_state :=
  match c with
  | Write x => t ← api_write klog_info (con s) x (screen s); mret (set_screen t s)
  | Writeln x => t ← api_writeln klog_info (con s) x (screen s); mret (set_screen t s)
  | Exec _ | Uptime_ms => mret s
  | Exit code => mret (api_exit code s)
  end.
Fixpoint api_run (s : machine_state) (l : list api_call) : outcome machine_state :=
  match l with [] => mret s | c :: l' => s ← api_step s c; api_run s l' end.

(** [entry(&g_api)] with the exit flag cleared, and the exit code. *)
Definition enter (s : machine_state) (entry : Z) : outcome (Z * machine_state) :=
  let '(m, calls, rc) := exec (memory s) entry in
  s ← api_run (mk_machine (pages s) (kheap s) m 0 false (con s) (screen s)) calls;
  mret (if g_exited s then g_exit_code s else rc, s).

Definition pe_run (s : machine_state) (data : option (list Z)) : outcome (Z * machine_state) :=
  '(ok, info) ← pe_probe data;
  match data with
  | None => mret (-1, s)
  | Some file =>
      if negb ok then mret (-1, s)
      else
        lf ← e_lfanew file;
        let opt := lf + sizeof_coff_header in
        osz ← coff_opt_size file lf;
        let secs := opt + osz in
        if ALIGN_UP (size_of_image info) PAGE_SIZE / PAGE_SIZE =? 0 then mret (-1, s)
        else
          '(image, s) ← image_alloc s (size_of_image info);
          if image =? 0 then mret (-1, s)
          else
            m ← load_image (memory s) image file info secs;
            m ← apply_relocations m image image (image_base info) file opt;
            if size_of_image info <=? entry_rva info then mret (-1, set_memory m s)
            else enter (set_memory m s) (image + entry_rva info)
  end.
End Run.

(** ** Loading stays inside the image *)
Lemma copy_in_returns m dst file off n :
  0 <= off -> 0 <= n -> off + n <= Z.of_nat (length file) -> mapped m dst n ->
  returns (copy_in m dst file off n) (fun m' =>
    same_outside dst n m m' /\ (forall q k, mapped m q k -> mapped m' q k) /\
    forall k, 0 <= k < n -> m' !! (dst + k) = file !! Z.to_nat (off + k)).
Proof.
  intros Ho Hn Hlen Hm. unfold copy_in.
  apply (for_to_inv (fun i m' => same_outside dst i m m' /\ (forall q k, mapped m q k -> mapped m' q k) /\
    forall k, 0 <= k < i -> m' !! (dst + k) = file !! Z.to_nat (off + k))); [lia| | |auto].
  - split; [intros a _; reflexivity|]. split; [auto|lia].
  - intros i m1 Hi (Hout & Hmap & Hin). destruct (arr_get_in file (off + i) ltac:(lia)) as [c Ec].
    rewrite Ec, bind_Done. apply arr_get_Done in Ec as [_ Ec].
    rewrite st_mapped by (apply (Hmap dst n Hm); lia). apply returns_Done. split; [|split].
    + intros a Ha. rewrite lookup_insert_ne by lia. apply Hout. lia.
    + intros q k Hq. apply mapped_insert, Hmap, Hq.
    + intros k Hk. destruct (decide (k = i)) as [->|Hne].
      * rewrite lookup_insert_eq. symmetry. exact Ec.
      * rewrite lookup_insert_ne by lia. apply Hin. lia.
Qed.

(** The sections that are copied, and the bytes of the image they leave. *)
Definition loadable (file : list Z) (img_size : Z) (s : section_header) : bool :=
  negb (size_of_raw_data s =? 0) && negb (pointer_to_raw_data s =? 0) &&
  (pointer_to_raw_data s + size_of_raw_data s <=? Z.of_nat (length file)) &&
  (virtual_address s + size_of_raw_data s <=? img_size).

Definition section_byte (file : list Z) (s : section_header) (k : Z) : Z :=
  default 0 (file !! Z.to_nat (pointer_to_raw_data s + (k - virtual_address s))).
Definition in_section (s : section_header) (k : Z) : bool :=
  (virtual_address s <=? k) && (k <? virtual_address s + size_of_raw_data s).

Definition overlay (file : list Z) (img_size : Z) (base : Z -> Z) (s : section_header) : Z -> Z :=
  fun k => if loadable file img_size s && in_section s k then section_byte file s k else base k.

(** The byte at offset [k] of a loaded image: of the last section that covers it, of
    the headers, or zero. *)
Definition image_byte (file : list Z) (info : pe_info) (secs : list section_header) : Z -> Z :=
  foldl (overlay file (size_of_image info))
    (fun k => if k <? Z.min (size_of_headers info) (Z.of_nat (length file)) then default 0 (file !! Z.to_nat k) else 0)
    secs.

Record section_ok (s : section_header) : Prop := {
  so_va : 0 <= virtual_address s;
  so_size : 0 <= size_of_raw_data s;
  so_ptr : 0 <= pointer_to_raw_data s
}.

(** [m'] is [m] with the bytes [g] in the image. *)
Definition image_is (image img_size : Z) (m m' : mem) (g : Z -> Z) : Prop :=
  same_outside image img_size m m' /\ mapped m' image img_size /\
  forall k, 0 <= k < img_size -> m' !! (image + k) = Some (g k).

Lemma load_section_returns image img_size file m0 m s g :
  section_ok s -> image_is image img_size m0 m g ->
  returns (load_section image img_size file m s)
    (fun m' => image_is image img_size m0 m' (overlay file img_size g s)).
Proof.
  intros [Hva Hsz Hptr] (Hout & Hmap & Hin). unfold load_section.
  assert (Hskip : loadable file img_size s = false -> image_is image img_size m0 m (overlay file img_size g s)).
  { intros E. split; [exact Hout|]. split; [exact Hmap|]. intros k Hk. unfold overlay. rewrite E. exact (Hin k Hk). }
  unfold loadable in Hskip.
  destruct (Z.eqb_spec (size_of_raw_data s) 0); [apply returns_Done, Hskip; reflexivity|].
  destruct (Z.eqb_spec (pointer_to_raw_data s) 0); [apply returns_Done, Hskip; reflexivity|]. cbn [orb].
  destruct (Z.ltb_spec (Z.of_nat (length file)) (pointer_to_raw_data s + size_of_raw_data s)) as [H1|H1].
  { apply returns_Done, Hskip. destruct (Z.leb_spec (pointer_to_raw_data s + size_of_raw_data s) (Z.of_nat (length file))); [lia|reflexivity]. }
  destruct (Z.ltb_spec img_size (virtual_address s + size_of_raw_data s)) as [H2|H2].
  { apply returns_Done, Hskip. destruct (Z.leb_spec (virtual_address s + size_of_raw_data s) img_size); [lia|apply andb_false_r]. }
  assert (Hl : loadable file img_size s = true).
  { unfold loadable. destruct (Z.eqb_spec (size_of_raw_data s) 0), (Z.eqb_spec (pointer_to_raw_data s) 0); try congruence.
    apply andb_true_iff. split; [apply andb_true_iff; split; [reflexivity|]|]; apply Z.leb_le; assumption. }
  eapply returns_mono; [apply (copy_in_returns m (image + virtual_address s) file); [lia|lia|lia|intros a Ha; apply Hmap; lia]|].
  intros m' (Hout' & Hmap' & Hin'). split; [|split].
  - intros a Ha. rewrite Hout' by lia. apply Hout, Ha.
  - apply Hmap', Hmap.
  - intros k Hk. unfold overlay. rewrite Hl. unfold in_section.
    destruct (Z.leb_spec (virtual_address s) k), (Z.ltb_spec k (virtual_address s + size_of_raw_data s)); cbn [andb];
      [|rewrite Hout' by lia; exact (Hin k Hk)..].
    replace (image + k) with (image + virtual_address s + (k - virtual_address s)) by lia.
    rewrite Hin' by lia. unfold section_byte.
    destruct (lookup_lt_is_Some_2 file (Z.to_nat (pointer_to_raw_data s + (k - virtual_address s))) ltac:(lia)) as [c ->].
    reflexivity.
Qed.

(** The section table of the file. *)
Definition table (file : list Z) (secs : Z) (l : list section_header) : Prop :=
  forall i s, l !! i = Some s ->
    get_section file (secs + sizeof_section_header * Z.of_nat i) = Done s /\ section_ok s.

Lemma load_sections_returns image img_size file secs l m0 g :
  table file secs l -> forall m,
  image_is image img_size m0 m g ->
  returns (load_sections image img_size file secs (Z.of_nat (length l)) m)
    (fun m' => image_is image img_size m0 m' (foldl (overlay file img_size) g l)).
Proof.
  intros Ht m Hm. unfold load_sections.
  apply (for_to_inv (fun i m' => image_is image img_size m0 m' (foldl (overlay file img_size) g (take (Z.to_nat i) l))));
    [lia|exact Hm| |].
  - intros i m1 Hi Hm1. destruct (lookup_lt_is_Some_2 l (Z.to_nat i) ltac:(lia)) as [s Es].
    destruct (Ht _ _ Es) as [Eg Hok]. rewrite Z2Nat.id in Eg by lia. rewrite Eg, bind_Done.
    replace (Z.to_nat (i + 1)) with (S (Z.to_nat i)) by lia. rewrite (take_S_r _ _ _ Es), foldl_app.
    exact (load_section_returns _ _ _ _ _ _ _ Hok Hm1).
  - intros m' Hm'. rewrite Nat2Z.id, take_ge in Hm' by lia. exact Hm'.
Qed.

Lemma load_image_returns m image file info secs l :
  0 <= size_of_image info -> 0 <= size_of_headers info -> mapped m image (size_of_image info) ->
  number_of_sections info = Z.of_nat (length l) -> table file secs l ->
  returns (load_image m image file info secs)
    (fun m' => image_is image (size_of_image info) m m' (image_byte file info l)).
Proof.
  intros Hsi Hsh Hm Hn Ht. unfold load_image.
  destruct (memset_returns m image 0 (size_of_image info) Hsi Hm) as (m1 & -> & Hout1 & Hin1). rewrite bind_Done.
  assert (Hm1 : mapped m1 image (size_of_image info)).
  { intros a Ha. replace a with (image + (a - image)) by lia. rewrite Hin1 by lia. eauto. }
  set (hdr := if size_of_image info <? _ then _ else _).
  assert (Hh : hdr = Z.min (Z.min (size_of_headers info) (Z.of_nat (length file))) (size_of_image info))
    
    by (unfold hdr; destruct (Z.ltb_spec (Z.of_nat (length file)) (size_of_headers info)); case_cmp; lia).
  destruct (copy_in_returns m1 image file 0 hdr) as (m2 & -> & Hout2 & Hmap2 & Hin2);
    [lia|lia|lia|intros a Ha; apply Hm1; lia|]. rewrite bind_Done, Hn.
  apply (load_sections_returns image (size_of_image info) file secs l m _ Ht). split; [|split].
  - intros a Ha. rewrite Hout2, Hout1 by lia. reflexivity.
  - apply Hmap2, Hm1.
  - intros k Hk. destruct (Z.ltb_spec k (Z.min (size_of_headers info) (Z.of_nat (length file)))) as [Hlt|Hge].
    + rewrite Hin2 by lia. rewrite Z.add_0_l.
      destruct (lookup_lt_is_Some_2 file (Z.to_nat k) ltac:(lia)) as [c ->]. reflexivity.
    + rewrite Hout2, Hin1 by lia. reflexivity.
Qed.

(** ** Relocation tables *)
Definition apart (t u : Z) : Prop := t + 8 <= u \/ u + 8 <= t.
Fixpoint all_apart (ts : list Z) : Prop :=
  match ts with [] => True | t :: r => Forall (apart t) r /\ all_apart r end.

(** The 64-bit words at [ts] were moved by [delta], and nothing else changed. *)
Record rebased (delta : Z) (m m' : mem) (ts : list Z) : Prop := {
  rb_word : forall t v, t ∈ ts -> ld64 m t = Done v -> ld64 m' t = Done (u64 (v + delta));
  rb_rest : forall a, (forall t, t ∈ ts -> ~ (t <= a < t + 8)) -> m' !! a = m !! a;
  rb_mapped : forall q k, mapped m q k -> mapped m' q k
}.

Lemma rebased_nil delta m : rebased delta m m [].
Proof. split; [intros t v Ht; inversion Ht|reflexivity|auto]. Qed.

Lemma ld64_ext m m' t : (forall a, t <= a < t + 8 -> m' !! a = m !! a) -> ld64 m' t = ld64 m t.
Proof. apply (ld_le_ext 8). Qed.

Lemma rebased_app delta m m1 m2 ts us :
  rebased delta m m1 ts -> rebased delta m1 m2 us -> all_apart (ts ++ us) -> rebased delta m m2 (ts ++ us).
Proof.
  intros R1 R2 Hap.
  assert (Hcross : forall t u, t ∈ ts -> u ∈ us -> apart t u).
  { clear R1 R2. induction ts as [|a ts IH]; intros t u Ht Hu; [inversion Ht|]. cbn in Hap. destruct Hap as [Ha Hap].
    apply elem_of_cons in Ht as [->|Ht]; [|exact (IH Hap t u Ht Hu)].
    rewrite Forall_forall in Ha. apply Ha. apply elem_of_app. auto. }
  split.
  - intros t v Ht Hv. apply elem_of_app in Ht as [Ht|Ht].
    + rewrite <- (rb_word _ _ _ _ R1 t v Ht Hv). apply ld64_ext. intros a Ha. apply (rb_rest _ _ _ _ R2).
      intros u Hu. destruct (Hcross t u Ht Hu); lia.
    + apply (rb_word _ _ _ _ R2 t v Ht). rewrite <- Hv. apply ld64_ext. intros a Ha. apply (rb_rest _ _ _ _ R1).
      intros u Hu. destruct (Hcross u t Hu Ht); lia.
  - intros a Ha. rewrite (rb_rest _ _ _ _ R2), (rb_rest _ _ _ _ R1); [reflexivity|..];
      intros t Ht; apply Ha, elem_of_app; auto.
  - intros q k Hq. apply R2, R1, Hq.
Qed.

(** The entries a 64-bit image has: padding and DIR64. *)
Definition entry_target (image page_rva e : Z) : list Z :=
  if Z.shiftr e 12 =? IMAGE_REL_BASED_DIR64 then [image + page_rva + Z.land e 0xFFF] else [].
Definition entry_ok (e : Z) : Prop := Z.shiftr e 12 = IMAGE_REL_BASED_DIR64 \/ Z.shiftr e 12 = 0.

Lemma u64_i64_add v d : u64 (i64 v + i64 d) = u64 (v + d).
Proof.
  unfold u64, i64. replace ((v + 2 ^ 63) mod 2 ^ 64 - 2 ^ 63 + ((d + 2 ^ 63) mod 2 ^ 64 - 2 ^ 63))
    with ((v + 2 ^ 63) mod 2 ^ 64 + (d + 2 ^ 63) mod 2 ^ 64 - 2 ^ 64) by lia.
  rewrite <- Zminus_mod_idemp_l, <- Zplus_mod, Zminus_mod_idemp_l. f_equal. lia.
Qed.

Lemma relocate_entry_returns image d rva m e :
  entry_ok e -> (forall t, t ∈ entry_target image rva e -> mapped m t 8) ->
  returns (relocate_entry image (i64 d) rva m e) (fun m' => rebased d m m' (entry_target image rva e)).
Proof.
  intros He Hm. unfold relocate_entry, entry_target in *.
  destruct (Z.eqb_spec (Z.shiftr e 12) IMAGE_REL_BASED_DIR64) as [E|E].
  - set (t := image + rva + Z.land e 0xFFF) in *.
    assert (Ht : mapped m t 8) by (apply Hm; left).
    destruct (ld_le_mapped 8 m t Ht) as [v Ev]. change (ld_le 8) with ld64 in Ev. rewrite Ev, bind_Done.
    eapply returns_mono; [exact (st_le_returns 8 m t (u64 (i64 v + i64 d)) Ht)|].
    intros m' (Hout & Hmap & Hld). split.
    + intros u w Hu Hw. apply list_elem_of_singleton in Hu as ->. change (ld_le 8) with ld64 in Hld.
      rewrite Hld. rewrite u64_i64_add. f_equal. assert (w = v) by congruence. subst w.
      change (256 ^ Z.of_nat 8) with (2 ^ 64). apply u64_small, u64_range.
    + intros a Ha. apply Hout. apply Ha. left.
    + exact Hmap.
  - destruct He as [He|He]; [congruence|]. rewrite He. change (0 =? IMAGE_REL_BASED_HIGHLOW) with false.
    apply returns_Done, rebased_nil.
Qed.

(** A block: the page and its entries; the table at [p]. *)
Fixpoint reloc_table (m : mem) (p : Z) (blocks : list (Z * list Z)) : Prop :=
  match blocks with
  | [] => True
  | (rva, es) :: bs =>
      ld32 m p = Done rva /\ ld32 m (p + 4) = Done (8 + 2 * Z.of_nat (length es)) /\
      (forall i e, es !! i = Some e -> ld16 m (p + 8 + 2 * Z.of_nat i) = Done e /\ entry_ok e) /\
      reloc_table m (p + (8 + 2 * Z.of_nat (length es))) bs
  end.
Fixpoint table_size (blocks : list (Z * list Z)) : Z :=
  match blocks with [] => 0 | (_, es) :: bs => 8 + 2 * Z.of_nat (length es) + table_size bs end.
Definition block_targets (image : Z) (b : Z * list Z) : list Z :=
  concat (map (entry_target image (fst b)) (snd b)).
Definition table_targets (image : Z) (blocks : list (Z * list Z)) : list Z :=
  concat (map (block_targets image) blocks).

Lemma table_size_nonneg bs : 0 <= table_size bs.
Proof. induction bs as [|[r es] bs IH]; cbn [table_size]; lia. Qed.

Lemma reloc_table_ext bs : forall m m' p,
  (forall a, p <= a < p + table_size bs -> m' !! a = m !! a) -> reloc_table m p bs -> reloc_table m' p bs.
Proof.
  induction bs as [|[rva es] bs IH]; intros m m' p He; cbn [reloc_table table_size] in *; [auto|].
  pose proof (table_size_nonneg bs) as Hn.
  intros (H1 & H2 & H3 & H4). split; [|split; [|split]].
  - rewrite <- H1. apply (ld_le_ext 4). intros a Ha. apply He. lia.
  - rewrite <- H2. apply (ld_le_ext 4). intros a Ha. apply He. lia.
  - intros i e Hi. destruct (H3 i e Hi) as [E Hok]. split; [|exact Hok]. rewrite <- E. apply (ld_le_ext 2).
    intros a Ha. apply lookup_lt_Some in Hi. apply He. lia.
  - apply (IH m m'); [|exact H4]. intros a Ha. apply He. lia.
Qed.

(** The targets do not touch the table. *)
Definition clear_of (p n : Z) (ts : list Z) : Prop := forall t, t ∈ ts -> t + 8 <= p \/ p + n <= t.

Lemma all_apart_app_l ts us : all_apart (ts ++ us) -> all_apart ts.
Proof.
  induction ts as [|t ts IH]; cbn; [auto|]. intros [Ht Hr]. split; [|auto]. apply Forall_app in Ht. tauto.
Qed.

Lemma all_apart_app_r ts us : all_apart (ts ++ us) -> all_apart us.
Proof. induction ts as [|t ts IH]; cbn; [auto|]. tauto. Qed.

Lemma relocate_block_returns image d rva m p es :
  (forall i e, es !! i = Some e -> ld16 m (p + 2 * Z.of_nat i) = Done e /\ entry_ok e) ->
  (forall t, t ∈ block_targets image (rva, es) -> mapped m t 8) ->
  clear_of p (2 * Z.of_nat (length es)) (block_targets image (rva, es)) ->
  all_apart (block_targets image (rva, es)) ->
  returns (relocate_block image (i64 d) p (Z.of_nat (length es)) rva m)
    (fun m' => rebased d m m' (block_targets image (rva, es))).
Proof.
  intros Hes Hmap Hclear Hap. unfold relocate_block, block_targets in *. cbn [fst snd] in *.
  apply (for_to_inv (fun i m' => rebased d m m' (concat (map (entry_target image rva) (take (Z.to_nat i) es)))));
    [lia|apply rebased_nil| |].
  - intros i m1 Hi Hr. destruct (lookup_lt_is_Some_2 es (Z.to_nat i) ltac:(lia)) as [e Ee].
    destruct (Hes _ _ Ee) as [El Hok]. rewrite Z2Nat.id in El by lia.
    assert (Hsplit : es = take (Z.to_nat i) es ++ e :: drop (S (Z.to_nat i)) es) by (symmetry; apply take_drop_middle, Ee).
    assert (Hts : concat (map (entry_target image rva) es) =
      (concat (map (entry_target image rva) (take (Z.to_nat i) es)) ++ entry_target image rva e) ++
      concat (map (entry_target image rva) (drop (S (Z.to_nat i)) es))).
    { rewrite Hsplit at 1. rewrite map_app, concat_app, <- app_assoc. reflexivity. }
    assert (El1 : ld16 m1 (p + 2 * i) = Done e).
    { rewrite <- El. apply (ld_le_ext 2). intros a Ha. apply (rb_rest _ _ _ _ Hr). intros t Ht.
      destruct (Hclear t); [rewrite Hts; apply elem_of_app; left; apply elem_of_app; auto|lia|lia]. }
    rewrite El1, bind_Done.
    destruct (relocate_entry_returns image d rva m1 e Hok) as (m2 & -> & Hr2).
    { intros t Ht. apply Hr, Hmap. rewrite Hts. apply elem_of_app. left. apply elem_of_app. auto. }
    apply returns_Done. replace (Z.to_nat (i + 1)) with (S (Z.to_nat i)) by lia.
    rewrite (take_S_r _ _ _ Ee), map_app, concat_app. cbn [map concat]. rewrite app_nil_r.
    apply (rebased_app _ _ _ _ _ _ Hr Hr2). apply (all_apart_app_l _ (concat (map (entry_target image rva) (drop (S (Z.to_nat i)) es)))).
    rewrite <- Hts. exact Hap.
  - intros m' Hr. rewrite Nat2Z.id, take_ge in Hr by lia. exact Hr.
Qed.

Lemma relocate_blocks_loop image d va dsz bs : forall fuel pos m,
  dsz < 2 ^ 32 - 8 -> 0 <= pos -> pos + table_size bs = dsz ->
  reloc_table m (image + va + pos) bs ->
  (forall t, t ∈ table_targets image bs -> mapped m t 8) ->
  clear_of (image + va + pos) (table_size bs) (table_targets image bs) ->
  all_apart (table_targets image bs) ->
  (length bs < fuel)%nat ->
  returns (loop fuel (fun '(pos, m) =>
    if u32 (pos + 8) <=? dsz then
      page_rva ← ld32 m (image + va + pos);
      block_size ← ld32 m (image + va + pos + 4);
      if block_size <? 8 then mret (inr m)
      else
        m ← relocate_block image (i64 d) (image + va + pos + 8) ((block_size - 8) / 2) page_rva m;
        mret (inl (u32 (pos + block_size), m))
    else mret (inr m)) (pos, m))
  (fun m' => rebased d m m' (table_targets image bs)).
Proof.
  induction bs as [|[rva es] bs IH]; intros [|fuel] pos m Hd Hpos Hsz Htab Hmap Hclear Hap Hf; try (cbn in Hf; lia);
    rewrite loop_S.
  - cbn [table_size] in Hsz. rewrite u32_small by lia. destruct (Z.leb_spec (pos + 8) dsz); [lia|].
    apply returns_Done, rebased_nil.
  - cbn [table_size reloc_table] in *. pose proof (table_size_nonneg bs) as Hn.
    destruct Htab as (Hrva & Hblk & Hes & Htab). set (n := Z.of_nat (length es)) in *.
    rewrite u32_small by lia. destruct (Z.leb_spec (pos + 8) dsz); [|lia].
    rewrite Hrva, bind_Done, Hblk, bind_Done. destruct (Z.ltb_spec (8 + 2 * n) 8); [lia|].
    replace ((8 + 2 * n - 8) / 2) with n by (replace (8 + 2 * n - 8) with (n * 2) by lia; symmetry; apply Z.div_mul; lia).
    change (table_targets image ((rva, es) :: bs)) with (block_targets image (rva, es) ++ table_targets image bs) in *.
    assert (Hin1 : forall t, t ∈ block_targets image (rva, es) -> t ∈ block_targets image (rva, es) ++ table_targets image bs)
      by (intros; apply elem_of_app; auto).
    assert (Hin2 : forall t, t ∈ table_targets image bs -> t ∈ block_targets image (rva, es) ++ table_targets image bs)
      by (intros; apply elem_of_app; auto).
    destruct (relocate_block_returns image d rva m (image + va + pos + 8) es) as (m1 & Eb & Hr1).
    { exact Hes. }
    { intros t Ht. apply Hmap, Hin1, Ht. }
    { intros t Ht. fold n. destruct (Hclear t (Hin1 t Ht)); lia. }
    { exact (all_apart_app_l _ _ Hap). }
    fold n in Eb. rewrite Eb, !bind_Done. rewrite u32_small by lia.
    eapply returns_mono; [apply (IH fuel (pos + (8 + 2 * n)) m1)|].
    + exact Hd.
    + lia.
    + lia.
    + replace (image + va + (pos + (8 + 2 * n))) with (image + va + pos + (8 + 2 * n)) by lia.
      apply (reloc_table_ext bs m); [|exact Htab]. intros a Ha. apply (rb_rest _ _ _ _ Hr1). intros t Ht.
      destruct (Hclear t (Hin1 t Ht)); lia.
    + intros t Ht. apply Hr1, Hmap, Hin2, Ht.
    + intros t Ht. destruct (Hclear t (Hin2 t Ht)); lia.
    + exact (all_apart_app_r _ _ Hap).
    + cbn in Hf. lia.
    + intros m2 Hr2. exact (rebased_app _ _ _ _ _ _ Hr1 Hr2 Hap).
Qed.

Lemma table_blocks bs : 8 * Z.of_nat (length bs) <= table_size bs.
Proof. induction bs as [|[r es] bs IH]; cbn [table_size length]; lia. Qed.

(** A relocation directory with a table of DIR64 entries in the image. *)
Record relocatable (m : mem) (image : Z) (file : list Z) (opt : Z) (blocks : list (Z * list Z)) : Prop := {
  rl_count : exists n, opt_rva_count file opt = Done n /\ 6 <= n;
  rl_dir : exists va, get32 file (opt + 112 + 8 * 5) = Done va /\ va <> 0 /\
    get32 file (opt + 112 + 8 * 5 + 4) = Done (table_size blocks) /\
    reloc_table m (image + va) blocks /\ clear_of (image + va) (table_size blocks) (table_targets image blocks);
  rl_size : 0 < table_size blocks < 2 ^ 32 - 8;
  rl_mapped : forall t, t ∈ table_targets image blocks -> mapped m t 8;
  rl_apart : all_apart (table_targets image blocks)
}.

(** C21: [apply_relocations] moves exactly the words the relocation table names: each
    64-bit word at a DIR64 entry becomes its value plus the distance between the load
    address and the preferred base, modulo 2^64, and no other byte of memory changes;
    an image at its preferred base is not touched. *)
Theorem apply_relocations_rebases m image load_base preferred file opt blocks :
  relocatable m image file opt blocks ->
  returns (apply_relocations m image load_base preferred file opt) (fun m' =>
    (forall t v, t ∈ table_targets image blocks -> ld64 m t = Done v -> 0 <= v < 2 ^ 64 ->
       ld64 m' t = Done (u64 (v + (load_base - preferred)))) /\
    (forall a, (forall t, t ∈ table_targets image blocks -> ~ (t <= a < t + 8)) -> m' !! a = m !! a) /\
    (load_base = preferred -> m' = m)).
Proof.
  intros [(n & En & Hn) (va & Eva & Hva & Edsz & Htab & Hclear) Hsz Hmap Hap]. unfold apply_relocations.
  destruct (Z.eqb_spec load_base preferred) as [->|Hne].
  - apply returns_Done. split; [|auto]. intros t v _ Hv Hr. rewrite Z.sub_diag, Z.add_0_r, u64_small by exact Hr. exact Hv.
  - rewrite En, bind_Done. destruct (Z.ltb_spec n 6); [lia|]. rewrite Eva, bind_Done, Edsz, bind_Done.
    destruct (Z.eqb_spec va 0), (Z.eqb_spec (table_size blocks) 0); try lia. cbn [orb].
    unfold relocate_blocks, reloc_fuel.
    eapply returns_mono; [apply (relocate_blocks_loop image (load_base - preferred) va (table_size blocks) blocks)|].
    + lia.
    + lia.
    + lia.
    + rewrite Z.add_0_r. exact Htab.
    + exact Hmap.
    + rewrite Z.add_0_r. exact Hclear.
    + exact Hap.
    + pose proof (table_blocks blocks). pose proof (Z.div_le_lower_bound (table_size blocks) 8 (Z.of_nat (length blocks)) ltac:(lia) ltac:(lia)). lia.
    + intros m' Hr. split; [intros t v Ht Hv _; exact (rb_word _ _ _ _ Hr t v Ht Hv)|].
      split; [apply Hr|congruence].
Qed.

(** Loading an image writes only the memory of the image, whatever the section
    table says: afterwards every byte of it is the byte of the last section that fits
    the file and the image and covers it, else of the headers, else zero. *)
Theorem load_image_in_bounds m image file info secs l :
  0 <= size_of_image info -> 0 <= size_of_headers info -> mapped m image (size_of_image info) ->
  number_of_sections info = Z.of_nat (length l) -> table file secs l ->
  returns (load_image m image file info secs) (fun m' =>
    same_outside image (size_of_image info) m m' /\
    forall k, 0 <= k < size_of_image info -> m' !! (image + k) = Some (image_byte file info l k)).
Proof.
  intros Hsi Hsh Hm Hn Ht. eapply returns_mono; [exact (load_image_returns m image file info secs l Hsi Hsh Hm Hn Ht)|].
  intros m' (H1 & _ & H3). auto.
Qed.

(** ** Probing *)
Lemma arr_get_cases {A} (l : list A) i :
  0 <= i -> (exists x, arr_get l i = Done x /\ i < Z.of_nat (length l)) \/
            (arr_get l i = Fault /\ Z.of_nat (length l) <= i).
Proof.
  intros Hi. destruct (Z.lt_ge_cases i (Z.of_nat (length l))) as [H1|H1].
  - destruct (arr_get_in l i ltac:(lia)) as [x E]. eauto.
  - right. split; [|exact H1]. unfold arr_get. destruct (Z.ltb_spec i 0); [lia|].
    rewrite (proj2 (lookup_ge_None l (Z.to_nat i))) by lia. reflexivity.
Qed.

Lemma get16_in f o : 0 <= o -> o + 2 <= Z.of_nat (length f) -> exists v, get16 f o = Done v.
Proof.
  intros Ho Hl. unfold get16. destruct (arr_get_in f o ltac:(lia)) as [a ->].
  destruct (arr_get_in f (o + 1) ltac:(lia)) as [b ->]. eexists. reflexivity.
Qed.

Lemma get32_in f o : 0 <= o -> o + 4 <= Z.of_nat (length f) -> exists v, get32 f o = Done v.
Proof.
  intros Ho Hl. unfold get32. destruct (arr_get_in f o ltac:(lia)) as [a ->].
  destruct (arr_get_in f (o + 1) ltac:(lia)) as [b ->]. destruct (arr_get_in f (o + 2) ltac:(lia)) as [c ->].
  destruct (arr_get_in f (o + 3) ltac:(lia)) as [d ->]. eexists. reflexivity.
Qed.

Lemma get32_out f o : 0 <= o -> Z.of_nat (length f) < o + 4 -> get32 f o = Fault.
Proof.
  intros Ho Hl. unfold get32.
  destruct (arr_get_cases f o Ho) as [(a & -> & _)|(-> & _)]; [|reflexivity].
  destruct (arr_get_cases f (o + 1) ltac:(lia)) as [(b & -> & _)|(-> & _)]; [|reflexivity].
  destruct (arr_get_cases f (o + 2) ltac:(lia)) as [(c & -> & _)|(-> & _)]; [|reflexivity].
  destruct (arr_get_cases f (o + 3) ltac:(lia)) as [(d & -> & Hd)|(-> & _)]; [lia|reflexivity].
Qed.

Lemma get64_in f o : 0 <= o -> o + 8 <= Z.of_nat (length f) -> exists v, get64 f o = Done v.
Proof.
  intros Ho Hl. unfold get64. destruct (get32_in f o ltac:(lia) ltac:(lia)) as [a ->].
  destruct (get32_in f (o + 4) ltac:(lia) ltac:(lia)) as [b ->]. eexists. reflexivity.
Qed.

Definition bytes (f : list Z) : Prop := Forall (fun b => 0 <= b < 256) f.

(** The checks of [pe_probe], as a predicate of the file. *)
Record accepted (f : list Z) (lf : Z) : Prop := {
  ac_size : sizeof_dos_header <= Z.of_nat (length f);
  ac_mz : e_magic f = Done 0x5A4D;
  ac_lfanew : e_lfanew f = Done lf /\ lf <> 0 /\ lf + sizeof_coff_header + 4 <= Z.of_nat (length f);
  ac_sig : coff_signature f lf = Done 0x00004550;
  ac_machine : coff_machine f lf = Done IMAGE_FILE_MACHINE_AMD64;
  ac_opt : exists n, coff_opt_size f lf = Done n /\ sizeof_pe32plus_optional <= n;
  ac_magic : opt_magic f (lf + sizeof_coff_header) = Done 0x20B
}.

(** The four bytes of the signature and its value are the same test. *)
Lemma signature_bytes f o :
  bytes f -> 0 <= o -> o + 4 <= Z.of_nat (length f) ->
  exists p0 p1 p2 p3 v, arr_get f o = Done p0 /\ arr_get f (o + 1) = Done p1 /\ arr_get f (o + 2) = Done p2 /\
    arr_get f (o + 3) = Done p3 /\ get32 f o = Done v /\
    (v = 0x4550 <-> p0 = 80 /\ p1 = 69 /\ p2 = 0 /\ p3 = 0).
Proof.
  intros Hb Ho Hl. destruct (arr_get_in f o ltac:(lia)) as [p0 E0]. destruct (arr_get_in f (o + 1) ltac:(lia)) as [p1 E1].
  destruct (arr_get_in f (o + 2) ltac:(lia)) as [p2 E2]. destruct (arr_get_in f (o + 3) ltac:(lia)) as [p3 E3].
  exists p0, p1, p2, p3, (p0 + 2 ^ 8 * p1 + 2 ^ 16 * p2 + 2 ^ 24 * p3).
  repeat (split; [assumption|]). split; [unfold get32; rewrite E0, E1, E2, E3; reflexivity|].
  assert (Hr : forall i p, arr_get f i = Done p -> 0 <= p < 256).
  { intros i p Hp. apply arr_get_Done in Hp as [_ Hp]. unfold bytes in Hb. rewrite Forall_lookup in Hb. exact (Hb _ _ Hp). }
  apply Hr in E0, E1, E2, E3. lia.
Qed.

(** What [pe_probe] answers: acceptance exactly of [accepted] files, with the fields of their
    headers, and a message otherwise. *)
Definition probe_spec (f : list Z) (r : bool * pe_info) : Prop :=
  let '(ok, info) := r in
  (ok = true <-> exists lf, accepted f lf) /\ valid info = ok /\ (error info = None <-> ok = true) /\
  (ok = true -> forall lf, e_lfanew f = Done lf -> let opt := lf + sizeof_coff_header in
     opt_entry f opt = Done (entry_rva info) /\ opt_image_base f opt = Done (image_base info) /\
     opt_size_of_image f opt = Done (size_of_image info) /\
     opt_size_of_headers f opt = Done (size_of_headers info) /\
     coff_sections f lf = Done (number_of_sections info)).

Lemma reject_spec f msg : (forall lf, ~ accepted f lf) -> returns (mret (reject msg)) (probe_spec f).
Proof.
  intros Hn. apply returns_Done. cbn. split; [split; [discriminate|intros [lf Hlf]; destruct (Hn lf Hlf)]|].
  split; [reflexivity|]. split; [split; discriminate|discriminate].
Qed.

(** Rejecting a file whose [e_lfanew] is [lf]: only [lf] has to be excluded. *)
Lemma reject_at f lf msg : e_lfanew f = Done lf -> ~ accepted f lf -> returns (mret (reject msg)) (probe_spec f).
Proof.
  intros E Hn. apply reject_spec. intros lf' Ha. destruct (ac_lfanew _ _ Ha) as (E' & _).
  assert (lf' = lf) as -> by congruence. exact (Hn Ha).
Qed.

(** A 32-bit field of a byte file is its four bytes; it is not negative, and it is the
    [PE] signature exactly when the bytes are P, E, 0, 0. *)
Lemma get32_nonneg f o v : bytes f -> 0 <= o -> o + 4 <= Z.of_nat (length f) -> get32 f o = Done v -> 0 <= v.
Proof.
  intros Hb Ho Hl Hv. destruct (signature_bytes f o Hb Ho Hl) as (p0 & p1 & p2 & p3 & w & E0 & E1 & E2 & E3 & Ew & _).
  unfold get32 in Hv. rewrite E0, E1, E2, E3 in Hv. injection Hv as <-.
  assert (Hr : forall i p, arr_get f i = Done p -> 0 <= p).
  { intros i p Hp. apply arr_get_Done in Hp as [_ Hp]. unfold bytes in Hb. rewrite Forall_lookup in Hb. pose proof (Hb _ _ Hp). lia. }
  apply Hr in E0, E1, E2, E3. lia.
Qed.

(** The part of [pe_probe] behind the signature, on a file with a whole optional header. *)
Lemma probe_headers f lf mg er ib si sh ns mach osz :
  e_lfanew f = Done lf -> lf <> 0 -> lf + sizeof_coff_header + 4 <= Z.of_nat (length f) -> sizeof_dos_header <= Z.of_nat (length f) ->
  e_magic f = Done 0x5A4D -> coff_signature f lf = Done 0x4550 ->
  coff_machine f lf = Done mach -> coff_opt_size f lf = Done osz ->
  opt_magic f (lf + sizeof_coff_header) = Done mg -> opt_entry f (lf + sizeof_coff_header) = Done er ->
  opt_image_base f (lf + sizeof_coff_header) = Done ib -> opt_size_of_image f (lf + sizeof_coff_header) = Done si ->
  opt_size_of_headers f (lf + sizeof_coff_header) = Done sh -> coff_sections f lf = Done ns ->
  returns (if negb (mach =? IMAGE_FILE_MACHINE_AMD64) then mret (reject "not AMD64")
           else if osz <? sizeof_pe32plus_optional then mret (reject "optional header too small")
           else if negb (mg =? 0x20B) then mret (reject "not PE32+")
           else mret (true, mk_info true true mach er ib si sh ns None)) (probe_spec f).
Proof.
  intros Elf Hnz Hr Hs Emz Esig Em Eo Eg Eer Eib Esi Esh Ens.
  destruct (Z.eqb_spec mach IMAGE_FILE_MACHINE_AMD64) as [->|Hm]; cbn [negb].
  2:{ apply (reject_at _ _ _ Elf). intros Ha. pose proof (ac_machine _ _ Ha). congruence. }
  destruct (Z.ltb_spec osz sizeof_pe32plus_optional) as [Ho|Ho].
  { apply (reject_at _ _ _ Elf). intros Ha. destruct (ac_opt _ _ Ha) as (n & E & Hn). assert (n = osz) by congruence. lia. }
  destruct (Z.eqb_spec mg 0x20B) as [->|Hg]; cbn [negb].
  2:{ apply (reject_at _ _ _ Elf). intros Ha. pose proof (ac_magic _ _ Ha). congruence. }
  apply returns_Done. cbn [probe_spec valid error entry_rva image_base size_of_image size_of_headers number_of_sections].
  split; [|split; [reflexivity|split; [tauto|]]].
  - split; [intros _|reflexivity]. exists lf. split; try assumption; [split; [exact Elf|split; [exact Hnz|exact Hr]]|].
    exists osz. auto.
  - intros _ lf' E. assert (lf' = lf) as -> by congruence. auto 10.
Qed.

(** C20: [pe_probe] on a file whose optional header is complete: it never reads outside
    the file, it accepts exactly the files with an MZ header, an in-range [e_lfanew], a
    PE signature, the AMD64 machine and a PE32+ optional header, the accepted file's
    fields are those of its headers, and a rejected file has an error message.  Nothing
    else is asked: not the subsystem, not the imports, not who built the file, so that
    a 64-bit Windows program is accepted, against docs/EXE.md (below). *)
Theorem pe_probe_decides f :
  bytes f ->
  (forall lf, e_lfanew f = Done lf -> lf + sizeof_coff_header + 4 <= Z.of_nat (length f) ->
     lf + sizeof_coff_header + sizeof_pe32plus_optional <= Z.of_nat (length f)) ->
  returns (pe_probe (Some f)) (probe_spec f).
Proof.
  intros Hb Hfull. unfold pe_probe.
  destruct (Z.ltb_spec (Z.of_nat (length f)) sizeof_dos_header) as [Hs|Hs].
  { apply reject_spec. intros lf Ha. pose proof (ac_size _ _ Ha). lia. }
  pose proof Hs as Hs'. unfold sizeof_dos_header in Hs'. unfold sizeof_coff_header, sizeof_pe32plus_optional in Hfull.
  destruct (get16_in f 0 ltac:(lia) ltac:(lia)) as [mz Emz]. change (get16 f 0) with (e_magic f) in Emz. rewrite Emz, bind_Done.
  destruct (Z.eqb_spec mz 0x5A4D) as [->|Hmz]; cbn [negb].
  2:{ apply reject_spec. intros lf Ha. pose proof (ac_mz _ _ Ha). congruence. }
  destruct (get32_in f 60 ltac:(lia) ltac:(lia)) as [lf Elf]. pose proof (get32_nonneg f 60 lf Hb ltac:(lia) ltac:(lia) Elf) as Hpos.
  change (get32 f 60) with (e_lfanew f) in Elf. rewrite Elf, bind_Done.
  destruct (Z.eqb_spec lf 0) as [H0|H0]; cbn [orb].
  { apply (reject_at _ _ _ Elf). intros Ha. destruct (ac_lfanew _ _ Ha) as (_ & Hne & _). congruence. }
  destruct (Z.ltb_spec (Z.of_nat (length f)) (lf + sizeof_coff_header + 4)) as [Hr|Hr].
  { apply (reject_at _ _ _ Elf). intros Ha. destruct (ac_lfanew _ _ Ha) as (_ & _ & Hle). lia. }
  pose proof (Hfull lf Elf Hr) as Hall.
  destruct (signature_bytes f lf Hb Hpos ltac:(lia)) as (p0 & p1 & p2 & p3 & sig & -> & -> & -> & -> & Esig & Hsig).
  rewrite !bind_Done. change (get32 f lf) with (coff_signature f lf) in Esig.
  destruct (negb (p0 =? 80) || negb (p1 =? 69) || negb (p2 =? 0) || negb (p3 =? 0)) eqn:Ep.
  { apply (reject_at _ _ _ Elf). intros Ha. pose proof (ac_sig _ _ Ha) as E. rewrite Esig in E. injection E as ->.
    destruct (proj1 Hsig eq_refl) as (-> & -> & -> & ->). discriminate. }
  rewrite !orb_false_iff, !negb_false_iff, !Z.eqb_eq in Ep. destruct Ep as [[[Ep0 Ep1] Ep2] Ep3].
  rewrite Esig, bind_Done. assert (sig = 0x4550) as -> by tauto. cbn [negb Z.eqb Pos.eqb].
  destruct (get16_in f (lf + 4) ltac:(lia) ltac:(lia)) as [mach Em].
  destruct (get16_in f (lf + 20) ltac:(lia) ltac:(lia)) as [osz Eo].
  destruct (get16_in f (lf + 24) ltac:(lia) ltac:(lia)) as [mg Eg].
  destruct (get32_in f (lf + 24 + 16) ltac:(lia) ltac:(lia)) as [er Eer].
  destruct (get64_in f (lf + 24 + 24) ltac:(lia) ltac:(lia)) as [ib Eib].
  destruct (get32_in f (lf + 24 + 56) ltac:(lia) ltac:(lia)) as [si Esi].
  destruct (get32_in f (lf + 24 + 60) ltac:(lia) ltac:(lia)) as [sh Esh].
  destruct (get16_in f (lf + 6) ltac:(lia) ltac:(lia)) as [ns Ens].
  pose proof (probe_headers f lf mg er ib si sh ns mach osz Elf H0 Hr Hs Emz Esig Em Eo Eg Eer Eib Esi Esh Ens) as HP.
  unfold coff_machine, coff_opt_size, opt_magic, opt_entry, opt_image_base, opt_size_of_image, opt_size_of_headers, coff_sections,
    sizeof_coff_header in *.
  rewrite Em, bind_Done. destruct (negb (mach =? _)); [exact HP|].
  rewrite Eo, bind_Done. destruct (osz <? _); [exact HP|].
  rewrite Eg, bind_Done. destruct (negb (mg =? _)); [exact HP|].
  rewrite Eer, bind_Done, Eib, bind_Done, Esi, bind_Done, Esh, bind_Done, Ens, bind_Done. exact HP.
Qed.

(** *** What [pe_probe] does not look at

    Its answer is settled by the length of the file and the bytes before the check sum of
    the optional header: the subsystem, the characteristics and the data directories, with
    the imports, are behind it. *)
Lemma arr_get_agree (f g : list Z) n i : take n g = take n f -> i < Z.of_nat n -> arr_get g i = arr_get f i.
Proof.
  intros E Hi. unfold arr_get. destruct (Z.ltb_spec i 0); [reflexivity|].
  rewrite <- (lookup_take_lt g n), <- (lookup_take_lt f n), E by lia. reflexivity.
Qed.

Lemma get_agree (f g : list Z) n o :
  take n g = take n f ->
  (o + 2 <= Z.of_nat n -> get16 g o = get16 f o) /\ (o + 4 <= Z.of_nat n -> get32 g o = get32 f o) /\
  (o + 8 <= Z.of_nat n -> get64 g o = get64 f o).
Proof.
  intros E. assert (H32 : forall p, p + 4 <= Z.of_nat n -> get32 g p = get32 f p).
  { intros p Hp. unfold get32. rewrite !(arr_get_agree f g n) by first [exact E|lia]. reflexivity. }
  split; [|split; [apply H32|]]; intros Ho.
  - unfold get16. rewrite !(arr_get_agree f g n) by first [exact E|lia]. reflexivity.
  - unfold get64. rewrite !H32 by lia. reflexivity.
Qed.

Theorem pe_probe_reads_headers_only f g lf n :
  length g = length f -> e_lfanew f = Done lf -> (64 <= n)%nat -> lf + sizeof_coff_header + 64 <= Z.of_nat n ->
  take n g = take n f -> pe_probe (Some g) = pe_probe (Some f).
Proof.
  unfold sizeof_coff_header. intros Hlen Elf Hn Hlf E. pose proof (fun o => proj1 (get_agree f g n o E)) as A16.
  pose proof (fun o => proj1 (proj2 (get_agree f g n o E))) as A32. pose proof (fun o => proj2 (proj2 (get_agree f g n o E))) as A64.
  assert (A8 : forall i, i < Z.of_nat n -> arr_get g i = arr_get f i) by (intros i; exact (arr_get_agree f g n i E)).
  unfold pe_probe, e_magic, e_lfanew, coff_signature, coff_machine, coff_opt_size, opt_magic, opt_entry, opt_image_base,
    opt_size_of_image, opt_size_of_headers, coff_sections, sizeof_coff_header in *.
  rewrite Hlen, (A16 0) by lia. case_match; [reflexivity|]. destruct (get16 f 0); [|reflexivity..]. rewrite !bind_Done.
  case_match; [reflexivity|]. rewrite (A32 60), Elf, !bind_Done by lia. rewrite !A8, !A16, !A32, !A64 by lia. reflexivity.
Qed.

(** [pe_probe] checks the room for the COFF header and four bytes of the optional
    header only: a file that passes every check and stops before the entry point's
    field is read past its end. *)
Theorem pe_probe_truncated_faults f lf :
  bytes f -> 0 <= lf -> accepted f lf -> Z.of_nat (length f) < lf + sizeof_coff_header + 20 ->
  pe_probe (Some f) = Fault.
Proof.
  intros Hb Hlf Ha Hshort. destruct (ac_lfanew _ _ Ha) as (Elf & Hnz & Hr). destruct (ac_opt _ _ Ha) as (n & En & Hn).
  unfold pe_probe. rewrite (proj2 (Z.ltb_ge _ _) (ac_size _ _ Ha)), (ac_mz _ _ Ha), bind_Done. cbn [negb Z.eqb Pos.eqb].
  rewrite Elf, bind_Done, (proj2 (Z.eqb_neq _ _) Hnz), (proj2 (Z.ltb_ge _ _) Hr). cbn [orb].
  destruct (signature_bytes f lf Hb Hlf) as (p0 & p1 & p2 & p3 & sig & -> & -> & -> & -> & Esig & Hsig);
    [unfold sizeof_coff_header in Hr; lia|]. change (get32 f lf) with (coff_signature f lf) in Esig.
  rewrite (ac_sig _ _ Ha) in Esig. injection Esig as <-. destruct (proj1 Hsig eq_refl) as (-> & -> & -> & ->).
  rewrite !bind_Done. cbn [negb Z.eqb Pos.eqb orb]. rewrite (ac_sig _ _ Ha), bind_Done. cbn [negb Z.eqb Pos.eqb].
  rewrite (ac_machine _ _ Ha), bind_Done, Z.eqb_refl. cbn [negb].
  rewrite En, bind_Done, (proj2 (Z.ltb_ge _ _) Hn), (ac_magic _ _ Ha), bind_Done. cbn [negb Z.eqb Pos.eqb].
  unfold opt_entry. rewrite get32_out by (unfold sizeof_coff_header in *; lia). reflexivity.
Qed.

(** ** Running *)

(** The optional header at [opt] names no relocation table. *)
Definition no_relocations (file : list Z) (opt : Z) : Prop :=
  exists n, opt_rva_count file opt = Done n /\
    (n < 6 \/ exists va sz, get32 file (opt + 112 + 8 * 5) = Done va /\ get32 file (opt + 112 + 8 * 5 + 4) = Done sz /\
                           (va = 0 \/ sz = 0)).

Lemma apply_relocations_none m image base preferred file opt :
  no_relocations file opt -> apply_relocations m image base preferred file opt = Done m.
Proof.
  intros (n & En & Hn). unfold apply_relocations. destruct (base =? preferred); [reflexivity|].
  rewrite En, bind_Done. destruct (Z.ltb_spec n 6); [reflexivity|]. destruct Hn as [Hn|(va & sz & Ev & Es & Hz)]; [lia|].
  rewrite Ev, bind_Done, Es, bind_Done.
  destruct (Z.eqb_spec va 0), (Z.eqb_spec sz 0); reflexivity || lia.
Qed.

(** The code of the last call of [exit]. *)
Definition last_exit (calls : list api_call) : option Z :=
  foldl (fun r c => match c with Exit code => Some code | _ => r end) None calls.

Section Running.
Context {P : Type} `{PageAlloc P} {K : Type} `{BlockAlloc K} {C : Type}.
Context (klog_info : list Z -> C -> outcome C) (exec : processor).

Lemma image_alloc_memory (s : @machine_state P K C) n image s1 :
  image_alloc s n = Done (image, s1) -> memory s1 = memory s /\ con s1 = con s /\ screen s1 = screen s.
Proof.
  unfold image_alloc. intros E. apply bind_Done_inv in E as ([phys pg] & _ & E). destruct (phys =? 0).
  - apply bind_Done_inv in E as ([q h] & _ & E). injection E as <- <-. auto.
  - injection E as <- <-. auto.
Qed.

(** The console functions of [c] return and keep [I], for the strings of [ok], or for any. *)
Definition console_serves (c : console C) (ok : option (list Z) -> Prop) (I : C -> Prop) : Prop :=
  (forall x t, ok x -> I t -> returns (api_write klog_info c x t) I) /\
  (forall x t, ok x -> I t -> returns (api_writeln klog_info c x t) I).
Definition console_keeps (c : console C) (I : C -> Prop) : Prop := console_serves c (fun _ => True) I.

(** The strings a call passes are in [ok]. *)
Definition call_ok (ok : option (list Z) -> Prop) (c : api_call) : Prop :=
  match c with Write x | Writeln x => ok x | _ => True end.

(** What the calls of an image leave. *)
Record after_calls (s s' : @machine_state P K C) (I : C -> Prop) (code : option Z) : Prop := {
  ac_screen : I (screen s');
  ac_memory : memory s' = memory s;
  ac_pages : pages s' = pages s;
  ac_heap : kheap s' = kheap s;
  ac_con : con s' = con s;
  ac_exited : g_exited s' = match code with Some _ => true | None => g_exited s end;
  ac_code : g_exit_code s' = default (g_exit_code s) code
}.

Lemma api_run_returns ok I calls : forall s r,
  console_serves (con s) ok I -> Forall (call_ok ok) calls -> I (screen s) ->
  returns (api_run klog_info s calls) (fun s' => exists code,
    foldl (fun r c => match c with Exit code => Some code | _ => r end) r calls =
      match code with Some c => Some c | None => r end /\ after_calls s s' I code).
Proof.
  induction calls as [|c calls IH]; intros s r [Hw Hwl] Hok Hi; cbn [api_run foldl].
  { apply returns_Done. exists None. split; [reflexivity|]. split; auto. }
  inversion_clear Hok as [|? ? Hc0 Hok'].
  apply returns_bind.
  assert (Hstep : returns (api_step klog_info s c)
            (fun s1 => after_calls s s1 I (match c with Exit code => Some code | _ => None end))).
  { destruct c as [x|x|path| |code]; cbn [api_step]; try (apply returns_Done; split; auto).
    - apply returns_bind. eapply returns_mono; [apply (Hw x _ Hc0 Hi)|]. intros t Ht. apply returns_Done. split; auto.
    - apply returns_bind. eapply returns_mono; [apply (Hwl x _ Hc0 Hi)|]. intros t Ht. apply returns_Done. split; auto. }
  eapply returns_mono; [exact Hstep|]. intros s1 [Hi1 Hm Hp Hk Hc He Hd].
  eapply returns_mono; [apply (IH s1); [rewrite Hc; split; assumption|exact Hok'|exact Hi1]|].
  intros s' (code & Ef & [Hi2 Hm2 Hp2 Hk2 Hc2 He2 Hd2]).
  exists (match code with Some d => Some d | None => match c with Exit d => Some d | _ => None end end).
  split.
  - rewrite Ef. destruct code; [reflexivity|]. destruct c; reflexivity.
  - split; try congruence; destruct code; destruct c; cbn in *; congruence.
Qed.

(** The run of an accepted image, whose calls pass strings of [ok] only. *)
Lemma pe_run_returns (s s1 : @machine_state P K C) file info lf osz l image ok I :
  pe_probe (Some file) = Done (true, info) ->
  e_lfanew file = Done lf -> coff_opt_size file lf = Done osz ->
  table file (lf + sizeof_coff_header + osz) l -> number_of_sections info = Z.of_nat (length l) ->
  no_relocations file (lf + sizeof_coff_header) ->
  0 <= size_of_headers info -> 0 < size_of_image info < 2 ^ 32 -> entry_rva info < size_of_image info ->
  image_alloc s (size_of_image info) = Done (image, s1) -> image <> 0 ->
  mapped (memory s) image (size_of_image info) ->
  console_serves (con s) ok I -> I (screen s) ->
  (forall m, Forall (call_ok ok) (snd (fst (exec m (image + entry_rva info))))) ->
  exists m, image_is image (size_of_image info) (memory s) m (image_byte file info l) /\
    returns (pe_run klog_info exec s (Some file)) (fun '(r, s') =>
      let '(m', calls, rc) := exec m (image + entry_rva info) in
      r = default rc (last_exit calls) /\ I (screen s') /\
      memory s' = m' /\ pages s' = pages s1 /\ kheap s' = kheap s1 /\
      g_exited s' = bool_decide (is_Some (last_exit calls)) /\ pe_last_exit_code s' = default 0 (last_exit calls)).
Proof.
  intros Hprobe Elf Eosz Htab Hns Hrel Hsh Hsi Hentry Halloc Himg Hmap Hcon Hi Hcalls.
  destruct (load_image_returns (memory s) image file info (lf + sizeof_coff_header + osz) l ltac:(lia) Hsh Hmap Hns Htab)
    as (m & Eload & Hm).
  destruct (image_alloc_memory _ _ _ _ Halloc) as (Em & Ec & Esc).
  exists m. split; [exact Hm|]. unfold pe_run. rewrite Hprobe, bind_Done. cbn [negb].
  rewrite Elf, bind_Done, Eosz, bind_Done. rewrite ALIGN_UP_page by lia. change PAGE_SIZE with 4096. rewrite Z.div_mul by lia.
  destruct (Z.eqb_spec ((size_of_image info + 4095) / 4096) 0) as [E0|_].
  { pose proof (Z.div_le_lower_bound (size_of_image info + 4095) 4096 1 ltac:(lia) ltac:(lia)). lia. }
  rewrite Halloc, bind_Done, (proj2 (Z.eqb_neq _ _) Himg), Em, Eload, bind_Done.
  rewrite apply_relocations_none, bind_Done by exact Hrel.
  destruct (Z.leb_spec (size_of_image info) (entry_rva info)); [lia|]. unfold enter. cbn [memory set_memory].
  specialize (Hcalls m). destruct (exec m (image + entry_rva info)) as [[m' calls] rc]. cbn [fst snd] in Hcalls. apply returns_bind.
  eapply returns_mono; [apply (api_run_returns ok I calls _ None); cbn [con screen set_memory]; [rewrite Ec; exact Hcon|exact Hcalls|rewrite Esc; exact Hi]|].
  intros s' (code & Ef & [Hi' Hm' Hp Hk _ He Hd]). cbn [memory pages kheap g_exited g_exit_code set_memory] in *.
  apply returns_Done. unfold last_exit, pe_last_exit_code. rewrite Ef, He, Hd. destruct code; auto 10.
Qed.

(** C19: [pe_run] on an accepted file without relocations whose allocation succeeds calls
    the entry point inside a memory in which the image has been loaded and nothing else
    has changed.  Its console calls go to the functions that were set, over which they keep
    any invariant [I] those keep, and it returns the code of the last [exit] of the image,
    or what the entry point returned when there was none. *)
Theorem pe_run_enters_image (s s1 : @machine_state P K C) file info lf osz l image I :
  pe_probe (Some file) = Done (true, info) ->
  e_lfanew file = Done lf -> coff_opt_size file lf = Done osz ->
  table file (lf + sizeof_coff_header + osz) l -> number_of_sections info = Z.of_nat (length l) ->
  no_relocations file (lf + sizeof_coff_header) ->
  0 <= size_of_headers info -> 0 < size_of_image info < 2 ^ 32 -> entry_rva info < size_of_image info ->
  image_alloc s (size_of_image info) = Done (image, s1) -> image <> 0 ->
  mapped (memory s) image (size_of_image info) ->
  console_keeps (con s) I -> I (screen s) ->
  exists m, image_is image (size_of_image info) (memory s) m (image_byte file info l) /\
    returns (pe_run klog_info exec s (Some file)) (fun '(r, s') =>
      let '(m', calls, rc) := exec m (image + entry_rva info) in
      r = default rc (last_exit calls) /\ I (screen s') /\
      memory s' = m' /\ pages s' = pages s1 /\ kheap s' = kheap s1 /\
      g_exited s' = bool_decide (is_Some (last_exit calls)) /\ pe_last_exit_code s' = default 0 (last_exit calls)).
Proof.
  intros. eapply pe_run_returns; try eassumption. intros m0. apply Forall_forall. intros [x|x|x| |x] _; exact Logic.I.
Qed.
End Running.

(** ** Witnesses *)

(** A file with an MZ header, the headers at 64 and [n] bytes of optional header; its
    directory 5 is a relocation table of 12 bytes at 16. *)
Definition sample_file (n : nat) : list Z :=
  [77; 90] ++ replicate 58 0 ++ [64; 0; 0; 0] ++
  [80; 69; 0; 0; 100; 134; 0; 0] ++ replicate 12 0 ++ [240; 0; 0; 0] ++
  take n ([11; 2] ++ replicate 14 0 ++ [16; 0; 0; 0] ++ replicate 36 0 ++ [56; 0; 0; 0] ++ [8; 0; 0; 0] ++ replicate 44 0 ++
          [16; 0; 0; 0] ++ replicate 40 0 ++ [16; 0; 0; 0; 12; 0; 0; 0] ++ replicate 80 0).

(** An image with a relocation table of two entries at 16: the word at 40, and padding. *)
Definition sample_image : mem :=
  mem_of_list 4096 (replicate 16 0 ++ [0; 0; 0; 0; 12; 0; 0; 0; 40; 160; 0; 0] ++ replicate 12 0 ++ [5; 0; 0; 0; 0; 0; 0; 0] ++ replicate 8 0).

Lemma bytes_forallb f : forallb (fun b => (0 <=? b) && (b <? 256)) f = true -> bytes f.
Proof.
  intros E. apply Forall_forall. intros x Hx. rewrite forallb_forall in E. apply list_elem_of_In, E in Hx.
  apply andb_true_iff in Hx as [H1 H2]. apply Z.leb_le in H1. apply Z.ltb_lt in H2. lia.
Qed.

Lemma pe_probe_decides_witness : returns (pe_probe (Some (sample_file 240))) (probe_spec (sample_file 240)).
Proof.
  apply (pe_probe_decides (sample_file 240)); [apply bytes_forallb; vm_compute; reflexivity|].
  intros lf E _. vm_compute in E. injection E as <-. vm_compute. discriminate.
Defined.

(** The same file as a Windows console program: its subsystem is 3, and its directory 1
    names a table of imports. *)
Definition windows_file : list Z :=
  <[156%nat := 3]> (<[208%nat := 32]> (<[212%nat := 40]> (sample_file 240))).

(** docs/EXE.md says that such a program is rejected with an error. *)
Theorem windows_file_accepted : exists info, pe_probe (Some windows_file) = Done (true, info) /\ error info = None.
Proof.
  rewrite (pe_probe_reads_headers_only (sample_file 240) windows_file 64 152); [|vm_compute; reflexivity..|lia|vm_compute; discriminate|vm_compute; reflexivity].
  eexists. split; vm_compute; reflexivity.
Qed.

Lemma pe_probe_truncated_faults_witness : pe_probe (Some (sample_file 4)) = Fault.
Proof.
  apply (pe_probe_truncated_faults (sample_file 4) 64); [apply bytes_forallb; vm_compute; reflexivity|lia| |vm_compute; reflexivity].
  split; [vm_compute; discriminate|vm_compute; reflexivity| |vm_compute; reflexivity..| |vm_compute; reflexivity].
  - split; [vm_compute; reflexivity|split; vm_compute; discriminate].
  - exists 240. split; [vm_compute; reflexivity|vm_compute; discriminate].
Defined.

(** One section, whose header is the file's first 40 bytes: 4 bytes from offset 40 to 32. *)
Definition section_file : list Z :=
  replicate 12 0 ++ [32; 0; 0; 0; 4; 0; 0; 0; 40; 0; 0; 0] ++ replicate 16 0 ++ [1; 2; 3; 4].

Lemma load_image_in_bounds_witness :
  returns (load_image (mem_of_list 4096 (replicate 70 7)) 4096 section_file (mk_info true true 0 0 0 64 8 1 None) 0) (fun m' =>
    same_outside 4096 64 (mem_of_list 4096 (replicate 70 7)) m' /\
    forall k, 0 <= k < 64 -> m' !! (4096 + k) = Some (image_byte section_file (mk_info true true 0 0 0 64 8 1 None) [mk_section 32 4 40] k)).
Proof.
  apply (load_image_in_bounds (mem_of_list 4096 (replicate 70 7)) 4096 section_file (mk_info true true 0 0 0 64 8 1 None) 0 [mk_section 32 4 40]);
    [cbn; lia|cbn; lia|apply mem_of_list_mapped; cbn; lia|reflexivity|].
  intros [|[|i]] s E; try discriminate. injection E as <-. split; [vm_compute; reflexivity|split; cbn; lia].
Defined.

Lemma apply_relocations_rebases_witness :
  returns (apply_relocations sample_image 4096 4096 1024 (sample_file 240) 88) (fun m' =>
    (forall t v, t ∈ table_targets 4096 [(0, [41000; 0])] -> ld64 sample_image t = Done v -> 0 <= v < 2 ^ 64 ->
       ld64 m' t = Done (u64 (v + (4096 - 1024)))) /\
    (forall a, (forall t, t ∈ table_targets 4096 [(0, [41000; 0])] -> ~ (t <= a < t + 8)) -> m' !! a = sample_image !! a) /\
    (4096 = 1024 -> m' = sample_image)).
Proof.
  apply (apply_relocations_rebases sample_image 4096 4096 1024 (sample_file 240) 88 [(0, [41000; 0])]).
  split.
  - exists 16. split; [vm_compute; reflexivity|lia].
  - exists 16. split; [vm_compute; reflexivity|]. split; [lia|]. split; [vm_compute; reflexivity|]. split.
    + split; [vm_compute; reflexivity|]. split; [vm_compute; reflexivity|]. split; [|exact I].
      intros [|[|i]] e E; try discriminate; injection E as <-; (split; [vm_compute; reflexivity|]);
        [left|right]; reflexivity.
    + intros t Ht. change (table_targets 4096 [(0, [41000; 0])]) with [4136] in Ht.
      apply list_elem_of_singleton in Ht as ->. right. cbn. lia.
  - cbn. lia.
  - intros t Ht. change (table_targets 4096 [(0, [41000; 0])]) with [4136] in Ht.
    apply list_elem_of_singleton in Ht as ->. apply mem_of_list_mapped; [lia|vm_compute; discriminate].
  - change (all_apart [4136]). cbn. auto.
Defined.
