(* ===== verification/Interrupts.v ===== *)
(** * Descriptor tables and the interrupt controller: [kernel/arch/x86_64/gdt.c], [idt.c]

    The tables are lists of their packed entries; a handler or stub is its address, 0
    for NULL.  [lgdt], [lidt] and the reload of the segment registers act on the
    processor only and are not part of the state.  The two 8259 controllers sit behind
    the port class of [Io.v]. *)
From Stdlib Require Import ZArith Lia Bool String.
From stdpp Require Import base tactics option list numbers.
From S2P Require Import Prelude CInt CString Io.
#[local] Close Scope string_scope.
#[local] Open Scope Z_scope.

(** ** Segment descriptors *)
Record gdt_entry := mk_gdt_entry {
  limit_low : Z; base_low : Z; base_mid : Z; access : Z; granularity : Z; base_high : Z
}.
Definition zero_gdt_entry : gdt_entry := mk_gdt_entry 0 0 0 0 0 0.

Definition gdt_set (gdt : list gdt_entry) (i base limit acc gran : Z) : outcome (list gdt_entry) :=
  arr_set gdt i (mk_gdt_entry
    (u16 (Z.land limit 0xFFFF))
    (u16 (Z.land base 0xFFFF))
    (u8 (Z.land (Z.shiftr base 16) 0xFF))
    acc
    (Z.lor (u8 (Z.land (Z.shiftr limit 16) 0x0F)) (Z.land gran 0xF0))
    (u8 (Z.land (Z.shiftr base 24) 0xFF))).

Definition gdt_init : outcome (list gdt_entry) :=
  let gdt := replicate 5 zero_gdt_entry in
  gdt ← gdt_set gdt 0 0 0 0 0;
  gdt ← gdt_set gdt 1 0 0 0x9A 0x20;
  gdt ← gdt_set gdt 2 0 0 0x92 0x00;
  gdt ← gdt_set gdt 3 0 0 0xFA 0x20;
  gdt_set gdt 4 0 0 0xF2 0x00.

(** ** Interrupt gates *)
Record idt_entry := mk_gate {
  offset_low : Z; selector : Z; ist : Z; type_attr : Z; offset_mid : Z; offset_high : Z; zero : Z
}.
Definition zero_gate : idt_entry := mk_gate 0 0 0 0 0 0 0.

Definition idt_set (idt : list idt_entry) (vec handler attr : Z) : outcome (list idt_entry) :=
  arr_set idt vec (mk_gate
    (u16 (Z.land handler 0xFFFF)) 0x08 0 attr
    (u16 (Z.land (Z.shiftr handler 16) 0xFFFF))
    (u32 (Z.land (Z.shiftr handler 32) 0xFFFFFFFF)) 0).

(** The part of the frame the dispatcher reads. *)
Record interrupt_frame := mk_frame { int_no : Z; err_code : Z; rip : Z }.

Section Idt.
Context {D : Type} `{PortIO D}.

Record intr := mk_intr { idt : list idt_entry; irq_handlers : list Z; ports : D }.

(** The initialisation words: remap IRQs 0-7 to 32-39 and 8-15 to 40-47. *)
Definition pic_remap (d : D) : D :=
  let d := outb d 0x20 0x11 in
  let d := outb d 0xA0 0x11 in
  let d := outb d 0x21 0x20 in
  let d := outb d 0xA1 0x28 in
  let d := outb d 0x21 0x04 in
  let d := outb d 0xA1 0x02 in
  let d := outb d 0x21 0x01 in
  outb d 0xA1 0x01.

Definition pic_init (d : D) : D := outb (outb (pic_remap d) 0x21 0xFC) 0xA1 0xFF.

Definition irq_ack (d : D) (irq : Z) : D :=
  let d := if 8 <=? irq then outb d 0xA0 0x20 else d in
  outb d 0x20 0x20.

(** [outb(port, inb(port) & (u8)~(1 << bit))] *)
Definition unmask (d : D) (port bit : Z) : D :=
  let '(v, d) := inb d port in
  outb d port (Z.land v (u8 (Z.lnot (Z.shiftl 1 bit)))).

Definition irq_install (s : intr) (irq handler : Z) : outcome intr :=
  if irq <? 16 then
    hs ← arr_set (irq_handlers s) irq handler;
    mret (mk_intr (idt s) hs (if irq <? 8 then unmask (ports s) 0x21 irq else unmask (ports s) 0xA1 (irq - 8)))
  else mret s.

Definition idt_init (isr_stub_table : Z -> Z) (s : intr) : outcome intr :=
  t ← for_to 0 256 (fun i t => idt_set t (u8 i) (isr_stub_table i) 0x8E) (replicate 256 zero_gate);
  mret (mk_intr t (replicate 16 0) (pic_init (ports s))).

(** [call_irq] calls the handler at an address; it may change the table and the rest
    of the kernel. *)
Definition isr_dispatch {W : Type} (call_irq : Z -> interrupt_frame -> intr -> W -> outcome (intr * W))
    (frame : interrupt_frame) (s : intr) (w : W) : outcome (intr * W) :=
  if int_no frame <? 32 then Panicked
  else if (32 <=? int_no frame) && (int_no frame <? 48) then
    let irq := u8 (int_no frame - 32) in
    h ← arr_get (irq_handlers s) irq;
    '(s, w) ← (if negb (h =? 0) then call_irq h frame s w else mret (s, w));
    mret (mk_intr (idt s) (irq_handlers s) (irq_ack (ports s) irq), w)
  else mret (s, w).
End Idt.
Arguments intr D : clear implicits.

(** ** The gates of the table *)

(** The address the processor takes from a gate. *)
Definition gate_target (g : idt_entry) : Z := offset_low g + 2 ^ 16 * offset_mid g + 2 ^ 32 * offset_high g.

Definition gate_of (h : Z) : idt_entry :=
  mk_gate (u16 (Z.land h 0xFFFF)) 0x08 0 0x8E (u16 (Z.land (Z.shiftr h 16) 0xFFFF))
    (u32 (Z.land (Z.shiftr h 32) 0xFFFFFFFF)) 0.

Lemma gate_target_of h : 0 <= h < 2 ^ 64 -> gate_target (gate_of h) = h.
Proof.
  intros Hh. unfold gate_target, gate_of. cbn [offset_low offset_mid offset_high].
  change 0xFFFF with (Z.ones 16). change 0xFFFFFFFF with (Z.ones 32).
  rewrite !Z.land_ones, !Z.shiftr_div_pow2 by lia. unfold u16, u32. rewrite !Zmod_mod.
  pose proof (Z.div_mod h (2 ^ 16) ltac:(lia)). pose proof (Z.div_mod (h / 2 ^ 16) (2 ^ 16) ltac:(lia)).
  rewrite Z.div_div in * by lia. change (2 ^ 16 * 2 ^ 16) with (2 ^ 32) in *.
  rewrite (Z.mod_small (h / 2 ^ 32)); [lia|].
  split; [apply Z.div_pos; lia|]. apply Z.div_lt_upper_bound; lia.
Qed.

(** [idt_init] leaves 256 present kernel interrupt gates whose split offsets give
    back the addresses of the 256 assembly stubs, and no interrupt handler. *)
Theorem idt_init_gates {D} `{PortIO D} (stub : Z -> Z) (s : intr D) :
  (forall v, 0 <= v < 256 -> 0 <= stub v < 2 ^ 64) ->
  returns (idt_init stub s) (fun s' =>
    irq_handlers s' = replicate 16 0 /\ length (idt s') = 256%nat /\
    forall v, 0 <= v < 256 -> exists g, idt s' !! Z.to_nat v = Some g /\
      gate_target g = stub v /\ selector g = 0x08 /\ type_attr g = 0x8E).
Proof.
  intros Hstub. unfold idt_init.
  assert (Hl : returns (for_to 0 256 (fun i t => idt_set t (u8 i) (stub i) 0x8E) (replicate 256 zero_gate))
    (fun t => length t = 256%nat /\ forall v, 0 <= v < 256 -> t !! Z.to_nat v = Some (gate_of (stub v)))).
  { apply (for_to_inv (fun i t => length t = 256%nat /\ forall v, 0 <= v < i -> t !! Z.to_nat v = Some (gate_of (stub v))));
      [lia|split; [reflexivity|lia]| |auto].
    intros i t Hi [Hlen Ht]. unfold idt_set. rewrite u8_small, arr_set_Done by lia.
    apply returns_Done. split; [rewrite length_insert; exact Hlen|]. intros v Hv.
    destruct (decide (v = i)) as [->|Hne].
    - rewrite list_lookup_insert_eq by lia. reflexivity.
    - rewrite list_lookup_insert_ne by lia. apply Ht. lia. }
  destruct Hl as (t & -> & Hlen & Ht). apply returns_Done. split; [reflexivity|]. split; [exact Hlen|].
  intros v Hv. exists (gate_of (stub v)). split; [apply Ht, Hv|]. split; [apply gate_target_of, Hstub, Hv|auto].
Qed.

(** ** The controllers

    What the kernel relies on of the pair of 8259s: once the initialisation words are
    written, the data ports read and write the interrupt masks, and the
    end-of-interrupt command leaves them. *)
Class Pic (D : Type) `{PortIO D} := {
  pic_ready : D -> Prop;
  master_mask : D -> Z;
  slave_mask : D -> Z
}.
Class PicLaws (D : Type) `{Pic D} := {
  pic_remapped : forall d, pic_ready (pic_remap d);
  pic_write1 : forall d v, pic_ready d ->
    pic_ready (outb d 0x21 v) /\ master_mask (outb d 0x21 v) = v /\ slave_mask (outb d 0x21 v) = slave_mask d;
  pic_write2 : forall d v, pic_ready d ->
    pic_ready (outb d 0xA1 v) /\ slave_mask (outb d 0xA1 v) = v /\ master_mask (outb d 0xA1 v) = master_mask d;
  pic_read1 : forall d, pic_ready d -> inb d 0x21 = (master_mask d, d);
  pic_read2 : forall d, pic_ready d -> inb d 0xA1 = (slave_mask d, d)
}.

Section Masks.
Context {D : Type} `{PicLaws D}.

(** Whether a line of the master, of the slave, gets through: the slave is cascaded
    through line 2 of the master. *)
Definition delivered (d : D) (irq : Z) : bool :=
  if irq <? 8 then negb (Z.testbit (master_mask d) irq)
  else negb (Z.testbit (slave_mask d) (irq - 8)) && negb (Z.testbit (master_mask d) 2).

Fixpoint install_all (s : intr D) (l : list (Z * Z)) : outcome (intr D) :=
  match l with [] => mret s | (irq, h) :: l' => s ← irq_install s irq h; install_all s l' end.

Lemma unmask_bit v k j : 0 <= j < 8 -> 0 <= k < 8 ->
  Z.testbit (Z.land v (u8 (Z.lnot (Z.shiftl 1 k)))) j = Z.testbit v j && negb (j =? k).
Proof.
  intros Hj Hk. unfold u8. rewrite Z.land_spec, Z.mod_pow2_bits_low, Z.lnot_spec, Z.shiftl_1_l by lia.
  destruct (Z.eqb_spec j k) as [->|Hne]; [rewrite Z.pow2_bits_true by lia|rewrite Z.pow2_bits_false by lia]; reflexivity.
Qed.

Lemma irq_install_masks s irq h :
  pic_ready (ports s) -> 0 <= irq < 16 -> length (irq_handlers s) = 16%nat ->
  returns (irq_install s irq h) (fun s' =>
    pic_ready (ports s') /\ irq_handlers s' = <[Z.to_nat irq := h]> (irq_handlers s) /\
    (forall j, 0 <= j < 8 -> Z.testbit (master_mask (ports s')) j = Z.testbit (master_mask (ports s)) j && negb (j =? irq)) /\
    (forall j, 0 <= j < 8 -> Z.testbit (slave_mask (ports s')) j = Z.testbit (slave_mask (ports s)) j && negb (j + 8 =? irq))).
Proof.
  intros Hr Hi Hl. unfold irq_install. destruct (Z.ltb_spec irq 16); [|lia].
  rewrite arr_set_Done, bind_Done by lia. apply returns_Done. cbn [ports irq_handlers]. unfold unmask.
  destruct (Z.ltb_spec irq 8).
  - rewrite (pic_read1 _ Hr). destruct (pic_write1 (ports s) (Z.land (master_mask (ports s)) (u8 (Z.lnot (Z.shiftl 1 irq)))) Hr) as (A1 & A2 & A3).
    split; [exact A1|]. split; [reflexivity|]. rewrite A2, A3. split.
    + intros j Hj. apply unmask_bit; lia.
    + intros j Hj. destruct (Z.eqb_spec (j + 8) irq); [lia|]. symmetry. apply andb_true_r.
  - rewrite (pic_read2 _ Hr). destruct (pic_write2 (ports s) (Z.land (slave_mask (ports s)) (u8 (Z.lnot (Z.shiftl 1 (irq - 8))))) Hr) as (A1 & A2 & A3).
    split; [exact A1|]. split; [reflexivity|]. rewrite A2, A3. split.
    + intros j Hj. destruct (Z.eqb_spec j irq); [lia|]. symmetry. apply andb_true_r.
    + intros j Hj. rewrite unmask_bit by lia. f_equal. f_equal.
      destruct (Z.eqb_spec j (irq - 8)), (Z.eqb_spec (j + 8) irq); lia || reflexivity.
Qed.

Lemma install_all_masks l : forall s,
  pic_ready (ports s) -> Forall (fun p => 0 <= fst p < 16) l -> length (irq_handlers s) = 16%nat ->
  returns (install_all s l) (fun s' =>
    pic_ready (ports s') /\
    (forall j, 0 <= j < 8 -> Z.testbit (master_mask (ports s')) j =
       Z.testbit (master_mask (ports s)) j && forallb (fun p => negb (j =? fst p)) l) /\
    (forall j, 0 <= j < 8 -> Z.testbit (slave_mask (ports s')) j =
       Z.testbit (slave_mask (ports s)) j && forallb (fun p => negb (j + 8 =? fst p)) l)).
Proof.
  induction l as [|[irq h] l IH]; intros s Hr Hl Hlen; cbn [install_all forallb fst].
  - apply returns_Done. split; [exact Hr|]. split; intros; symmetry; apply andb_true_r.
  - inversion_clear Hl as [|? ? Hirq Hl']. destruct (irq_install_masks s irq h Hr Hirq Hlen) as (s1 & -> & Hr1 & Hh & Hm & Hs).
    rewrite bind_Done. eapply returns_mono; [apply (IH s1 Hr1 Hl'); rewrite Hh, length_insert; exact Hlen|].
    intros s2 (Hr2 & Hm2 & Hs2). split; [exact Hr2|]. split; intros j Hj.
    + rewrite Hm2, Hm, andb_assoc by lia. reflexivity.
    + rewrite Hs2, Hs, andb_assoc by lia. reflexivity.
Qed.

(** C34: which interrupts reach the processor after [idt_init] and any sequence of
    [irq_install]: of the master's lines 0, 1 and those installed; of the slave's lines,
    12 of the mouse among them, none as long as line 2, the cascade, is not installed. *)
Theorem installed_irqs_delivered stub (s : intr D) l s1 :
  idt_init stub s = Done s1 -> Forall (fun p => 0 <= fst p < 16) l ->
  returns (install_all s1 l) (fun s' => forall irq, 0 <= irq < 16 ->
    delivered (ports s') irq =
      if irq <? 8 then (irq <? 2) || existsb (fun p => irq =? fst p) l
      else existsb (fun p => irq =? fst p) l && existsb (fun p => 2 =? fst p) l).
Proof.
  intros Hinit Hl. unfold idt_init in Hinit. apply bind_Done_inv in Hinit as (t & _ & [= <-]).
  set (d0 := pic_remap (ports s)). assert (Hr0 : pic_ready d0) by apply pic_remapped.
  destruct (pic_write1 d0 0xFC Hr0) as (Hr1 & Hm1 & _). destruct (pic_write2 _ 0xFF Hr1) as (Hr2 & Hs2 & Hm2).
  eapply returns_mono; [apply (install_all_masks l); [exact Hr2|exact Hl|reflexivity]|].
  cbn [ports]. unfold pic_init. fold d0. rewrite Hs2, Hm2, Hm1. intros s' (_ & Hm & Hs) irq Hirq.
  assert (He : forall k, forallb (fun p : Z * Z => negb (k =? fst p)) l = negb (existsb (fun p => k =? fst p) l)).
  { intros k. clear. induction l as [|p l IH]; [reflexivity|]. cbn. rewrite IH, negb_orb. reflexivity. }
  unfold delivered. destruct (Z.ltb_spec irq 8).
  - rewrite Hm, He, negb_andb, negb_involutive by lia. f_equal.
    assert (irq = 0 \/ irq = 1 \/ irq = 2 \/ irq = 3 \/ irq = 4 \/ irq = 5 \/ irq = 6 \/ irq = 7) as Hc by lia.
    repeat destruct Hc as [->|Hc]; try reflexivity. rewrite Hc. reflexivity.
  - rewrite (Hs (irq - 8)), (Hm 2), !He by lia. replace (irq - 8 + 8) with irq by lia.
    rewrite !negb_andb, !negb_involutive. f_equal.
    replace (Z.testbit 255 (irq - 8)) with true; [reflexivity|].
    assert (irq = 8 \/ irq = 9 \/ irq = 10 \/ irq = 11 \/ irq = 12 \/ irq = 13 \/ irq = 14 \/ irq = 15) as Hc by lia.
    repeat destruct Hc as [->|Hc]; try reflexivity. rewrite Hc. reflexivity.
Qed.
End Masks.

(** ** A concrete pair of controllers: initialisation words still expected, and the masks. *)
Record pics := mk_pics { icw1 : nat; mask1 : Z; icw2 : nat; mask2 : Z }.
#[export] Instance pics_io : PortIO pics := {
  inb d p := (if Z.eqb p 0x21 then mask1 d else if Z.eqb p 0xA1 then mask2 d else 0, d);
  outb d p v :=
    if Z.eqb p 0x20 then (if Z.testbit v 4 then mk_pics 3 0 (icw2 d) (mask2 d) else d)
    else if Z.eqb p 0xA0 then (if Z.testbit v 4 then mk_pics (icw1 d) (mask1 d) 3 0 else d)
    else if Z.eqb p 0x21 then (match icw1 d with O => mk_pics 0 v (icw2 d) (mask2 d) | S k => mk_pics k (mask1 d) (icw2 d) (mask2 d) end)
    else if Z.eqb p 0xA1 then (match icw2 d with O => mk_pics (icw1 d) (mask1 d) 0 v | S k => mk_pics (icw1 d) (mask1 d) k (mask2 d) end)
    else d;
  outw d _ _ := d;
  in_l d _ := (0, d);
  out_l d _ _ := d
}.
#[export] Instance pics_pic : Pic pics := {
  pic_ready d := icw1 d = 0%nat /\ icw2 d = 0%nat; master_mask := mask1; slave_mask := mask2
}.
#[export] Instance pics_laws : PicLaws pics.
Proof.
  split.
  - intros [a b c d]. split; reflexivity.
  - intros [a b c d] v [Ha Hc]. cbn in *. subst. auto.
  - intros [a b c d] v [Ha Hc]. cbn in *. subst. auto.
  - reflexivity.
  - reflexivity.
Qed.

Definition demo_intr : intr pics := mk_intr [] [] (mk_pics 0 0 0 0).

Lemma idt_init_gates_witness :
  returns (idt_init (fun v => 0xFFFF800000100000 + 16 * v) demo_intr) (fun s' =>
    irq_handlers s' = replicate 16 0 /\ length (idt s') = 256%nat /\
    forall v, 0 <= v < 256 -> exists g, idt s' !! Z.to_nat v = Some g /\
      gate_target g = 0xFFFF800000100000 + 16 * v /\ selector g = 0x08 /\ type_attr g = 0x8E).
Proof. apply (idt_init_gates (fun v => 0xFFFF800000100000 + 16 * v) demo_intr). intros v Hv. lia. Defined.

(** The handlers the kernel installs: the timer, the keyboard and the mouse. *)
Definition kernel_irqs : list (Z * Z) := [(0, 0x1000); (1, 0x2000); (12, 0x3000)].

Lemma installed_irqs_delivered_witness :
  exists s1, idt_init (fun v => v) demo_intr = Done s1 /\
  returns (install_all s1 kernel_irqs) (fun s' => forall irq, 0 <= irq < 16 ->
    delivered (ports s') irq =
      if irq <? 8 then (irq <? 2) || existsb (fun p => irq =? fst p) kernel_irqs
      else existsb (fun p => irq =? fst p) kernel_irqs && existsb (fun p => 2 =? fst p) kernel_irqs).
Proof.
  eexists. split; [vm_compute; reflexivity|].
  eapply (installed_irqs_delivered (fun v => v) demo_intr kernel_irqs); [vm_compute; reflexivity|].
  repeat constructor; cbn; lia.
Defined.

Example mouse_line_masked : existsb (fun p => 12 =? fst p) kernel_irqs && existsb (fun p => 2 =? fst p) kernel_irqs = false.
Proof. reflexivity. Qed.
