(* ===== verification/Timer.v ===== *)
(** * Programmable interval timer: [drivers/timer/timer.c]

    The tick counter and the frequency; [timer_sleep_ms] is the busy loop, in which the
    interrupts that arrive during a turn are an argument.  The registration of
    [timer_irq] is [irq_install] of [Interrupts.v]. *)
From Stdlib Require Import ZArith Lia Bool.
From stdpp Require Import base tactics list numbers.
From S2P Require Import Prelude CInt Io.

Record timer := mk_timer { g_ticks : Z; g_freq : Z }.

Definition timer_irq (t : timer) : timer := mk_timer (u64 (g_ticks t + 1)) (g_freq t).

(** The frequency within the limits. *)
Definition clamp_hz (hz : Z) : Z :=
  let hz := if hz <? 18 then 18 else hz in
  if 1000 <? hz then 1000 else hz.

Section Init.
Context {D : Type} `{PortIO D}.

Definition timer_init (d : D) (frequency_hz : Z) : timer * D :=
  let hz := clamp_hz frequency_hz in
  let divisor := 1193182 / hz in
  let d := outb d 0x43 0x36 in
  let d := outb d 0x40 (u8 (Z.land divisor 0xFF)) in
  let d := outb d 0x40 (u8 (Z.land (Z.shiftr divisor 8) 0xFF)) in
  (mk_timer 0 hz, d).
End Init.

Definition timer_ticks (t : timer) : Z := g_ticks t.
Definition timer_uptime_ms (t : timer) : Z := u64 (g_ticks t * 1000) / g_freq t.

Fixpoint timer_irqs (n : nat) (t : timer) : timer :=
  match n with O => t | S k => timer_irq (timer_irqs k t) end.

(** [irqs i] interrupts arrive in turn [i] of the loop. *)
Definition timer_sleep_ms (fuel : nat) (irqs : nat -> nat) (t : timer) (ms : Z) : outcome timer :=
  let target := u64 (timer_uptime_ms t + ms) in
  loop fuel (fun '(i, t) =>
    mret (if timer_uptime_ms t <? target then inl (S i, timer_irqs (irqs i) t) else inr t)) (O, t).

(** ** Uptime *)
Lemma timer_irqs_ticks n t :
  0 <= g_ticks t -> g_ticks t + Z.of_nat n < 2 ^ 64 ->
  timer_irqs n t = mk_timer (g_ticks t + Z.of_nat n) (g_freq t).
Proof.
  intros Ht. induction n as [|n IH]; intros Hn; cbn [timer_irqs].
  - destruct t. cbn. f_equal. lia.
  - rewrite IH by lia. unfold timer_irq. cbn [g_ticks g_freq]. f_equal. rewrite u64_small; lia.
Qed.

Lemma uptime_at g f : 0 <= g -> g * 1000 < 2 ^ 64 -> timer_uptime_ms (mk_timer g f) = g * 1000 / f.
Proof. intros Hg Hr. unfold timer_uptime_ms. cbn [g_ticks g_freq]. rewrite u64_small; [reflexivity|lia]. Qed.

(** At 1000 Hz or less, [ms] ticks take at least [ms] milliseconds. *)
Lemma uptime_advance g f ms :
  0 <= g -> 0 <= ms -> 0 < f <= 1000 -> g * 1000 / f + ms <= (g + ms) * 1000 / f.
Proof.
  intros Hg Hms Hf. rewrite <- Z.div_add by lia. apply Z.div_le_mono; [lia|]. nia.
Qed.

(** [timer_sleep_ms] returns once enough interrupts have arrived, however they are
    spread over the turns of the loop, as long as each turn sees at least one; then at
    least [ms] milliseconds have passed, and no more than the last turn's ticks too many. *)
Theorem timer_sleep_returns fuel irqs burst t ms :
  0 <= ms -> 18 <= g_freq t <= 1000 -> 0 <= g_ticks t ->
  (g_ticks t + ms + Z.of_nat burst) * 1000 < 2 ^ 64 ->
  (forall i, (0 < irqs i <= burst)%nat) -> (Z.to_nat ms < fuel)%nat ->
  returns (timer_sleep_ms fuel irqs t ms) (fun t' =>
    g_freq t' = g_freq t /\ timer_uptime_ms t + ms <= timer_uptime_ms t' /\
    g_ticks t <= g_ticks t' <= g_ticks t + ms + Z.of_nat burst).
Proof.
  destruct t as [g f]. cbn [g_freq g_ticks]. intros Hms Hf Hg Hroom Hirqs Hfuel.
  pose proof (Z.div_pos (g * 1000) f ltac:(lia) ltac:(lia)) as Hu0.
  assert (Hu1 : g * 1000 / f <= g * 1000) by (apply Z.div_le_upper_bound; nia).
  unfold timer_sleep_ms. rewrite uptime_at, u64_small by lia.
  apply (loop_total
    (fun '(i, t') => exists k, t' = mk_timer (g + k) f /\ 0 <= k <= ms + Z.of_nat burst)
    _ (fun '(i, t') => Z.to_nat (ms - (g_ticks t' - g)))).
  - intros [i t'] (k & -> & Hk). apply returns_Done. rewrite uptime_at by lia.
    destruct (Z.ltb_spec ((g + k) * 1000 / f) (g * 1000 / f + ms)) as [Hlt|Hge].
    + specialize (Hirqs i).
      assert (k < ms).
      { destruct (Z.lt_ge_cases k ms) as [|Hc]; [assumption|]. exfalso. pose proof (uptime_advance g f ms Hg Hms ltac:(lia)).
        pose proof (Z.div_le_mono ((g + ms) * 1000) ((g + k) * 1000) f ltac:(lia) ltac:(lia)). lia. }
      rewrite timer_irqs_ticks by (cbn [g_ticks]; lia). cbn [g_ticks g_freq]. split; [|lia].
      exists (k + Z.of_nat (irqs i)). split; [f_equal; lia|lia].
    + cbn [g_ticks g_freq]. split; [reflexivity|]. rewrite uptime_at by lia. lia.
  - exists 0. split; [f_equal; lia|lia].
  - cbn [g_ticks]. lia.
Qed.

(** With the interrupts off it never does, unless there is nothing to wait for. *)
Lemma timer_sleep_masked_hangs fuel t ms :
  timer_uptime_ms t < u64 (timer_uptime_ms t + ms) -> timer_sleep_ms fuel (fun _ => O) t ms = Spin.
Proof.
  intros Hms. unfold timer_sleep_ms. apply (loop_spin (fun '(_, t') => t' = t)); [|reflexivity].
  intros [i t'] ->. apply returns_Done. destruct (Z.ltb_spec (timer_uptime_ms t) (u64 (timer_uptime_ms t + ms))); [|lia].
  eexists (S i, t). split; reflexivity.
Qed.

(** ** The programmed rate

    The counter takes the two bytes that follow the mode byte 0x36, low byte first. *)
Class Pit (D : Type) `{PortIO D} := { pit_reload : D -> Z -> Z -> Z -> D }.
Class PitLaws (D : Type) `{Pit D} := {
  pit_reload_spec : forall d mode lo hi, outb (outb (outb d 0x43 mode) 0x40 lo) 0x40 hi = pit_reload d mode lo hi
}.

Lemma divisor_bytes d : 0 <= d < 2 ^ 16 ->
  u8 (Z.land d 0xFF) + 2 ^ 8 * u8 (Z.land (Z.shiftr d 8) 0xFF) = d.
Proof.
  intros Hd. change 0xFF with (Z.ones 8). rewrite !Z.land_ones, Z.shiftr_div_pow2 by lia.
  unfold u8. rewrite !Zmod_mod. rewrite (Z.mod_small (d / 2 ^ 8)).
  - pose proof (Z.div_mod d (2 ^ 8)). lia.
  - split; [apply Z.div_pos; lia|]. apply Z.div_lt_upper_bound; lia.
Qed.

(** The rate at which a counter loaded with [r] fires. *)
Definition rate_between (r hz : Z) : Prop := r * hz <= 1193182 < (r + 1) * hz.

(** [timer_init] programs the square-wave mode and the reload value whose rate is the
    requested frequency, rounded down, for every frequency from 19 to 1000 Hz (higher
    requests are served as 1000 Hz); at 18 Hz and below the divisor needs 17 bits and
    the low 16, 751, are programmed: the counter fires at 1588 Hz while [g_freq] is 18. *)
Theorem timer_init_rate {D} `{PitLaws D} (d : D) hz :
  exists lo hi r, timer_init d hz = (mk_timer 0 (clamp_hz hz), pit_reload d 0x36 lo hi) /\
    0 <= lo < 256 /\ 0 <= hi < 256 /\ r = lo + 2 ^ 8 * hi /\
    (19 <= hz -> rate_between r (Z.min hz 1000)) /\ (hz <= 18 -> clamp_hz hz = 18 /\ r = 751 /\ rate_between r 1588).
Proof.
  unfold timer_init. rewrite pit_reload_spec.
  exists (u8 (Z.land (1193182 / clamp_hz hz) 0xFF)), (u8 (Z.land (Z.shiftr (1193182 / clamp_hz hz) 8) 0xFF)).
  eexists. split; [reflexivity|]. split; [apply u8_range|]. split; [apply u8_range|]. split; [reflexivity|]. split.
  - intros Hhz. assert (clamp_hz hz = Z.min hz 1000) as ->.
    { unfold clamp_hz. destruct (Z.ltb_spec hz 18); [lia|]. destruct (Z.ltb_spec 1000 hz); lia. }
    set (z := Z.min hz 1000). assert (Hz : 19 <= z <= 1000) by (unfold z; lia).
    rewrite divisor_bytes.
    + unfold rate_between. pose proof (Z.div_mod 1193182 z ltac:(lia)). pose proof (Z.mod_pos_bound 1193182 z ltac:(lia)). nia.
    + split; [apply Z.div_pos; lia|]. apply Z.div_lt_upper_bound; nia.
  - intros Hhz. assert (clamp_hz hz = 18) as ->.
    { unfold clamp_hz. destruct (Z.ltb_spec hz 18); [reflexivity|]. destruct (Z.ltb_spec 1000 hz); lia. }
    split; [reflexivity|]. unfold rate_between. split; [vm_compute; reflexivity|]. vm_compute. split; congruence.
Qed.

(** ** A concrete counter: the bytes written to it, and the state they leave *)
Record counter := mk_counter { written : list (Z * Z) }.
#[export] Instance counter_io : PortIO counter := {
  inb d _ := (0, d); outb d p v := mk_counter (written d ++ [(p, v)]); outw d _ _ := d;
  in_l d _ := (0, d); out_l d _ _ := d
}.
#[export] Instance counter_pit : Pit counter := {
  pit_reload d mode lo hi := mk_counter (((written d ++ [(0x43, mode)]) ++ [(0x40, lo)]) ++ [(0x40, hi)])
}.
#[export] Instance counter_laws : PitLaws counter.
Proof. split. reflexivity. Qed.

Lemma timer_sleep_returns_witness :
  returns (timer_sleep_ms 30 (fun i => S (i mod 3)) (mk_timer 7 100) 25) (fun t' =>
    g_freq t' = 100 /\ 70 + 25 <= timer_uptime_ms t' /\ 7 <= g_ticks t' <= 7 + 25 + 3).
Proof.
  apply (timer_sleep_returns 30 (fun i => S (i mod 3)) 3 (mk_timer 7 100) 25); cbn; try lia.
Defined.

Lemma timer_init_rate_witness :
  exists lo hi r, timer_init (mk_counter []) 18 = (mk_timer 0 (clamp_hz 18), pit_reload (mk_counter []) 0x36 lo hi) /\
    0 <= lo < 256 /\ 0 <= hi < 256 /\ r = lo + 2 ^ 8 * hi /\
    (19 <= 18 -> rate_between r (Z.min 18 1000)) /\ (18 <= 18 -> clamp_hz 18 = 18 /\ r = 751 /\ rate_between r 1588).
Proof. exact (timer_init_rate (mk_counter []) 18). Defined.
