(* ===== verification/Isr.v ===== *)
(** * Interrupt stubs: [kernel/arch/x86_64/isr.asm]

    The stubs as instruction lists over the registers and the stack in byte memory, the
    processor's part before and after them, and the frame [isr_dispatch] gets.  The C code
    between is [isr_dispatch] of [Interrupts.v]; what its compiled body does to registers
    and to the stack below is a parameter with the laws of the calling convention. *)
From Stdlib Require Import ZArith Lia Bool.
From stdpp Require Import base tactics option list numbers gmap.
From S2P Require Import Prelude CInt CString Mem Io Interrupts Timer.
#[local] Open Scope Z_scope.

(** ** The processor *)
Inductive reg := RAX | RBX | RCX | RDX | RSI | RDI | RBP | RSP | R8 | R9 | R10 | R11 | R12 | R13 | R14 | R15.
#[export] Instance reg_eq : EqDecision reg.
Proof. solve_decision. Defined.

(** [rip] is not followed inside a stub, whose code is a straight line. *)
Record cpu := mk_cpu { gpr : reg -> Z; cip : Z; cs : Z; rflags : Z; ss : Z; ram : mem }.

Definition set_reg (r : reg) (v : Z) (c : cpu) : cpu :=
  mk_cpu (fun r' => if bool_decide (r' = r) then v else gpr c r') (cip c) (cs c) (rflags c) (ss c) (ram c).
Definition set_ram (m : mem) (c : cpu) : cpu := mk_cpu (gpr c) (cip c) (cs c) (rflags c) (ss c) m.

Definition push (v : Z) (c : cpu) : outcome cpu :=
  let p := u64 (gpr c RSP - 8) in
  m ← st64 (ram c) p v; mret (set_ram m (set_reg RSP p c)).
Definition pop (c : cpu) : outcome (Z * cpu) :=
  v ← ld64 (ram c) (gpr c RSP); mret (v, set_reg RSP (u64 (gpr c RSP + 8)) c).

Fixpoint push_all (l : list Z) (c : cpu) : outcome cpu :=
  match l with [] => mret c | v :: l' => c ← push v c; push_all l' c end.

(** The exceptions for which the processor pushes an error code. *)
Definition pushes_error (v : Z) : bool := bool_decide (v ∈ [8; 10; 11; 12; 13; 14; 17; 21; 29; 30]).

(** The delivery of vector [v] through an interrupt gate to [entry] of the segment [sel]:
    the stack is aligned, the interrupted context pushed, and further interrupts are
    disabled (bits 8, 9, 14 and 16 of the flags). *)
Definition deliver_vector (entry sel v err : Z) (c : cpu) : outcome cpu :=
  let sp := gpr c RSP in
  c' ← push_all ([ss c; sp; rflags c; cs c; cip c] ++ (if pushes_error v then [err] else []))
         (set_reg RSP (ALIGN_DOWN sp 16) c);
  mret (mk_cpu (gpr c') entry sel (Z.land (rflags c) (Z.lnot 0x14300)) (ss c') (ram c')).

(** [iretq] to the same privilege level. *)
Definition iretq (c : cpu) : outcome cpu :=
  '(i, c) ← pop c; '(s, c) ← pop c; '(f, c) ← pop c; '(sp, c) ← pop c; '(st, c) ← pop c;
  mret (mk_cpu (gpr (set_reg RSP sp c)) i s f st (ram c)).

(** ** The stubs *)
Inductive instr :=
  | PushR (r : reg) | PushI (v : Z) | MovR (d s : reg) | AddI (d : reg) (v : Z) | PopR (r : reg)
  | CallDispatch | Iretq.

(** The vectors of the [ISR_ERR] lines. *)
Definition isr_err (v : Z) : bool := bool_decide (v ∈ [8; 10; 11; 12; 13; 14; 17; 21]).

Definition saved : list reg := [RAX; RBX; RCX; RDX; RSI; RDI; RBP; R8; R9; R10; R11; R12; R13; R14; R15].
Definition restored : list reg := [R15; R14; R13; R12; R11; R10; R9; R8; RBP; RDI; RSI; RDX; RCX; RBX; RAX].

Definition isr_enter (v : Z) : list instr := if isr_err v then [PushI v] else [PushI 0; PushI v].
Definition isr_common : list instr :=
  map PushR saved ++ [MovR RDI RSP; CallDispatch] ++ map PopR restored ++ [AddI RSP 16; Iretq].

(** The stub of the vector and the common part it jumps to. *)
Definition isr_stub (v : Z) : list instr := isr_enter v ++ isr_common.
Definition isr_stub_table : list (list instr) := map (fun i => isr_stub (Z.of_nat i)) (seq 0 256).

(** [interrupt_frame_t] in memory: fifteen registers, then these fields. *)
Definition frame_at (m : mem) (p : Z) : outcome interrupt_frame :=
  n ← ld64 m (p + 120); e ← ld64 m (p + 128); i ← ld64 m (p + 136); mret (mk_frame n e i).

Section Run.
(** What [isr_dispatch] does to the rest of the kernel, and its code to the processor. *)
Context {W : Type} (dispatch : interrupt_frame -> W -> outcome W) (scratch : cpu -> cpu).

(** A call from a stack that is not aligned to 16 bytes breaks the calling convention. *)
Definition call_dispatch (c : cpu) (w : W) : outcome (cpu * W) :=
  if negb (gpr c RSP mod 16 =? 0) then Fault
  else f ← frame_at (ram c) (gpr c RDI); w ← dispatch f w; mret (scratch c, w).

Definition exec_instr (i : instr) (s : cpu * W) : outcome (cpu * W) :=
  let '(c, w) := s in
  match i with
  | PushR r => c ← push (gpr c r) c; mret (c, w)
  | PushI v => c ← push v c; mret (c, w)
  | MovR d s => mret (set_reg d (gpr c s) c, w)
  | AddI d v => mret (set_reg d (u64 (gpr c d + v)) c, w)
  | PopR r => '(v, c) ← pop c; mret (set_reg r v c, w)
  | CallDispatch => call_dispatch c w
  | Iretq => c ← iretq c; mret (c, w)
  end.

Fixpoint exec (l : list instr) (s : cpu * W) : outcome (cpu * W) :=
  match l with [] => mret s | i :: l' => s ← exec_instr i s; exec l' s end.

(** An interrupt: the processor finds the gate of the vector, the stub runs. *)
Definition interrupt (entry : Z -> Z) (v err : Z) (c : cpu) (w : W) : outcome (cpu * W) :=
  c ← deliver_vector (entry v) 0x08 v err c;
  match isr_stub_table !! Z.to_nat v with
  | Some code => exec code (c, w)
  | None => Fault
  end.
End Run.

(** ** The stack as a list of words *)

(** The words [l] lie at [p], the first at the lowest address. *)
Definition words (m : mem) (p : Z) (l : list Z) : Prop :=
  forall i v, l !! i = Some v -> ld64 m (p + 8 * Z.of_nat i) = Done v.

(** [l] has been pushed below [top]; the bytes of [top, bound) are those of [m0]. *)
Record stacked (m0 : mem) (top bound : Z) (l : list Z) (c : cpu) : Prop := {
  sk_sp : gpr c RSP = top - 8 * Z.of_nat (length l);
  sk_top : 0 <= top - 8 * Z.of_nat (length l) /\ top < 2 ^ 64;
  sk_words : words (ram c) (gpr c RSP) l;
  sk_above : forall a, top <= a < bound -> ram c !! a = m0 !! a
}.

(** Everything but the stack pointer and the stack. *)
Definition same_regs (c c' : cpu) : Prop :=
  (forall r, r <> RSP -> gpr c' r = gpr c r) /\ cip c' = cip c /\ cs c' = cs c /\ rflags c' = rflags c /\ ss c' = ss c.

#[export] Instance same_regs_refl : Reflexive same_regs.
Proof. intros c. repeat split. Qed.
#[export] Instance same_regs_trans : Transitive same_regs.
Proof. intros a b c [H1 (E1 & E2 & E3 & E4)] [H2 (F1 & F2 & F3 & F4)]. split; [intros r Hr; rewrite H2, H1 by exact Hr; reflexivity|]. repeat split; congruence. Qed.

Lemma set_reg_eq r v c : gpr (set_reg r v c) r = v.
Proof. cbn. rewrite bool_decide_true by reflexivity. reflexivity. Qed.
Lemma set_reg_ne r r' v c : r' <> r -> gpr (set_reg r v c) r' = gpr c r'.
Proof. intros H. cbn. rewrite bool_decide_false by exact H. reflexivity. Qed.

Lemma push_word_returns m0 top bound l c v lo :
  stacked m0 top bound l c -> 0 <= v < 2 ^ 64 -> 0 <= lo <= gpr c RSP - 8 -> mapped (ram c) lo (top - lo) ->
  returns (push v c) (fun c' => stacked m0 top bound (v :: l) c' /\ same_regs c c' /\ mapped (ram c') lo (top - lo)).
Proof.
  intros [Hsp Htop Hw Ha] Hv Hlo Hm. unfold push. rewrite u64_small by lia. apply returns_bind.
  eapply returns_mono; [apply (st_le_returns 8 (ram c) (gpr c RSP - 8) v); intros a H; apply Hm; lia|].
  intros m' (Hout & Hmap & Hld). apply returns_Done.
  assert (Esp : gpr (set_ram m' (set_reg RSP (gpr c RSP - 8) c)) RSP = gpr c RSP - 8) by apply (set_reg_eq RSP).
  split; [|split].
  - split; rewrite ?Esp; cbn [length ram set_ram].
    + lia.
    + lia.
    + intros [|i] x Hx; cbn [lookup list_lookup] in Hx.
      * injection Hx as ->. replace (gpr c RSP - 8 + 8 * Z.of_nat 0) with (gpr c RSP - 8) by lia. unfold ld64. rewrite Hld.
        f_equal. apply Z.mod_small. exact Hv.
      * replace (gpr c RSP - 8 + 8 * Z.of_nat (S i)) with (gpr c RSP + 8 * Z.of_nat i) by lia. unfold ld64.
        rewrite (ld_le_frame 8 _ m' _ _ _ Hout) by lia. exact (Hw i x Hx).
    + intros a H. rewrite Hout by lia. exact (Ha a H).
  - split; [intros r Hr; exact (set_reg_ne RSP r _ c Hr)|repeat split].
  - cbn [ram set_ram]. apply Hmap, Hm.
Qed.

Lemma push_all_returns m0 top bound lo : forall vs l c,
  stacked m0 top bound l c -> Forall (fun v => 0 <= v < 2 ^ 64) vs ->
  0 <= lo <= gpr c RSP - 8 * Z.of_nat (length vs) -> mapped (ram c) lo (top - lo) ->
  returns (push_all vs c) (fun c' => stacked m0 top bound (rev vs ++ l) c' /\ same_regs c c' /\ mapped (ram c') lo (top - lo)).
Proof.
  induction vs as [|v vs IH]; intros l c Hs Hv Hlo Hm; [apply returns_Done; split; [exact Hs|split; [reflexivity|exact Hm]]|].
  inversion_clear Hv as [|? ? Hv1 Hv2]. cbn [length] in Hlo. cbn [push_all]. apply returns_bind.
  eapply returns_mono; [apply (push_word_returns m0 top bound l c v lo Hs Hv1); [lia|exact Hm]|].
  intros c1 (H1 & R1 & M1). eapply returns_mono; [apply (IH (v :: l) c1 H1 Hv2); [|exact M1]|].
  - rewrite (sk_sp _ _ _ _ _ H1). rewrite (sk_sp _ _ _ _ _ Hs) in Hlo. cbn [length]. lia.
  - intros c2 (H2 & R2 & M2). cbn [rev]. rewrite <- app_assoc. split; [exact H2|]. split; [transitivity c1; assumption|exact M2].
Qed.

Lemma pop_word_returns m0 top bound v l c :
  stacked m0 top bound (v :: l) c -> exists c', pop c = Done (v, c') /\ stacked m0 top bound l c' /\ same_regs c c'.
Proof.
  intros [Hsp Htop Hw Ha]. cbn [length] in *. unfold pop. pose proof (Hw 0%nat v eq_refl) as H0.
  replace (gpr c RSP + 8 * Z.of_nat 0) with (gpr c RSP) in H0 by lia. rewrite H0, bind_Done, u64_small by lia.
  eexists. split; [reflexivity|]. split; [split; rewrite ?set_reg_eq|].
  - lia.
  - lia.
  - intros i x Hx. cbn [ram set_reg]. replace (gpr c RSP + 8 + 8 * Z.of_nat i) with (gpr c RSP + 8 * Z.of_nat (S i)) by lia.
    exact (Hw (S i) x Hx).
  - exact Ha.
  - split; [intros r Hr; exact (set_reg_ne RSP r _ c Hr)|repeat split].
Qed.

(** Dropping words without reading them. *)
Lemma drop_stacked m0 top bound l1 l2 c :
  stacked m0 top bound (l1 ++ l2) c -> stacked m0 top bound l2 (set_reg RSP (u64 (gpr c RSP + 8 * Z.of_nat (length l1))) c).
Proof.
  intros [Hsp Htop Hw Ha]. rewrite length_app in *. rewrite u64_small by lia. split; rewrite ?set_reg_eq.
  - lia.
  - lia.
  - intros i x Hx. cbn [ram set_reg].
    replace (gpr c RSP + 8 * Z.of_nat (length l1) + 8 * Z.of_nat i) with (gpr c RSP + 8 * Z.of_nat (length l1 + i)) by lia.
    apply Hw. rewrite lookup_app_r, Nat.add_comm, Nat.add_sub by lia. exact Hx.
  - exact Ha.
Qed.

Lemma iretq_returns m0 top bound i s f sp st l c :
  stacked m0 top bound ([i; s; f; sp; st] ++ l) c ->
  exists c', iretq c = Done c' /\ cip c' = i /\ cs c' = s /\ rflags c' = f /\ ss c' = st /\ gpr c' RSP = sp /\
    (forall r, r <> RSP -> gpr c' r = gpr c r) /\ forall a, top <= a < bound -> ram c' !! a = m0 !! a.
Proof.
  intros H. unfold iretq.
  destruct (pop_word_returns _ _ _ _ _ _ H) as (c1 & -> & H1 & R1). rewrite bind_Done.
  destruct (pop_word_returns _ _ _ _ _ _ H1) as (c2 & -> & H2 & R2). rewrite bind_Done.
  destruct (pop_word_returns _ _ _ _ _ _ H2) as (c3 & -> & H3 & R3). rewrite bind_Done.
  destruct (pop_word_returns _ _ _ _ _ _ H3) as (c4 & -> & H4 & R4). rewrite bind_Done.
  destruct (pop_word_returns _ _ _ _ _ _ H4) as (c5 & -> & H5 & R5). rewrite bind_Done.
  assert (R : same_regs c c5) by (transitivity c1; [exact R1|]; transitivity c2; [exact R2|]; transitivity c3; [exact R3|];
    transitivity c4; assumption).
  eexists. split; [reflexivity|]. repeat (split; [reflexivity|]).
  split; [intros r Hr; transitivity (gpr c5 r); [exact (set_reg_ne RSP r sp c5 Hr)|apply R, Hr]|exact (sk_above _ _ _ _ _ H5)].
Qed.

(** ** Runs of the stub *)
Section Stub.
Context {W : Type} (dispatch : interrupt_frame -> W -> outcome W) (scratch : cpu -> cpu).
Context (m0 : mem) (top bound lo : Z).

Lemma exec_app l1 l2 s : exec dispatch scratch (l1 ++ l2) s = (s ← exec dispatch scratch l1 s; exec dispatch scratch l2 s).
Proof.
  revert s. induction l1 as [|i l1 IH]; intros s; [reflexivity|]. cbn [app exec].
  destruct (exec_instr dispatch scratch i s) as [s1| | |]; try reflexivity. exact (IH s1).
Qed.

(** Registers pushed in turn. *)
Lemma exec_pushes : forall rs l c w,
  RSP ∉ rs -> stacked m0 top bound l c -> (forall r, r <> RSP -> 0 <= gpr c r < 2 ^ 64) ->
  0 <= lo <= gpr c RSP - 8 * Z.of_nat (length rs) -> mapped (ram c) lo (top - lo) ->
  returns (exec dispatch scratch (map PushR rs) (c, w)) (fun '(c', w') =>
    w' = w /\ stacked m0 top bound (rev (map (gpr c) rs) ++ l) c' /\ same_regs c c' /\ mapped (ram c') lo (top - lo)).
Proof.
  induction rs as [|r rs IH]; intros l c w Hsp Hs Hg Hlo Hm; [apply returns_Done; split; [reflexivity|split; [exact Hs|split; [reflexivity|exact Hm]]]|].
  apply not_elem_of_cons in Hsp as [Hr Hsp]. cbn [length map] in *. cbn [exec exec_instr]. apply returns_bind. apply returns_bind.
  eapply returns_mono; [apply (push_word_returns m0 top bound l c (gpr c r) lo Hs (Hg r ltac:(congruence))); [lia|exact Hm]|].
  intros c1 (H1 & R1 & M1). apply returns_Done. eapply returns_mono; [apply (IH (gpr c r :: l) c1 w Hsp H1); [| |exact M1]|].
  - intros r' Hr'. rewrite (proj1 R1 r' Hr'). exact (Hg r' Hr').
  - rewrite (sk_sp _ _ _ _ _ H1). rewrite (sk_sp _ _ _ _ _ Hs) in Hlo. cbn [length]. lia.
  - intros [c2 w2] (-> & H2 & R2 & M2). split; [reflexivity|]. cbn [rev]. rewrite <- app_assoc. split; [|split; [transitivity c1; assumption|exact M2]].
    replace (map (gpr c) rs) with (map (gpr c1) rs); [exact H2|]. apply map_ext_in. intros r' Hin. apply R1. intros ->.
    apply Hsp, list_elem_of_In, Hin.
Qed.

(** Registers popped in turn get the words of the stack. *)
Lemma exec_pops (f : reg -> Z) : forall rs l c w,
  RSP ∉ rs -> NoDup rs -> stacked m0 top bound (map f rs ++ l) c ->
  exists c', exec dispatch scratch (map PopR rs) (c, w) = Done (c', w) /\ stacked m0 top bound l c' /\
    (forall r, r ∈ rs -> gpr c' r = f r) /\ (forall r, r <> RSP -> r ∉ rs -> gpr c' r = gpr c r).
Proof.
  induction rs as [|r rs IH]; intros l c w Hsp Hnd Hs.
  { exists c. split; [reflexivity|]. split; [exact Hs|]. split; [intros r Hr; inversion Hr|reflexivity]. }
  apply not_elem_of_cons in Hsp as [Hr Hsp]. apply NoDup_cons in Hnd as [Hni Hnd]. cbn [map exec exec_instr].
  destruct (pop_word_returns _ _ _ _ _ _ Hs) as (c1 & E & H1 & R1). rewrite E, !bind_Done.
  assert (H1' : stacked m0 top bound (map f rs ++ l) (set_reg r (f r) c1)).
  { destruct H1 as [A B C E1]. split; rewrite ?(set_reg_ne r RSP) by congruence; assumption. }
  destruct (IH l _ w Hsp Hnd H1') as (c' & E' & Hs' & Hin & Hout). exists c'. split; [exact E'|]. split; [exact Hs'|]. split.
  - intros r' Hr'. destruct (decide (r' ∈ rs)) as [H|H]; [exact (Hin r' H)|].
    apply elem_of_cons in Hr' as [->|Hr']; [|contradiction]. rewrite (Hout r) by congruence. apply set_reg_eq.
  - intros r' Hn Hr'. apply not_elem_of_cons in Hr' as [Hne Hr']. rewrite (Hout r' Hn Hr'), (set_reg_ne r r' _ _ Hne). apply R1, Hn.
Qed.

(** The vector and the error code, which is 0 where the processor pushes none. *)
Lemma exec_enter v e l c w :
  0 <= v < 2 ^ 64 -> stacked m0 top bound ((if isr_err v then [e] else []) ++ l) c ->
  0 <= lo <= gpr c RSP - (if isr_err v then 8 else 16) -> mapped (ram c) lo (top - lo) ->
  returns (exec dispatch scratch (isr_enter v) (c, w)) (fun '(c', w') =>
    w' = w /\ stacked m0 top bound ([v; if isr_err v then e else 0] ++ l) c' /\ same_regs c c' /\ mapped (ram c') lo (top - lo)).
Proof.
  intros Hv Hs Hlo Hm. unfold isr_enter. destruct (isr_err v); cbn [exec exec_instr app] in *.
  - apply returns_bind. apply returns_bind. eapply returns_mono; [exact (push_word_returns _ _ _ _ _ v lo Hs Hv ltac:(lia) Hm)|].
    intros c1 H1. apply returns_Done. apply returns_Done. split; [reflexivity|exact H1].
  - apply returns_bind. apply returns_bind. eapply returns_mono; [exact (push_word_returns _ _ _ _ _ 0 lo Hs ltac:(lia) ltac:(lia) Hm)|].
    intros c1 (H1 & R1 & M1). apply returns_Done. apply returns_bind. apply returns_bind.
    assert (E1 : gpr c1 RSP = gpr c RSP - 8) by (rewrite (sk_sp _ _ _ _ _ H1), (sk_sp _ _ _ _ _ Hs); cbn [length]; lia).
    eapply returns_mono; [exact (push_word_returns _ _ _ _ _ v lo H1 Hv ltac:(lia) M1)|].
    intros c2 (H2 & R2 & M2). apply returns_Done. apply returns_Done. split; [reflexivity|]. split; [exact H2|].
    split; [transitivity c1; assumption|exact M2].
Qed.

(** What the C code leaves alone: the stack pointer, and the stack from there up to [bound]. *)
Record convention : Prop := {
  cc_sp : forall c, gpr (scratch c) RSP = gpr c RSP;
  cc_stack : forall c a, gpr c RSP <= a < bound -> ram (scratch c) !! a = ram c !! a
}.

Lemma scratch_stacked l c :
  convention -> top <= bound -> stacked m0 top bound l c -> stacked m0 top bound l (scratch c).
Proof.
  intros [Cs Cm] Hb [Hsp Htop Hw Ha]. split; rewrite ?Cs.
  - exact Hsp.
  - exact Htop.
  - intros i v Hi. unfold ld64. rewrite (ld_le_ext 8 (ram c)); [exact (Hw i v Hi)|]. intros a H. apply Cm.
    apply lookup_lt_Some in Hi. lia.
  - intros a H. rewrite Cm by lia. exact (Ha a H).
Qed.

Lemma frame_on_stack regs v e i l c :
  length regs = 15%nat -> stacked m0 top bound (regs ++ [v; e; i] ++ l) c ->
  frame_at (ram c) (gpr c RSP) = Done (mk_frame v e i).
Proof.
  intros Hl [_ _ Hw _]. unfold frame_at.
  assert (Hk : forall k x, ([v; e; i] ++ l) !! k = Some x -> ld64 (ram c) (gpr c RSP + 8 * Z.of_nat (15 + k)) = Done x).
  { intros k x Hx. apply Hw. rewrite lookup_app_r by lia. rewrite Hl. replace (15 + k - 15)%nat with k by lia. exact Hx. }
  rewrite (Hk 0%nat v eq_refl : ld64 _ (_ + 120) = _), bind_Done, (Hk 1%nat e eq_refl : ld64 _ (_ + 128) = _), bind_Done,
    (Hk 2%nat i eq_refl : ld64 _ (_ + 136) = _). reflexivity.
Qed.
End Stub.

(** ** An interrupt and its return *)

(** Registers that fit 64 bits, and room for the frame and the return address below the
    interrupted stack pointer. *)
Record interruptible (c : cpu) (bound : Z) : Prop := {
  in_regs : forall r, 0 <= gpr c r < 2 ^ 64;
  in_words : 0 <= cip c < 2 ^ 64 /\ 0 <= cs c < 2 ^ 64 /\ 0 <= rflags c < 2 ^ 64 /\ 0 <= ss c < 2 ^ 64;
  in_room : 208 <= gpr c RSP <= bound;
  in_stack : mapped (ram c) (gpr c RSP - 208) 208
}.

Lemma align16 x : ALIGN_DOWN x 16 = x / 16 * 16.
Proof. exact (land_lnot_pow2 x 4 ltac:(lia)). Qed.

Section Interrupt.
Context {W : Type} (dispatch : interrupt_frame -> W -> outcome W) (scratch : cpu -> cpu).

(** The words the interrupted context takes. *)
Definition context_words (c : cpu) : list Z := [cip c; cs c; rflags c; gpr c RSP; ss c].

(** An error code the stub does not know of. *)
Definition stray (v e : Z) : list Z := if pushes_error v && negb (isr_err v) then [e] else [].

(** The stack when the stub calls [isr_dispatch], from the frame up. *)
Definition frame_words (v e : Z) (c : cpu) : list Z :=
  map (gpr c) restored ++ [v; if isr_err v then e else 0] ++ stray v e ++ context_words c.

Lemma isr_err_pushes v : isr_err v = true -> pushes_error v = true.
Proof.
  unfold isr_err, pushes_error. rewrite !bool_decide_eq_true, !elem_of_cons, elem_of_nil. tauto.
Qed.

Lemma pushed_error v e : (if pushes_error v then [e] else []) = (if isr_err v then [e] else []) ++ stray v e.
Proof.
  unfold stray. destruct (isr_err v) eqn:E; [rewrite (isr_err_pushes v E); reflexivity|]. destruct (pushes_error v); reflexivity.
Qed.

(** Up to the call: the registers, the vector, the error code and the context. *)
Lemma enter_frame entry v e c bound w :
  interruptible c bound -> 0 <= v < 256 -> 0 <= e < 2 ^ 64 ->
  let top := gpr c RSP / 16 * 16 in
  returns (c1 ← deliver_vector entry 0x08 v e c; exec dispatch scratch (isr_enter v ++ map PushR saved) (c1, w))
    (fun '(c2, w') => w' = w /\ stacked (ram c) top bound (frame_words v e c) c2).
Proof.
  intros [Hr (Hi & Hcs & Hf & Hss) Hroom Hst] Hv He top. unfold deliver_vector. rewrite align16. fold top.
  assert (Htop : top <= gpr c RSP < top + 16) by (subst top; Z.to_euclidean_division_equations; lia).
  set (c0 := set_reg RSP top c).
  assert (H0 : stacked (ram c) top bound [] c0).
  { split; cbn [length]; unfold c0; rewrite ?set_reg_eq; [lia|pose proof (Hr RSP); lia| |intros a _; reflexivity].
    intros i x Hx. rewrite lookup_nil in Hx. discriminate. }
  assert (M0 : mapped (ram c0) (top - 184) (top - (top - 184))) by (intros a Ha; apply Hst; lia).
  assert (E0 : gpr c0 RSP = top) by apply set_reg_eq.
  apply returns_bind. apply returns_bind.
  eapply returns_mono; [apply (push_all_returns (ram c) top bound (top - 184) _ [] c0 H0); [| |exact M0]|].
  { apply Forall_app. split; [repeat constructor; first [apply Hr|lia]|]. destruct (pushes_error v); repeat constructor; lia. }
  { rewrite length_app, E0. cbn [length]. destruct (pushes_error v); cbn [length]; lia. }
  intros c1 (H1 & R1 & M1). apply returns_Done. set (c1' := mk_cpu _ _ _ _ _ _).
  assert (H1' : stacked (ram c) top bound ((if isr_err v then [e] else []) ++ stray v e ++ context_words c) c1').
  { rewrite rev_app_distr, app_nil_r in H1.
    replace (rev (if pushes_error v then [e] else [])) with (if pushes_error v then [e] else []) in H1 by (destruct (pushes_error v); reflexivity).
    rewrite pushed_error, <- app_assoc in H1. destruct H1 as [A B C E]. split; assumption. }
  assert (Hg : forall r, r <> RSP -> gpr c1' r = gpr c r).
  { intros r Hn. transitivity (gpr c0 r); [exact (proj1 R1 r Hn)|exact (set_reg_ne RSP r _ c Hn)]. }
  assert (Hst' : (length (stray v e) <= if isr_err v then 0 else 1)%nat)
    by (unfold stray; destruct (isr_err v), (pushes_error v); cbn; lia).
  rewrite exec_app. apply returns_bind. pose proof (sk_sp _ _ _ _ _ H1') as Esp.
  eapply returns_mono; [eapply (exec_enter dispatch scratch (ram c) top bound (top - 184) v e _ c1' w ltac:(lia) H1'); [|exact M1]|].
  { rewrite Esp, !length_app. destruct (isr_err v); cbn [length context_words]; lia. }
  intros [c2 w2] (-> & H2 & R2 & M2).
  assert (Hg2 : forall r, r <> RSP -> gpr c2 r = gpr c r) by (intros r Hn; rewrite (proj1 R2 r Hn); exact (Hg r Hn)).
  eapply returns_mono; [eapply (exec_pushes dispatch scratch (ram c) top bound (top - 184) saved _ c2 w)|].
  - apply (bool_decide_unpack (RSP ∉ saved)). reflexivity.
  - exact H2.
  - intros r Hn. rewrite (Hg2 r Hn). apply Hr.
  - rewrite (sk_sp _ _ _ _ _ H2), !length_app. destruct (isr_err v); cbn [length context_words saved]; lia.
  - exact M2.
  - intros [c3 w3] (-> & H3 & _). split; [reflexivity|].
    replace (map (gpr c2) saved) with (map (gpr c) saved) in H3 by (apply map_ext_in; intros r Hin; symmetry; apply Hg2; intros ->;
      repeat (destruct Hin as [Hin|Hin]; [discriminate Hin|]); exact Hin).
    rewrite <- map_rev in H3. exact H3.
Qed.

(** The interrupted code finds its registers, its place and its stack again. *)
Definition resumed (c : cpu) (bound : Z) (c' : cpu) : Prop :=
  (forall r, gpr c' r = gpr c r) /\ cip c' = cip c /\ cs c' = cs c /\ rflags c' = rflags c /\ ss c' = ss c /\
  forall a, gpr c RSP <= a < bound -> ram c' !! a = ram c !! a.

(** From the frame on: the call, the pops and the return. *)
Lemma leave_frame v e0 c bound c2 w :
  convention scratch bound -> gpr c RSP <= bound -> stray v e0 = [] -> let e := if isr_err v then e0 else 0 in
  stacked (ram c) (gpr c RSP / 16 * 16) bound (frame_words v e0 c) c2 ->
  let run := exec dispatch scratch ([MovR RDI RSP; CallDispatch] ++ map PopR restored ++ [AddI RSP 16; Iretq]) (c2, w) in
  (dispatch (mk_frame v e (cip c)) w = Panicked -> run = Panicked) /\
  forall w', dispatch (mk_frame v e (cip c)) w = Done w' -> returns run (fun '(c', w'') => w'' = w' /\ resumed c bound c').
Proof.
  intros Hcc Hb Hno e Hs. unfold frame_words in Hs. rewrite Hno in Hs. fold e in Hs. set (top := gpr c RSP / 16 * 16) in *. set (c3 := set_reg RDI (gpr c2 RSP) c2).
  assert (Htop : top <= gpr c RSP) by (subst top; Z.to_euclidean_division_equations; lia).
  assert (Hs3 : stacked (ram c) top bound (map (gpr c) restored ++ [v; e] ++ context_words c) c3) by (destruct Hs as [A B C E]; split; assumption).
  assert (Esp : gpr c3 RSP = top - 176) by exact (sk_sp _ _ _ _ _ Hs3).
  assert (Edi : gpr c3 RDI = gpr c3 RSP) by reflexivity.
  assert (Ef : frame_at (ram c3) (gpr c3 RDI) = Done (mk_frame v e (cip c)))
    by (rewrite Edi; exact (frame_on_stack (ram c) top bound (map (gpr c) restored) v e (cip c) _ c3 eq_refl Hs3)).
  assert (Ecall : exec_instr dispatch scratch CallDispatch (c3, w) =
    (w' ← dispatch (mk_frame v e (cip c)) w; mret (scratch c3, w'))).
  { cbn [exec_instr]. unfold call_dispatch. rewrite Esp. replace ((top - 176) mod 16) with 0
      by (subst top; Z.to_euclidean_division_equations; lia). cbn [Z.eqb negb]. rewrite Ef. reflexivity. }
  cbn [app exec]. change (exec_instr dispatch scratch (MovR RDI RSP) (c2, w)) with (Done (c3, w)). rewrite bind_Done, Ecall.
  split; [intros ->; reflexivity|]. intros w' ->. rewrite !bind_Done.
  pose proof (scratch_stacked scratch (ram c) top bound _ c3 Hcc ltac:(lia) Hs3) as H4.
  destruct (exec_pops dispatch scratch (ram c) top bound (gpr c) restored ([v; e] ++ context_words c) (scratch c3) w') as (c5 & E5 & H5 & Hin & _);
    [apply (bool_decide_unpack (RSP ∉ restored)); reflexivity|apply (bool_decide_unpack (NoDup restored)); reflexivity|exact H4|].
  rewrite exec_app, E5, bind_Done. cbn [exec exec_instr]. rewrite bind_Done. cbn [exec_instr].
  pose proof (drop_stacked _ _ _ [v; e] _ _ H5) as H6. change (8 * Z.of_nat (length [v; e])) with 16 in H6.
  destruct (iretq_returns _ _ _ _ _ _ _ _ [] _ H6) as (c7 & -> & Ei & Ecs & Efl & Ess & Esp7 & Hg & Hram).
  apply returns_Done. split; [reflexivity|]. split; [|repeat (split; [assumption|]); intros a Ha; apply Hram; lia].
  intros r. destruct (decide (r = RSP)) as [->|Hr]; [exact Esp7|]. rewrite (Hg r Hr), set_reg_ne by exact Hr. apply Hin.
  revert r Hr. intros []; first [congruence|intros _; apply (bool_decide_unpack (_ ∈ restored)); reflexivity].
Qed.

Lemma stub_entry v : 0 <= v < 256 -> isr_stub_table !! Z.to_nat v = Some (isr_stub v).
Proof.
  intros Hv. unfold isr_stub_table. rewrite list_lookup_fmap, lookup_seq_lt by lia. cbn. f_equal. f_equal. lia.
Qed.

Lemma interrupt_returns entry v e c bound w :
  convention scratch bound -> interruptible c bound -> 0 <= v < 256 -> 0 <= e < 2 ^ 64 -> stray v e = [] ->
  let frame := mk_frame v (if isr_err v then e else 0) (cip c) in
  (dispatch frame w = Panicked -> interrupt dispatch scratch entry v e c w = Panicked) /\
  forall w', dispatch frame w = Done w' ->
    returns (interrupt dispatch scratch entry v e c w) (fun '(c', w'') => w'' = w' /\ resumed c bound c').
Proof.
  intros Hcc Hc Hv He Herr frame. destruct (enter_frame (entry v) v e c bound w Hc Hv He) as ([c2 w2] & E & -> & Hs).
  pose proof (leave_frame v e c bound c2 w Hcc (proj2 (in_room _ _ Hc)) Herr Hs) as Hl. cbv zeta in Hl.
  unfold interrupt. rewrite (stub_entry v Hv).
  assert (Erun : (c0 ← deliver_vector (entry v) 8 v e c; exec dispatch scratch (isr_stub v) (c0, w)) =
    exec dispatch scratch ([MovR RDI RSP; CallDispatch] ++ map PopR restored ++ [AddI RSP 16; Iretq]) (c2, w)).
  { unfold isr_stub, isr_common. destruct (deliver_vector (entry v) 8 v e c) as [c1| | |]; try discriminate E.
    rewrite bind_Done in E |- *. rewrite app_assoc, exec_app, E. reflexivity. }
  rewrite Erun. exact Hl.
Qed.

(** Exceptions 29 and 30, for which the stubs push a 0 in addition to the error code of the
    processor: [isr_dispatch] is called on a stack that is not aligned, and its frame holds
    the error code where it reads the instruction pointer. *)
Lemma stray_error_code entry v e c bound w :
  interruptible c bound -> v = 29 \/ v = 30 -> 0 <= e < 2 ^ 64 ->
  interrupt dispatch scratch entry v e c w = Fault /\
  returns (c1 ← deliver_vector (entry v) 0x08 v e c; exec dispatch scratch (isr_enter v ++ map PushR saved) (c1, w))
    (fun '(c2, _) => frame_at (ram c2) (gpr c2 RSP) = Done (mk_frame v 0 e)).
Proof.
  intros Hc Hv He. assert (Hv' : 0 <= v < 256) by lia.
  assert (Hx : stray v e = [e] /\ isr_err v = false) by (destruct Hv as [->| ->]; split; reflexivity). destruct Hx as [Ex Er].
  destruct (enter_frame (entry v) v e c bound w Hc Hv' He) as ([c2 w2] & E & -> & Hs). unfold frame_words in Hs. rewrite Ex, Er in Hs.
  split; [|rewrite E; apply returns_Done; exact (frame_on_stack _ _ _ (map (gpr c) restored) v 0 e _ c2 eq_refl Hs)].
  unfold interrupt. rewrite (stub_entry v Hv').
  destruct (deliver_vector (entry v) 8 v e c) as [c1| | |]; try discriminate E. rewrite bind_Done in E |- *.
  unfold isr_stub, isr_common. rewrite app_assoc, exec_app, E, bind_Done. cbn [app exec].
  assert (Ec : call_dispatch dispatch scratch (set_reg RDI (gpr c2 RSP) c2) w = Fault).
  { unfold call_dispatch. change (gpr (set_reg RDI (gpr c2 RSP) c2) RSP) with (gpr c2 RSP). rewrite (sk_sp _ _ _ _ _ Hs).
    change (Z.of_nat (length _)) with 23. replace ((gpr c RSP / 16 * 16 - 8 * 23) mod 16) with 8
      by (Z.to_euclidean_division_equations; lia). reflexivity. }
  change (exec_instr dispatch scratch (MovR RDI RSP) (c2, w)) with (Done (set_reg RDI (gpr c2 RSP) c2, w)). rewrite bind_Done.
  cbn [exec_instr]. rewrite Ec. reflexivity.
Qed.
End Interrupt.

Lemma no_stray v e : v <> 29 -> v <> 30 -> stray v e = [] /\ isr_err v = pushes_error v.
Proof.
  intros H1 H2. assert (E : isr_err v = pushes_error v).
  { unfold isr_err, pushes_error. apply bool_decide_ext. rewrite !elem_of_cons, elem_of_nil. tauto. }
  split; [|exact E]. unfold stray. rewrite E. destruct (pushes_error v); reflexivity.
Qed.

(** C33: An interrupt of any vector but the two above reaches [isr_dispatch] with a frame that
    holds the vector, the error code of the processor (0 where there is none) and the
    address of the interrupted instruction, on an aligned stack.  An exception panics;
    everything else returns to the interrupted code with all its registers, flags and
    segments as they were and its stack untouched, whatever the handlers do to registers:
    the state of the kernel is then the one [isr_dispatch] leaves. *)
Theorem interrupts_resume {D} `{PortIO D} {W} (call : Z -> interrupt_frame -> intr D -> W -> outcome (intr D * W))
    scratch entry v e c bound s w :
  convention scratch bound -> interruptible c bound -> 0 <= v < 256 -> 0 <= e < 2 ^ 64 -> v <> 29 -> v <> 30 ->
  let run := interrupt (fun f '(s, w) => isr_dispatch call f s w) scratch entry v e c (s, w) in
  (v < 32 -> run = Panicked) /\
  forall s' w', isr_dispatch call (mk_frame v (if pushes_error v then e else 0) (cip c)) s w = Done (s', w') ->
    returns run (fun '(c', r) => r = (s', w') /\ resumed c bound c').
Proof.
  intros Hcc Hc Hv He H1 H2 run. destruct (no_stray v e H1 H2) as [Hno Er].
  destruct (interrupt_returns (fun f '(s, w) => isr_dispatch call f s w) scratch entry v e c bound (s, w) Hcc Hc Hv He Hno) as [Hp Hd].
  rewrite Er in Hp, Hd. split; [|intros s' w' E; exact (Hd (s', w') E)].
  intros Hx. apply Hp. unfold isr_dispatch. cbn [int_no]. destruct (Z.ltb_spec v 32); [reflexivity|lia].
Qed.

(** ** A tick of the timer *)
Definition demo_cpu : cpu :=
  mk_cpu (fun r => if bool_decide (r = RSP) then 1000 else 0x1234) 0x100000 0x08 0x202 0x10 (mem_of_list 0 (replicate 1024 0)).
(** A body that uses two registers. *)
Definition demo_scratch (c : cpu) : cpu := set_reg RAX 0 (set_reg RBX 7 c).

Lemma demo_convention : convention demo_scratch 1024.
Proof. split; reflexivity. Qed.

Lemma demo_interruptible : interruptible demo_cpu 1024.
Proof.
  split.
  - intros r. unfold demo_cpu. cbn [gpr]. case_bool_decide; lia.
  - cbn. lia.
  - change (208 <= 1000 <= 1024). lia.
  - change (mapped (mem_of_list 0 (replicate 1024 0)) (1000 - 208) 208). intros a Ha.
    apply (mem_of_list_mapped 0 (replicate 1024 0) 0 1024); [lia|reflexivity|lia].
Qed.

Lemma interrupts_resume_witness :
  returns (interrupt (fun f '(s, t) => isr_dispatch (fun _ _ s t => Done (s, timer_irq t)) f s t) demo_scratch
             (fun v => 0x200000 + 16 * v) 32 0 demo_cpu
             (mk_intr [] (<[0%nat := 1]> (replicate 16 0)) (mk_pics 0 0 0 0), mk_timer 41 100))
    (fun '(c', (_, t)) => g_ticks t = 42 /\ gpr c' RAX = 0x1234 /\ gpr c' RBX = 0x1234 /\ gpr c' RSP = 1000 /\ cip c' = 0x100000).
Proof.
  destruct (interrupts_resume (fun _ _ s t => Done (s, timer_irq t)) demo_scratch (fun v => 0x200000 + 16 * v) 32 0 demo_cpu 1024
    (mk_intr [] (<[0%nat := 1]> (replicate 16 0)) (mk_pics 0 0 0 0)) (mk_timer 41 100) demo_convention demo_interruptible) as [_ Hr];
    [lia|lia|lia|lia|].
  eapply returns_mono; [exact (Hr _ _ eq_refl)|]. intros [c' [s t]] [[= _ ->] (Hg & Hip & _)].
  split; [reflexivity|]. rewrite !Hg. split; [reflexivity|]. split; [reflexivity|]. split; [reflexivity|exact Hip].
Defined.
