(* ===== verification/Rtc.v ===== *)
(** * CMOS clock: [drivers/rtc/rtc.c] *)
From Stdlib Require Import ZArith Lia Bool.
From stdpp Require Import base tactics list numbers.
From S2P Require Import Prelude CInt Io.

Record rtc_time := mk_time { second : Z; minute : Z; hour : Z; day : Z; month : Z; year : Z }.

Definition bcd_to_bin (v : Z) : Z := u8 (Z.land v 0x0F + Z.shiftr v 4 * 10).

Section Rtc.
Context {D : Type} `{PortIO D}.

Definition cmos_read (d : D) (reg : Z) : Z * D := inb (outb d 0x70 reg) 0x71.

(** The wait for the end of an update; [polls] bounds it. *)
Definition rtc_wait (polls : nat) (d : D) : outcome D :=
  loop polls (fun d => let '(v, d) := cmos_read d 0x0A in
    mret (if Z.land v 0x80 =? 0 then inr d else inl d)) d.

Definition rtc_read (polls : nat) (d : D) : outcome (rtc_time * D) :=
  d ← rtc_wait polls d;
  let '(sec, d) := cmos_read d 0x00 in
  let '(min, d) := cmos_read d 0x02 in
  let '(hr, d) := cmos_read d 0x04 in
  let '(da, d) := cmos_read d 0x07 in
  let '(mon, d) := cmos_read d 0x08 in
  let '(yr, d) := cmos_read d 0x09 in
  let '(cent, d) := cmos_read d 0x32 in
  let '(regb, d) := cmos_read d 0x0B in
  let conv v := if Z.land regb 0x04 =? 0 then bcd_to_bin v else v in
  let y := u16 (conv cent * 100 + conv yr) in
  mret (mk_time (conv sec) (conv min) (conv hr) (conv da) (conv mon) (if y <? 2000 then u16 (y + 2000) else y), d).

(** [rtc_init] reads the clock to log it; the time is what it logs. *)
Definition rtc_init (polls : nat) (d : D) : outcome (rtc_time * D) := rtc_read polls d.
End Rtc.

(** ** The clock chip

    What the driver relies on: [cmos_reg d r] is register [r], which reading it returns;
    [busy d] is the number of reads of status A that still report an update. *)
Class Cmos (D : Type) `{PortIO D} := { cmos_reg : D -> Z -> Z; busy : D -> nat }.
Class CmosLaws (D : Type) `{Cmos D} := {
  cmos_status : forall d, exists v d', cmos_read d 0x0A = (v, d') /\ cmos_reg d' = cmos_reg d /\
    busy d' = pred (busy d) /\ (Z.land v 0x80 = 0 <-> busy d = O);
  cmos_data : forall d r, r <> 0x0A -> exists d', cmos_read d r = (cmos_reg d r, d') /\ cmos_reg d' = cmos_reg d
}.

Definition bcd (n : Z) : Z := n / 10 * 16 + n mod 10.

Lemma bcd_to_bin_bcd n : 0 <= n < 100 -> bcd_to_bin (bcd n) = n.
Proof.
  intros Hn. unfold bcd_to_bin, bcd. pose proof (Z.mod_pos_bound n 10 ltac:(lia)). pose proof (Z.div_mod n 10 ltac:(lia)).
  change 0x0F with (Z.ones 4). rewrite Z.land_ones, Z.shiftr_div_pow2 by lia. change (2 ^ 4) with 16.
  rewrite (Z.add_comm (n / 10 * 16)), Z.mod_add, Z.mod_small, Z.div_add by lia.
  rewrite (Z.div_small (n mod 10) 16), u8_small by lia. lia.
Qed.

Section Theory.
Context {D : Type} `{CmosLaws D}.

Lemma rtc_wait_returns polls : forall d, (busy d < polls)%nat ->
  returns (rtc_wait polls d) (fun d' => cmos_reg d' = cmos_reg d).
Proof.
  unfold rtc_wait. intros d Hd.
  apply (loop_total (fun d' => cmos_reg d' = cmos_reg d) _ busy); [|reflexivity|exact Hd].
  intros d1 E1. destruct (cmos_status d1) as (v & d2 & -> & Hr & Hb & Hv). apply returns_Done.
  destruct (Z.eqb_spec (Z.land v 0x80) 0) as [E|E].
  - congruence.
  - split; [congruence|]. rewrite Hb. destruct (busy d1); [tauto|]. cbn. lia.
Qed.

(** The registers hold the time: in BCD, or in binary when bit 2 of status B is set. *)
Definition clock_shows (d : D) (t : rtc_time) : Prop :=
  0 <= second t < 60 /\ 0 <= minute t < 60 /\ 0 <= hour t < 24 /\ 1 <= day t <= 31 /\ 1 <= month t <= 12 /\
  0 <= year t < 10000 /\
  let enc v := if Z.land (cmos_reg d 0x0B) 0x04 =? 0 then bcd v else v in
  cmos_reg d 0x00 = enc (second t) /\ cmos_reg d 0x02 = enc (minute t) /\ cmos_reg d 0x04 = enc (hour t) /\
  cmos_reg d 0x07 = enc (day t) /\ cmos_reg d 0x08 = enc (month t) /\
  cmos_reg d 0x09 = enc (year t mod 100) /\ cmos_reg d 0x32 = enc (year t / 100).

(** Reads the next register by [Hread]; the states are named after [d]. *)
Ltac read_register Hread d := match goal with |- context [cmos_read ?x ?r] =>
  let E := fresh "E" in let E' := fresh "E'" in let d' := fresh d in
  destruct (Hread x r ltac:(assumption || reflexivity) ltac:(lia)) as (d' & E & E'); rewrite E end.

(** C39: [rtc_read] waits for the end of an update and decodes the clock, in BCD and in
    binary mode alike; the year is right from 2000 on, and 2000 too high before
    (1999, with its century register, is read as 3999). *)
Theorem rtc_read_decodes polls d t :
  clock_shows d t -> (busy d < polls)%nat ->
  returns (rtc_read polls d) (fun '(r, _) =>
    r = mk_time (second t) (minute t) (hour t) (day t) (month t)
          (if year t <? 2000 then year t + 2000 else year t)).
Proof.
  intros (Hs & Hm & Hh & Hd & Hmo & Hy & Hc) Hb. unfold rtc_read.
  destruct (rtc_wait_returns polls d Hb) as (d0 & -> & E). rewrite bind_Done. rewrite <- E in Hc. clear E Hb.
  assert (Hread : forall d1 r, cmos_reg d1 = cmos_reg d0 -> r <> 0x0A ->
    exists d2, cmos_read d1 r = (cmos_reg d0 r, d2) /\ cmos_reg d2 = cmos_reg d0).
  { intros d1 r E Hr. destruct (cmos_data d1 r Hr) as (d2 & -> & E2). exists d2. rewrite <- E. auto. }
  do 8 read_register Hread d. apply returns_Done. destruct Hc as (-> & -> & -> & -> & -> & -> & ->).
  pose proof (Z.mod_pos_bound (year t) 100 ltac:(lia)). pose proof (Z.div_mod (year t) 100 ltac:(lia)).
  assert (0 <= year t / 100 < 100) by (split; [apply Z.div_pos; lia|apply Z.div_lt_upper_bound; lia]).
  destruct (Z.land (cmos_reg d0 11) 4 =? 0).
  - rewrite !bcd_to_bin_bcd by lia. replace (year t / 100 * 100 + year t mod 100) with (year t) by lia.
    rewrite (u16_small (year t)) by lia. destruct (Z.ltb_spec (year t) 2000); [rewrite u16_small by lia|]; reflexivity.
  - replace (year t / 100 * 100 + year t mod 100) with (year t) by lia.
    rewrite (u16_small (year t)) by lia. destruct (Z.ltb_spec (year t) 2000); [rewrite u16_small by lia|]; reflexivity.
Qed.
End Theory.

(** ** A concrete chip: the selected register, the registers, the reads an update lasts *)
Record chip := mk_chip { selected : Z; values : Z -> Z; updating : nat }.
#[export] Instance chip_io : PortIO chip := {
  inb d p :=
    if Z.eqb p 0x71 then
      if Z.eqb (selected d) 0x0A
      then (match updating d with O => 0 | S _ => 0x80 end, mk_chip (selected d) (values d) (pred (updating d)))
      else (values d (selected d), d)
    else (0, d);
  outb d p v := if Z.eqb p 0x70 then mk_chip v (values d) (updating d) else d;
  outw d _ _ := d;
  in_l d _ := (0, d);
  out_l d _ _ := d
}.
#[export] Instance chip_cmos : Cmos chip := { cmos_reg := values; busy := updating }.
#[export] Instance chip_laws : CmosLaws chip.
Proof.
  split.
  - intros [s v u]. eexists _, _. split; [reflexivity|]. split; [reflexivity|]. split; [reflexivity|].
    destruct u; [split; reflexivity|split; discriminate].
  - intros [s v u] r Hr. eexists. unfold cmos_read. cbn [outb inb chip_io selected updating values].
    rewrite !Z.eqb_refl; cbn [selected updating values]; rewrite (proj2 (Z.eqb_neq r 0x0A) Hr). split; reflexivity.
Qed.

(** 23:59:58 on 31 December 1999, in BCD. *)
Definition party : chip :=
  mk_chip 0 (fun r => match r with 0 => 0x58 | 2 => 0x59 | 4 => 0x23 | 7 => 0x31 | 8 => 0x12 | 9 => 0x99 | 50 => 0x19 | _ => 0 end) 3.

Lemma rtc_read_decodes_witness :
  returns (rtc_read 5 party) (fun '(r, _) =>
    r = mk_time 58 59 23 31 12 (if 1999 <? 2000 then 1999 + 2000 else 1999)).
Proof.
  apply (rtc_read_decodes 5 party (mk_time 58 59 23 31 12 1999)); [|cbn; lia].
  unfold clock_shows. cbn. repeat split; lia || reflexivity.
Defined.
