(* ===== verification/Pci.v ===== *)
(** * PCI enumeration: [drivers/pci/pci.c]

    The table of the devices found, and the scan of configuration space through the
    address and data ports. *)
From Stdlib Require Import ZArith Lia Bool.
From stdpp Require Import base tactics option list numbers.
From S2P Require Import Prelude CInt Io.

Definition PCI_MAX_DEVICES : Z := 64.

Record pci_device := mk_device {
  bus : Z; slot : Z; func : Z; vendor : Z; device : Z; class_code : Z; subclass : Z; prog_if : Z
}.
Record pci := mk_pci { devices : list pci_device; device_count : Z }.

(** The address of a register, as the kernel composes it. *)
Definition cfg_address (b s f offset : Z) : Z :=
  Z.lor (Z.lor (Z.lor (Z.lor (Z.shiftl 1 31) (Z.shiftl b 16)) (Z.shiftl s 11)) (Z.shiftl f 8)) (Z.land offset 0xFC).

Section Scan.
Context {D : Type} `{PortIO D}.

Definition pci_cfg_read (d : D) (b s f offset : Z) : Z * D :=
  in_l (out_l d 0xCF8 (cfg_address b s f offset)) 0xCFC.

Definition to_device (b s f id reg2 : Z) : pci_device :=
  mk_device (u8 b) s f (u16 (Z.land id 0xFFFF)) (u16 (Z.shiftr id 16))
    (u8 (Z.shiftr reg2 24)) (u8 (Z.shiftr reg2 16)) (u8 (Z.shiftr reg2 8)).

(** One function of a slot: go on, [break] ([inr (false, _)]) or [goto done]. *)
Definition scan_func (b s f : Z) (st : pci * D) : outcome ((pci * D) + bool * (pci * D)) :=
  let '(p, d) := st in
  let '(id, d) := pci_cfg_read d (u8 b) s f 0 in
  if u16 (Z.land id 0xFFFF) =? 0xFFFF then
    mret (if f =? 0 then inr (false, (p, d)) else inl (p, d))
  else if PCI_MAX_DEVICES <=? device_count p then mret (inr (true, (p, d)))
  else
    let '(reg2, d) := pci_cfg_read d (u8 b) s f 0x08 in
    l ← arr_set (devices p) (device_count p) (to_device b s f id reg2);
    let p := mk_pci l (u32 (device_count p + 1)) in
    if f =? 0 then
      let '(ht, d) := pci_cfg_read d (u8 b) s 0 0x0C in
      mret (if Z.land (Z.shiftr ht 16) 0x80 =? 0 then inr (false, (p, d)) else inl (p, d))
    else mret (inl (p, d)).

Definition scan_slot (b s : Z) (st : pci * D) : outcome ((pci * D) + (pci * D)) :=
  r ← for_ret 0 8 (scan_func b s) st;
  mret (match r with inl st => inl st | inr (false, st) => inl st | inr (true, st) => inr st end).

Definition scan_bus (b : Z) (st : pci * D) : outcome ((pci * D) + (pci * D)) := for_ret 0 32 (scan_slot b) st.

Definition pci_init (p : pci) (d : D) : outcome (pci * D) :=
  r ← for_ret 0 256 scan_bus (mk_pci (devices p) 0, d);
  mret (match r with inl st => st | inr st => st end).
End Scan.

(** ** Any bus

    Whatever the configuration space answers, the scan ends and the table stays one. *)
Section AnyBus.
Context {D : Type} `{PortIO D}.

Definition table_ok (p : pci) : Prop := length (devices p) = 64%nat /\ 0 <= device_count p <= 64.

Lemma scan_func_ok b s f (st : pci * D) :
  table_ok (fst st) ->
  returns (scan_func b s f st) (fun r => match r with inl st' => table_ok (fst st') | inr (_, st') => table_ok (fst st') end).
Proof.
  intros [Hl Hc]. destruct st as [p d]. cbn [fst] in *. unfold scan_func. destruct (pci_cfg_read d _ _ _ _) as [id d1].
  destruct (_ =? 0xFFFF); [apply returns_Done; destruct (f =? 0); split; assumption|].
  unfold PCI_MAX_DEVICES. destruct (Z.leb_spec 64 (device_count p)); [apply returns_Done; split; assumption|].
  destruct (pci_cfg_read d1 _ _ _ _) as [r2 d2]. rewrite arr_set_Done, bind_Done by lia.
  assert (Ht : table_ok (mk_pci (<[Z.to_nat (device_count p) := to_device b s f id r2]> (devices p)) (u32 (device_count p + 1)))).
  { split; cbn [devices device_count]; [rewrite length_insert; exact Hl|rewrite u32_small; lia]. }
  destruct (f =? 0); [destruct (pci_cfg_read d2 _ _ _ _) as [ht d3]; destruct (_ =? 0)|]; apply returns_Done; exact Ht.
Qed.

Lemma scan_slot_ok b s (st : pci * D) :
  table_ok (fst st) ->
  returns (scan_slot b s st) (fun r => match r with inl st' => table_ok (fst st') | inr st' => table_ok (fst st') end).
Proof.
  intros Ht. apply returns_bind.
  eapply returns_mono; [apply (for_ret_inv (fun _ st => table_ok (fst st)) (fun '(_, st) => table_ok (fst st)));
    [lia|exact Ht|]|].
  - intros f st1 _ Ht1. eapply returns_mono; [exact (scan_func_ok b s f st1 Ht1)|]. intros [st2|[br st2]]; auto.
  - intros [st1|[[|] st1]] Hr; apply returns_Done; exact Hr.
Qed.

Lemma pci_init_returns p (d : D) : length (devices p) = 64%nat -> returns (pci_init p d) (fun '(p', _) => table_ok p').
Proof.
  intros Hl. apply returns_bind.
  eapply returns_mono; [apply (for_ret_inv (fun _ st => table_ok (fst st)) (fun st => table_ok (fst st)));
    [lia|split; [exact Hl|cbn; lia]|]|].
  - intros b st _ Ht. unfold scan_bus.
    apply (for_ret_inv (fun _ st => table_ok (fst st)) (fun st => table_ok (fst st))); [lia|exact Ht|].
    intros s st1 _ Ht1. exact (scan_slot_ok b s st1 Ht1).
  - intros [[p1 d1]|[p1 d1]] Ht; apply returns_Done; exact Ht.
Qed.
End AnyBus.

Definition pci_device_count (p : pci) : Z := device_count p.
Definition pci_get (p : pci) (index : Z) : option pci_device :=
  if index <? device_count p then devices p !! Z.to_nat index else None.

(** ** Configuration space

    [config d a] is the register at address [a]; reading it through the ports gives it
    and leaves configuration space alone. *)
Class Pci (D : Type) `{PortIO D} := { config : D -> Z -> Z }.
Class PciLaws (D : Type) `{Pci D} := {
  config_read : forall d a, exists d', in_l (out_l d 0xCF8 a) 0xCFC = (config d a, d') /\ config d' = config d
}.

(** What there is to find, from the registers alone. *)
Section Reference.
Context (cfg : Z -> Z).

Definition exists_func (b s f : Z) : bool := negb (u16 (Z.land (cfg (cfg_address b s f 0)) 0xFFFF) =? 0xFFFF).
Definition multi_function (b s : Z) : bool := negb (Z.land (Z.shiftr (cfg (cfg_address b s 0 0x0C)) 16) 0x80 =? 0).
Definition device_at (b s f : Z) : pci_device := to_device b s f (cfg (cfg_address b s f 0)) (cfg (cfg_address b s f 8)).

Definition func_devices (b s f : Z) : list pci_device := if exists_func b s f then [device_at b s f] else [].
Definition slot_devices (b s : Z) : list pci_device :=
  if exists_func b s 0 then
    device_at b s 0 :: (if multi_function b s then concat (map (func_devices b s) (seqZ 1 7)) else [])
  else [].
Definition bus_devices (b : Z) : list pci_device := concat (map (slot_devices b) (seqZ 0 32)).
Definition all_devices : list pci_device := concat (map bus_devices (seqZ 0 256)).
End Reference.

Section Theory.
Context {D : Type} `{PciLaws D}.
Context (cfg : Z -> Z).

(** The table holds [l]. *)
Record table_is (st : pci * D) (l : list pci_device) : Prop := {
  ti_room : length (devices (fst st)) = 64%nat;
  ti_count : device_count (fst st) = Z.of_nat (length l);
  ti_max : (length l <= 64)%nat;
  ti_list : take (length l) (devices (fst st)) = l;
  ti_cfg : config (snd st) = cfg
}.

(** The scan ended early: there was more than the table takes. *)
Definition full (st : pci * D) (l : list pci_device) : Prop := table_is st (take 64 l) /\ (64 < length l)%nat.

Lemma full_app st l l' : full st l -> full st (l ++ l').
Proof. intros [Ht Hl]. split; [rewrite take_app_le by lia; exact Ht|rewrite length_app; lia]. Qed.

(** A loop that appends [g j] in turn [j]. *)
Lemma for_ret_n_scan {R} (stopped : R -> list pci_device -> Prop) (g : Z -> list pci_device) body lo hi :
  (forall x l l', stopped x l -> stopped x (l ++ l')) ->
  (forall j st l, lo <= j < hi -> table_is st l -> returns (body j st) (fun r =>
     match r with inl st' => table_is st' (l ++ g j) | inr x => stopped x (l ++ g j) end)) ->
  forall n i st l, lo <= i -> i + Z.of_nat n <= hi -> table_is st l ->
  returns (for_ret_n n i body st) (fun r =>
    match r with
    | inl st' => table_is st' (l ++ concat (map g (seqZ i (Z.of_nat n))))
    | inr x => stopped x (l ++ concat (map g (seqZ i (Z.of_nat n))))
    end).
Proof.
  intros Hs Hb n. induction n as [|n IH]; intros i st l Hi Hn Ht; cbn [for_ret_n].
  - apply returns_Done. change (seqZ i (Z.of_nat 0)) with (seqZ i 0). cbn. rewrite app_nil_r. exact Ht.
  - rewrite seqZ_cons by lia. replace (Z.pred (Z.of_nat (S n))) with (Z.of_nat n) by lia. cbn [map concat].
    destruct (Hb i st l ltac:(lia) Ht) as ([st'|x] & -> & Hr); rewrite bind_Done; rewrite app_assoc.
    + replace (Z.succ i) with (i + 1) by lia. apply IH; [lia|lia|exact Hr].
    + apply returns_Done, Hs, Hr.
Qed.

Lemma for_ret_scan {R} (stopped : R -> list pci_device -> Prop) (g : Z -> list pci_device) body hi st l :
  0 <= hi -> (forall x l l', stopped x l -> stopped x (l ++ l')) ->
  (forall j st l, 0 <= j < hi -> table_is st l -> returns (body j st) (fun r =>
     match r with inl st' => table_is st' (l ++ g j) | inr x => stopped x (l ++ g j) end)) ->
  table_is st l ->
  returns (for_ret 0 hi body st) (fun r =>
    match r with
    | inl st' => table_is st' (l ++ concat (map g (seqZ 0 hi)))
    | inr x => stopped x (l ++ concat (map g (seqZ 0 hi)))
    end).
Proof.
  intros Hhi Hs Hb Ht. unfold for_ret. rewrite Z.sub_0_r.
  pose proof (for_ret_n_scan stopped g body 0 hi Hs Hb (Z.to_nat hi) 0 st l ltac:(lia) ltac:(lia) Ht) as E.
  rewrite Z2Nat.id in E by lia. exact E.
Qed.

(** A read, when configuration space is [cfg]. *)
Lemma cfg_read d b s f o :
  config d = cfg -> exists d', pci_cfg_read d b s f o = (cfg (cfg_address b s f o), d') /\ config d' = cfg.
Proof.
  intros Hd. destruct (config_read d (cfg_address b s f o)) as (d' & E & Hc). exists d'. unfold pci_cfg_read. rewrite E, <- Hd.
  split; [reflexivity|congruence].
Qed.

Lemma table_append p d l x :
  table_is (p, d) l -> (length l < 64)%nat ->
  exists t, arr_set (devices p) (device_count p) x = Done t /\
    forall d', config d' = cfg -> table_is (mk_pci t (u32 (device_count p + 1)), d') (l ++ [x]).
Proof.
  intros [Hr Hc Hm Hl Hcfg] Hlt. cbn [fst snd] in *. eexists. rewrite arr_set_Done by lia. split; [reflexivity|].
  intros d' Hd'. rewrite Hc, Nat2Z.id. split; cbn [fst snd devices device_count].
  - rewrite length_insert. exact Hr.
  - rewrite length_app. cbn [length]. rewrite u32_small; lia.
  - rewrite length_app. cbn [length]. lia.
  - rewrite length_app. cbn [length]. rewrite Nat.add_1_r, (take_S_r _ _ x) by (apply list_lookup_insert_eq; lia).
    rewrite take_insert_ge by lia. rewrite Hl. reflexivity.
  - exact Hd'.
Qed.

Definition stopped_func (x : bool * (pci * D)) (l : list pci_device) : Prop := fst x = true /\ full (snd x) l.

Lemma full_intro p d d' l x r :
  table_is (p, d) l -> 64 <= device_count p -> config d' = cfg -> full (p, d') (l ++ x :: r).
Proof.
  intros [Hr Hc Hm Hl Hcfg] Hge Hd. cbn [fst snd] in *. split.
  - rewrite take_app_le, take_ge by lia. split; assumption.
  - rewrite length_app. cbn. lia.
Qed.

(** A function after the first. *)
Lemma scan_func_later b s f st l :
  0 <= b < 256 -> f <> 0 -> table_is st l ->
  returns (scan_func b s f st) (fun r =>
    match r with inl st' => table_is st' (l ++ func_devices cfg b s f) | inr x => stopped_func x (l ++ func_devices cfg b s f) end).
Proof.
  intros Hb Hf Ht. destruct st as [p d]. unfold scan_func. rewrite (u8_small b) by lia.
  destruct (cfg_read d b s f 0 (ti_cfg _ _ Ht)) as (d1 & -> & E1). unfold func_devices, exists_func.
  destruct (Z.eqb_spec (u16 (Z.land (cfg (cfg_address b s f 0)) 0xFFFF)) 0xFFFF) as [Ev|Ev]; cbn [negb].
  - rewrite (proj2 (Z.eqb_neq f 0) Hf). apply returns_Done. rewrite app_nil_r. destruct Ht; split; assumption.
  - unfold PCI_MAX_DEVICES. destruct (Z.leb_spec 64 (device_count p)) as [Hfull|Hroom].
    + apply returns_Done. split; [reflexivity|]. exact (full_intro _ _ _ _ _ _ Ht Hfull E1).
    + destruct (cfg_read d1 b s f 8 E1) as (d2 & -> & E2).
      destruct (table_append p d l (device_at cfg b s f) Ht) as (t & Et & Hadd); [pose proof (ti_count _ _ Ht); cbn in *; lia|].
      change (to_device b s f _ _) with (device_at cfg b s f). rewrite Et, bind_Done, (proj2 (Z.eqb_neq f 0) Hf).
      apply returns_Done, Hadd, E2.
Qed.

(** The first function decides about the rest of the slot. *)
Lemma scan_func_first b s st l :
  0 <= b < 256 -> table_is st l ->
  returns (scan_func b s 0 st) (fun r =>
    match r with
    | inl st' => table_is st' (l ++ [device_at cfg b s 0]) /\
        slot_devices cfg b s = [device_at cfg b s 0] ++ concat (map (func_devices cfg b s) (seqZ 1 7))
    | inr (false, st') => table_is st' (l ++ slot_devices cfg b s)
    | inr (true, st') => full st' (l ++ slot_devices cfg b s)
    end).
Proof.
  intros Hb Ht. destruct st as [p d]. unfold scan_func. rewrite (u8_small b) by lia.
  destruct (cfg_read d b s 0 0 (ti_cfg _ _ Ht)) as (d1 & -> & E1). unfold slot_devices, exists_func.
  destruct (Z.eqb_spec (u16 (Z.land (cfg (cfg_address b s 0 0)) 0xFFFF)) 0xFFFF) as [Ev|Ev]; cbn [negb].
  { apply returns_Done. cbn. rewrite app_nil_r. destruct Ht; split; assumption. }
  unfold PCI_MAX_DEVICES. destruct (Z.leb_spec 64 (device_count p)) as [Hfull|Hroom].
  { apply returns_Done. exact (full_intro _ _ _ _ _ _ Ht Hfull E1). }
  destruct (cfg_read d1 b s 0 8 E1) as (d2 & -> & E2).
  destruct (table_append p d l (device_at cfg b s 0) Ht) as (t & Et & Hadd); [pose proof (ti_count _ _ Ht); cbn in *; lia|].
  change (to_device b s 0 _ _) with (device_at cfg b s 0). rewrite Et, bind_Done, Z.eqb_refl.
  destruct (cfg_read d2 b s 0 12 E2) as (d3 & -> & E3). unfold multi_function.
  destruct (Z.eqb_spec (Z.land (Z.shiftr (cfg (cfg_address b s 0 12)) 16) 0x80) 0) as [Em|Em]; cbn [negb];
    apply returns_Done; [exact (Hadd d3 E3)|split; [exact (Hadd d3 E3)|reflexivity]].
Qed.

Lemma scan_slot_devices b s st l :
  0 <= b < 256 -> table_is st l ->
  returns (scan_slot b s st) (fun r =>
    match r with inl st' => table_is st' (l ++ slot_devices cfg b s) | inr st' => full st' (l ++ slot_devices cfg b s) end).
Proof.
  intros Hb Ht. unfold scan_slot, for_ret. change (Z.to_nat (8 - 0)) with (S 7). rewrite for_ret_n_S.
  destruct (scan_func_first b s st l Hb Ht) as ([st1|[[|] st1]] & -> & Hr); rewrite bind_Done;
    [|apply returns_Done, Hr..]. destruct Hr as [Ht1 Es].
  destruct (for_ret_n_scan stopped_func (func_devices cfg b s) (scan_func b s) 1 8) with
    (n := 7%nat) (i := 0 + 1) (st := st1) (l := l ++ [device_at cfg b s 0]) as ([st'|[br st']] & -> & Hr);
    [intros x l1 l2 [Hx Hf]; split; [exact Hx|apply full_app, Hf]
    |intros j st2 l2 Hj Ht2; apply scan_func_later; [exact Hb|lia|exact Ht2]|lia|lia|exact Ht1| |];
    rewrite bind_Done; apply returns_Done; rewrite <- app_assoc in Hr; rewrite Es; [exact Hr|].
  destruct Hr as [[= ->] Hr]. exact Hr.
Qed.

(** C38: [pci_init] leaves in the table the first 64 functions of the system in bus, slot
    and function order, with their identification and class registers; a slot without a
    function 0 is skipped, and functions 1 to 7 are looked at where function 0 says there
    are more. *)
Theorem pci_init_enumerates p d :
  length (devices p) = 64%nat -> config d = cfg ->
  returns (pci_init p d) (fun '(p', d') =>
    take (Z.to_nat (device_count p')) (devices p') = take 64 (all_devices cfg) /\
    device_count p' = Z.min 64 (Z.of_nat (length (all_devices cfg))) /\ config d' = cfg /\
    forall i, 0 <= i -> pci_get p' i = take 64 (all_devices cfg) !! Z.to_nat i).
Proof.
  intros Hlen Hd. unfold pci_init.
  assert (Hscan : returns (for_ret 0 256 scan_bus (mk_pci (devices p) 0, d)) (fun r =>
    match r with inl st => table_is st ([] ++ all_devices cfg) | inr st => full st ([] ++ all_devices cfg) end)).
  { apply (for_ret_scan full (bus_devices cfg)); [lia|exact full_app| |split; cbn; auto; lia].
    intros b st l Hb Ht. unfold scan_bus.
    apply (for_ret_scan full (slot_devices cfg b)); [lia|exact full_app| |exact Ht].
    intros s st' l' Hs Ht'. apply scan_slot_devices; [lia|exact Ht']. }
  assert (Hfin : forall p' d', table_is (p', d') (take 64 (all_devices cfg)) ->
    take (Z.to_nat (device_count p')) (devices p') = take 64 (all_devices cfg) /\
    device_count p' = Z.min 64 (Z.of_nat (length (all_devices cfg))) /\ config d' = cfg /\
    forall i, 0 <= i -> pci_get p' i = take 64 (all_devices cfg) !! Z.to_nat i).
  { intros p' d' [Hr Hc Hm Hl Hcfg]. cbn [fst snd] in *. rewrite Hc, Nat2Z.id. split; [exact Hl|]. rewrite length_take.
    split; [lia|]. split; [exact Hcfg|]. intros i Hi. unfold pci_get. rewrite Hc.
    transitivity (take (length (take 64 (all_devices cfg))) (devices p') !! Z.to_nat i); [|rewrite Hl; reflexivity].
    destruct (Z.ltb_spec i (Z.of_nat (length (take 64 (all_devices cfg))))).
    - rewrite lookup_take_lt by lia. reflexivity.
    - rewrite lookup_take_ge by lia. reflexivity. }
  destruct Hscan as ([[p' d']|[p' d']] & -> & Hr); rewrite bind_Done; apply returns_Done, Hfin.
  - rewrite take_ge; [exact Hr|exact (ti_max _ _ Hr)].
  - exact (proj1 Hr).
Qed.
End Theory.

(** ** A concrete bus: a register function behind an address latch *)
Record bridge := mk_bridge { address : Z; registers : Z -> Z }.
#[export] Instance bridge_io : PortIO bridge := {
  inb d _ := (0, d);
  outb d _ _ := d;
  outw d _ _ := d;
  in_l d p := (if Z.eqb p 0xCFC then registers d (address d) else 0, d);
  out_l d p v := if Z.eqb p 0xCF8 then mk_bridge v (registers d) else d
}.
#[export] Instance bridge_pci : Pci bridge := { config := registers }.
#[export] Instance bridge_laws : PciLaws bridge.
Proof. split. intros [a r] v. eexists. split; reflexivity. Qed.

(** One multi-function device at slot 1 of bus 0, with functions 0 and 2. *)
Definition demo_registers (a : Z) : Z :=
  if a =? cfg_address 0 1 0 0 then 0x12378086
  else if a =? cfg_address 0 1 0 0x08 then 0x06010002
  else if a =? cfg_address 0 1 0 0x0C then 0x00800000
  else if a =? cfg_address 0 1 2 0 then 0x70108086
  else if a =? cfg_address 0 1 2 0x08 then 0x01018000
  else 0xFFFFFFFF.

Definition no_devices : pci := mk_pci (replicate 64 (mk_device 0 0 0 0 0 0 0 0)) 0.

Lemma pci_init_enumerates_witness :
  returns (pci_init no_devices (mk_bridge 0 demo_registers)) (fun '(p', d') =>
    take (Z.to_nat (device_count p')) (devices p') = take 64 (all_devices demo_registers) /\
    device_count p' = Z.min 64 (Z.of_nat (length (all_devices demo_registers))) /\ config d' = demo_registers /\
    forall i, 0 <= i -> pci_get p' i = take 64 (all_devices demo_registers) !! Z.to_nat i).
Proof. apply (pci_init_enumerates demo_registers no_devices (mk_bridge 0 demo_registers)); reflexivity. Defined.

Example demo_devices :
  all_devices demo_registers =
    [mk_device 0 1 0 0x8086 0x1237 6 1 0; mk_device 0 1 2 0x8086 0x7010 1 1 0x80].
Proof. vm_compute. reflexivity. Qed.
