(* ===== verification/Security.v ===== *)
(** * Users and permissions: [security/security.c] *)
From Stdlib Require Import ZArith Lia Bool String.
From stdpp Require Import base tactics option list numbers.
From S2P Require Import Prelude CInt CString.
#[local] Close Scope string_scope.
#[local] Open Scope Z_scope.

Definition SEC_NAME_MAX : Z := 32.
Definition SEC_MAX_USERS : Z := 16.

Record user := mk_user { uid : Z; gid : Z; uname : list Z; active : bool }.
Definition zero_user : user := mk_user 0 0 (replicate 32 0) false.

(** [current] is [None] before [security_init]. *)
Record security := mk_security { users : list user; current : option nat }.

(** A name and its NUL in the array of a zeroed user. *)
Definition name_field (s : list Z) : list Z := s ++ replicate (Z.to_nat SEC_NAME_MAX - length s) 0.

Definition security_init : security :=
  mk_security ([mk_user 0 0 (name_field (chars "root")) true; mk_user 1000 1000 (name_field (chars "user")) true]
               ++ replicate (Z.to_nat SEC_MAX_USERS - 2) zero_user) (Some 1%nat).

Definition security_current_user (s : security) : option nat := current s.

Definition security_check_perm (s : security) (mode id grp : Z) (write : bool) : outcome bool :=
  match current s with
  | None => mret false
  | Some i =>
      u ← arr_get (users s) (Z.of_nat i);
      if uid u =? 0 then mret true
      else
        let shift := if uid u =? id then 6 else if gid u =? grp then 3 else 0 in
        let bits := Z.land (Z.shiftr mode shift) 7 in
        mret (if write then negb (Z.land bits 2 =? 0) else negb (Z.land bits 4 =? 0))
  end.

(** ** The permissions of the file system, as a relation

    The class of a user is the first that applies; the mode has three bits for it. *)
Inductive class := Owner | Group | Other.
Inductive access := Read | Write.

Inductive class_of (u : user) (id grp : Z) : class -> Prop :=
  | class_owner : uid u = id -> class_of u id grp Owner
  | class_group : uid u <> id -> gid u = grp -> class_of u id grp Group
  | class_other : uid u <> id -> gid u <> grp -> class_of u id grp Other.

(** The mode as triples of read, write and execute permissions. *)
Definition triple (mode : Z) (c : class) : bool * bool * bool :=
  match c with
  | Owner => (Z.testbit mode 8, Z.testbit mode 7, Z.testbit mode 6)
  | Group => (Z.testbit mode 5, Z.testbit mode 4, Z.testbit mode 3)
  | Other => (Z.testbit mode 2, Z.testbit mode 1, Z.testbit mode 0)
  end.

Inductive allowed (u : user) (mode id grp : Z) : access -> Prop :=
  | allowed_root a : uid u = 0 -> allowed u mode id grp a
  | allowed_read c w x : class_of u id grp c -> triple mode c = (true, w, x) -> allowed u mode id grp Read
  | allowed_write c r x : class_of u id grp c -> triple mode c = (r, true, x) -> allowed u mode id grp Write.

Definition access_of (write : bool) : access := if write then Write else Read.

Lemma class_unique u id grp c c' : class_of u id grp c -> class_of u id grp c' -> c = c'.
Proof. intros Hc Hc'. inversion Hc; inversion Hc'; congruence. Qed.

Lemma perm_bit mode shift k :
  0 <= shift -> 0 <= k < 3 -> negb (Z.land (Z.land (Z.shiftr mode shift) 7) (2 ^ k) =? 0) = Z.testbit mode (k + shift).
Proof.
  intros Hs Hk. rewrite <- Z.shiftl_1_l, land_bit_test by lia. change 7 with (Z.ones 3).
  rewrite Z.land_spec, Z.shiftr_spec, Z.ones_spec_low, andb_true_r by lia. reflexivity.
Qed.

(** [security_check_perm] decides the permission relation: root may do anything, any
    other current user what the three bits of its class (owner, else group, else others)
    allow, and nobody anything before the users are loaded. *)
Theorem security_check_perm_decides s mode id grp write :
  (forall i, current s = Some i -> (i < length (users s))%nat) ->
  returns (security_check_perm s mode id grp write) (fun b =>
    b = true <-> exists i u, current s = Some i /\ users s !! i = Some u /\ allowed u mode id grp (access_of write)).
Proof.
  intros Hcur. unfold security_check_perm. destruct (current s) as [i|] eqn:Ec.
  2:{ apply returns_Done. split; [discriminate|intros (j & u & [=] & _)]. }
  destruct (lookup_lt_is_Some_2 (users s) i (Hcur i eq_refl)) as [u Eu].
  assert (Eg : arr_get (users s) (Z.of_nat i) = Done u) by (apply arr_get_Done; rewrite Nat2Z.id; auto with lia).
  rewrite Eg, bind_Done. clear Eg Hcur.
  assert (Hex : forall P : user -> Prop, (exists j v, Some i = Some j /\ users s !! j = Some v /\ P v) <-> P u).
  { intros P. split; [intros (j & v & [= <-] & Ev & Hp); congruence|intros Hp; exists i, u; auto]. }
  destruct (Z.eqb_spec (uid u) 0) as [Hr|Hr].
  { apply returns_Done. split; [intros _|reflexivity]. exists i, u. split; [reflexivity|]. split; [exact Eu|]. apply allowed_root, Hr. }
  apply returns_Done. set (shift := if uid u =? id then 6 else if gid u =? grp then 3 else 0).
  rewrite (Hex (fun v => allowed v mode id grp (access_of write))).
  assert (Hc : exists c, class_of u id grp c /\
    triple mode c = (Z.testbit mode (2 + shift), Z.testbit mode (1 + shift), Z.testbit mode (0 + shift))).
  { unfold shift. destruct (Z.eqb_spec (uid u) id); [exists Owner|destruct (Z.eqb_spec (gid u) grp); [exists Group|exists Other]];
      (split; [constructor; assumption|reflexivity]). }
  assert (Hshift : 0 <= shift) by (unfold shift; destruct (uid u =? id), (gid u =? grp); lia). clearbody shift.
  destruct Hc as (c & Hc & Et). change 2 with (2 ^ 1) at 1. change 4 with (2 ^ 2). rewrite !perm_bit by lia.
  destruct write; cbn [access_of]; split.
  - intros E. rewrite E in Et. exact (allowed_write _ _ _ _ _ _ _ Hc Et).
  - intros Ha. inversion Ha as [a Hr0| |c' r x Hc' Et']; subst; [congruence|]. rewrite (class_unique _ _ _ _ _ Hc' Hc) in Et'. congruence.
  - intros E. rewrite E in Et. exact (allowed_read _ _ _ _ _ _ _ Hc Et).
  - intros Ha. inversion Ha as [a Hr0|c' w x Hc' Et'|]; subst; [congruence|]. rewrite (class_unique _ _ _ _ _ Hc' Hc) in Et'. congruence.
Qed.

Lemma security_check_perm_decides_witness :
  returns (security_check_perm security_init 420 0 1000 true) (fun b =>
    b = true <-> exists i u, current security_init = Some i /\ users security_init !! i = Some u /\
      allowed u 420 0 1000 (access_of true)).
Proof. apply (security_check_perm_decides security_init 420 0 1000 true). intros i [= <-]. vm_compute. lia. Defined.
