(* ===== verification/Cpu.v ===== *)
(** * Processor detection: [kernel/arch/x86_64/cpu.c]

    The [cpuid] instruction is a parameter: leaf and subleaf to the registers. *)
From Stdlib Require Import ZArith Lia Bool String.
From stdpp Require Import base tactics option list numbers.
From S2P Require Import Prelude CInt CString.
#[local] Close Scope string_scope.
#[local] Open Scope Z_scope.

Record cpu_info := mk_cpu {
  vendor : list Z;            (* char[13] *)
  brand : list Z;             (* char[49] *)
  family : Z; model : Z; stepping : Z;
  max_basic : Z; max_ext : Z;
  has_fpu : bool; has_sse : bool; has_sse2 : bool; has_sse3 : bool; has_ssse3 : bool;
  has_sse41 : bool; has_sse42 : bool; has_avx : bool; has_avx2 : bool; has_aes : bool; has_rdrand : bool;
  has_nx : bool; has_huge_pages : bool; has_tsc : bool; has_apic : bool; has_x2apic : bool;
  has_vmx : bool; has_svm : bool;
  logical_cpus : Z; core_count : Z;
  l1_cache_kb : Z; l2_cache_kb : Z; l3_cache_kb : Z
}.

Record regs := mk_regs { eax : Z; ebx : Z; ecx : Z; edx : Z }.

(** The four bytes of a register stored to memory. *)
Definition bytes_of (v : Z) : list Z := [v mod 256; v / 2 ^ 8 mod 256; v / 2 ^ 16 mod 256; v / 2 ^ 24 mod 256].

Section Detect.
Context (cpuid_ex : Z -> Z -> regs).

Definition cpuid (leaf : Z) : regs := cpuid_ex leaf 0.
Definition bit (v k : Z) : bool := negb (Z.land v (Z.shiftl 1 k) =? 0).

(** Family, model and stepping from the signature in [eax] of leaf 1. *)
Definition signature (a : Z) : Z * Z * Z :=
  let st := Z.land a 0xF in
  let mo := Z.land (Z.shiftr a 4) 0xF in
  let fa := Z.land (Z.shiftr a 8) 0xF in
  if fa =? 0xF then (fa + Z.land (Z.shiftr a 20) 0xFF, mo + Z.shiftl (Z.land (Z.shiftr a 16) 0xF) 4, st)
  else (fa, mo, st).

Definition cpu_detect : cpu_info :=
  let l0 := cpuid 0 in
  let basic := eax l0 in
  let vend := bytes_of (ebx l0) ++ bytes_of (edx l0) ++ bytes_of (ecx l0) ++ [0] in
  let have1 := 1 <=? basic in
  let l1 := cpuid 1 in
  let '(fa, mo, st) := if have1 then signature (eax l1) else (0, 0, 0) in
  let in1 r k := have1 && bit (r l1) k in
  let logical := Z.land (Z.shiftr (ebx l1) 16) 0xFF in
  let logical := if have1 then (if logical =? 0 then 1 else logical) else 0 in
  let avx2 := (7 <=? basic) && bit (ebx (cpuid_ex 7 0)) 5 in
  let ext := eax (cpuid 0x80000000) in
  let have_ext1 := 0x80000001 <=? ext in
  let e1 := cpuid 0x80000001 in
  let br :=
    if 0x80000004 <=? ext then
      concat (map (fun leaf => let r := cpuid leaf in bytes_of (eax r) ++ bytes_of (ebx r) ++ bytes_of (ecx r) ++ bytes_of (edx r))
        [0x80000002; 0x80000003; 0x80000004]) ++ [0]
    else chars "Unknown CPU" ++ replicate 38 0 in
  let have_cache := 0x80000006 <=? ext in
  let e6 := cpuid 0x80000006 in
  mk_cpu vend br fa mo st basic ext
    (in1 edx 0) (in1 edx 25) (in1 edx 26) (in1 ecx 0) (in1 ecx 9)
    (in1 ecx 19) (in1 ecx 20) (in1 ecx 28) avx2 (in1 ecx 25) (in1 ecx 30)
    (have_ext1 && bit (edx e1) 20) (have_ext1 && bit (edx e1) 26) (in1 edx 4) (in1 edx 9) (in1 ecx 21)
    (in1 ecx 5) (have_ext1 && bit (ecx e1) 2)
    logical logical
    0 (if have_cache then Z.land (Z.shiftr (ecx e6) 16) 0xFFFF else 0)
    (if have_cache then Z.land (Z.shiftr (edx e6) 18) 0x3FFF * 512 else 0).

(** [g_cpu] after [cpu_init], and the accessor. *)
Definition cpu_init : cpu_info := cpu_detect.
Definition cpu_get_info (g_cpu : cpu_info) : cpu_info := g_cpu.

(** ** The fields *)
Lemma bytes_of_le v : 0 <= v < 2 ^ 32 ->
  match bytes_of v with [a; b; c; d] => a + 2 ^ 8 * b + 2 ^ 16 * c + 2 ^ 24 * d = v | _ => False end.
Proof.
  intros Hv. cbn [bytes_of]. pose proof (Z.div_mod v (2 ^ 8) ltac:(lia)). pose proof (Z.div_mod (v / 2 ^ 8) (2 ^ 8) ltac:(lia)).
  pose proof (Z.div_mod (v / 2 ^ 16) (2 ^ 8) ltac:(lia)). rewrite !Z.div_div in * by lia.
  change (2 ^ 8 * 2 ^ 8) with (2 ^ 16) in *. change (2 ^ 16 * 2 ^ 8) with (2 ^ 24) in *. change 256 with (2 ^ 8).
  rewrite (Z.mod_small (v / 2 ^ 24)); [lia|]. split; [apply Z.div_pos; lia|apply Z.div_lt_upper_bound; lia].
Qed.

Lemma detect_sizes : length (vendor cpu_detect) = 13%nat /\ length (brand cpu_detect) = 49%nat.
Proof.
  unfold cpu_detect. destruct (1 <=? eax (cpuid 0)); [destruct (signature (eax (cpuid 1))) as [[fa mo] st]|];
    cbn [vendor brand]; (split; [reflexivity|destruct (_ <=? eax _); reflexivity]).
Qed.

(** [g_cpu] always counts a processor when leaf 1 exists. *)
Lemma detect_cpus : 1 <= eax (cpuid 0) -> 1 <= logical_cpus cpu_detect <= 255.
Proof.
  intros H1. unfold cpu_detect. destruct (Z.leb_spec 1 (eax (cpuid 0))); [|lia].
  destruct (signature (eax (cpuid 1))) as [[fa mo] st]. cbn [logical_cpus].
  change 0xFF with (Z.ones 8). rewrite Z.land_ones by lia. pose proof (Z.mod_pos_bound (Z.shiftr (ebx (cpuid 1)) 16) (2 ^ 8) ltac:(lia)).
  change (Z.ones 8) with 255. destruct (Z.eqb_spec (Z.shiftr (ebx (cpuid 1)) 16 mod 2 ^ 8) 0); lia.
Qed.
End Detect.

(** A family 6 signature keeps the low four bits of its model only: 0x906EA, model 158,
    is reported as model 14. *)
Example signature_family6 : signature 0x906EA = (6, 14, 10).
Proof. reflexivity. Qed.
