(* ===== verification/Services.v ===== *)
(** * Small services: [kernel/core/ipc.c], [network/net.c], [kernel/core/power.c],
    [filesystem/fat32/fat32.c] and [loader/pe_seed.c] *)
From Stdlib Require Import ZArith Lia Bool String.
From stdpp Require Import base tactics option list numbers gmap.
From S2P Require Import Prelude CInt CString Io PageAlloc BlockAlloc Vfs Mem Pe.
#[local] Close Scope string_scope.
#[local] Open Scope Z_scope.

(** ** Message ports *)
Module Ipc.
Definition IPC_MAX_PORTS : Z := 64.

Record ipc_port := mk_port { id : Z; active : bool; name : list Z }.
Definition zero_port : ipc_port := mk_port 0 false (replicate 32 0).
Record ipc := mk_ipc { ports : list ipc_port; port_count : Z }.

Definition ipc_init : ipc := mk_ipc (replicate (Z.to_nat IPC_MAX_PORTS) zero_port) 0.

Definition ipc_create_port (s : ipc) (nm : option (list Z)) : outcome (Z * ipc) :=
  if IPC_MAX_PORTS <=? port_count s then mret (-1, s)
  else
    p ← arr_get (ports s) (port_count s);
    l ← arr_set (ports s) (port_count s)
          (mk_port (port_count s) true (strncpy_arr (name p) (default (chars "port") nm) 31));
    mret (i32 (port_count s), mk_ipc l (u32 (port_count s + 1))).

(** The first test of [ipc_send] and [ipc_recv]; [msg] is [None] for NULL. *)
Definition bad_call {A} (s : ipc) (port : Z) (msg : option A) : outcome bool :=
  if port_count s <=? port then mret true
  else p ← arr_get (ports s) port; mret (negb (active p) || match msg with None => true | _ => false end).

Definition ipc_send {A} (s : ipc) (port : Z) (msg : option A) : outcome Z :=
  bad ← bad_call s port msg; mret (if bad : bool then -1 else 0).
Definition ipc_recv {A} (s : ipc) (port : Z) (msg : option A) : outcome Z :=
  bad ← bad_call s port msg; mret (if bad : bool then -1 else -1).

(** The ports below the count are open, under their own number. *)
Record ok (s : ipc) : Prop := {
  ok_len : length (ports s) = 64%nat;
  ok_count : 0 <= port_count s <= 64;
  ok_open : forall i p, Z.of_nat i < port_count s -> ports s !! i = Some p -> id p = Z.of_nat i /\ active p = true
}.

Lemma ipc_init_ok : ok ipc_init.
Proof. split; [reflexivity|cbn; lia|intros i p Hi; cbn in Hi; lia]. Qed.

Lemma ipc_create_port_ok s nm :
  ok s -> returns (ipc_create_port s nm) (fun '(r, s') => ok s' /\
    ((port_count s = 64 /\ r = -1 /\ s' = s) \/ (r = port_count s /\ port_count s' = port_count s + 1))).
Proof.
  intros [Hl Hc Ho]. unfold ipc_create_port, IPC_MAX_PORTS. destruct (Z.leb_spec 64 (port_count s)).
  { apply returns_Done. split; [split; assumption|left; split; [lia|auto]]. }
  destruct (arr_get_in (ports s) (port_count s) ltac:(lia)) as [p ->]. rewrite bind_Done, arr_set_Done, bind_Done by lia.
  apply returns_Done. cbn [port_count]. rewrite i32_small, u32_small by lia. split; [|right; auto]. split; cbn [ports port_count].
  - rewrite length_insert. exact Hl.
  - lia.
  - intros i q Hi Hq. destruct (decide (i = Z.to_nat (port_count s))) as [->|Hne].
    + rewrite list_lookup_insert_eq in Hq by lia. injection Hq as <-. cbn [id active]. split; [lia|reflexivity].
    + rewrite list_lookup_insert_ne in Hq by lia. apply Ho; [lia|exact Hq].
Qed.

(** A message is accepted at an open port and can never be received. *)
Lemma ipc_discards {A} s port (msg buf : A) :
  ok s -> 0 <= port < port_count s -> ipc_send s port (Some msg) = Done 0 /\ ipc_recv s port (Some buf) = Done (-1).
Proof.
  intros [Hl Hc Ho] Hp. unfold ipc_send, ipc_recv, bad_call. destruct (Z.leb_spec (port_count s) port); [lia|].
  destruct (arr_get_in (ports s) port ltac:(lia)) as [p Ep]. rewrite Ep, !bind_Done.
  apply arr_get_Done in Ep as [_ Ep]. destruct (Ho (Z.to_nat port) p ltac:(lia) Ep) as [_ ->]. split; reflexivity.
Qed.
End Ipc.

(** ** The network scaffold *)
Module Net.
Record net_iface := mk_iface {
  ipv4 : bool; ipv6 : bool; link_up : bool; mac : list Z; ipv4_addr : Z; ipv4_mask : Z; gateway : Z
}.
Definition net_init : net_iface := mk_iface true true true [2; 0; 0; 0; 0; 0] 0x7F000001 0xFF000000 0.
Definition net_loopback (lo : net_iface) : net_iface := lo.
Definition net_send (len : Z) : Z := i32 len.
Definition net_poll (max : Z) : Z := 0.
End Net.

(** ** Power *)
Module Power.
Section Power.
Context {D : Type} `{PortIO D}.
(** The devices when the processor halts; neither function returns. *)
Definition power_shutdown (d : D) : D := outw (outw d 0x604 0x2000) 0xB004 0x2000.
Definition power_reboot (d : D) : D := outb d 0x64 0xFE.
End Power.
End Power.

(** ** FAT32 *)
Module Fat32.
Definition fat32_mount (device mountpoint : list Z) : Z := -1.
Definition fat32_unmount (mountpoint : list Z) : Z := -1.
End Fat32.

(** ** The sample image *)
Module PeSeed.

(** The image of [sdk/samples/hello_exe.h]: headers, and one section of code and text. *)
Definition hello_exe : list Z :=
  [77; 90] ++ replicate 58 0 ++ [128] ++ replicate 67 0 ++ [80; 69; 0; 0; 100; 134; 1] ++ replicate 13 0 ++
   [240; 0; 34; 0; 11; 2; 14; 0; 0; 2] ++ replicate 11 0 ++ [16; 0; 0; 0; 16; 0; 0; 0; 0; 0; 64; 1; 0; 0; 0;
   0; 16; 0; 0; 0; 2; 0; 0; 6; 0; 0; 0; 0; 0; 1; 0; 3] ++ replicate 8 0 ++ [32; 0; 0; 0; 2] ++ replicate 10 0
   ++ [16; 0; 0; 0; 0; 0; 0; 16] ++ replicate 8 0 ++ [16; 0; 0; 0; 0; 0; 0; 16] ++ replicate 10 0 ++ [16] ++
   replicate 133 0 ++ [46; 116; 101; 120; 116; 0; 0; 0; 89; 0; 0; 0; 0; 16; 0; 0; 0; 2; 0; 0; 0; 2] ++
   replicate 14 0 ++ [32; 0; 0; 96] ++ replicate 80 0 ++ [85; 72; 137; 229; 83; 72; 137; 251; 72; 139; 67; 8;
   72; 141; 61; 20; 0; 0; 0; 255; 208; 72; 139; 67; 16; 72; 141; 61; 37; 0; 0; 0; 255; 208; 49; 192; 91; 93;
   195; 72; 101; 108; 108; 111; 32; 102; 114; 111; 109; 32; 104; 101; 108; 108; 111; 46; 101; 120; 101; 32;
   111; 110; 32; 72; 51; 79; 83; 33; 0; 80; 69; 51; 50; 43; 32; 108; 111; 97; 100; 101; 114; 32; 119; 111;
   114; 107; 115; 46] ++ replicate 424 0.
Definition hello_exe_len : Z := 1024.

Section PeSeed.
Context {H : Type} `{BlockAlloc H}.

Definition pe_seed_binaries (s : @vfs H) : outcome (option nat * @vfs H) :=
  '(_, s) ← vfs_mkdir s (chars "/bin") 493;
  '(hello, s) ← vfs_create s (chars "/bin/hello.exe") 493;
  match hello with
  | None => mret (None, s)
  | Some i => '(_, s) ← vfs_write s (Some i) hello_exe hello_exe_len; mret (Some i, s)
  end.
End PeSeed.

Lemma hello_exe_length : Z.of_nat (length hello_exe) = hello_exe_len.
Proof. reflexivity. Qed.

Definition hello_info : pe_info := mk_info true true 0x8664 0x1000 0x140000000 0x2000 0x200 1 None.
Lemma hello_probe : pe_probe (Some hello_exe) = Done (true, hello_info).
Proof. vm_compute. reflexivity. Qed.

(** The image [vfs_init] and [pe_seed_binaries] leave at /bin/hello.exe, read back. *)
Definition read_path {H} `{BlockAlloc H} (s : @vfs H) (path : list Z) (max : Z) : outcome (Z * list Z) :=
  n ← vfs_resolve s path; vfs_read s n max.

(** The generator of the sample writes the end of the optional header two bytes early:
    the count of data directories the loader reads is 0, not 16. *)
Lemma hello_no_directories : opt_rva_count hello_exe (128 + sizeof_coff_header) = Done 0.
Proof. vm_compute. reflexivity. Qed.

(** The sample run from the first free page of a 16 KiB machine by a processor that
    writes the byte it finds at the entry point and exits twice. *)
Definition fetch : processor := fun m entry =>
  (m, [Write (Some [default 0 (m !! entry)]); Exit 3; Exit 7; Writeln None], 1).

(** A console that counts the characters written. *)
Definition count_chars : writer (C := Z) := fun s n => Done (n + Z.of_nat (length (default [] s))).
Definition counter_console : console Z := pe_set_console (Some count_chars) (Some count_chars).
Definition machine_at (page : Z) : @machine_state Z numbered Z :=
  mk_machine page (mk_numbered 1 ∅) (mem_of_list 0 (replicate (Z.to_nat 16384) 0)) 0 false counter_console 0.
Definition small_machine : @machine_state Z numbered Z := machine_at 2.

Lemma counter_keeps : console_keeps (fun _ n => Done n) counter_console (fun n => 0 <= n).
Proof. split; intros x t _ Ht; apply returns_Done; lia. Qed.

Lemma pe_run_enters_image_witness :
  exists m, image_is 8192 8192 (memory small_machine) m (image_byte hello_exe hello_info [mk_section 0x1000 0x200 0x200]) /\
    returns (pe_run (fun _ n => Done n) fetch small_machine (Some hello_exe)) (fun '(r, s') =>
      r = 7 /\ 0 <= screen s' /\ memory s' = m /\ pages s' = 4 /\ kheap s' = mk_numbered 1 ∅ /\
      g_exited s' = true /\ pe_last_exit_code s' = 7).
Proof.
  apply (pe_run_enters_image (fun _ n => Done n) fetch small_machine (machine_at 4) hello_exe hello_info 128 240
    [mk_section 0x1000 0x200 0x200] 8192 (fun n => 0 <= n)).
  - exact hello_probe.
  - vm_compute. reflexivity.
  - vm_compute. reflexivity.
  - intros [|[|i]] x E; try discriminate. injection E as <-. split; [vm_compute; reflexivity|split; cbn; lia].
  - reflexivity.
  - exists 0. split; [exact hello_no_directories|left; lia].
  - cbn. lia.
  - cbn. lia.
  - cbn. lia.
  - reflexivity.
  - lia.
  - apply mem_of_list_mapped; [lia|]. rewrite length_replicate. cbn. lia.
  - exact counter_keeps.
  - cbn. lia.
Defined.

Definition blank_vfs : @vfs numbered := mk_vfs [] 0 None [] ∅ (mk_numbered 1 ∅).

Lemma hello_seeded :
  returns (s ← vfs_init blank_vfs; '(_, s) ← pe_seed_binaries s; read_path s (chars "/bin/hello.exe") 4096)
    (fun '(n, data) => n = 1024 /\ data = hello_exe).
Proof.
  eexists. split; [vm_compute; reflexivity|]. split; reflexivity.
Qed.
End PeSeed.
