(* ===== verification/Syscall.v ===== *)
(** * System calls: [kernel/syscall/syscall.c]

    The dispatcher over the scheduler, the timer, the log and the memory the arguments
    point to. *)
From Stdlib Require Import ZArith Lia Bool String.
From stdpp Require Import base tactics option list numbers gmap.
From S2P Require Import Prelude CInt CString Io Sched Timer Log.
#[local] Close Scope string_scope.
#[local] Open Scope Z_scope.

Definition SYS_EXIT : Z := 0.
Definition SYS_WRITE : Z := 1.
Definition SYS_YIELD : Z := 5.
Definition SYS_GETPID : Z := 6.
Definition SYS_UPTIME : Z := 7.
Definition SYS_LOG : Z := 8.
Definition LOG_INFO : Z := 2.
Definition LOG_WARN : Z := 3.

Section Syscall.
Context {D : Type} `{PortIO D}.
(** Bounds of the waits for the line and the lock, and of the scans of strings. *)
Context (polls lock_fuel scan : nat).

Record kernel := mk_kernel { ksched : sched; ktimer : timer; klogs : @log D; kmem : mem }.

Definition set_sched (x : sched) (k : kernel) : kernel := mk_kernel x (ktimer k) (klogs k) (kmem k).
Definition set_log (x : log) (k : kernel) : kernel := mk_kernel (ksched k) (ktimer k) x (kmem k).

Definition say (k : kernel) (level : Z) (sub fmt : list Z) (args : list arg) : outcome kernel :=
  l ← klog polls (klogs k) level sub fmt args; mret (set_log l k).

(** The loop of [SYS_WRITE]: a line of the log for every newline, nothing for the rest. *)
Definition sys_write (s n : Z) (k : kernel) : outcome kernel :=
  if s =? 0 then mret k
  else for_to 0 n (fun i k =>
    c ← ld (kmem k) (s + i);
    if c =? 10 then say k LOG_INFO (chars "user") (chars "%s") [Str (Some [])] else mret k) k.

(** The string at an address, NULL for 0. *)
Definition str_arg (k : kernel) (p : Z) : outcome (option (list Z)) :=
  if p =? 0 then mret None
  else n ← strlen scan (kmem k) p;
       l ← for_to 0 n (fun i l => c ← ld (kmem k) (p + i); mret (l ++ [c])) [];
       mret (Some l).

(** [num] is cast to the enumeration, an unsigned 32-bit integer. *)
Definition syscall_dispatch (k : kernel) (num a0 a1 : Z) : outcome (Z * kernel) :=
  let sel := u32 num in
  if sel =? SYS_EXIT then
    k ← say k LOG_INFO (chars "syscall") (chars "exit(%llu)") [Word a0]; mret (0, k)
  else if sel =? SYS_WRITE then
    k ← sys_write a0 a1 k; mret (i64 a1, k)
  else if sel =? SYS_YIELD then
    s ← sched_yield lock_fuel (ksched k); mret (0, set_sched s k)
  else if sel =? SYS_GETPID then
    match sched_current (ksched k) with
    | None => mret (0, k)
    | Some i => t ← task_at (ksched k) i; mret (Sched.id t, k)
    end
  else if sel =? SYS_UPTIME then mret (i64 (timer_uptime_ms (ktimer k)), k)
  else if sel =? SYS_LOG then
    s ← str_arg k a0;
    k ← say k LOG_INFO (chars "user") (chars "%s") [Str s]; mret (0, k)
  else
    k ← say k LOG_WARN (chars "syscall") (chars "unknown syscall %llu") [Word num]; mret (-1, k).

Definition implemented : list Z := [SYS_EXIT; SYS_WRITE; SYS_YIELD; SYS_GETPID; SYS_UPTIME; SYS_LOG].

Lemma implemented_cases sel : sel ∈ implemented <-> sel = 0 \/ sel = 1 \/ sel = 5 \/ sel = 6 \/ sel = 7 \/ sel = 8.
Proof.
  unfold implemented, SYS_EXIT, SYS_WRITE, SYS_YIELD, SYS_GETPID, SYS_UPTIME, SYS_LOG.
  rewrite !elem_of_cons, elem_of_nil. tauto.
Qed.

(** Only the low 32 bits of the number select the call. *)
Lemma syscall_truncates k num hi a0 a1 :
  u32 num ∈ implemented -> syscall_dispatch k (num + 2 ^ 32 * hi) a0 a1 = syscall_dispatch k num a0 a1.
Proof.
  intros Hin. unfold syscall_dispatch.
  replace (u32 (num + 2 ^ 32 * hi)) with (u32 num) by (unfold u32; rewrite Z.mul_comm, Z.mod_add by lia; reflexivity).
  apply implemented_cases in Hin. unfold SYS_EXIT, SYS_WRITE, SYS_YIELD, SYS_GETPID, SYS_UPTIME, SYS_LOG.
  destruct Hin as [->|[->|[->|[->|[->| ->]]]]]; reflexivity.
Qed.
End Syscall.
