(* ===== verification/Cursor.v ===== *)
(** * The mouse pointer: [mouse_draw_cursor] of [drivers/mouse/mouse.c]

    The driver itself is [Mouse.v]; its drawing goes through [Framebuffer.v]. *)
From Stdlib Require Import ZArith Lia Bool.
From stdpp Require Import base tactics option list numbers gmap.
From S2P Require Import Prelude CInt CString Mem Framebuffer Mouse.

(** The pixels of a row of the pointer: columns 0 to [cursor_width i]. *)
Definition cursor_width (i : Z) : Z := Z.min 8 (if i <? 10 then i else 14 - i).

Definition cursor_row (f : fb) (x y i : Z) (m : mem) : outcome mem :=
  m ← fb_put_pixel f m x (i32 (y + i)) 0xFF2EC4B6;
  for_to 0 (cursor_width i + 1) (fun j m => fb_put_pixel f m (i32 (x + j)) (i32 (y + i)) 0xFFF5FBFD) m.

Definition mouse_draw_cursor (f : fb) (s : mouse) (m : mem) : outcome mem :=
  let x := Mouse.x (g_mouse s) in
  let y := Mouse.y (g_mouse s) in
  m ← for_to 0 14 (cursor_row f x y) m;
  fb_draw_line f m x y (i32 (x + 5)) (i32 (y + 12)) 0xFF061018.

(** ** What the rows leave: the accent colour of the first column is painted over. *)
Section Shape.
Context (f : fb).

Definition in_pointer (x y a b : Z) : bool :=
  (0 <=? b - y) && (b - y <? 14) && (0 <=? a - x) && (a - x <=? cursor_width (b - y)).

Lemma cursor_row_painted x y i m :
  surf f m -> - 2 ^ 31 <= x < 2 ^ 31 - 16 -> - 2 ^ 31 <= y < 2 ^ 31 - 16 -> 0 <= i < 14 ->
  returns (cursor_row f x y i m) (fun m' => painted f m m' (fun a b =>
    if (b =? y + i) && (0 <=? a - x) && (a - x <=? cursor_width i) then Some 0xFFF5FBFD else None)).
Proof.
  intros Hs Hx Hy Hi. unfold cursor_row. rewrite (i32_small (y + i)) by lia.
  destruct (fb_put_pixel_returns f m x (y + i) 0xFF2EC4B6 Hs) as (m1 & -> & Hp1); [lia|lia|]. rewrite bind_Done.
  assert (Hw : 0 <= cursor_width i <= 8) by (unfold cursor_width; destruct (Z.ltb_spec i 10); lia).
  eapply returns_mono.
  - apply (painted_loop f (fun n a b => if (b =? y + i) && (0 <=? a - x) && (a - x <? n) then Some 0xFFF5FBFD else None)
      (fun j a b => if (a =? x + j) && (b =? y + i) then Some 0xFFF5FBFD else None) (cursor_width i + 1)).
    + apply Hp1.
    + intros a b _. destruct (b =? y + i); cbn [andb]; [|reflexivity].
      destruct (Z.leb_spec 0 (a - x)), (Z.ltb_spec (a - x) 0); reflexivity || lia.
    + intros j m2 Hj Hs2. rewrite (i32_small (x + j)) by lia. apply fb_put_pixel_returns; [exact Hs2|lia|lia].
    + intros j a b Hj _. unfold over. repeat case_cmp; cbn [andb]; reflexivity || lia.
  - intros m' Hp2. apply (painted_ext f _ _ _ _ (painted_trans f _ _ _ _ _ Hp1 Hp2)). intros a b _. unfold over.
    rewrite Z.max_r by lia. repeat case_cmp; cbn [andb]; reflexivity || lia.
Qed.

Lemma cursor_rows_painted x y m :
  surf f m -> - 2 ^ 31 <= x < 2 ^ 31 - 16 -> - 2 ^ 31 <= y < 2 ^ 31 - 16 ->
  returns (for_to 0 14 (cursor_row f x y) m) (fun m' =>
    painted f m m' (fun a b => if in_pointer x y a b then Some 0xFFF5FBFD else None)).
Proof.
  intros Hs Hx Hy. eapply returns_mono.
  - apply (painted_loop f
      (fun n a b => if (0 <=? b - y) && (b - y <? n) && (0 <=? a - x) && (a - x <=? cursor_width (b - y)) then Some 0xFFF5FBFD else None)
      (fun i a b => if (b =? y + i) && (0 <=? a - x) && (a - x <=? cursor_width i) then Some 0xFFF5FBFD else None) 14).
    + exact Hs.
    + intros a b _. destruct (Z.leb_spec 0 (b - y)), (Z.ltb_spec (b - y) 0); reflexivity || lia.
    + intros i m1 Hi Hs1. apply cursor_row_painted; assumption.
    + intros i a b Hi _. unfold over.
      destruct (Z.eqb_spec b (y + i)) as [->|Hne].
      * replace (y + i - y) with i by lia.
        destruct (Z.leb_spec 0 i), (Z.ltb_spec i i), (Z.ltb_spec i (i + 1)); try lia. cbn [andb].
        destruct ((0 <=? a - x) && (a - x <=? cursor_width i)); reflexivity.
      * cbn [andb]. destruct (Z.leb_spec 0 (b - y)), (Z.ltb_spec (b - y) i), (Z.ltb_spec (b - y) (i + 1)); try lia; reflexivity.
  - auto.
Qed.
End Shape.
