(* ===== verification/Terminal.v ===== *)
(** * Terminal: the text screen, the arguments and the input line of
    [applications/terminal/terminal.c]

    A [char] array is the list of its bytes; reading it as a string needs a NUL inside it
    ([arr_str]), and a copy that does not fit is a [Fault] ([arr_strcpy]).  A string
    argument is the list of its bytes without the NUL.  The commands are in [Shell.v]. *)
From Stdlib Require Import ZArith Lia Bool String.
From stdpp Require Import base tactics option list numbers.
From S2P Require Import Prelude CInt CString.
#[local] Close Scope string_scope.
#[local] Open Scope Z_scope.

Definition TERM_COLS : Z := 72.
Definition TERM_ROWS : Z := 24.
Definition TERM_IN : Z := 128.

Record term_state := mk_term {
  lines : list (list Z);      (* char[TERM_ROWS][TERM_COLS + 1] *)
  row : Z;
  input : list Z;             (* char[TERM_IN] *)
  in_len : Z;
  reboot_req : bool;
  shutdown_req : bool
}.

Definition zero_term : term_state :=
  mk_term (replicate 24 (replicate 73 0)) 0 (replicate 128 0) 0 false false.

Definition set_lines (l : list (list Z)) (t : term_state) : term_state :=
  mk_term l (row t) (input t) (in_len t) (reboot_req t) (shutdown_req t).
Definition set_row (r : Z) (t : term_state) : term_state :=
  mk_term (lines t) r (input t) (in_len t) (reboot_req t) (shutdown_req t).
Definition set_input (b : list Z) (n : Z) (t : term_state) : term_state :=
  mk_term (lines t) (row t) b n (reboot_req t) (shutdown_req t).
Definition request (reboot shutdown : bool) (t : term_state) : term_state :=
  mk_term (lines t) (row t) (input t) (in_len t) reboot shutdown.

(** ** Strings in arrays *)

(** The string an array holds; without a NUL the read runs past it. *)
Definition arr_str (a : list Z) : outcome (list Z) :=
  if bool_decide (0 ∈ a) then mret (cstr a) else Fault.

(** [strcpy] into an array. *)
Definition arr_strcpy (a s : list Z) : outcome (list Z) :=
  if Z.of_nat (length s) <? Z.of_nat (length a) then mret (s ++ 0 :: drop (S (length s)) a) else Fault.

(** ** The screen *)

(** [lines[i][j] = c] *)
Definition line_set (t : term_state) (i j c : Z) : outcome term_state :=
  l ← arr_get (lines t) i; l ← arr_set l j c; ls ← arr_set (lines t) i l; mret (set_lines ls t).

Definition term_newline (t : term_state) : outcome term_state :=
  t ← (if row t <? TERM_ROWS - 1 then mret (set_row (i32 (row t + 1)) t)
       else
         ls ← for_to 0 (TERM_ROWS - 1) (fun i ls =>
                src ← arr_get ls (i + 1); s ← arr_str src; dst ← arr_get ls i;
                d ← arr_strcpy dst s; arr_set ls i d) (lines t);
         line_set (set_lines ls t) (TERM_ROWS - 1) 0 0);
  line_set t (row t) 0 0.

Definition term_putc (t : term_state) (c : Z) : outcome term_state :=
  if c =? 10 then term_newline t
  else
    l ← arr_get (lines t) (row t); s ← arr_str l;
    let len := Z.of_nat (length s) in
    '(t, len) ← (if TERM_COLS <=? len then t ← term_newline t; mret (t, 0) else mret (t, len));
    t ← line_set t (row t) len c;
    line_set t (row t) (len + 1) 0.

Fixpoint term_print (t : term_state) (s : list Z) : outcome term_state :=
  match s with [] => mret t | c :: s' => t ← term_putc t c; term_print t s' end.

Definition term_println (t : term_state) (s : list Z) : outcome term_state :=
  t ← term_print t s; term_newline t.

(** The console functions an image is given. *)
Definition pe_term_write (s : option (list Z)) (t : term_state) : outcome term_state :=
  match s with Some s => term_print t s | None => mret t end.
Definition pe_term_writeln (s : option (list Z)) (t : term_state) : outcome term_state :=
  match s with Some s => term_println t s | None => term_newline t end.

(** ** Arguments *)
Fixpoint skip_spaces (p : list Z) : list Z :=
  match p with c :: p' => if c =? 32 then skip_spaces p' else p | [] => [] end.

(** The characters up to the next space, and what follows that space. *)
Fixpoint split_word (p : list Z) : list Z * list Z :=
  match p with
  | [] => ([], [])
  | c :: p' => if c =? 32 then ([], p') else let '(w, r) := split_word p' in (c :: w, r)
  end.

(** The word, or [None] at the end of the line, and the position after it. *)
Definition next_arg (p : list Z) : option (list Z) * list Z :=
  match skip_spaces p with
  | [] => (None, [])
  | q => let '(w, r) := split_word q in (Some w, r)
  end.

Definition ends_with_exe (s : list Z) : bool :=
  match rev s with
  | e3 :: e2 :: e1 :: e0 :: _ =>
      (e0 =? 46) && ((e1 =? 101) || (e1 =? 69)) && ((e2 =? 120) || (e2 =? 88)) && ((e3 =? 101) || (e3 =? 69))
  | _ => false
  end.

(** ** The input line *)

(** The keys other than enter; [char] is signed. *)
Definition edit_input (t : term_state) (c : Z) : outcome term_state :=
  if c =? 8 then
    if 0 <? in_len t then
      let n := i32 (in_len t - 1) in b ← arr_set (input t) n 0; mret (set_input b n t)
    else mret t
  else if (i32 (in_len t + 1) <? TERM_IN) && (32 <=? i8 c) then
    b ← arr_set (input t) (in_len t) c;
    let n := i32 (in_len t + 1) in
    b ← arr_set b n 0; mret (set_input b n t)
  else mret t.

(** The lengths of the literals in the goal. *)
Ltac literal_lengths :=
  rewrite ?length_app;
  repeat match goal with
    | |- context [length (chars ?x)] => let n := eval vm_compute in (length (chars x)) in change (length (chars x)) with n
    end.

(** ** Arrays that hold a string *)
Definition holds (n : nat) (a s : list Z) : Prop :=
  length a = n /\ Forall (fun c => c <> 0) s /\ exists rest, a = s ++ 0 :: rest.

Lemma holds_length n a s : holds n a s -> (length s < n)%nat.
Proof. intros (<- & _ & rest & ->). rewrite length_app. cbn [length]. lia. Qed.

Lemma cstr_app_nul s rest : Forall (fun c => c <> 0) s -> cstr (s ++ 0 :: rest) = s.
Proof. intros Hs. exact (cstr_app_zeros s 0 rest Hs). Qed.

Lemma arr_str_holds n a s : holds n a s -> arr_str a = Done s.
Proof.
  intros (_ & Hs & rest & ->). unfold arr_str. rewrite bool_decide_true, cstr_app_nul by
    (first [exact Hs|apply elem_of_app; right; left]). reflexivity.
Qed.

Lemma arr_strcpy_holds n a s :
  length a = n -> (length s < n)%nat -> Forall (fun c => c <> 0) s ->
  returns (arr_strcpy a s) (fun a' => holds n a' s).
Proof.
  intros Hn Hl Hs. unfold arr_strcpy. destruct (Z.ltb_spec (Z.of_nat (length s)) (Z.of_nat (length a))); [|lia].
  apply returns_Done. split; [|split; [exact Hs|eauto]].
  rewrite length_app. cbn [length]. rewrite length_drop. lia.
Qed.

(** The first character cleared; a character and a NUL stored at the end. *)
Lemma holds_clear n a s : holds n a s -> holds n (<[0%nat := 0]> a) [].
Proof.
  intros (Hn & _ & rest & ->). unfold holds. rewrite length_insert. split; [exact Hn|]. split; [constructor|].
  destruct s as [|c s]; cbn; eauto.
Qed.

Lemma holds_push n a s c :
  holds n a s -> c <> 0 -> (S (length s) < n)%nat ->
  holds n (<[S (length s) := 0]> (<[length s := c]> a)) (s ++ [c]).
Proof.
  intros (Hn & Hs & rest & ->) Hc Hl. unfold holds. rewrite !length_insert. split; [exact Hn|].
  split; [apply Forall_app; split; [exact Hs|constructor; [exact Hc|constructor]]|].
  rewrite length_app in Hn. cbn [length] in Hn. destruct rest as [|y rest]; [cbn in Hn; lia|]. exists rest.
  rewrite insert_app_r_alt, Nat.sub_diag by lia. cbn [list_insert].
  rewrite insert_app_r_alt by lia. replace (S (length s) - length s)%nat with 1%nat by lia.
  cbn. rewrite <- app_assoc. reflexivity.
Qed.

(** ** The screen as the end of the text written so far *)

(** The lines written, the newest first: a newline starts a line, and so does a
    character that finds 72 in its line. *)
Definition feed_char (h : list (list Z)) (c : Z) : list (list Z) :=
  if c =? 10 then [] :: h
  else match h with
       | l :: h' => if (72 <=? length l)%nat then [c] :: h else (l ++ [c]) :: h'
       | [] => [[c]]
       end.
Definition feed (h : list (list Z)) (s : list Z) : list (list Z) := foldl feed_char h s.

(** Row [i] of the table holds the string [f i]. *)
Definition rows (ls : list (list Z)) (f : nat -> list Z) : Prop :=
  length ls = 24%nat /\ forall i, (i < 24)%nat -> exists a, ls !! i = Some a /\ holds 73 a (f i).

(** Rows 0 to [row] show the newest lines of [h], the newest at [row]. *)
Record shows (t : term_state) (h : list (list Z)) : Prop := {
  sh_rows : exists f, rows (lines t) f /\ forall i, (i <= Z.to_nat (row t))%nat -> h !! (Z.to_nat (row t) - i)%nat = Some (f i);
  sh_ne : h <> [];
  sh_row : row t = Z.min 23 (Z.of_nat (length h) - 1)
}.

Definition same_input (t t' : term_state) : Prop :=
  input t' = input t /\ in_len t' = in_len t /\ reboot_req t' = reboot_req t /\ shutdown_req t' = shutdown_req t.

Definition set_at (f : nat -> list Z) (i : nat) (s : list Z) (j : nat) : list Z := if decide (j = i) then s else f j.

Lemma rows_set ls f i a s :
  rows ls f -> (i < 24)%nat -> holds 73 a s -> rows (<[i := a]> ls) (set_at f i s).
Proof.
  intros [Hn Hf] Hi Ha. split; [rewrite length_insert; exact Hn|]. intros j Hj. unfold set_at. case_decide as E.
  - subst j. exists a. rewrite list_lookup_insert_eq by lia. auto.
  - rewrite list_lookup_insert_ne by congruence. exact (Hf j Hj).
Qed.

Lemma rows_get ls f i : rows ls f -> (i < 24)%nat -> exists a, arr_get ls (Z.of_nat i) = Done a /\ holds 73 a (f i).
Proof.
  intros [_ Hf] Hi. destruct (Hf i Hi) as (a & Ea & Ha). exists a. split; [|exact Ha].
  apply arr_get_Done. split; [lia|]. rewrite Nat2Z.id. exact Ea.
Qed.

(** The loop that moves every row up. *)
Lemma scroll_returns ls f :
  rows ls f ->
  returns (for_to 0 (TERM_ROWS - 1) (fun i ls =>
      src ← arr_get ls (i + 1); s ← arr_str src; dst ← arr_get ls i;
      d ← arr_strcpy dst s; arr_set ls i d) ls)
    (fun ls' => rows ls' (fun j => if (j <? 23)%nat then f (S j) else f j)).
Proof.
  intros Hr. unfold TERM_ROWS.
  apply (for_to_inv (fun i ls' => rows ls' (fun j => if (j <? Z.to_nat i)%nat then f (S j) else f j))); [lia|exact Hr| |].
  - intros i ls' Hi Hr'. pose proof (rows_get _ _ (Z.to_nat (i + 1)) Hr' ltac:(lia)) as (src & Es & Hs).
    pose proof (rows_get _ _ (Z.to_nat i) Hr' ltac:(lia)) as (dst & Ed & Hd).
    rewrite Z2Nat.id in Es, Ed by lia. rewrite Es, bind_Done, (arr_str_holds _ _ _ Hs), bind_Done, Ed, bind_Done.
    pose proof (holds_length _ _ _ Hs) as Hlen. destruct Hs as (_ & Hz & _), Hd as (Hdl & _).
    destruct (arr_strcpy_holds 73 dst _ Hdl Hlen Hz) as (d & -> & Hd'). rewrite bind_Done.
    rewrite arr_set_Done by (destruct Hr' as [-> _]; lia). apply returns_Done.
    pose proof (rows_set _ _ (Z.to_nat i) d _ Hr' ltac:(lia) Hd') as [Hl Hf]. split; [exact Hl|].
    intros j Hj. destruct (Hf j Hj) as (a & Ea & Ha). exists a. split; [exact Ea|]. unfold set_at in Ha.
    destruct (Nat.ltb_spec (Z.to_nat (i + 1)) (Z.to_nat i)); [lia|].
    replace (Z.to_nat (i + 1)) with (S (Z.to_nat i)) in * by lia.
    case_decide as E.
    + subst j. destruct (Nat.ltb_spec (Z.to_nat i) (S (Z.to_nat i))); [exact Ha|lia].
    + destruct (Nat.ltb_spec j (Z.to_nat i)), (Nat.ltb_spec j (S (Z.to_nat i))); first [exact Ha|lia].
  - intros ls' Hr'. exact Hr'.
Qed.

Lemma line_set_Done t f i j c a :
  rows (lines t) f -> (i < 24)%nat -> lines t !! i = Some a -> 0 <= j < 73 ->
  line_set t (Z.of_nat i) j c = Done (set_lines (<[i := <[Z.to_nat j := c]> a]> (lines t)) t).
Proof.
  intros Hr Hi Ea Hj. pose proof Hr as [Hl Hf]. destruct (Hf i Hi) as (a' & Ea' & Ha).
  replace a' with a in * by congruence. destruct Ha as (Hla & _). unfold line_set.
  rewrite (proj2 (arr_get_Done _ _ a)), bind_Done by (rewrite Nat2Z.id; split; [lia|exact Ea]).
  rewrite arr_set_Done, bind_Done by lia. rewrite arr_set_Done, Nat2Z.id by lia. reflexivity.
Qed.

Lemma line_clear_returns t f i :
  rows (lines t) f -> (i < 24)%nat ->
  returns (line_set t (Z.of_nat i) 0 0) (fun t' =>
    rows (lines t') (set_at f i []) /\ row t' = row t /\ same_input t t').
Proof.
  intros Hr Hi. pose proof Hr as [_ Hf]. destruct (Hf i Hi) as (a & Ea & Ha).
  rewrite (line_set_Done _ f _ _ _ a) by (first [assumption|lia]). apply returns_Done.
  split; [|split; [reflexivity|repeat split]]. apply rows_set; [exact Hr|exact Hi|exact (holds_clear _ _ _ Ha)].
Qed.

Lemma term_newline_returns t h :
  shows t h -> returns (term_newline t) (fun t' => shows t' ([] :: h) /\ same_input t t').
Proof.
  intros [(f & Hr & Hf) Hne Hrow]. assert (Hlen : (0 < length h)%nat) by (destruct h; [congruence|cbn; lia]).
  unfold term_newline. apply returns_bind. destruct (Z.ltb_spec (row t) (TERM_ROWS - 1)) as [Hlt|Hge]; unfold TERM_ROWS in *.
  - apply returns_Done. rewrite i32_small by lia. cbn [row set_row]. replace (row t + 1) with (Z.of_nat (S (Z.to_nat (row t)))) by lia.
    eapply returns_mono; [apply (line_clear_returns _ f); [exact Hr|lia]|].
    intros t' (Hr' & Er & Hin). cbn [row set_row] in Er. split; [|exact Hin]. split; [|discriminate|cbn [length]; lia].
    exists (set_at f (S (Z.to_nat (row t))) []). split; [exact Hr'|]. rewrite Er, Nat2Z.id. intros i Hi. unfold set_at.
    case_decide as E; [subst i; rewrite Nat.sub_diag; reflexivity|].
    replace (S (Z.to_nat (row t)) - i)%nat with (S (Z.to_nat (row t) - i)) by lia. cbn. apply Hf. lia.
  - apply returns_bind. eapply returns_mono; [exact (scroll_returns _ f Hr)|]. intros ls Hls.
    set (g := fun j : nat => if (j <? 23)%nat then f (S j) else f j) in *.
    eapply returns_mono; [apply (line_clear_returns (set_lines ls t) g 23 Hls); lia|].
    intros t1 (Hr1 & Er1 & Hin1). cbn [row set_lines] in Er1. assert (Er : row t = 23) by lia.
    rewrite Er1, Er. eapply returns_mono; [apply (line_clear_returns t1 _ 23 Hr1); lia|].
    intros t' (Hr' & Er' & Hin'). split.
    + split; [|discriminate|cbn [length]; lia]. eexists. split; [exact Hr'|]. rewrite Er', Er1, Er.
      change (Z.to_nat 23) with 23%nat. intros i Hi. unfold set_at, g. rewrite Er in Hf. change (Z.to_nat 23) with 23%nat in Hf.
      case_decide as E; [subst i; reflexivity|]. destruct (Nat.ltb_spec i 23); [|lia].
      replace (23 - i)%nat with (S (23 - S i)) by lia. cbn [lookup list_lookup]. apply Hf. lia.
    + destruct Hin1 as (? & ? & ? & ?), Hin' as (? & ? & ? & ?). repeat split; cbn in *; congruence.
Qed.

(** A character stored behind the text of the newest line, with its NUL. *)
Lemma push_returns t l h c :
  shows t (l :: h) -> c <> 0 -> (length l < 72)%nat ->
  returns (t ← line_set t (row t) (Z.of_nat (length l)) c; line_set t (row t) (Z.of_nat (length l) + 1) 0)
    (fun t' => shows t' ((l ++ [c]) :: h) /\ same_input t t').
Proof.
  intros [(f & Hr & Hf) _ Hrow] Hc Hl. cbn [length] in Hrow. set (i := Z.to_nat (row t)) in *.
  assert (Hi : (i < 24)%nat) by lia. assert (Ei : row t = Z.of_nat i) by lia.
  pose proof Hr as [Hll Hg]. destruct (Hg i Hi) as (a & Ea & Ha).
  assert (Efi : f i = l) by (specialize (Hf i ltac:(lia)); rewrite Nat.sub_diag in Hf; cbn in Hf; congruence).
  rewrite Efi in Ha. rewrite Ei, (line_set_Done t f i _ c a), bind_Done by (first [assumption|lia]).
  cbn [row set_lines]. rewrite Ei, Nat2Z.id. set (a1 := <[length l := c]> a).
  set (t1 := set_lines _ t). assert (Hl1 : lines t1 !! i = Some a1) by (apply list_lookup_insert_eq; lia).
  pose proof (holds_push 73 a l c Ha Hc ltac:(lia)) as Hpush. fold a1 in Hpush.
  unfold line_set. rewrite (proj2 (arr_get_Done _ _ a1)), bind_Done by (rewrite Nat2Z.id; split; [lia|exact Hl1]).
  rewrite arr_set_Done, bind_Done by (unfold a1; rewrite length_insert; destruct Ha as (-> & _); lia).
  replace (Z.to_nat (Z.of_nat (length l) + 1)) with (S (length l)) by lia.
  assert (Hlen1 : length (lines t1) = 24%nat) by (unfold t1; cbn [lines set_lines]; rewrite length_insert; exact Hll).
  rewrite arr_set_Done, bind_Done, Nat2Z.id by lia. apply returns_Done. split; [|repeat split].
  unfold t1. split; cbn [lines row set_lines]; [|discriminate|cbn [length]; lia].
  exists (set_at f i (l ++ [c])). rewrite list_insert_insert_eq. split.
  - apply rows_set; assumption.
  - fold i. intros j Hj. unfold set_at. case_decide as E; [subst j; rewrite Nat.sub_diag; reflexivity|].
    specialize (Hf j Hj). destruct (i - j)%nat as [|k] eqn:Ek; [lia|exact Hf].
Qed.

Lemma term_putc_returns t h c :
  shows t h -> c <> 0 -> returns (term_putc t c) (fun t' => shows t' (feed_char h c) /\ same_input t t').
Proof.
  intros Hs Hc. unfold term_putc, feed_char. destruct (Z.eqb_spec c 10); [exact (term_newline_returns t h Hs)|].
  destruct h as [|l h]; [destruct (sh_ne _ _ Hs); reflexivity|].
  pose proof Hs as [(f & Hr & Hf) _ Hrow]. cbn [length] in Hrow. set (i := Z.to_nat (row t)) in *.
  assert (Efi : f i = l) by (specialize (Hf i ltac:(lia)); rewrite Nat.sub_diag in Hf; cbn in Hf; congruence).
  destruct (rows_get _ _ i Hr ltac:(lia)) as (a & Ea & Ha). rewrite Efi in Ha.
  replace (Z.of_nat i) with (row t) in Ea by lia.
  rewrite Ea, bind_Done, (arr_str_holds _ _ _ Ha), bind_Done. unfold TERM_COLS.
  destruct (Z.leb_spec 72 (Z.of_nat (length l))), (Nat.leb_spec 72 (length l)); try lia.
  - destruct (term_newline_returns t (l :: h) Hs) as (t1 & -> & Hs1 & Hin1). rewrite !bind_Done.
    eapply returns_mono; [apply (push_returns t1 [] (l :: h) c Hs1 Hc); cbn; lia|].
    intros t' [Hs' Hin']. split; [exact Hs'|]. destruct Hin1 as (? & ? & ? & ?), Hin' as (? & ? & ? & ?).
    repeat split; congruence.
  - cbn [mret outcome_ret]. rewrite bind_Done. exact (push_returns t l h c Hs Hc ltac:(lia)).
Qed.

Lemma same_input_trans t1 t2 t3 : same_input t1 t2 -> same_input t2 t3 -> same_input t1 t3.
Proof. intros (? & ? & ? & ?) (? & ? & ? & ?). repeat split; congruence. Qed.

Lemma term_print_returns t h s :
  shows t h -> Forall (fun c => c <> 0) s ->
  returns (term_print t s) (fun t' => shows t' (feed h s) /\ same_input t t').
Proof.
  intros Hs Hok. revert t h Hs. induction Hok as [|c s Hc _ IH]; intros t h Hs; cbn [term_print feed foldl].
  - apply returns_Done. split; [exact Hs|repeat split].
  - apply returns_bind. eapply returns_mono; [exact (term_putc_returns t h c Hs Hc)|]. intros t1 [Hs1 Hin1].
    eapply returns_mono; [exact (IH t1 _ Hs1)|]. intros t' [Hs' Hin'].
    split; [exact Hs'|exact (same_input_trans _ _ _ Hin1 Hin')].
Qed.

(** C24: [term_print] refines writing to an endless page: if the rows of the screen are
    the newest lines of what was written so far, they still are after any string without a
    NUL is printed, where a line ends at a newline or after 72 characters; no access leaves
    the arrays, whatever the length of the string, and the input line is not touched. *)
Theorem term_print_shows t h s :
  shows t h -> Forall (fun c => c <> 0) s ->
  returns (term_print t s) (fun t' => shows t' (feed h s) /\ same_input t t').
Proof. exact (term_print_returns t h s). Qed.

Lemma term_println_returns t h s :
  shows t h -> Forall (fun c => c <> 0) s ->
  returns (term_println t s) (fun t' => shows t' ([] :: feed h s) /\ same_input t t').
Proof.
  intros Hs Hok. unfold term_println. apply returns_bind.
  eapply returns_mono; [exact (term_print_returns t h s Hs Hok)|]. intros t1 [Hs1 Hin1].
  eapply returns_mono; [exact (term_newline_returns t1 _ Hs1)|]. intros t' [Hs' Hin'].
  split; [exact Hs'|exact (same_input_trans _ _ _ Hin1 Hin')].
Qed.

(** The empty screen. *)
Lemma zero_rows : rows (replicate 24 (replicate 73 0)) (fun _ => []).
Proof.
  split; [reflexivity|]. intros i Hi. exists (replicate 73 0). rewrite lookup_replicate_2 by exact Hi.
  split; [reflexivity|]. split; [reflexivity|]. split; [constructor|]. exists (replicate 72 0). reflexivity.
Qed.

Lemma zero_term_shows : shows zero_term [[]].
Proof.
  split; [exists (fun _ => [])|discriminate|reflexivity]. split; [exact zero_rows|].
  intros i Hi. cbn in Hi. replace i with 0%nat by lia. reflexivity.
Qed.

(** ** The words of a line *)
Definition word (w : list Z) : Prop := w <> [] /\ 32 ∉ w.

(** Decides [word] for a literal. *)
Ltac concrete_word :=
  split; [discriminate|]; vm_compute; intros Hin;
  repeat (apply elem_of_cons in Hin as [Hin|Hin]; [discriminate|]); apply elem_of_nil in Hin as [].

Fixpoint words_of (fuel : nat) (p : list Z) : list (list Z) :=
  match fuel with
  | O => []
  | S f => match next_arg p with (Some w, r) => w :: words_of f r | (None, _) => [] end
  end.

(** A line: every word with [k + 1] spaces before it. *)
Fixpoint spaced (l : list (nat * list Z)) : list Z :=
  match l with [] => [] | (k, w) :: l' => replicate (S k) 32 ++ w ++ spaced l' end.

Lemma skip_spaces_replicate k p : skip_spaces (replicate k 32 ++ p) = skip_spaces p.
Proof. induction k as [|k IH]; [reflexivity|exact IH]. Qed.

Lemma skip_spaces_word c p : c <> 32 -> skip_spaces (c :: p) = c :: p.
Proof. intros Hc. cbn [skip_spaces]. destruct (Z.eqb_spec c 32); [congruence|reflexivity]. Qed.

Lemma split_word_end w : 32 ∉ w -> split_word w = (w, []).
Proof.
  induction w as [|c w IH]; intros Hw; [reflexivity|]. apply not_elem_of_cons in Hw as [Hc Hw]. cbn [split_word].
  destruct (Z.eqb_spec c 32); [congruence|]. rewrite IH by exact Hw. reflexivity.
Qed.

Lemma split_word_space w p : 32 ∉ w -> split_word (w ++ 32 :: p) = (w, p).
Proof.
  induction w as [|c w IH]; intros Hw; [reflexivity|]. apply not_elem_of_cons in Hw as [Hc Hw]. cbn [app split_word].
  destruct (Z.eqb_spec c 32); [congruence|]. rewrite IH by exact Hw. reflexivity.
Qed.

(** [next_arg] takes a word off the line, whatever spaces are around it. *)
Lemma next_arg_word k w p : word w -> next_arg (replicate k 32 ++ w ++ 32 :: p) = (Some w, p).
Proof.
  intros [Hne Hw]. unfold next_arg. rewrite skip_spaces_replicate. destruct w as [|c w]; [congruence|].
  pose proof Hw as Hw'. apply not_elem_of_cons in Hw' as [Hc _]. cbn [app]. rewrite skip_spaces_word by congruence.
  change (c :: w ++ 32 :: p) with ((c :: w) ++ 32 :: p). rewrite split_word_space by exact Hw. reflexivity.
Qed.

Lemma next_arg_last k w : word w -> next_arg (replicate k 32 ++ w) = (Some w, []).
Proof.
  intros [Hne Hw]. unfold next_arg. rewrite skip_spaces_replicate. destruct w as [|c w]; [congruence|].
  pose proof Hw as Hw'. apply not_elem_of_cons in Hw' as [Hc _]. rewrite skip_spaces_word by congruence.
  rewrite split_word_end by exact Hw. reflexivity.
Qed.

Lemma next_arg_none k : next_arg (replicate k 32) = (None, []).
Proof. unfold next_arg. rewrite <- (app_nil_r (replicate k 32)), skip_spaces_replicate. reflexivity. Qed.

(** Repeated [next_arg] gives back the words of a line: the first word [w], the others each
    behind one or more spaces, and any spaces at the end. *)
Lemma words_spaced l : forall k w e fuel,
  word w -> Forall (fun x => word (snd x)) l -> (length l < fuel)%nat ->
  words_of fuel (replicate k 32 ++ w ++ spaced l ++ replicate e 32) = w :: map snd l.
Proof.
  induction l as [|[k' w'] l IH]; intros k w e fuel Hw Hl Hf; (destruct fuel as [|f]; [cbn in Hf; lia|]); cbn [words_of spaced].
  - destruct e as [|e]; cbn [replicate app].
    + rewrite app_nil_r, next_arg_last by exact Hw. destruct f; reflexivity.
    + rewrite next_arg_word by exact Hw. destruct f as [|f]; [reflexivity|]. cbn [words_of].
      rewrite next_arg_none. reflexivity.
  - apply Forall_cons_1 in Hl as [Hw' Hl]. cbn [snd] in Hw'. cbn [replicate app]. rewrite <- !app_assoc.
    rewrite next_arg_word by exact Hw. rewrite (IH k' w' e f Hw' Hl) by (cbn [length] in Hf; lia). reflexivity.
Qed.

(** ** The input line *)

(** What the keys type: backspace removes the last character, printable characters are
    added while there is room for 127. *)
Definition edit (s : list Z) (c : Z) : list Z :=
  if c =? 8 then removelast s
  else if (length s <? 127)%nat && (32 <=? i8 c) then s ++ [c] else s.

Record typed (t : term_state) (s : list Z) : Prop := {
  ty_buf : holds 128 (input t) s;
  ty_len : in_len t = Z.of_nat (length s)
}.

Lemma edit_input_returns t s c :
  typed t s -> returns (edit_input t c) (fun t' => typed t' (edit s c) /\ lines t' = lines t /\ row t' = row t).
Proof.
  intros [Hb Hn]. pose proof (holds_length _ _ _ Hb) as Hlen. unfold edit_input, edit, TERM_IN.
  destruct (Z.eqb_spec c 8) as [->|_].
  - destruct (Z.ltb_spec 0 (in_len t)) as [Hp|Hp].
    2: { apply returns_Done. destruct s; [|cbn [length] in Hn; lia]. split; [split; assumption|auto]. }
    rewrite i32_small by lia. destruct Hb as (Hl & Hz & rest & Ei).
    rewrite arr_set_Done, bind_Done by lia. apply returns_Done. split; [|auto].
    destruct s as [|x s _] using rev_ind; [cbn in Hn; lia|]. rewrite removelast_last.
    rewrite length_app in Hn. cbn [length] in Hn. apply Forall_app in Hz as [Hz _].
    split; cbn [input in_len set_input]; [|lia]. split; [rewrite length_insert; exact Hl|]. split; [exact Hz|].
    exists (0 :: rest). rewrite Ei, <- app_assoc. replace (Z.to_nat (in_len t - 1)) with (length s + 0)%nat by lia.
    rewrite insert_app_r. reflexivity.
  - rewrite Hn, i32_small by lia.
    destruct (Z.ltb_spec (Z.of_nat (length s) + 1) 128), (Nat.ltb_spec (length s) 127); try lia; cbn [andb].
    2: { apply returns_Done. split; [split; assumption|auto]. }
    destruct (Z.leb_spec 32 (i8 c)) as [Hc|Hc]; [|apply returns_Done; split; [split; assumption|auto]].
    assert (Hc0 : c <> 0) by (intros ->; vm_compute in Hc; apply Hc; reflexivity).
    assert (Hl : length (input t) = 128%nat) by apply Hb.
    rewrite arr_set_Done, bind_Done by lia. rewrite arr_set_Done, bind_Done by (rewrite length_insert; lia).
    apply returns_Done. split; [|auto]. rewrite Nat2Z.id. replace (Z.to_nat (Z.of_nat (length s) + 1)) with (S (length s)) by lia.
    split; cbn [input in_len set_input]; [apply holds_push; [exact Hb|exact Hc0|lia]|].
    rewrite length_app. cbn [length]. lia.
Qed.

Lemma zero_term_typed : typed zero_term [].
Proof. split; [|reflexivity]. split; [reflexivity|]. split; [constructor|]. exists (replicate 127 0). reflexivity. Qed.

(** ** Witness *)
Lemma term_print_shows_witness :
  returns (term_print zero_term (chars "Hello" ++ [10] ++ replicate 100 88))
    (fun t' => shows t' [replicate 28 88; replicate 72 88; chars "Hello"] /\ in_len t' = 0).
Proof.
  eapply returns_mono; [apply (term_print_shows zero_term [[]]); [exact zero_term_shows|]|].
  - vm_compute. repeat constructor; discriminate.
  - intros t' [Hs (_ & Hn & _)]. split; [exact Hs|exact Hn].
Defined.
