(* ===== verification/Shell.v ===== *)
(** * Shell: the commands and the window of [applications/terminal/terminal.c]

    The state is that of the screen ([Terminal.v]), the file system with the kernel heap
    ([Vfs.v]) and what the loader needs to run a program ([Pe.v]), whose console is the
    screen.  A string that does not fit the local buffer the code builds it in is a
    [Fault].  What [systeminfo] reports of other components is an argument. *)
From Stdlib Require Import ZArith Lia Bool String.
From stdpp Require Import base tactics option list numbers gmap.
From S2P Require Import Prelude CInt CString PageAlloc BlockAlloc Io Pmm Mem Adaptive Timer Cpu Framebuffer Wm Vfs VfsOps Pe Terminal.
From S2P Require Services.
#[local] Close Scope string_scope.
#[local] Open Scope Z_scope.

(** [sdk/include/h3os/version.h] *)
Definition H3OS_NAME : list Z := chars "H3OS".
Definition H3OS_TAGLINE : list Z := chars "The Future Starts Here.".
Definition H3OS_VERSION_STRING : list Z := chars "0.1.0".
Definition H3OS_CODENAME : list Z := chars "Horizon".

(** The bytes of the em dash. *)
Definition dash : list Z := [226; 128; 148].

Definition named (cmd : list Z) (x : string) : bool := str_eq cmd (chars x).

(** What the other components report. *)
Record sysinfo := mk_sysinfo { i_cpu : cpu_info; i_mem : pmm_stats; i_perf : perf_settings; i_timer : timer }.

Section Shell.
Context {P : Type} `{PA : PageAlloc P} {K : Type} `{BA : BlockAlloc K} {D : Type} `{IO : PortIO D}.
Context (exec : processor) (info : sysinfo).

Record sys := mk_sys {
  term : term_state;                  (* g_term *)
  fs : @vfs K;
  pg : P;
  ram : mem;
  exit_code : Z;
  exited : bool;
  hooks : console term_state;
  ports : D
}.

Definition set_term (t : term_state) (s : sys) : sys :=
  mk_sys t (fs s) (pg s) (ram s) (exit_code s) (exited s) (hooks s) (ports s).
Definition set_fs (f : @vfs K) (s : sys) : sys :=
  mk_sys (term s) f (pg s) (ram s) (exit_code s) (exited s) (hooks s) (ports s).
Definition set_hooks (c : console term_state) (s : sys) : sys :=
  mk_sys (term s) (fs s) (pg s) (ram s) (exit_code s) (exited s) c (ports s).
Definition set_ports (d : D) (s : sys) : sys :=
  mk_sys (term s) (fs s) (pg s) (ram s) (exit_code s) (exited s) (hooks s) d.

(** The loader's view of the state, and back. *)
Definition machine_of (s : sys) : @machine_state P K term_state :=
  mk_machine (pg s) (heap (fs s)) (ram s) (exit_code s) (exited s) (hooks s) (term s).
Definition of_machine (m : @machine_state P K term_state) (s : sys) : sys :=
  mk_sys (screen m)
    (mk_vfs (nodes (fs s)) (node_count (fs s)) (root (fs s)) (cwd (fs s)) (blocks (fs s)) (kheap m))
    (pages m) (memory m) (g_exit_code m) (g_exited m) (con m) (ports s).

Definition put (s : sys) (x : list Z) : outcome sys := t ← term_print (term s) x; mret (set_term t s).
Definition say (s : sys) (x : list Z) : outcome sys := t ← term_println (term s) x; mret (set_term t s).
Definition newline (s : sys) : outcome sys := t ← term_newline (term s); mret (set_term t s).

(** Text, and a newline unless it ends with one ([n] bytes were read). *)
Definition put_text (s : sys) (b : list Z) : outcome sys :=
  s ← put s (cstr b);
  if bool_decide (last b = Some 10) then mret s else newline s.

(** [vfs_read] into a buffer of 512 bytes; the count stays 0 when it fails, and bytes
    that were not written must not be read. *)
Definition read_512 (s : sys) (nd : option nat) : outcome (list Z) :=
  '(r, b) ← vfs_read (fs s) nd 511;
  if r <? 0 then mret [] else if Z.of_nat (length b) =? r then mret b else Fault.

(** ** Directories and files *)
Definition list_line (n : node) : outcome (list Z) :=
  buf_str 160
    ((if type n =? VFS_DIR then chars "dir  " else chars "file ") ++ cstr (name n) ++
     (if type n =? VFS_FILE then chars "  " ++ utoa_str (size n) 10 ++ chars "B" else [])).
Definition list_cb (s : sys) (i : nat) : outcome sys :=
  n ← node_at (fs s) i; l ← list_line n; say s l.
Fixpoint list_nodes (s : sys) (l : list nat) : outcome sys :=
  match l with [] => mret s | i :: l' => s ← list_cb s i; list_nodes s l' end.

Definition cmd_cd (s : sys) (p : list Z) : outcome sys :=
  '(r, f) ← vfs_chdir (fs s) (default (chars "/home/user") (fst (next_arg p)));
  let s := set_fs f s in
  if negb (r =? 0) then say s (chars "cd: no such directory") else mret s.

Definition cmd_ls (s : sys) (p : list Z) : outcome sys :=
  dir ← vfs_resolve (fs s) (default (chars ".") (fst (next_arg p)));
  match dir with
  | None => say s (chars "ls: not found")
  | Some _ => l ← vfs_list (fs s) dir; list_nodes s l
  end.

Definition cmd_mkdir (s : sys) (p : list Z) : outcome sys :=
  match fst (next_arg p) with
  | None => say s (chars "mkdir: missing operand")
  | Some a =>
      '(n, f) ← vfs_mkdir (fs s) a 493;
      let s := set_fs f s in
      match n with None => say s (chars "mkdir: failed") | Some _ => mret s end
  end.

Definition cmd_rm (s : sys) (p : list Z) : outcome sys :=
  match fst (next_arg p) with
  | None => say s (chars "rm: missing operand")
  | Some a =>
      '(r, f) ← vfs_unlink (fs s) a;
      let s := set_fs f s in
      if negb (r =? 0) then say s (chars "rm: failed") else mret s
  end.

(** [cp] and [mv] differ in the operation and the messages. *)
Definition cmd_two (op : @vfs K -> list Z -> list Z -> outcome (Z * @vfs K)) (usage failed : list Z)
    (s : sys) (p : list Z) : outcome sys :=
  let '(src, p) := next_arg p in
  let '(dst, _) := next_arg p in
  match src, dst with
  | Some a, Some b =>
      '(r, f) ← op (fs s) a b;
      let s := set_fs f s in
      if negb (r =? 0) then say s failed else say s (chars "ok")
  | _, _ => say s usage
  end.
Definition cmd_cp : sys -> list Z -> outcome sys :=
  cmd_two vfs_copy (chars "cp: usage: cp <src> <dst>") (chars "cp: failed").
Definition cmd_mv : sys -> list Z -> outcome sys :=
  cmd_two vfs_rename (chars "mv: usage: mv <src> <dst>") (chars "mv: failed").

Definition cmd_cat (s : sys) (p : list Z) : outcome sys :=
  f ← (match fst (next_arg p) with Some a => vfs_resolve (fs s) a | None => mret None end);
  match f with
  | None => say s (chars "cat: not a file")
  | Some i =>
      n ← node_at (fs s) i;
      if negb (type n =? VFS_FILE) then say s (chars "cat: not a file")
      else b ← read_512 s f; put_text s b
  end.

Definition cmd_find (s : sys) (p : list Z) : outcome sys :=
  match fst (next_arg p) with
  | None => say s (chars "find: missing pattern")
  | Some a =>
      s ← put s (chars "find: searching for '"); s ← put s a; s ← say s (chars "' (basic VFS scan)");
      l ← vfs_list (fs s) (vfs_root (fs s)); list_nodes s l
  end.

(** ** Fixed texts *)
Fixpoint say_all (s : sys) (l : list (list Z)) : outcome sys :=
  match l with [] => mret s | x :: l' => s ← say s x; say_all s l' end.

Definition cmd_help (s : sys) : outcome sys :=
  say_all s [chars "H3OS Shell " ++ dash ++ chars " commands:";
    chars "  cd ls pwd mkdir rm cp mv cat echo";
    chars "  run ./file.exe   (PE32+ H3OS executables)";
    chars "  grep find clear top kill systeminfo";
    chars "  network shutdown reboot help version h3pkg"].
Definition cmd_top (s : sys) : outcome sys :=
  say_all s [chars "PID  NAME            STATE"; chars "1    kernel          running";
    chars "2    desktop         running"; chars "3    terminal        running"].
Definition cmd_network (s : sys) : outcome sys :=
  say_all s [chars "network: stack initializing (IPv4/IPv6 planned)"; chars "  lo0  UP  127.0.0.1/8"].
Definition cmd_version (s : sys) : outcome sys :=
  s ← put s H3OS_NAME; s ← put s (chars " "); s ← say s H3OS_VERSION_STRING; say s H3OS_TAGLINE.

Definition cmd_systeminfo (s : sys) : outcome sys :=
  s ← put s (chars "OS: "); s ← put s H3OS_NAME; s ← put s (chars " ");
  s ← put s H3OS_VERSION_STRING; s ← put s (chars " (");
  s ← put s H3OS_CODENAME; s ← say s (chars ")");
  s ← put s (chars "CPU: "); s ← say s (cstr (brand (i_cpu info)));
  s ← put s (chars "Vendor: "); s ← say s (cstr (vendor (i_cpu info)));
  s ← put s (chars "Logical CPUs: ");
  s ← say s (utoa_str (logical_cpus (i_cpu info)) 10);
  s ← put s (chars "Memory: ");
  s ← put s (utoa_str (st_total_bytes (i_mem info) / (1024 * 1024)) 10); s ← put s (chars " MiB total, ");
  s ← put s (utoa_str (u64 (st_free_pages (i_mem info) * PAGE_SIZE) / (1024 * 1024)) 10); s ← say s (chars " MiB free");
  s ← put s (chars "Profile: "); s ← say s (adaptive_profile_name (i_perf info));
  s ← put s (chars "Uptime ms: "); say s (utoa_str (timer_uptime_ms (i_timer info)) 10).

Definition cmd_clear (s : sys) : outcome sys :=
  mret (set_term (set_row 0 (set_lines (replicate 24 (replicate 73 0)) (term s))) s).

(** ** Programs *)

(** The bytes at [f->data], [f->size] of them. *)
Definition file_data (s : sys) (n : node) : outcome (list Z) :=
  match blocks (fs s) !! data n with
  | Some b => if Z.of_nat (length b) <? size n then Fault else mret (take (Z.to_nat (size n)) b)
  | None => Fault
  end.

(** The file of a program: at the path, or in [/bin] when the path is not absolute. *)
Definition find_program (s : sys) (path : list Z) : outcome (option nat * list Z) :=
  f ← vfs_resolve (fs s) path;
  match f with
  | Some _ => mret (f, path)
  | None =>
      if bool_decide (head path = Some slash) then mret (None, path)
      else
        full ← buf_str VFS_PATH_MAX (chars "/bin/" ++ path);
        f ← vfs_resolve (fs s) full;
        mret (f, match f with Some _ => full | None => path end)
  end.

Definition launch (s : sys) (path file : list Z) : outcome sys :=
  s ← put s (chars "run: launching "); s ← say s path;
  let s := set_hooks (pe_set_console (Some pe_term_write) (Some pe_term_writeln)) s in
  '(rc, m) ← pe_run (fun _ t => mret t) exec (machine_of s) (Some file);
  let s := of_machine m s in
  s ← put s (chars "run: exit code "); say s (itoa_str rc 10).

Definition cmd_run (s : sys) (path : option (list Z)) : outcome sys :=
  if bool_decide (default [] path = []) then
    say_all s [chars "run: usage: run <file.exe>"; chars "try: run /bin/hello.exe"]
  else
    '(f, path) ← find_program s (default [] path);
    match f with
    | None => say s (chars "run: file not found")
    | Some i =>
        n ← node_at (fs s) i;
        if negb (type n =? VFS_FILE) then say s (chars "run: file not found")
        else if (data n =? 0) || (size n =? 0) then say s (chars "run: empty file")
        else
          file ← file_data s n;
          '(ok, inf) ← pe_probe (Some file);
          if negb ok then
            s ← put s (chars "run: not a valid H3OS PE32+ exe ("); s ← put s (default (chars "error") (error inf));
            s ← say s (chars ")");
            say s (chars "note: Win32 GUI EXEs need the future Windows subsystem")
          else launch s path file
    end.

(** ** The package database *)
Definition pkg_db : list Z := chars "/var/lib/h3pkg/db".

(** The characters up to the next newline, and what follows it. *)
Fixpoint split_line (b : list Z) : list Z * list Z :=
  match b with
  | [] => ([], [])
  | c :: b' => if c =? 10 then ([], b') else let '(l, r) := split_line b' in (c :: l, r)
  end.

(** The lines that contain [pkg], cut to the 95 characters of [tmp]. *)
Definition db_search (fuel : nat) (s : sys) (pkg b : list Z) : outcome (bool * sys) :=
  loop fuel (fun '(b, found, s) =>
    if bool_decide (b = []) then mret (inr (found, s))
    else
      let '(l, r) := split_line b in
      let tmp := take 95 l in
      match find_sub pkg tmp with
      | Some _ => s ← say s tmp; mret (inl (r, true, s))
      | None => mret (inl (r, found, s))
      end)
    (b, false, s).

Definition h3pkg_list (s : sys) (pkg : option (list Z)) : outcome sys :=
  db ← vfs_resolve (fs s) pkg_db;
  match db with
  | None => say s (chars "h3pkg: database missing")
  | Some _ =>
      b ← read_512 s db;
      if bool_decide (default [] pkg = []) then put_text s b
      else
        '(found, s) ← db_search (S (length b)) s (default [] pkg) (cstr b);
        if (found : bool) then mret s else say s (chars "h3pkg: no matches")
  end.

(** The entry goes to the end of the database when it fits the buffer. *)
Definition db_add (s : sys) (entry : list Z) : outcome sys :=
  db ← vfs_resolve (fs s) pkg_db;
  match db with
  | None =>
      '(_, f) ← vfs_mkdir (fs s) (chars "/var/lib") 493;
      '(_, f) ← vfs_mkdir f (chars "/var/lib/h3pkg") 493;
      '(db, f) ← vfs_create f pkg_db 420;
      match db with
      | None => mret (set_fs f s)
      | Some _ => '(_, f) ← vfs_write f db (entry ++ [0]) (Z.of_nat (length entry)); mret (set_fs f s)
      end
  | Some _ =>
      b ← read_512 s db;
      if Z.of_nat (length b) + Z.of_nat (length entry) <? 512 then
        buf ← buf_str 512 (cstr b ++ entry);
        '(_, f) ← vfs_write (fs s) db (buf ++ [0]) (Z.of_nat (length buf)); mret (set_fs f s)
      else mret s
  end.

Definition pkg_path (pkg : list Z) : outcome (list Z) := buf_str 128 (chars "/usr/share/packages/" ++ pkg).

Definition h3pkg_install (s : sys) (pkg : list Z) : outcome sys :=
  entry ← buf_str 96 (pkg ++ chars " 0.1.0 installed" ++ [10]);
  s ← db_add s entry;
  '(_, f) ← vfs_mkdir (fs s) (chars "/usr/share/packages") 493;
  path ← pkg_path pkg;
  '(meta, f) ← vfs_create f path 420;
  f ← (match meta with
       | Some _ => '(_, f) ← vfs_write f meta (chars "h3pkg package" ++ [10; 0]) 14; mret f
       | None => mret f
       end);
  let s := set_fs f s in
  s ← put s (chars "h3pkg: installed "); say s pkg.

Definition h3pkg_remove (s : sys) (pkg : list Z) : outcome sys :=
  path ← pkg_path pkg;
  '(_, f) ← vfs_unlink (fs s) path;
  let s := set_fs f s in
  s ← put s (chars "h3pkg: removed "); say s pkg.

Definition cmd_h3pkg (s : sys) (p : list Z) : outcome sys :=
  let '(sub, p) := next_arg p in
  let '(pkg, _) := next_arg p in
  match sub with
  | None => say s (chars "h3pkg: install|remove|update|upgrade|search|repair|list")
  | Some sub =>
      if named sub "list" || named sub "search" then h3pkg_list s pkg
      else if named sub "install" then
        match pkg with None => say s (chars "h3pkg: install <name>") | Some k => h3pkg_install s k end
      else if named sub "remove" then
        match pkg with None => say s (chars "h3pkg: remove <name>") | Some k => h3pkg_remove s k end
      else if named sub "repair" || named sub "update" || named sub "upgrade" then
        s ← put s (chars "h3pkg: "); s ← put s sub;
        say s (chars " " ++ dash ++ chars " local RAMFS db OK")
      else say s (chars "h3pkg: unknown subcommand")
  end.

(** ** A command line *)
Definition run_command (s : sys) (line : list Z) : outcome sys :=
  let '(cmd, p) := next_arg line in
  match cmd with
  | None => mret s
  | Some cmd =>
      if named cmd "help" || named cmd "?" then cmd_help s
      else if named cmd "clear" then cmd_clear s
      else if named cmd "pwd" then say s (vfs_cwd (fs s))
      else if named cmd "cd" then cmd_cd s p
      else if named cmd "ls" then cmd_ls s p
      else if named cmd "mkdir" then cmd_mkdir s p
      else if named cmd "rm" then cmd_rm s p
      else if named cmd "cp" then cmd_cp s p
      else if named cmd "mv" then cmd_mv s p
      else if named cmd "cat" then cmd_cat s p
      else if named cmd "echo" then say s p
      else if named cmd "run" || named cmd "exec" || named cmd "./" then cmd_run s (fst (next_arg p))
      else if ends_with_exe cmd then cmd_run s (Some cmd)
      else if named cmd "systeminfo" || named cmd "uname" then cmd_systeminfo s
      else if named cmd "version" then cmd_version s
      else if named cmd "top" then cmd_top s
      else if named cmd "kill" then say s (chars "kill: process control not yet exposed to userspace")
      else if named cmd "network" then cmd_network s
      else if named cmd "find" then cmd_find s p
      else if named cmd "grep" then say s (chars "grep: use cat + visual scan in v0.1 (full grep soon)")
      else if named cmd "h3pkg" then cmd_h3pkg s p
      else if named cmd "shutdown" then
        s ← say s (chars "Shutting down H3OS...");
        mret (set_term (request (reboot_req (term s)) true (term s)) s)
      else if named cmd "reboot" then
        s ← say s (chars "Rebooting...");
        mret (set_term (request true (shutdown_req (term s)) (term s)) s)
      else s ← put s (chars "unknown command: "); say s cmd
  end.

(** ** The window *)

(** Enter: the line is echoed behind the prompt, cleared, and run. *)
Definition enter_line (s : sys) : outcome sys :=
  line ← arr_str (input (term s));
  s ← put s (chars "h3os:"); s ← put s (vfs_cwd (fs s)); s ← put s (chars "> ");
  s ← say s line;
  b ← arr_set (input (term s)) 0 0;
  s ← run_command (set_term (set_input b 0 (term s)) s) line;
  let d := ports s in
  let d := if reboot_req (term s) then outb d 0x64 0xFE else d in
  let d := if shutdown_req (term s) then outw (outw d 0x604 0x2000) 0xB004 0x2000 else d in
  mret (set_ports d s).

Definition term_on_key (s : sys) (c : Z) : outcome sys :=
  if (c =? 10) || (c =? 13) then enter_line s
  else t ← edit_input (term s) c; mret (set_term t s).

Definition prompt (s : sys) : outcome (list Z) :=
  i ← arr_str (input (term s));
  buf_str (TERM_IN + 32) (chars "h3os:" ++ vfs_cwd (fs s) ++ chars "> " ++ i).

Definition term_draw (f : fb) (m : mem) (v : window) (s : sys) : outcome mem :=
  let x := i32 (wx v + 8) in
  let y := i32 (wy v + 36) in
  m ← for_to 0 (Z.min (row (term s) + 1) TERM_ROWS) (fun r m =>
        l ← arr_get (lines (term s)) r; l ← arr_str l;
        fb_draw_string f m x (i32 (y + r * 10)) l 0xFFB8F2E6 TRANSPARENT) m;
  p ← prompt s;
  fb_draw_string f m x (i32 (y + (row (term s) + 1) * 10)) p 0xFF2EC4B6 TRANSPARENT.

(** The window's colours and callbacks; [drawf], [keyf] and [termp] are the addresses of
    [term_draw], [term_on_key] and [g_term]. *)
Definition terminal_window (drawf keyf termp : Z) (v : window) : window :=
  mk_window (active v) (title v) (wx v) (wy v) (ww v) (wh v) (restore_x v) (restore_y v) (restore_w v) (restore_h v)
    0xFF07161E 0xFF2EC4B6 (wstate v) (always_on_top v) (is_focused v) drawf keyf termp.

Definition terminal_open (drawf keyf termp : Z) (f : fb) (perf : perf_settings) (w : wm) (s : sys)
    : outcome (option nat * wm * sys) :=
  let s := set_hooks (pe_set_console (Some pe_term_write) (Some pe_term_writeln)) (set_term zero_term s) in
  let x := Z.quot (i32 (i32 (width f) - 640)) 2 in
  match wm_create perf w (Some (chars "Terminal")) x 80 640 400 with
  | (None, w) => mret (None, w, s)
  | (Some i, w) =>
      let w := upd_win i (terminal_window drawf keyf termp) w in
      s ← say s (chars "H3OS Terminal 0.1 " ++ dash ++ chars " The Future Starts Here.");
      s ← say s (chars "Type 'help' | try: run /bin/hello.exe");
      mret (Some i, w, s)
  end.
(** ** Printing *)
Implicit Types s : sys.

(** [s'] is [s] with a screen that shows [h], the same input line and requests. *)
Definition printed s s' (h : list (list Z)) : Prop :=
  exists t, s' = set_term t s /\ shows t h /\ same_input (term s) t.

Lemma printed_trans s1 s2 s3 h2 h3 : printed s1 s2 h2 -> printed s2 s3 h3 -> printed s1 s3 h3.
Proof.
  intros (t2 & -> & _ & Hi2) (t3 & -> & Hs3 & Hi3). exists t3. split; [reflexivity|]. split; [exact Hs3|].
  exact (same_input_trans _ _ _ Hi2 Hi3).
Qed.

Lemma printed_shows s s' h : printed s s' h -> shows (term s') h.
Proof. intros (t & -> & Hs & _). exact Hs. Qed.

Lemma put_returns s h x :
  shows (term s) h -> str_ok x -> returns (put s x) (fun s' => printed s s' (feed h x)).
Proof.
  intros Hs Hx. apply returns_bind. eapply returns_mono; [exact (term_print_returns _ h x Hs Hx)|].
  intros t Ht. apply returns_Done. exists t. auto.
Qed.

Lemma newline_returns s h : shows (term s) h -> returns (newline s) (fun s' => printed s s' ([] :: h)).
Proof.
  intros Hs. apply returns_bind. eapply returns_mono; [exact (term_newline_returns _ h Hs)|].
  intros t Ht. apply returns_Done. exists t. auto.
Qed.

Lemma say_returns s h x :
  shows (term s) h -> str_ok x -> returns (say s x) (fun s' => printed s s' ([] :: feed h x)).
Proof.
  intros Hs Hx. apply returns_bind. eapply returns_mono; [exact (term_println_returns _ h x Hs Hx)|].
  intros t Ht. apply returns_Done. exists t. auto.
Qed.

Lemma put_then s h x (k : sys -> outcome sys) Q :
  shows (term s) h -> str_ok x ->
  (forall s', printed s s' (feed h x) -> returns (k s') (fun s'' => printed s' s'' Q)) ->
  returns (s' ← put s x; k s') (fun s'' => printed s s'' Q).
Proof.
  intros Hs Hx Hk. apply returns_bind. eapply returns_mono; [exact (put_returns s h x Hs Hx)|].
  intros s' Hp. eapply returns_mono; [exact (Hk s' Hp)|]. intros s'' Hp'. exact (printed_trans _ _ _ _ _ Hp Hp').
Qed.

Lemma feed_app h a b : feed (feed h a) b = feed h (a ++ b).
Proof. unfold feed. symmetry. apply foldl_app. Qed.

(** A text with its last newline supplied. *)
Definition text_shown (h : list (list Z)) (b : list Z) : list (list Z) :=
  if bool_decide (last b = Some 10) then feed h (cstr b) else [] :: feed h (cstr b).

Lemma put_text_returns s h b :
  shows (term s) h -> returns (put_text s b) (fun s' => printed s s' (text_shown h b)).
Proof.
  intros Hs. unfold put_text, text_shown. apply (put_then s h (cstr b) _ _ Hs (cstr_ok b)).
  intros s1 Hp. case_bool_decide.
  - apply returns_Done. destruct Hp as (t & -> & Ht & _). exists t. split; [reflexivity|]. split; [exact Ht|].
    repeat split.
  - apply newline_returns. exact (printed_shows _ _ _ Hp).
Qed.
(** The windows after a terminal is opened. *)
Definition terminal_wm (drawf keyf termp : Z) (f : fb) (perf : perf_settings) (w : wm) : wm :=
  match wm_create perf w (Some (chars "Terminal")) (Z.quot (i32 (i32 (width f) - 640)) 2) 80 640 400 with
  | (None, w) => w
  | (Some i, w) => upd_win i (terminal_window drawf keyf termp) w
  end.

Lemma terminal_wm_coherent drawf keyf termp f perf w :
  coherent w -> coherent (terminal_wm drawf keyf termp f perf w).
Proof.
  intros Hco. unfold terminal_wm. pose proof (create_coherent perf w (Some (chars "Terminal"))
    (Z.quot (i32 (i32 (width f) - 640)) 2) 80 640 400 Hco) as Hc.
  destruct (wm_create _ _ _ _ _ _ _) as [[i|] w']; [|exact Hc]. apply (coherent_upd _ _ _ Hc). repeat split.
Qed.

(** Opening a terminal clears the screen, also when no window is free, greets when one is,
    and leaves the rest of the system as it was. *)
Lemma terminal_open_returns drawf keyf termp f perf w s :
  returns (terminal_open drawf keyf termp f perf w s)
    (fun '(_, w', s') => w' = terminal_wm drawf keyf termp f perf w /\ exists t h, shows t h /\ typed t [] /\
       s' = set_hooks (pe_set_console (Some pe_term_write) (Some pe_term_writeln)) (set_term t s)).
Proof.
  unfold terminal_open, terminal_wm.
  destruct (wm_create _ _ _ _ _ _ _) as [[i|] w'].
  - set (s0 := set_hooks _ _). assert (Hs0 : shows (term s0) [[]]) by exact zero_term_shows.
    apply returns_bind. eapply returns_mono; [apply (say_returns s0 _ _ Hs0); repeat constructor; discriminate|].
    intros s1 Hp1. apply returns_bind.
    eapply returns_mono; [apply (say_returns s1 _ _ (printed_shows _ _ _ Hp1)); repeat constructor; discriminate|].
    intros s2 Hp2. apply returns_Done. split; [reflexivity|].
    destruct Hp1 as (t1 & -> & _ & Hi1), Hp2 as (t2 & -> & Ht2 & Hi2). exists t2. eexists. split; [exact Ht2|].
    split; [|reflexivity]. destruct (same_input_trans _ _ _ Hi1 Hi2) as (Ei & En & _). destruct zero_term_typed as [Hb Hn].
    split; [rewrite Ei; exact Hb|rewrite En; exact Hn].
  - apply returns_Done. split; [reflexivity|]. exists zero_term, [[]]. split; [exact zero_term_shows|].
    split; [exact zero_term_typed|reflexivity].
Qed.
End Shell.

(** ** What the commands do *)
Section Commands.
Context {P : Type} `{PA : PageAlloc P} {K : Type} `{BlockAllocLaws K} {D : Type} `{IO : PortIO D}.
Context (exec : processor) (info : sysinfo).
Implicit Types s : @sys P K D.

Lemma cat_file s kids h i n path p :
  shows (term s) h -> store (fs s) -> tree (fs s) kids ->
  next_arg p = (Some path, []) -> vfs_resolve (fs s) path = Done (Some i) -> (i < count (fs s))%nat ->
  nodes (fs s) !! i = Some n -> type n = VFS_FILE ->
  returns (cmd_cat s p) (fun s' => printed s s' (text_shown h (take 511 (file_bytes (fs s) i)))).
Proof.
  intros Hs Hst Ht Ea Er Hi En Hty. unfold cmd_cat. rewrite Ea. cbn [fst]. rewrite Er, bind_Done.
  rewrite (node_at_Done _ _ _ En), bind_Done, Hty. change (VFS_FILE =? VFS_FILE) with true. cbn [negb].
  unfold read_512. rewrite (vfs_read_returns _ i n 511 Hst Hi En Hty), bind_Done by lia.
  pose proof (file_bytes_length _ _ _ Hst Hi En) as Hlen.
  rewrite i32_small by lia. destruct (Z.ltb_spec (Z.min (size n) 511) 0); [lia|].
  change (Z.to_nat 511) with 511%nat. destruct (Z.eqb_spec (Z.of_nat (length (take 511 (file_bytes (fs s) i)))) (Z.min (size n) 511)) as [_|Hne].
  - cbn [mret outcome_ret]. rewrite bind_Done. exact (put_text_returns s h _ Hs).
  - exfalso. rewrite length_take in Hne. lia.
Qed.

(** C25: [cat] of a file prints its first 511 bytes, up to a NUL if there is one, and a
    newline unless they end with one; nothing else of the state changes. *)
Theorem cat_prints_file s kids h i n path :
  shows (term s) h -> store (fs s) -> tree (fs s) kids ->
  word path -> vfs_resolve (fs s) path = Done (Some i) -> (i < count (fs s))%nat ->
  nodes (fs s) !! i = Some n -> type n = VFS_FILE ->
  returns (run_command exec info s (chars "cat " ++ path)) (fun s' =>
    exists t, s' = set_term t s /\ shows t (text_shown h (take 511 (file_bytes (fs s) i))) /\ same_input (term s) t).
Proof.
  intros Hs Hst Ht Hw Er Hi En Hty.
  assert (E : next_arg (chars "cat " ++ path) = (Some (chars "cat"), path)).
  { apply (next_arg_word 0 (chars "cat") path). concrete_word. }
  unfold run_command. rewrite E.
  exact (cat_file s kids h i n path path Hs Hst Ht (next_arg_last 0 path Hw) Er Hi En Hty).
Qed.

(** ** Typing a line *)
Fixpoint press_all s (keys : list Z) : outcome (@sys P K D) :=
  match keys with [] => mret s | c :: l => s ← term_on_key exec info s c; press_all s l end.

Lemma press_all_app a : forall s b, press_all s (a ++ b) = s' ← press_all s a; press_all s' b.
Proof.
  induction a as [|c a IH]; intros s b; cbn [press_all app]; [reflexivity|].
  destruct (term_on_key exec info s c) as [s1| | |]; [|reflexivity..]. rewrite !bind_Done. apply IH.
Qed.

Definition printable (c : Z) : Prop := 32 <= c < 127.

(** The keys of a line go to the end of the input and change nothing else. *)
Lemma press_line line : forall s a h,
  shows (term s) h -> typed (term s) a -> Forall printable line -> (length a + length line <= 127)%nat ->
  returns (press_all s line) (fun s' => exists t,
    s' = set_term t s /\ shows t h /\ typed t (a ++ line)).
Proof.
  induction line as [|c line IH]; intros s a h Hs Ha Hp Hl; cbn [press_all].
  - apply returns_Done. exists (term s). rewrite app_nil_r. split; [destruct s; reflexivity|]. auto.
  - apply Forall_cons_1 in Hp as [Hc Hp]. unfold printable in Hc. cbn [length] in Hl. apply returns_bind.
    unfold term_on_key. destruct (Z.eqb_spec c 10), (Z.eqb_spec c 13); try lia. cbn [orb]. apply returns_bind.
    eapply returns_mono; [exact (edit_input_returns _ a c Ha)|]. intros t (Ht & El & Er). apply returns_Done.
    assert (Ee : edit a c = a ++ [c]).
    { unfold edit. destruct (Z.eqb_spec c 8); [lia|]. destruct (Nat.ltb_spec (length a) 127); [|lia].
      unfold i8. rewrite Z.mod_small by lia. destruct (Z.leb_spec 32 (c + 2 ^ 7 - 2 ^ 7)); [reflexivity|lia]. }
    rewrite Ee in Ht. assert (Hs' : shows t h).
    { destruct Hs as [Hr Hne Hrow]. split; [rewrite El, Er; exact Hr|exact Hne|rewrite Er; exact Hrow]. }
    eapply returns_mono; [apply (IH (set_term t s) (a ++ [c]) h Hs' Ht Hp)|].
    { rewrite length_app. cbn [length]. lia. }
    intros s' (t' & -> & Hs2 & Ht2). exists t'. rewrite <- app_assoc in Ht2. auto.
Qed.

(** The prompt and the line, as enter echoes them. *)
Definition prompt_line (f : @vfs K) (line : list Z) : list Z := chars "h3os:" ++ vfs_cwd f ++ chars "> " ++ line.

(** What the power requests do at the ports. *)
Definition power_ports s : @sys P K D :=
  let d := if reboot_req (term s) then outb (ports s) 0x64 0xFE else ports s in
  set_ports (if shutdown_req (term s) then outw (outw d 0x604 0x2000) 0xB004 0x2000 else d) s.

Lemma enter_line_runs s h line :
  shows (term s) h -> typed (term s) line -> str_ok (cwd (fs s)) ->
  exists s0, enter_line exec info s = (s1 ← run_command exec info s0 line; mret (power_ports s1)) /\
    (exists t, s0 = set_term t s) /\ shows (term s0) ([] :: feed h (prompt_line (fs s) line)) /\ typed (term s0) [].
Proof.
  intros Hs [Hb Hn] Hcwd. unfold enter_line. rewrite (arr_str_holds _ _ _ Hb), bind_Done.
  pose proof Hb as (Hl & Hline & _).
  assert (Hlit : str_ok (chars "h3os:") /\ str_ok (chars "> ")) by (split; vm_compute; repeat constructor; discriminate).
  destruct (put_returns s h (chars "h3os:") Hs (proj1 Hlit)) as (s1 & -> & H1). rewrite bind_Done.
  destruct (put_returns s1 _ (vfs_cwd (fs s1)) (printed_shows _ _ _ H1)) as (s2 & -> & H2).
  { destruct H1 as (t1 & -> & _). exact Hcwd. }
  rewrite bind_Done. destruct (put_returns s2 _ (chars "> ") (printed_shows _ _ _ H2) (proj2 Hlit)) as (s3 & -> & H3).
  rewrite bind_Done. destruct (say_returns s3 _ line (printed_shows _ _ _ H3) Hline) as (s4 & -> & H4). rewrite bind_Done.
  pose proof (printed_trans _ _ _ _ _ H1 (printed_trans _ _ _ _ _ H2 (printed_trans _ _ _ _ _ H3 H4))) as (t & -> & Hst & Hi).
  destruct Hi as (Ein & _). cbn [term set_term]. rewrite Ein. rewrite arr_set_Done, bind_Done by (rewrite Hl; lia).
  eexists. split; [reflexivity|]. split; [eexists; reflexivity|]. cbn [term set_term]. split.
  - destruct H1 as (t1 & -> & _). cbn [fs set_term] in Hst. rewrite !feed_app, <- ?app_assoc in Hst.
    destruct Hst as [Hr Hne Hrow]. split; assumption.
  - split; [exact (holds_clear _ _ _ Hb)|reflexivity].
Qed.

(** typing a line of up to 127 printable characters on an empty input and then enter
    echoes the line behind the prompt, empties the input line, runs exactly that line as a
    command, and then writes the reset and power-off ports when the command asked for it. *)
Theorem typed_line_runs s h line :
  shows (term s) h -> typed (term s) [] -> str_ok (cwd (fs s)) ->
  Forall printable line -> (length line <= 127)%nat ->
  exists s0, press_all s (line ++ [10]) = (s1 ← run_command exec info s0 line; mret (power_ports s1)) /\
    (exists t, s0 = set_term t s) /\ shows (term s0) ([] :: feed h (prompt_line (fs s) line)) /\ typed (term s0) [].
Proof.
  intros Hs Ht Hcwd Hp Hl. rewrite press_all_app.
  destruct (press_line line s [] h Hs Ht Hp ltac:(cbn; lia)) as (s1 & -> & t & -> & Hs1 & Ht1). rewrite bind_Done.
  destruct (enter_line_runs (set_term t s) h line Hs1 Ht1 Hcwd) as (s0 & E & (t0 & ->) & Hs0 & Ht0).
  exists (set_term t0 s). split; [|split; [eexists; reflexivity|auto]].
  cbn [press_all]. unfold term_on_key. cbn [Z.eqb Pos.eqb orb]. rewrite E. clear.
  change (set_term t0 (set_term t s)) with (set_term t0 s).
  destruct (run_command exec info (set_term t0 s) line); reflexivity.
Qed.

(** [h3pkg install] of a name of 79 characters or more, which fits the input line,
    builds its database entry in an array of 96 characters that does not hold it. *)
Theorem h3pkg_install_overflows s pkg :
  word pkg -> (79 <= length pkg)%nat ->
  run_command exec info s (chars "h3pkg install " ++ pkg) = Fault.
Proof.
  intros Hw Hl.
  assert (Hwd : word (chars "h3pkg") /\ word (chars "install")).
  { split; concrete_word. }
  assert (E1 : next_arg (chars "h3pkg install " ++ pkg) = (Some (chars "h3pkg"), chars "install " ++ pkg))
    by exact (next_arg_word 0 (chars "h3pkg") (chars "install " ++ pkg) (proj1 Hwd)).
  assert (E2 : next_arg (chars "install " ++ pkg) = (Some (chars "install"), pkg))
    by exact (next_arg_word 0 (chars "install") pkg (proj2 Hwd)).
  unfold run_command. rewrite E1. change (cmd_h3pkg s (chars "install " ++ pkg) = Fault).
  unfold cmd_h3pkg. rewrite E2, (next_arg_last 0 pkg Hw : next_arg pkg = _).
  change (h3pkg_install s pkg = Fault). unfold h3pkg_install, buf_str. rewrite !length_app.
  destruct (Z.ltb_spec (Z.of_nat (length pkg + (length (chars " 0.1.0 installed") + length [10]))) 96) as [Hlt|]; [|reflexivity].
  change (length (chars " 0.1.0 installed")) with 16%nat in Hlt. cbn [length] in Hlt. lia.
Qed.

(** C26: [cp] of a file with content to a place in a directory prints "cp: failed" in every
    case, also where the copy was made: it takes the number of bytes that [vfs_copy] returns
    for an error.  Unless [vfs_copy] returned -1, the new file has the bytes of the old. *)
Theorem cp_reports_failure s kids h src i n dir leaf p :
  shows (term s) h -> tree (fs s) kids -> store (fs s) -> absolute src -> word src ->
  vfs_resolve (fs s) src = Done (Some i) -> nodes (fs s) !! i = Some n -> type n = VFS_FILE ->
  0 < size n < 2 ^ 31 -> place (fs s) dir leaf p -> word (join dir leaf) ->
  returns (run_command exec info s (chars "cp " ++ src ++ [32] ++ join dir leaf)) (fun s' =>
    exists r f, vfs_copy (fs s) src (join dir leaf) = Done (r, f) /\
      printed (set_fs f s) s' ([] :: feed h (chars "cp: failed")) /\
      (r = -1 \/ exists j, vfs_resolve (fs s') (join dir leaf) = Done (Some j) /\
                          file_bytes (fs s') j = file_bytes (fs s) i)).
Proof.
  intros Hs Ht Hst Ha Hw Er En Hty Hsz Hpl Hwd.
  assert (Hcp : word (chars "cp")) by concrete_word.
  assert (E1 : next_arg (chars "cp " ++ src ++ [32] ++ join dir leaf) = (Some (chars "cp"), src ++ [32] ++ join dir leaf))
    by exact (next_arg_word 0 (chars "cp") (src ++ [32] ++ join dir leaf) Hcp).
  unfold run_command. rewrite E1. change (returns (cmd_cp s (src ++ [32] ++ join dir leaf)) (fun s' =>
    exists r f, vfs_copy (fs s) src (join dir leaf) = Done (r, f) /\
      printed (set_fs f s) s' ([] :: feed h (chars "cp: failed")) /\
      (r = -1 \/ exists j, vfs_resolve (fs s') (join dir leaf) = Done (Some j) /\
                          file_bytes (fs s') j = file_bytes (fs s) i))).
  unfold cmd_cp, cmd_two. rewrite (next_arg_word 0 src (join dir leaf) Hw : next_arg (src ++ [32] ++ _) = _).
  rewrite (next_arg_last 0 (join dir leaf) Hwd : next_arg (join dir leaf) = _).
  destruct (vfs_copy_duplicates (fs s) kids src i n dir leaf p Ht Hst Ha Er En Hty Hsz Hpl) as ([r f] & E & _ & _ & Hr).
  rewrite E, bind_Done. destruct (Z.eqb_spec r 0) as [->|Hr0]; [destruct Hr as [|[]]; lia|]. cbn [negb].
  eapply returns_mono; [apply (say_returns (set_fs f s) h); [exact Hs|vm_compute; repeat constructor; discriminate]|].
  intros s' Hp. exists r, f. split; [reflexivity|]. split; [exact Hp|]. destruct Hp as (t & -> & _).
  destruct Hr as [->|(_ & j & Hj)]; [left; reflexivity|right]. exists j. exact Hj.
Qed.

(** The prompt is built in 160 characters: a long working directory and a long input
    overrun it. *)
Lemma prompt_overflows s i :
  arr_str (input (term s)) = Done i -> (153 <= length (cwd (fs s)) + length i)%nat -> prompt s = Fault.
Proof.
  intros Ei Hl. unfold prompt. rewrite Ei, bind_Done. unfold buf_str, TERM_IN, vfs_cwd. rewrite !length_app.
  change (length (chars "h3os:")) with 5%nat. change (length (chars "> ")) with 2%nat.
  destruct (Z.ltb_spec (Z.of_nat (5 + (length (cwd (fs s)) + (2 + length i)))) (128 + 32)); [lia|reflexivity].
Qed.
End Commands.

(** ** A small system

    An empty screen, 16 KiB of memory of which the pages from 2 on are free, and ports that
    keep what is written to them. *)
Record port_log := mk_ports { port_writes : list (Z * Z) }.
#[export] Instance port_log_io : PortIO port_log := {
  inb d p := (if p =? 0x3FD then 0x20 else 0, d); outb d p v := mk_ports (port_writes d ++ [(p, v)]);
  outw d p v := mk_ports (port_writes d ++ [(p, v)]); in_l d _ := (0, d); out_l d _ _ := d
}.

Definition small_sys (f : @vfs numbered) : @sys Z numbered port_log :=
  mk_sys zero_term f 2 (mem_of_list 0 (replicate (Z.to_nat 16384) 0)) 0 false (mk_console None None) (mk_ports []).
Definition small_info : sysinfo :=
  mk_sysinfo (cpu_init (fun _ _ => mk_regs 0 0 0 0)) (mk_stats 4096 1024 3072 (4096 * 4096))
    (adaptive_init (4096 * 4096) 1 true) (mk_timer 500 100).

Lemma motd_word : word (chars "/motd").
Proof. concrete_word. Qed.

Lemma cat_prints_file_witness :
  returns (run_command Services.PeSeed.fetch small_info (small_sys demo_vfs) (chars "cat /motd")) (fun s' =>
    exists t, s' = set_term t (small_sys demo_vfs) /\ shows t [[]; chars "Hi"]).
Proof.
  eapply returns_mono;
    [apply (cat_prints_file Services.PeSeed.fetch small_info (small_sys demo_vfs) demo_kids [[]] 1
       (demo_node (chars "motd") VFS_FILE 2 1 (Some 0%nat) None) (chars "/motd")
       zero_term_shows demo_store demo_tree motd_word (proj2 demo_motd));
     [apply Nat.ltb_lt; reflexivity|reflexivity|reflexivity]|].
  intros s' (t & -> & Hs & _). exists t. split; [reflexivity|exact Hs].
Defined.

Lemma cp_reports_failure_witness :
  returns (run_command Services.PeSeed.fetch small_info (small_sys demo_vfs) (chars "cp /motd /copy")) (fun s' =>
    shows (term s') [[]; chars "cp: failed"] /\
    exists j, vfs_resolve (fs s') (chars "/copy") = Done (Some j) /\ file_bytes (fs s') j = chars "Hi").
Proof.
  eapply returns_mono;
    [apply (cp_reports_failure Services.PeSeed.fetch small_info (small_sys demo_vfs) demo_kids [[]] (chars "/motd") 1
       (demo_node (chars "motd") VFS_FILE 2 1 (Some 0%nat) None) [] (chars "copy") 0
       zero_term_shows demo_tree demo_store (proj1 demo_motd) motd_word (proj2 demo_motd) eq_refl eq_refl);
     [cbn; lia|exact demo_place|]|].
  - concrete_word.
  - intros s' (r & f & E & Hp & Hcase). split; [exact (printed_shows _ _ _ Hp)|].
    destruct Hcase as [->|Hj]; [vm_compute in E; discriminate|exact Hj].
Defined.

Lemma typed_line_runs_witness :
  exists s0, press_all Services.PeSeed.fetch small_info (small_sys demo_vfs) (chars "reboot" ++ [10]) =
      (s1 ← run_command Services.PeSeed.fetch small_info s0 (chars "reboot"); mret (power_ports s1)) /\
    shows (term s0) [[]; chars "h3os:/> reboot"].
Proof.
  destruct (typed_line_runs Services.PeSeed.fetch small_info (small_sys demo_vfs) [[]] (chars "reboot")
    zero_term_shows zero_term_typed) as (s0 & E & _ & Hs & _).
  - vm_compute. repeat constructor; discriminate.
  - vm_compute. repeat constructor; discriminate.
  - apply Nat.leb_le. reflexivity.
  - exists s0. split; [exact E|exact Hs].
Defined.

Lemma h3pkg_install_overflows_witness :
  run_command Services.PeSeed.fetch small_info (small_sys demo_vfs) (chars "h3pkg install " ++ replicate 79 120) = Fault.
Proof.
  apply h3pkg_install_overflows; [|rewrite length_replicate; lia].
  split; [discriminate|]. intros Hin. apply elem_of_replicate in Hin as [Hin _]. discriminate.
Defined.

(** The machine is reset over the keyboard controller when "reboot" is typed. *)
Example reboot_resets :
  (s ← press_all Services.PeSeed.fetch small_info (small_sys demo_vfs) (chars "reboot" ++ [10]);
   mret (port_writes (ports s))) = Done [(0x64, 0xFE)].
Proof. vm_compute. reflexivity. Qed.

(** The sample program of the booted file system, found in /bin, run by a processor that
    writes the first byte of its code and exits with 7. *)
Example hello_runs :
  (f ← vfs_init Services.PeSeed.blank_vfs; '(_, f) ← Services.PeSeed.pe_seed_binaries f;
   s ← run_command Services.PeSeed.fetch small_info (small_sys f) (chars "run hello.exe");
   mret (map cstr (take 4 (lines (term s))))) =
  Done [chars "run: launching /bin/hello.exe"; chars "U"; chars "run: exit code 7"; []].
Proof. vm_compute. reflexivity. Qed.

(** Packages are added to the database and found in it. *)
Example h3pkg_installs :
  (f ← vfs_init Services.PeSeed.blank_vfs;
   s ← run_command Services.PeSeed.fetch small_info (small_sys f) (chars "h3pkg install vim");
   s ← run_command Services.PeSeed.fetch small_info s (chars "clear");
   s ← run_command Services.PeSeed.fetch small_info s (chars "h3pkg search vim");
   mret (map cstr (take 2 (lines (term s))))) = Done [chars "vim 0.1.0 installed"; []].
Proof. vm_compute. reflexivity. Qed.
