(* ===== verification/Messages.v ===== *)
(** * What the kernel logs while it starts

    The [KLOG_*] calls of the initialisations, each with its format and what it reads of
    the state, what an exception panics with, and their text in the log of [Log.v]. *)
From Stdlib Require Import ZArith Lia Bool String.
From stdpp Require Import base tactics option list numbers.
From S2P Require Import Prelude CInt CString Io Pmm Adaptive Cpu Log Syscall Shell.
From S2P Require Heap Timer Rtc Pci Framebuffer Security Services Interrupts.
#[local] Close Scope string_scope.
#[local] Open Scope Z_scope.

(** A call of [klog]. *)
Record message := mk_msg { m_level : Z; m_sub : list Z; m_format : list Z; m_args : list arg }.

Definition info (sub fmt : string) (args : list arg) : message := mk_msg LOG_INFO (chars sub) (chars fmt) args.
Definition warn (sub : string) (fmt : list Z) (args : list arg) : message := mk_msg LOG_WARN (chars sub) fmt args.

Section Klogs.
Context {D : Type} `{PortIO D}.
Context (polls : nat).

Fixpoint klogs (s : @log D) (l : list message) : outcome log :=
  match l with
  | [] => mret s
  | m :: l' => s ← klog polls s (m_level m) (m_sub m) (m_format m) (m_args m); klogs s l'
  end.
End Klogs.

(** ** The messages *)
Definition rule : string := "======================================================".
Definition banner : list message := [
  info "boot" rule [];
  info "boot" "  %s  v%s  (%s)" [Str (Some H3OS_NAME); Str (Some H3OS_VERSION_STRING); Str (Some H3OS_CODENAME)];
  info "boot" "  %s" [Str (Some H3OS_TAGLINE)];
  info "boot" "  Hybrid Kernel  |  x86_64  |  Multiboot2" [];
  info "boot" rule []
].

Definition mb2_messages (addr total_size : Z) : list message :=
  [info "boot" "Multiboot2 info at %p (%u bytes)" [Word addr; Word total_size]].

Definition gdt_messages : list message := [info "gdt" "GDT loaded (5 entries)" []].

(** The names are arrays; their strings end at the first NUL. *)
Definition cpu_messages (c : cpu_info) : list message := [
  info "cpu" "Vendor: %s" [Str (Some (cstr (vendor c)))];
  info "cpu" "Brand:  %s" [Str (Some (cstr (brand c)))];
  info "cpu" "Family %u Model %u Stepping %u | Logical CPUs: %u"
    [Word (family c); Word (model c); Word (stepping c); Word (logical_cpus c)];
  info "cpu" "Features: SSE2=%d AVX=%d NX=%d HugePages=%d VT=%d"
    [Word (Z.b2z (has_sse2 c)); Word (Z.b2z (has_avx c)); Word (Z.b2z (has_nx c));
     Word (Z.b2z (has_huge_pages c)); Word (Z.b2z (has_vmx c || has_svm c))]
].

(** [found]: the boot loader passed a memory map. *)
Definition pmm_messages (found : bool) (s : pmm) : list message :=
  let st := pmm_get_stats s in
  (if found then []
   else [warn "pmm" (chars "No multiboot mmap " ++ dash ++ chars " using 128 MiB fallback") []]) ++
  [mk_msg LOG_INFO (chars "pmm")
     (chars "Ready " ++ dash ++ chars " total %llu MiB, free %llu MiB (%llu pages free)")
     [Word (st_total_bytes st / (1024 * 1024)); Word (u64 (st_free_pages st * PAGE_SIZE) / (1024 * 1024));
      Word (st_free_pages st)]].

Definition heap_messages : list message := [info "heap" "Early heap ready (%u KiB)" [Word (Heap.EARLY_HEAP / 1024)]].

Definition vmm_messages (pml4 : Z) : list message :=
  [info "vmm" "Using boot PML4 at %p (identity map active)" [Word pml4]].

Definition idt_messages : list message :=
  [info "pic" "PIC8259 remapped to vectors 32-47" []; info "idt" "IDT loaded (256 vectors)" []].

Definition timer_messages (t : Timer.timer) : list message := [info "timer" "PIT armed at %u Hz" [Word (Timer.g_freq t)]].

Definition rtc_messages (t : Rtc.rtc_time) : list message :=
  [info "rtc" "CMOS time %u-%u-%u %u:%u:%u"
     [Word (Rtc.year t); Word (Rtc.month t); Word (Rtc.day t); Word (Rtc.hour t); Word (Rtc.minute t); Word (Rtc.second t)]].

Definition keyboard_messages : list message :=
  [info "kbd" "PS/2 keyboard ready (Ctrl+T terminal, Ctrl+L launcher)" []].
Definition mouse_messages : list message := [info "mouse" "PS/2 mouse ready (IRQ12)" []].

(** The number of functions found, and the first eight of them. *)
Definition pci_line (d : Pci.pci_device) : message :=
  mk_msg LOG_DEBUG (chars "pci") (chars "  %02x:%02x.%u  %04x:%04x  class %02x:%02x")
    [Word (Pci.bus d); Word (Pci.slot d); Word (Pci.func d); Word (Pci.vendor d); Word (Pci.device d);
     Word (Pci.class_code d); Word (Pci.subclass d)].
Definition pci_messages (p : Pci.pci) : list message :=
  info "pci" "Enumerated %u PCI device(s)" [Word (Pci.device_count p)] ::
  map pci_line (take (Z.to_nat (Z.min (Pci.device_count p) 8)) (Pci.devices p)).

(** [found]: the boot loader passed a surface the kernel can use. *)
Definition fb_messages (found : bool) (f : Framebuffer.fb) : list message :=
  (if found then
     [info "fb" "Framebuffer %ux%u@%u at %p pitch=%u"
        [Word (Framebuffer.width f); Word (Framebuffer.height f); Word (Framebuffer.bpp f);
         Word (Framebuffer.pixels f); Word (Framebuffer.pitch f)]]
   else
     [warn "fb" (chars "No GOP framebuffer " ++ dash ++ chars " using software surface %ux%u")
        [Word (Framebuffer.width f); Word (Framebuffer.height f)]]) ++
  (if Framebuffer.double_buffered f then [info "fb" "Double buffering enabled" []] else []).

Definition adaptive_messages (p : perf_settings) (total_bytes cpus : Z) : list message :=
  [info "adaptive" "Profile: %s (RAM=%lluMiB CPUs=%u)"
     [Str (Some (adaptive_profile_name p)); Word (total_bytes / (1024 * 1024)); Word cpus]].

Definition security_messages (u : Security.user) : list message := [
  info "security" "Users loaded; current=%s (uid=%u)" [Str (Some (cstr (Security.uname u))); Word (Security.uid u)];
  info "security" "Memory protection + sandbox hooks armed" []
].

Definition vfs_messages (node_count : Z) : list message :=
  [info "vfs" "RAMFS/H3FS root mounted with %u nodes" [Word node_count]].

Definition pe_messages : list message := [info "pe" "PE32+ loader ready (H3OS native EXE ABI)" []].
(** [hello]: the node was there or could be made. *)
Definition pe_seed_messages (hello : bool) : list message :=
  if hello then [info "pe" "Installed /bin/hello.exe (%u bytes)" [Word Services.PeSeed.hello_exe_len]] else [].

Definition net_messages : list message := [
  info "net" "Loopback up 127.0.0.1/8 (IPv6 ::1 planned)" [];
  info "net" "Protocols staged: TCP UDP ICMP DNS DHCP HTTP HTTPS" []
].
Definition ipc_messages : list message := [info "ipc" "IPC ports ready" []].
Definition power_messages : list message := [info "power" "ACPI/power management stubs armed" []].
Definition sched_messages : list message := [info "sched" "Scheduler ready (cooperative RR)" []].
Definition SYS_MAX : Z := 9.
Definition syscall_messages : list message := [info "syscall" "Syscall table online (%d entries)" [Word SYS_MAX]].
Definition wm_messages : list message := [info "wm" "Window manager online (Horizon shell)" []].
Definition desktop_messages : list message := [info "desktop" "Windows-style Horizon shell ready" []].
Definition ready_messages : list message := [info "boot" "H3OS is ready. Entering desktop event loop." []].

(** ** What an exception panics with *)
Definition exceptions : list (list Z) := [
  chars "Divide Error"; chars "Debug"; chars "NMI"; chars "Breakpoint";
  chars "Overflow"; chars "Bound Range"; chars "Invalid Opcode"; chars "Device Not Available";
  chars "Double Fault"; chars "Coprocessor Segment"; chars "Invalid TSS"; chars "Segment Not Present";
  chars "Stack Fault"; chars "General Protection"; chars "Page Fault"; chars "Reserved";
  chars "x87 FP"; chars "Alignment Check"; chars "Machine Check"; chars "SIMD FP";
  chars "Virtualization"; chars "Control Protection"; chars "Reserved"; chars "Reserved";
  chars "Reserved"; chars "Reserved"; chars "Reserved"; chars "Reserved";
  chars "Hypervisor Injection"; chars "VMM Communication"; chars "Security"; chars "Reserved"
].

(** The format and the arguments of the call of [kpanic]; [cr2] is read for page faults. *)
Definition exception_panic (f : Interrupts.interrupt_frame) (cr2 : Z) : outcome (list Z * list arg) :=
  name ← arr_get exceptions (Interrupts.int_no f);
  mret (if Interrupts.int_no f =? 14 then
          (chars "Page Fault at rip=%p cr2=%p err=%llu (%s)",
           [Word (Interrupts.rip f); Word cr2; Word (Interrupts.err_code f); Str (Some name)])
        else
          (chars "Exception %llu (%s) at rip=%p err=%llu",
           [Word (Interrupts.int_no f); Str (Some name); Word (Interrupts.rip f); Word (Interrupts.err_code f)])).

(** ** Their text *)

(** A format as directives. *)
Fixpoint parse (fmt : list Z) : list directive :=
  match fmt with
  | [] => []
  | c :: r =>
      if negb (c =? ch "%") then Lit c :: parse r
      else match r with
        | [] => []
        | k :: r1 =>
            if k =? ch "s" then PStr :: parse r1 else if k =? ch "c" then PChr :: parse r1
            else if k =? ch "d" then PInt :: parse r1 else if k =? ch "u" then PUint :: parse r1
            else if k =? ch "x" then PHex :: parse r1 else if k =? ch "p" then PPtr :: parse r1
            else if k =? ch "%" then PPercent :: parse r1
            else if k =? ch "l" then
              match r1 with
              | _ :: v :: r3 =>
                  (if v =? ch "u" then PUlong else if v =? ch "x" then PXlong else PLong) :: parse r3
              | _ => []
              end
            else POther k :: parse r1
        end
  end.

(** The directives are the format, and the arguments are of their kinds. *)
Fixpoint takes (ds : list directive) (args : list arg) : bool :=
  match ds with
  | [] => true
  | Lit c :: ds' => negb (c =? ch "%") && takes ds' args
  | POther c :: ds' => negb (bool_decide (c ∈ conversions)) && takes ds' args
  | PPercent :: ds' => takes ds' args
  | PStr :: ds' => match args with Str _ :: r => takes ds' r | _ => false end
  | _ :: ds' => match args with Word _ :: r => takes ds' r | _ => false end
  end.
Definition well_formed (m : message) : bool :=
  bool_decide (format_text (parse (m_format m)) = m_format m) && takes (parse (m_format m)) (m_args m) &&
  bool_decide (is_Some (level_names !! Z.to_nat (m_level m))) && (LOG_DEBUG <=? m_level m).

Definition text_of (m : message) : list Z := default [] (meaning (parse (m_format m)) (m_args m)).
Definition line_of (m : message) : list Z :=
  log_line (default [] (level_names !! Z.to_nat (m_level m))) (m_sub m) (text_of m).
Definition transcript (l : list message) : list Z := concat (map line_of l).

Lemma transcript_app l1 l2 : transcript (l1 ++ l2) = transcript l1 ++ transcript l2.
Proof. unfold transcript. rewrite map_app. apply concat_app. Qed.

Lemma takes_meaning ds : forall args, takes ds args = true -> is_Some (meaning ds args).
Proof.
  induction ds as [|d ds IH]; intros args Hf; [eexists; reflexivity|]. cbn [meaning].
  destruct d; cbn [takes directive_out] in *; try (apply andb_true_iff in Hf as [Hc Hf]; apply negb_true_iff in Hc);
    try rewrite Hc; try (destruct args as [|[v|p] r]; try discriminate Hf);
    try (destruct (IH _ Hf) as [t ->]; eexists; reflexivity).
  all: apply bool_decide_eq_false in Hc; rewrite bool_decide_false by exact Hc; destruct (IH _ Hf) as [t ->]; eexists; reflexivity.
Qed.

Section Transcript.
Context {D : Type} `{UartLaws D}.
Context (polls : nat) (Hpolls : (0 < polls)%nat).

Lemma klog_message (s : @log D) out m :
  holds s out -> well_formed m = true ->
  returns (klog polls s (m_level m) (m_sub m) (m_format m) (m_args m)) (fun s' => appended s s' out (line_of m)).
Proof.
  intros Hh Hw. apply andb_true_iff in Hw as [Hw Hlv]. apply andb_true_iff in Hw as [Hw Hnm]. apply andb_true_iff in Hw as [Ef Hfit].
  apply bool_decide_eq_true in Ef, Hnm. destruct Hnm as [name En]. destruct (takes_meaning _ _ Hfit) as [text Et].
  pose proof (klog_returns polls s out (m_level m) name (m_sub m) _ _ text Hpolls Hh En Et) as Hk. rewrite Ef in Hk.
  eapply returns_mono; [exact Hk|]. intros s' Hs'. apply Z.leb_le in Hlv.
  destruct (Z.ltb_spec (m_level m) LOG_DEBUG); [lia|]. unfold line_of, text_of. rewrite En, Et. exact Hs'.
Qed.

(** Messages append their lines, in order. *)
Lemma klogs_append l : forall (s : @log D) out,
  holds s out -> forallb well_formed l = true ->
  returns (klogs polls s l) (fun s' => appended s s' out (transcript l)).
Proof.
  induction l as [|m l IH]; intros s out Hh Hw; cbn [klogs forallb] in *; [apply returns_Done, appended_nil, Hh|].
  apply andb_true_iff in Hw as [Hm Hl]. apply returns_bind. eapply returns_mono; [exact (klog_message s out m Hh Hm)|].
  intros s1 A1. eapply returns_mono; [exact (IH s1 _ (proj1 A1) Hl)|]. intros s2 A2.
  exact (appended_trans s s1 s2 out (line_of m) (transcript l) A1 A2).
Qed.
End Transcript.

(** The directives with a width are unknown to [kvprintf]: it prints them as they are, and
    the one it knows, the third, gets the first argument, the bus. *)
Lemma pci_line_text d :
  text_of (pci_line d) = chars "  %02x:%02x." ++ utoa_str (u32 (Pci.bus d)) 10 ++ chars "  %04x:%04x  class %02x:%02x".
Proof. reflexivity. Qed.

(** An exception panics with the address and the error code of its frame: the message is
    formatted with arguments of the right kinds and goes to the ring and the line. *)
Lemma exception_panics {D : Type} `{UartLaws D} polls (s : @log D) out f cr2 :
  (0 < polls)%nat -> holds s out -> 0 <= Interrupts.int_no f < 32 ->
  exists name, exceptions !! Z.to_nat (Interrupts.int_no f) = Some name /\
  returns ('(fmt, args) ← exception_panic f cr2; kpanic polls s fmt args) (fun s' =>
    appended s s' out (([10] ++ chars "!!!! H3OS KERNEL PANIC !!!!" ++ [10]) ++
      (let hex v := chars "0x" ++ utoa_str (u64 v) 16 in
       let rip := hex (Interrupts.rip f) in
       let err := utoa_str (u64 (Interrupts.err_code f)) 10 in
       if Interrupts.int_no f =? 14 then
         chars "Page Fault at rip=" ++ rip ++ chars " cr2=" ++ hex cr2 ++ chars " err=" ++ err ++ chars " (" ++ name ++ chars ")"
       else
         chars "Exception " ++ utoa_str (u64 (Interrupts.int_no f)) 10 ++ chars " (" ++ name ++ chars ") at rip=" ++ rip ++
         chars " err=" ++ err) ++ [10])).
Proof.
  intros Hp Hh Hi. destruct (arr_get_in exceptions (Interrupts.int_no f) Hi) as [name En]. exists name.
  split; [apply arr_get_Done in En; apply En|]. unfold exception_panic. rewrite En, bind_Done.
  destruct (Interrupts.int_no f =? 14); rewrite bind_Done.
  - exact (kpanic_returns polls s out (parse (chars "Page Fault at rip=%p cr2=%p err=%llu (%s)"))
      [Word (Interrupts.rip f); Word cr2; Word (Interrupts.err_code f); Str (Some name)] _ Hp Hh eq_refl).
  - refine (kpanic_returns polls s out (parse (chars "Exception %llu (%s) at rip=%p err=%llu"))
      [Word (Interrupts.int_no f); Str (Some name); Word (Interrupts.rip f); Word (Interrupts.err_code f)] _ Hp Hh _).
    rewrite <- (app_nil_r (utoa_str (u64 (Interrupts.err_code f)) 10)). reflexivity.
Qed.
