(* ===== verification/Commands.v ===== *)
(** * Commands that cannot fail

    Of the commands of [Shell.v], most only print: they change neither the file system nor
    the memory, and none of them can fail, whatever the rest of the line is.  The others are
    [writes].  Those that change files cannot fail either as long as the names on the line
    fit the buffers they are copied to, by the lemmas of [VfsLive.v].  Lines that run a
    program are in [Programs.v]. *)
From Stdlib Require Import ZArith Lia Bool String.
From stdpp Require Import base tactics option list numbers gmap.
From S2P Require Import Prelude CInt CString PageAlloc BlockAlloc Io Pmm Mem Adaptive Timer Cpu Vfs VfsOps VfsLive Pe Terminal Shell.
From S2P Require Services.
#[local] Close Scope string_scope.
#[local] Open Scope Z_scope.

(** The commands that change files, the working directory or memory. *)
Definition writes (cmd : list Z) : bool :=
  existsb (named cmd) ["cd"; "mkdir"; "rm"; "cp"; "mv"; "run"; "exec"; "./"; "h3pkg"]%string || ends_with_exe cmd.

Definition quiet (line : list Z) : bool :=
  match fst (next_arg line) with Some cmd => negb (writes cmd) | None => true end.

(** ** Words of a line have its characters *)
Lemma split_word_parts p : Forall (fun c => c ∈ p) (fst (split_word p)) /\ Forall (fun c => c ∈ p) (snd (split_word p)) /\
  (length (fst (split_word p)) + length (snd (split_word p)) <= length p)%nat.
Proof.
  induction p as [|c p (IH1 & IH2 & IH3)]; cbn [split_word]; [repeat split; constructor|]. destruct (c =? 32); cbn [fst snd length].
  - split; [constructor|]. split; [|cbn; lia]. apply Forall_forall. intros x Hx. right. exact Hx.
  - destruct (split_word p) as [w r]. cbn [fst snd length] in *. split; [|split; [|lia]].
    + constructor; [left|]. eapply Forall_impl; [exact IH1|]. intros x Hx. right. exact Hx.
    + eapply Forall_impl; [exact IH2|]. intros x Hx. right. exact Hx.
Qed.

Lemma skip_spaces_parts p : Forall (fun c => c ∈ p) (skip_spaces p) /\ (length (skip_spaces p) <= length p)%nat.
Proof.
  induction p as [|c p [IH1 IH2]]; cbn [skip_spaces]; [split; constructor|]. destruct (c =? 32).
  - split; [|cbn; lia]. eapply Forall_impl; [exact IH1|]. intros x Hx. right. exact Hx.
  - split; [|lia]. apply Forall_forall. auto.
Qed.

Lemma next_arg_parts p : str_ok p ->
  match next_arg p with (w, r) =>
    str_ok (default [] w) /\ (length (default [] w) <= length p)%nat /\ str_ok r /\ (length r <= length p)%nat end.
Proof.
  intros Hp. unfold next_arg. destruct (skip_spaces_parts p) as [Hq Hl]. destruct (skip_spaces p) as [|c q].
  { cbn. repeat split; (constructor || lia). }
  destruct (split_word_parts (c :: q)) as (Hw & Hr & Hn). destruct (split_word (c :: q)) as [w r]. cbn [fst snd from_option id] in *.
  assert (Hin : forall x, Forall (fun z => z ∈ c :: q) x -> str_ok x).
  { intros x Hx. eapply Forall_impl; [exact Hx|]. intros z Hz. unfold str_ok in Hp. rewrite Forall_forall in Hq, Hp. apply Hp, Hq, Hz. }
  repeat split; [exact (Hin w Hw)|change (length w <= length p)%nat; lia|exact (Hin r Hr)|lia].
Qed.

Lemma utoa_str_ok v base : str_ok (utoa_str v base).
Proof. eapply Forall_impl; [apply utoa_str_chars|]. intros c Hc. cbv beta in Hc. lia. Qed.

(** Decides [str_ok] for what the commands print. *)
Ltac printable_text :=
  unfold str_ok;
  lazymatch goal with
  | |- Forall _ (_ ++ _) => apply Forall_app; split; printable_text
  | |- Forall _ (cstr _) => apply cstr_ok
  | |- Forall _ (utoa_str _ _) => apply utoa_str_ok
  | |- _ => vm_compute; repeat constructor; discriminate
  end.

Lemma named_eq cmd x : str_ok cmd -> named cmd x = true -> str_ok (chars x) -> cmd = chars x.
Proof. intros Hc Hn Hx. unfold named in Hn. rewrite str_eq_true in Hn by assumption. exact (bool_decide_eq_true_1 _ Hn). Qed.

Ltac this_command Hc E :=
  apply named_eq in E; [|exact Hc|vm_compute; repeat constructor; discriminate]; subst.

Section Quiet.
Context {P : Type} `{PA : PageAlloc P} {K : Type} `{BlockAllocLaws K} {D : Type} `{IO : PortIO D}.
Context (exec : processor) (info : sysinfo).
Implicit Types s : @sys P K D.

(** [s'] is [s] with another screen, and the same input line. *)
Definition reprinted s s' : Prop :=
  exists t h, s' = set_term t s /\ shows t h /\ input t = input (term s) /\ in_len t = in_len (term s).

Lemma printed_reprinted s s' h : printed s s' h -> reprinted s s'.
Proof. intros (t & -> & Hs & Hi & Hn & _). exists t, h. auto. Qed.

Lemma reprinted_trans s1 s2 s3 : reprinted s1 s2 -> reprinted s2 s3 -> reprinted s1 s3.
Proof.
  intros (t2 & h2 & -> & _ & Hi2 & Hn2) (t3 & h3 & -> & Hs3 & Hi3 & Hn3). exists t3, h3.
  split; [reflexivity|]. split; [exact Hs3|]. cbn [term set_term] in *. split; congruence.
Qed.

Lemma reprinted_shows s s' : reprinted s s' -> exists h, shows (term s') h.
Proof. intros (t & h & -> & Hs & _). eauto. Qed.

(** A command that prints, from any screen. *)
Definition prints (g : sys -> outcome sys) s : Prop :=
  forall s1, reprinted s s1 -> returns (g s1) (reprinted s).

Lemma say_reprinted s s1 x : str_ok x -> reprinted s s1 -> returns (say s1 x) (reprinted s).
Proof.
  intros Hx H1. destruct (reprinted_shows _ _ H1) as [h Hs].
  eapply returns_mono; [exact (say_returns s1 h x Hs Hx)|]. intros s2 Hp.
  exact (reprinted_trans _ _ _ H1 (printed_reprinted _ _ _ Hp)).
Qed.

Lemma prints_say s x : str_ok x -> prints (fun s => say s x) s.
Proof. intros Hx s1 H1. exact (say_reprinted s s1 x Hx H1). Qed.

Lemma prints_put s x k : str_ok x -> prints k s -> prints (fun s => s' ← put s x; k s') s.
Proof.
  intros Hx Hk s1 H1. destruct (reprinted_shows _ _ H1) as [h Hs]. apply returns_bind.
  eapply returns_mono; [exact (put_returns s1 h x Hs Hx)|]. intros s2 Hp.
  exact (Hk s2 (reprinted_trans _ _ _ H1 (printed_reprinted _ _ _ Hp))).
Qed.

Lemma prints_then s g k : prints g s -> prints k s -> prints (fun s => s' ← g s; k s') s.
Proof.
  intros Hg Hk s1 H1. apply returns_bind. eapply returns_mono; [exact (Hg s1 H1)|]. exact Hk.
Qed.

Lemma prints_say_put s x k : str_ok x -> prints k s -> prints (fun s => s' ← say s x; k s') s.
Proof. intros Hx. exact (prints_then s (fun s => say s x) k (prints_say s x Hx)). Qed.

Lemma prints_all s l : Forall str_ok l -> prints (fun s => say_all s l) s.
Proof.
  induction 1 as [|x l Hx _ IH]; cbn [say_all].
  - intros s1 H1. apply returns_Done. exact H1.
  - apply (prints_then s (fun s => say s x)); [apply prints_say, Hx|exact IH].
Qed.

Lemma prints_text s b : prints (fun s => put_text s b) s.
Proof.
  intros s1 H1. destruct (reprinted_shows _ _ H1) as [h Hs]. eapply returns_mono; [exact (put_text_returns s1 h b Hs)|].
  intros s2 Hp. exact (reprinted_trans _ _ _ H1 (printed_reprinted _ _ _ Hp)).
Qed.

Lemma prints_ret s : prints (fun s => mret s) s.
Proof. intros s1 H1. apply returns_Done. exact H1. Qed.

Lemma systeminfo_prints s : prints (cmd_systeminfo info) s.
Proof.
  unfold cmd_systeminfo.
  repeat lazymatch goal with
    | |- prints (fun s => mbind _ (put s _)) _ => apply prints_put; [once (try printable_text)|]
    | |- prints (fun s => mbind _ (say s _)) _ => apply prints_say_put; [once (try printable_text)|]
    | |- prints (fun s => say s _) _ => apply prints_say; printable_text
    end.
  - unfold adaptive_profile_name. destruct (profile _); printable_text.
Qed.

(** ** The commands that read files *)

(** What they rely on of the file system; the working directory leaves room for a path. *)
Record readable (v : @vfs K) : Prop := {
  rd_tree : exists kids, tree v kids;
  rd_store : store v;
  rd_cwd : absolute (cwd v) /\ (length (cwd v) <= 127)%nat
}.

Lemma readable_resolve v p :
  readable v -> str_ok p -> (length p <= 127)%nat ->
  returns (vfs_resolve v p) (fun r => match r with Some i => (i < count v)%nat | None => True end).
Proof.
  intros [[kids Ht] _ [Hc Hl]] Hp Hn. apply (vfs_resolve_returns v kids p Ht Hc Hp). lia.
Qed.

Lemma list_cb_prints s i : readable (fs s) -> (i < count (fs s))%nat -> prints (fun s => list_cb s i) s.
Proof.
  intros [[kids Ht] Hst _] Hi s1 H1. destruct (tree_node _ _ _ Ht Hi) as [n En].
  destruct H1 as (t & h & E & H1). assert (Ef : fs s1 = fs s) by (rewrite E; reflexivity). unfold list_cb. rewrite Ef.
  rewrite (node_at_Done _ _ _ En), bind_Done. pose proof (t_name _ _ Ht i n Hi En) as Hl.
  pose proof (cstr_length (name n)) as Hc. destruct (st_size _ Hst i n Hi En) as [Hsz _].
  pose proof (utoa_str_word (size n) ltac:(lia)) as Hu. unfold list_line. rewrite buf_str_ok, bind_Done.
  - apply (say_reprinted s); [|exists t, h; auto]. repeat case_match; printable_text.
  - rewrite !length_app. repeat case_match; literal_lengths; cbn [length]; lia.
Qed.

Lemma list_nodes_prints s l : readable (fs s) -> Forall (fun i => (i < count (fs s))%nat) l -> prints (fun s => list_nodes s l) s.
Proof.
  intros Hr. induction 1 as [|i l Hi _ IH]; cbn [list_nodes]; [apply prints_ret|].
  apply (prints_then s (fun s => list_cb s i)); [exact (list_cb_prints s i Hr Hi)|exact IH].
Qed.

Lemma list_prints s d :
  readable (fs s) -> (d < count (fs s))%nat -> prints (fun s => l ← vfs_list (fs s) (Some d); list_nodes s l) s.
Proof.
  intros Hr Hd s1 H1. destruct (rd_tree _ Hr) as [kids Ht]. destruct (tree_node _ _ _ Ht Hd) as [n En].
  assert (Ef : fs s1 = fs s) by (destruct H1 as (t & h & -> & _); reflexivity). rewrite Ef.
  rewrite (vfs_list_returns _ kids d n Ht Hd En), bind_Done. apply (list_nodes_prints s); [exact Hr| |exact H1].
  destruct (_ =? _); [|constructor]. apply Forall_forall. intros i Hi. apply (t_parent _ _ Ht d i Hi).
Qed.

Lemma ls_prints s p : readable (fs s) -> str_ok p -> (length p <= 127)%nat -> prints (fun s => cmd_ls s p) s.
Proof.
  intros Hr Hp Hl s1 H1. pose proof (next_arg_parts p Hp) as Ha. unfold cmd_ls. destruct (next_arg p) as [a r].
  destruct Ha as (Ha & Hla & _). assert (Ef : fs s1 = fs s) by (destruct H1 as (t & h & -> & _); reflexivity). rewrite Ef.
  assert (Hd : str_ok (default (chars ".") a) /\ (length (default (chars ".") a) <= 127)%nat).
  { destruct a; cbn [from_option id] in *; [split; [exact Ha|lia]|split; [apply dots_ok|cbn; lia]]. }
  cbn [fst]. destruct (readable_resolve _ _ Hr (proj1 Hd) (proj2 Hd)) as ([d|] & -> & Hi); rewrite bind_Done.
  - pose proof (list_prints s d Hr Hi s1 H1) as Hlist. cbv beta in Hlist. rewrite Ef in Hlist. exact Hlist.
  - apply (say_reprinted s); [printable_text|exact H1].
Qed.

Lemma find_prints s p : readable (fs s) -> str_ok p -> prints (fun s => cmd_find s p) s.
Proof.
  intros Hr Hp. pose proof (next_arg_parts p Hp) as Ha. unfold cmd_find. destruct (next_arg p) as [[a|] r]; cbn [fst].
  2: { apply prints_say. printable_text. }
  apply prints_put; [printable_text|]. apply prints_put; [apply Ha|]. apply prints_say_put; [printable_text|].
  intros s1 H1. assert (Ef : fs s1 = fs s) by (destruct H1 as (t & h & -> & _); reflexivity). destruct (rd_tree _ Hr) as [kids Ht].
  unfold vfs_root. rewrite Ef, (t_root _ _ Ht). pose proof (list_prints s 0 Hr) as Hlist. pose proof (t_count _ _ Ht).
  specialize (Hlist ltac:(unfold count; lia) s1 H1). cbv beta in Hlist. rewrite Ef in Hlist. exact Hlist.
Qed.

Lemma read_512_returns v s i :
  readable v -> fs s = v -> (i < count v)%nat -> returns (read_512 s (Some i)) (fun b => (length b <= 511)%nat).
Proof.
  intros Hr Ef Hi. destruct (rd_tree _ Hr) as [kids Ht]. destruct (tree_node _ _ _ Ht Hi) as [n En]. unfold read_512. rewrite Ef.
  destruct (decide (type n = VFS_FILE)) as [Hty|Hty].
  - rewrite (vfs_read_returns v i n 511 (rd_store _ Hr) Hi En Hty), bind_Done by lia.
    pose proof (file_bytes_length _ _ _ (rd_store _ Hr) Hi En) as Hlen. destruct (st_size _ (rd_store _ Hr) i n Hi En) as [Hsz _].
    rewrite i32_small by lia. destruct (Z.ltb_spec (Z.min (size n) 511) 0); [lia|].
    destruct (Z.eqb_spec (Z.of_nat (length (take (Z.to_nat 511) (file_bytes v i)))) (Z.min (size n) 511)) as [_|Hne].
    + apply returns_Done. rewrite length_take. lia.
    + exfalso. rewrite length_take in Hne. lia.
  - unfold vfs_read. rewrite (node_at_Done _ _ _ En), bind_Done. destruct (Z.eqb_spec (type n) VFS_FILE); [congruence|].
    cbn [negb mret outcome_ret]. rewrite bind_Done. apply returns_Done. cbn. lia.
Qed.

Lemma cat_prints s p : readable (fs s) -> str_ok p -> (length p <= 127)%nat -> prints (fun s => cmd_cat s p) s.
Proof.
  intros Hr Hp Hl s1 H1. pose proof (next_arg_parts p Hp) as Ha. unfold cmd_cat. destruct (next_arg p) as [a r].
  destruct Ha as (Ha & Hla & _). assert (Ef : fs s1 = fs s) by (destruct H1 as (t & h & -> & _); reflexivity).
  assert (Hnot : returns (say s1 (chars "cat: not a file")) (reprinted s)) by (apply (say_reprinted s); [printable_text|exact H1]).
  cbn [fst]. destruct a as [a|]; [|exact Hnot]. cbn [from_option id] in *. rewrite Ef.
  destruct (readable_resolve _ a Hr Ha ltac:(lia)) as ([d|] & -> & Hi); rewrite bind_Done; [|exact Hnot].
  destruct (rd_tree _ Hr) as [kids Ht]. destruct (tree_node _ _ _ Ht Hi) as [n En].
  rewrite (node_at_Done _ _ _ En), bind_Done. destruct (negb _); [exact Hnot|].
  destruct (read_512_returns (fs s) s1 d Hr Ef Hi) as (b & -> & _). rewrite bind_Done. exact (prints_text s b s1 H1).
Qed.

(** ** Every line that does not write *)
Lemma clear_prints s : prints cmd_clear s.
Proof.
  intros s1 (t & h & -> & _ & Hi & Hn). apply returns_Done. eexists _, [[]]. split; [reflexivity|]. split; [|split; assumption].
  split; [exists (fun _ => [])|discriminate|reflexivity]. split; [exact zero_rows|].
  intros i Hi'. cbn in Hi'. replace i with 0%nat by lia. reflexivity.
Qed.

Lemma request_prints s x rb sd :
  str_ok x -> prints (fun s => s ← say s x; mret (set_term (request (rb s) (sd s) (term s)) s)) s.
Proof.
  intros Hx. apply prints_say_put; [exact Hx|]. intros s1 (t & h & -> & Hs & Hi & Hn). apply returns_Done.
  eexists _, h. split; [reflexivity|]. split; [|split; assumption]. destruct Hs as [Hr Hne Hrow]. split; assumption.
Qed.

Lemma quiet_prints s line :
  readable (fs s) -> str_ok line -> (length line <= 127)%nat -> quiet line = true ->
  prints (fun s => run_command exec info s line) s.
Proof.
  intros Hr Hok Hl Hq. pose proof (next_arg_parts line Hok) as Ha. unfold quiet in Hq. unfold run_command.
  destruct (next_arg line) as [[cmd|] p]; cbn [fst] in Hq; [|apply prints_ret]. destruct Ha as (Hc & _ & Hp & Hlp). cbn [from_option id] in Hc.
  unfold writes in Hq. cbn [existsb] in Hq. apply negb_true_iff in Hq. repeat rewrite orb_false_iff in Hq.
  destruct Hq as [(W1 & W2 & W3 & W4 & W5 & W6 & W7 & W8 & W9 & _) W10].
  rewrite W1, W2, W3, W4, W5, W6, W7, W8, W9, W10. cbn [orb].
  destruct (_ || _); [apply prints_all; repeat constructor; printable_text|].
  destruct (named cmd "clear"); [apply clear_prints|].
  destruct (named cmd "pwd").
  { intros s1 H1. assert (Ef : fs s1 = fs s) by (destruct H1 as (t & h & -> & _); reflexivity). rewrite Ef.
    apply (say_reprinted s); [apply (rd_cwd _ Hr)|exact H1]. }
  destruct (named cmd "ls"); [apply ls_prints; [exact Hr|exact Hp|lia]|].
  destruct (named cmd "cat"); [apply cat_prints; [exact Hr|exact Hp|lia]|].
  destruct (named cmd "echo"); [apply prints_say, Hp|].
  destruct (_ || _); [apply systeminfo_prints|].
  destruct (named cmd "version"); [unfold cmd_version; repeat first [apply prints_put; [printable_text|]|apply prints_say_put; [printable_text|]]; apply prints_say; printable_text|].
  destruct (named cmd "top"); [apply prints_all; repeat constructor; printable_text|].
  destruct (named cmd "kill"); [apply prints_say; printable_text|].
  destruct (named cmd "network"); [apply prints_all; repeat constructor; printable_text|].
  destruct (named cmd "find"); [apply find_prints; assumption|].
  destruct (named cmd "grep"); [apply prints_say; printable_text|].
  destruct (named cmd "shutdown"); [apply (request_prints s _ (fun s => reboot_req (term s)) (fun _ => true)); printable_text|].
  destruct (named cmd "reboot"); [apply (request_prints s _ (fun _ => true) (fun s => shutdown_req (term s))); printable_text|].
  apply prints_put; [printable_text|]. apply prints_say, Hc.
Qed.
(** ** The commands that change files

    [s'] is [s] with other files and another screen, and the same input line. *)
Definition served s s' : Prop :=
  exists v t h, s' = set_term t (set_fs v s) /\ living v /\ shows t h /\
    input t = input (term s) /\ in_len t = in_len (term s).

Lemma living_readable v : living v -> readable v.
Proof. intros Hl. destruct (desk_cwd v (lv_dirs _ Hl)) as [Hc Hn]. split; [apply Hl|apply Hl|]. split; [exact Hc|lia]. Qed.

Lemma served_refl s h : living (fs s) -> shows (term s) h -> served s s.
Proof. intros Hl Hs. exists (fs s), (term s), h. split; [destruct s; reflexivity|]. auto. Qed.

Lemma served_living s s' : served s s' -> living (fs s').
Proof. intros (v & t & h & -> & Hl & _). exact Hl. Qed.

Lemma served_reprinted s s1 s2 : served s s1 -> reprinted s1 s2 -> served s s2.
Proof.
  intros (v & t & h & -> & Hl & Hs & Hi & Hn) (t2 & h2 & -> & Hs2 & Hi2 & Hn2). exists v, t2, h2.
  split; [reflexivity|]. split; [exact Hl|]. split; [exact Hs2|]. cbn [term set_term] in *. split; congruence.
Qed.

Lemma served_fs s s1 v : served s s1 -> living v -> served s (set_fs v s1).
Proof. intros (v0 & t & h & -> & _ & H2) Hl. exists v, t, h. split; [reflexivity|]. split; [exact Hl|exact H2]. Qed.

Lemma served_again s s1 : served s s1 -> reprinted s1 s1.
Proof. intros (v & t & h & E & _ & Hs & _). exists (term s1), h. rewrite E. split; [destruct s; reflexivity|]. auto. Qed.

(** A command that only prints serves. *)
Lemma prints_served s s1 g : served s s1 -> prints g s1 -> returns (g s1) (served s).
Proof.
  intros H1 Hg. eapply returns_mono; [exact (Hg s1 (served_again _ _ H1))|]. intros s2. exact (served_reprinted s s1 s2 H1).
Qed.

Lemma served_say s s1 x : str_ok x -> served s s1 -> returns (say s1 x) (served s).
Proof. intros Hx H1. exact (prints_served s s1 _ H1 (prints_say s1 x Hx)). Qed.

Lemma served_put s s1 x : str_ok x -> served s s1 -> returns (put s1 x) (served s).
Proof.
  intros Hx H1. apply (prints_served s s1 (fun s => put s x) H1). intros s2 H2. destruct (reprinted_shows _ _ H2) as [h Hs].
  eapply returns_mono; [exact (put_returns s2 h x Hs Hx)|]. intros s3 Hp. exact (reprinted_trans _ _ _ H2 (printed_reprinted _ _ _ Hp)).
Qed.

(** A word of a line of at most 127 characters is a path that is typed. *)
Lemma next_arg_typed p : str_ok p -> (length p <= 127)%nat ->
  typed_path (default [] (fst (next_arg p))) /\ str_ok (snd (next_arg p)) /\ (length (snd (next_arg p)) <= 127)%nat.
Proof.
  intros Hp Hl. pose proof (next_arg_parts p Hp) as Ha. destruct (next_arg p) as [w r]. cbn [fst snd].
  destruct Ha as (H1 & H2 & H3 & H4). split; [split; [exact H1|lia]|]. split; [exact H3|lia].
Qed.

(** The name of a new file is not too long. *)
Definition arg_fits (p : list Z) : bool :=
  match fst (next_arg p) with Some a => (length (leaf_of a) <? 20)%nat | None => true end.

Lemma cd_serves s p :
  served s s -> str_ok p -> (length p <= 127)%nat ->
  near (fs s) (default (chars "/home/user") (fst (next_arg p))) = true -> returns (cmd_cd s p) (served s).
Proof.
  intros Hs Hp Hl Hn. pose proof (served_living _ _ Hs) as Hv. destruct (next_arg_typed p Hp Hl) as [Ha _]. unfold cmd_cd.
  set (a := default (chars "/home/user") (fst (next_arg p))) in *.
  assert (Hta : typed_path a) by (unfold a; destruct (fst (next_arg p)); [exact Ha|typed_text]).
  apply returns_bind. eapply returns_mono; [exact (vfs_chdir_living (fs s) a Hv Hta Hn)|]. intros [r v] Hlv. cbv zeta.
  pose proof (served_fs s s v Hs Hlv) as H1. destruct (negb _); [|apply returns_Done; exact H1].
  apply (served_say s); [printable_text|exact H1].
Qed.

Lemma mkdir_serves s p :
  served s s -> str_ok p -> (length p <= 127)%nat -> arg_fits p = true -> returns (cmd_mkdir s p) (served s).
Proof.
  intros Hs Hp Hl Hn. pose proof (served_living _ _ Hs) as Hv. destruct (next_arg_typed p Hp Hl) as [Ha _]. unfold cmd_mkdir, arg_fits in *.
  destruct (fst (next_arg p)) as [a|]; [|apply (served_say s); [printable_text|exact Hs]]. apply Nat.ltb_lt in Hn.
  apply returns_bind. eapply returns_mono; [exact (vfs_add_living VFS_DIR (fs s) a 493 Hv Ha Hn)|]. intros [r v] [Hlv _]. cbv zeta.
  pose proof (served_fs s s v Hs Hlv) as H1. destruct r; [apply returns_Done; exact H1|].
  apply (served_say s); [printable_text|exact H1].
Qed.

Lemma rm_serves s p : served s s -> str_ok p -> (length p <= 127)%nat -> returns (cmd_rm s p) (served s).
Proof.
  intros Hs Hp Hl. pose proof (served_living _ _ Hs) as Hv. destruct (next_arg_typed p Hp Hl) as [Ha _]. unfold cmd_rm.
  destruct (fst (next_arg p)) as [a|]; [|apply (served_say s); [printable_text|exact Hs]].
  apply returns_bind. eapply returns_mono; [exact (vfs_unlink_living (fs s) a Hv Ha)|]. intros [r v] Hlv. cbv zeta.
  pose proof (served_fs s s v Hs Hlv) as H1. destruct (negb _); [|apply returns_Done; exact H1].
  apply (served_say s); [printable_text|exact H1].
Qed.

Lemma two_serves s p op usage failed :
  (forall v a b, living v -> typed_path a -> typed_path b -> (length (leaf_of b) < 20)%nat ->
     returns (op v a b) (fun '(r, v') => living v')) -> str_ok usage -> str_ok failed ->
  served s s -> str_ok p -> (length p <= 127)%nat -> arg_fits (snd (next_arg p)) = true ->
  returns (cmd_two op usage failed s p) (served s).
Proof.
  intros Hop Hu Hf Hs Hp Hl Hn. pose proof (served_living _ _ Hs) as Hv. destruct (next_arg_typed p Hp Hl) as (Ha & Hp2 & Hl2).
  destruct (next_arg_typed _ Hp2 Hl2) as [Hb _]. unfold cmd_two, arg_fits in *. destruct (next_arg p) as [src q]. cbn [fst snd] in *.
  destruct (next_arg q) as [dst q2]. cbn [fst] in *. destruct src as [a|]; [|apply (served_say s); assumption].
  destruct dst as [b|]; [|apply (served_say s); assumption]. apply Nat.ltb_lt in Hn.
  apply returns_bind. eapply returns_mono; [exact (Hop (fs s) a b Hv Ha Hb Hn)|]. intros [r v] Hlv. cbv zeta.
  pose proof (served_fs s s v Hs Hlv) as H1. destruct (negb _); apply (served_say s); first [assumption|printable_text].
Qed.

(** *** Packages *)
Lemma split_line_parts b : b <> [] -> str_ok b ->
  str_ok (fst (split_line b)) /\ str_ok (snd (split_line b)) /\ (length (snd (split_line b)) < length b)%nat.
Proof.
  induction b as [|c b IH]; [congruence|]. intros _ Hb. inversion Hb as [|? ? Hc Hb']; subst. cbn [split_line].
  destruct (c =? 10); cbn [fst snd length]; [split; [constructor|]; split; [exact Hb'|lia]|].
  destruct (decide (b = [])) as [->|Hne]; [cbn; split; [repeat constructor; exact Hc|]; split; [constructor|lia]|].
  destruct (IH Hne Hb') as (I1 & I2 & I3). destruct (split_line b) as [l r]. cbn [fst snd length] in *.
  split; [constructor; assumption|]. split; [exact I2|lia].
Qed.

Lemma db_search_returns s pkg fuel : forall b found s1,
  (length b < fuel)%nat -> str_ok b -> reprinted s s1 ->
  returns (loop fuel (fun '(b, found, s) =>
    if bool_decide (b = []) then mret (inr (found, s))
    else
      let '(l, r) := split_line b in
      let tmp := take 95 l in
      match find_sub pkg tmp with
      | Some _ => s ← say s tmp; mret (inl (r, true, s))
      | None => mret (inl (r, found, s))
      end) (b, found, s1)) (fun '(_, s2) => reprinted s s2).
Proof.
  induction fuel as [|fuel IH]; intros b found s1 Hf Hb H1; [lia|]. rewrite loop_S.
  destruct (bool_decide_reflect (b = [])) as [->|Hne]; [apply returns_Done; exact H1|].
  destruct (split_line_parts b Hne Hb) as (I1 & I2 & I3). destruct (split_line b) as [l r]. cbn [fst snd] in *. cbv zeta.
  destruct (find_sub pkg (take 95 l)); [|rewrite bind_Done; apply IH; [lia|exact I2|exact H1]].
  destruct (say_reprinted s s1 (take 95 l) ltac:(apply Forall_take, I1) H1) as (s2 & -> & H2).
  rewrite !bind_Done. apply IH; [lia|exact I2|exact H2].
Qed.

Lemma h3pkg_list_prints s pkg : readable (fs s) -> prints (fun s => h3pkg_list s pkg) s.
Proof.
  intros Hr s1 H1. assert (Ef : fs s1 = fs s) by (destruct H1 as (t & h & -> & _); reflexivity). unfold h3pkg_list. rewrite Ef.
  destruct (readable_resolve (fs s) pkg_db Hr) as ([d|] & -> & Hi); [printable_text|apply Nat.leb_le; vm_compute; reflexivity| |]; rewrite bind_Done; [|apply (say_reprinted s); [printable_text|exact H1]].
  destruct (read_512_returns (fs s) s1 d Hr Ef Hi) as (b & -> & _). rewrite bind_Done.
  destruct (bool_decide _); [exact (prints_text s b s1 H1)|]. apply returns_bind. unfold db_search.
  eapply returns_mono; [apply (db_search_returns s (default [] pkg) (S (length b)) (cstr b) false s1); [|apply cstr_ok|exact H1]|].
  - pose proof (cstr_length b). lia.
  - intros [found s2] H2. destruct found; [apply returns_Done; exact H2|]. apply (say_reprinted s); [printable_text|exact H2].
Qed.

(** [mkdir], [create] and [write] of fixed names. *)
Lemma add_then ty v p md {A} (k : option nat -> @vfs K -> outcome A) (Q : A -> Prop) :
  living v -> typed_path p -> (length (leaf_of p) < 20)%nat ->
  (forall r v', living v' -> match r with Some i => (i < count v')%nat | None => True end -> returns (k r v') Q) ->
  returns ('(r, v') ← vfs_add ty v p md; k r v') Q.
Proof.
  intros Hv Hp Hl Hk. apply returns_bind. eapply returns_mono; [exact (vfs_add_living ty v p md Hv Hp Hl)|].
  intros [r v'] (Hv' & _ & Hr). exact (Hk r v' Hv' Hr).
Qed.

Lemma write_then v i buf sz {A} (k : @vfs K -> outcome A) (Q : A -> Prop) :
  living v -> (i < count v)%nat -> 0 <= sz <= Z.of_nat (length buf) -> sz < 2 ^ 62 ->
  (forall v', living v' -> returns (k v') Q) -> returns ('(_, v') ← vfs_write v (Some i) buf sz; k v') Q.
Proof.
  intros Hv Hi Hs Hm Hk. apply returns_bind. eapply returns_mono; [exact (vfs_write_living v i buf sz Hv Hi Hs Hm)|].
  intros [r v'] [Hv' _]. exact (Hk v' Hv').
Qed.

Lemma db_add_serves s s1 entry :
  served s s1 -> (length entry <= 95)%nat -> returns (db_add s1 entry) (served s).
Proof.
  intros H1 Hl. pose proof (served_living _ _ H1) as Hv. pose proof (living_readable _ Hv) as Hr. unfold db_add.
  destruct (readable_resolve (fs s1) pkg_db Hr) as ([d|] & -> & Hi); [printable_text|apply Nat.leb_le; vm_compute; reflexivity| |]; rewrite bind_Done.
  - destruct (read_512_returns (fs s1) s1 d Hr eq_refl Hi) as (b & -> & Hb). rewrite bind_Done. pose proof (cstr_length b) as Hc.
    destruct (Z.ltb_spec (Z.of_nat (length b) + Z.of_nat (length entry)) 512); [|apply returns_Done; exact H1].
    rewrite buf_str_ok, bind_Done by (rewrite length_app; lia).
    apply write_then; [exact Hv|exact Hi|rewrite !length_app; cbn [length]; lia|rewrite length_app; lia|].
    intros v' Hv'. apply returns_Done. exact (served_fs s s1 v' H1 Hv').
  - apply add_then; [exact Hv|typed_text|apply Nat.ltb_lt; vm_compute; reflexivity|]. intros _ v1 Hv1 _.
    apply add_then; [exact Hv1|typed_text|apply Nat.ltb_lt; vm_compute; reflexivity|]. intros _ v2 Hv2 _.
    apply add_then; [exact Hv2|typed_text|apply Nat.ltb_lt; vm_compute; reflexivity|]. intros [i|] v3 Hv3 Hi3.
    + apply write_then; [exact Hv3|exact Hi3|rewrite length_app; lia|lia|]. intros v' Hv'. apply returns_Done. exact (served_fs s s1 v' H1 Hv').
    + apply returns_Done. exact (served_fs s s1 v3 H1 Hv3).
Qed.

(** A name whose entry and path fit their buffers. *)
Definition package_fits (k : list Z) : bool := (length k <=? 78)%nat && (length (leaf_of k) <? 20)%nat.

Lemma pkg_path_returns k : str_ok k -> package_fits k = true ->
  returns (pkg_path k) (fun p => typed_path p /\ (length (leaf_of p) < 20)%nat).
Proof.
  intros Hk Hf. apply andb_true_iff in Hf as [Hl Hlf]. apply Nat.leb_le in Hl. apply Nat.ltb_lt in Hlf. unfold pkg_path.
  assert (El : length (chars "/usr/share/packages/") = 20%nat) by reflexivity.
  rewrite buf_str_ok by (rewrite length_app, El; lia). apply returns_Done. split; [split|].
  - apply Forall_app. split; [printable_text|exact Hk].
  - rewrite length_app, El. lia.
  - change (chars "/usr/share/packages/" ++ k) with (chars "/usr/share/packages" ++ slash :: k). rewrite leaf_of_app. exact Hlf.
Qed.

Lemma h3pkg_install_serves s k :
  served s s -> str_ok k -> package_fits k = true -> returns (h3pkg_install s k) (served s).
Proof.
  intros Hs Hk Hf. pose proof (andb_prop _ _ Hf) as [Hl _]. apply Nat.leb_le in Hl. unfold h3pkg_install.
  assert (El : length (chars " 0.1.0 installed" ++ [10]) = 17%nat) by reflexivity.
  rewrite buf_str_ok, bind_Done by (rewrite length_app, El; lia). apply returns_bind.
  eapply returns_mono; [apply (db_add_serves s s _ Hs); rewrite length_app, El; lia|]. intros s1 H1.
  apply add_then; [exact (served_living _ _ H1)|typed_text|apply Nat.ltb_lt; vm_compute; reflexivity|]. intros _ v1 Hv1 _.
  destruct (pkg_path_returns k Hk Hf) as (p & -> & Hp & Hlf). rewrite bind_Done.
  apply add_then; [exact Hv1|exact Hp|exact Hlf|]. intros r v2 Hv2 Hr.
  assert (Hend : forall v, living v -> returns (let s := set_fs v s1 in s ← put s (chars "h3pkg: installed "); say s k) (served s)).
  { intros v Hv. cbv zeta. apply returns_bind. eapply returns_mono; [apply (served_put s _ (chars "h3pkg: installed ")); [printable_text|exact (served_fs s s1 v H1 Hv)]|].
    intros s2 H2. exact (served_say s s2 k Hk H2). }
  apply returns_bind. destruct r as [i|]; [|apply returns_Done; exact (Hend v2 Hv2)].
  apply write_then; [exact Hv2|exact Hr|cbn; lia|lia|]. intros v Hv. apply returns_Done. exact (Hend v Hv).
Qed.

Lemma h3pkg_remove_serves s k :
  served s s -> str_ok k -> package_fits k = true -> returns (h3pkg_remove s k) (served s).
Proof.
  intros Hs Hk Hf. unfold h3pkg_remove. destruct (pkg_path_returns k Hk Hf) as (p & -> & Hp & _). rewrite bind_Done. apply returns_bind.
  eapply returns_mono; [exact (vfs_unlink_living _ p (served_living _ _ Hs) Hp)|]. intros [r v] Hv. cbv zeta. apply returns_bind.
  eapply returns_mono; [apply (served_put s _ (chars "h3pkg: removed ")); [printable_text|exact (served_fs s s v Hs Hv)]|].
  intros s2 H2. exact (served_say s s2 k Hk H2).
Qed.

(** The package named on the line, if any. *)
Definition package_arg (p : list Z) : bool :=
  match fst (next_arg (snd (next_arg p))) with Some k => package_fits k | None => true end.

Lemma h3pkg_serves s p :
  served s s -> str_ok p -> (length p <= 127)%nat -> package_arg p = true -> returns (cmd_h3pkg s p) (served s).
Proof.
  intros Hs Hp Hl Hn. pose proof (living_readable _ (served_living _ _ Hs)) as Hr.
  destruct (next_arg_typed p Hp Hl) as (Ha & Hp2 & Hl2). destruct (next_arg_typed _ Hp2 Hl2) as [Hb _].
  unfold cmd_h3pkg, package_arg in *. destruct (next_arg p) as [sub q]. cbn [fst snd] in *. destruct (next_arg q) as [pkg q2]. cbn [fst] in *.
  assert (Hsay : forall x, str_ok x -> returns (say s x) (served s)) by (intros x Hx; exact (served_say s s x Hx Hs)).
  destruct sub as [sub|]; [|apply Hsay; printable_text]. destruct Ha as [Ha _]. cbn [from_option id] in Ha.
  destruct (_ || _); [exact (prints_served s s _ Hs (h3pkg_list_prints s pkg Hr))|].
  destruct (named sub "install"). { destruct pkg as [k|]; [exact (h3pkg_install_serves s k Hs (proj1 Hb) Hn)|apply Hsay; printable_text]. }
  destruct (named sub "remove"). { destruct pkg as [k|]; [exact (h3pkg_remove_serves s k Hs (proj1 Hb) Hn)|apply Hsay; printable_text]. }
  destruct (_ || _ || _); [|apply Hsay; printable_text].
  apply (prints_served s s (fun s => s ← put s (chars "h3pkg: "); s ← put s sub; say s (chars " " ++ dash ++ chars " local RAMFS db OK")) Hs).
  apply prints_put; [printable_text|]. apply prints_put; [exact Ha|]. apply prints_say. printable_text.
Qed.

(** ** Every line that runs no program

    Lines that run a program are excluded, and those whose paths and names do not fit. *)
Definition tame (v : @vfs K) (line : list Z) : bool :=
  match next_arg line with
  | (None, _) => true
  | (Some cmd, p) =>
      if named cmd "cd" then near v (default (chars "/home/user") (fst (next_arg p)))
      else if named cmd "mkdir" then arg_fits p
      else if named cmd "rm" then true
      else if named cmd "cp" || named cmd "mv" then arg_fits (snd (next_arg p))
      else if named cmd "h3pkg" then package_arg p
      else negb (writes cmd)
  end.

Lemma tame_serves s h line :
  living (fs s) -> shows (term s) h -> str_ok line -> (length line <= 127)%nat -> tame (fs s) line = true ->
  returns (run_command exec info s line) (served s).
Proof.
  intros Hv Hsh Hok Hl Ht. pose proof (served_refl s h Hv Hsh) as Hs. pose proof (living_readable _ Hv) as Hr.
  destruct (next_arg_typed line Hok Hl) as (Ha & Hp & Hpl). unfold tame in Ht.
  destruct (next_arg line) as [[cmd|] p] eqn:En.
  2: { unfold run_command. rewrite En. apply returns_Done. exact Hs. }
  cbn [fst snd] in *. destruct Ha as [Hc _]. cbn [from_option id] in Hc.
  destruct (named cmd "cd") eqn:E1.
  { this_command Hc E1. unfold run_command. rewrite En. exact (cd_serves s p Hs Hp Hpl Ht). }
  destruct (named cmd "mkdir") eqn:E2.
  { this_command Hc E2. unfold run_command. rewrite En. exact (mkdir_serves s p Hs Hp Hpl Ht). }
  destruct (named cmd "rm") eqn:E3.
  { this_command Hc E3. unfold run_command. rewrite En. exact (rm_serves s p Hs Hp Hpl). }
  destruct (named cmd "cp" || named cmd "mv") eqn:E4.
  { apply orb_true_iff in E4 as [E4|E4]; this_command Hc E4; unfold run_command; rewrite En.
    - apply (two_serves s p vfs_copy); try assumption; [exact vfs_copy_living|printable_text..].
    - apply (two_serves s p vfs_rename); try assumption; [exact vfs_rename_living|printable_text..]. }
  destruct (named cmd "h3pkg") eqn:E5.
  { this_command Hc E5. unfold run_command. rewrite En. exact (h3pkg_serves s p Hs Hp Hpl Ht). }
  apply (prints_served s s (fun s => run_command exec info s line) Hs). apply quiet_prints; [exact Hr|exact Hok|exact Hl|].
  unfold quiet. rewrite En. exact Ht.
Qed.
End Quiet.

(** A line that runs no program is served whatever it says, as long as its paths and new
    names are not too long ([tame]): [run_command] returns, the screen and the file system
    stay well formed, and the memory and its allocator, the ports and the last exit code
    are untouched.  The files are untouched too, unless the line's command is one of
    [writes]. *)
Theorem tame_line_served {P} `{PA : PageAlloc P} {K} `{BlockAllocLaws K} {D} `{IO : PortIO D}
    exec info (s : @sys P K D) h line :
  living (fs s) -> shows (term s) h -> str_ok line -> (length line <= 127)%nat -> tame (fs s) line = true ->
  returns (run_command exec info s line) (fun s' => exists v t h', s' = set_term t (set_fs v s) /\
    living v /\ shows t h' /\ (quiet line = true -> v = fs s)).
Proof.
  intros Hv Hs Hok Hl Ht. destruct (quiet line) eqn:Eq.
  - eapply returns_mono; [apply (quiet_prints exec info s line (living_readable _ Hv) Hok Hl Eq)|].
    + exists (term s), h. split; [destruct s; reflexivity|]. auto.
    + intros s' (t & h' & -> & Hs' & _). exists (fs s), t, h'. auto.
  - eapply returns_mono; [exact (tame_serves exec info s h line Hv Hs Hok Hl Ht)|].
    intros s' (v & t & h' & -> & Hv' & Hs' & _). exists v, t, h'. split; [reflexivity|]. split; [exact Hv'|]. split; [exact Hs'|discriminate].
Qed.

(** ** Witness: the file of the system of [Shell.v] is moved *)
Lemma tame_line_served_witness :
  quiet (chars "mv /motd /news") = false /\
  returns (run_command Services.PeSeed.fetch small_info (small_sys demo_vfs) (chars "mv /motd /news")) (fun s' =>
    living (fs s') /\ exists h', shows (term s') h').
Proof.
  split; [vm_compute; reflexivity|].
  eapply returns_mono; [apply (tame_line_served Services.PeSeed.fetch small_info (small_sys demo_vfs) [[]] (chars "mv /motd /news"))|].
  - exact demo_living.
  - exact zero_term_shows.
  - vm_compute. repeat constructor; discriminate.
  - apply Nat.leb_le. vm_compute. reflexivity.
  - vm_compute. reflexivity.
  - intros s' (v & t & h' & -> & Hv & Hs & _). split; [exact Hv|]. exists h'. exact Hs.
Defined.
