(* ===== verification/Programs.v ===== *)
(** * Lines that run a program

    The commands [run], [exec], [./] and a name that ends in .exe: they return on any file
    that is no program, and on programs whose image the loader can take ([good_image]) as
    long as there are free pages for it.  The program itself is a parameter: it changes the
    memory of the programs only, and prints strings ([polite]). *)
From Stdlib Require Import ZArith Lia Bool String.
From stdpp Require Import base tactics option list numbers gmap.
From S2P Require Import Prelude CInt CString PageAlloc BlockAlloc Io Pmm Mem Framebuffer Vfs VfsOps VfsLive Pe Terminal Shell Commands.
From S2P Require Services.
#[local] Close Scope string_scope.
#[local] Open Scope Z_scope.

(** ** Images the loader can take *)
Definition done {A} (m : outcome A) : option A := match m with Done a => Some a | _ => None end.

(** The section headers of the table lie in the file. *)
Fixpoint sections_in (file : list Z) (p : Z) (n : nat) : option (list section_header) :=
  match n with
  | O => Some []
  | S n' =>
      s ← done (get_section file p);
      r ← sections_in file (p + sizeof_section_header) n';
      if (0 <=? virtual_address s) && (0 <=? size_of_raw_data s) && (0 <=? pointer_to_raw_data s) then Some (s :: r) else None
  end.

Definition unrelocated (file : list Z) (opt : Z) : bool :=
  match done (opt_rva_count file opt) with
  | Some n => (n <? 6) ||
      match done (get32 file (opt + 112 + 8 * 5)), done (get32 file (opt + 112 + 8 * 5 + 4)) with
      | Some va, Some sz => (va =? 0) || (sz =? 0)
      | _, _ => false
      end
  | None => false
  end.

(** A file that is no program, or a program with its section table in the file, no
    relocations, and an entry point in its image. *)
Definition good_image (file : list Z) : bool :=
  match done (pe_probe (Some file)) with
  | Some (true, info) =>
      match done (e_lfanew file) with
      | Some lf =>
          match done (coff_opt_size file lf) with
          | Some osz =>
              unrelocated file (lf + sizeof_coff_header) && (0 <=? number_of_sections info) &&
              bool_decide (is_Some (sections_in file (lf + sizeof_coff_header + osz) (Z.to_nat (number_of_sections info)))) &&
              (0 <=? size_of_headers info) && (0 <? size_of_image info) && (size_of_image info <? 2 ^ 32) &&
              (entry_rva info <? size_of_image info)
          | None => false
          end
      | None => false
      end
  | Some (false, _) => true
  | None => false
  end.

(** The sample the kernel seeds is one. *)
Example hello_is_good : good_image Services.PeSeed.hello_exe = true.
Proof. vm_compute. reflexivity. Qed.

Lemma done_Some {A} (m : outcome A) a : done m = Some a -> m = Done a.
Proof. destruct m; cbn; congruence. Qed.

Lemma sections_in_table file n : forall p l,
  sections_in file p n = Some l -> length l = n /\ table file p l.
Proof.
  induction n as [|n IH]; intros p l E; cbn [sections_in] in E.
  - injection E as <-. split; [reflexivity|]. intros i s Hi. rewrite lookup_nil in Hi. discriminate.
  - destruct (done (get_section file p)) as [s|] eqn:Es; [|discriminate]. apply done_Some in Es. cbn [mbind option_bind] in E.
    destruct (sections_in file (p + sizeof_section_header) n) as [r|] eqn:Er; [|discriminate]. cbn [mbind option_bind] in E.
    destruct (_ && _) eqn:Ec; [|discriminate]. injection E as <-. destruct (IH _ _ Er) as [Hl Ht].
    apply andb_true_iff in Ec as [Ec H3]. apply andb_true_iff in Ec as [H1 H2].
    split; [cbn [length]; lia|]. intros [|i] s' Hi; cbn [lookup list_lookup] in Hi.
    + injection Hi as <-. rewrite Z.mul_0_r, Z.add_0_r. split; [exact Es|split; lia].
    + destruct (Ht i s' Hi) as [Eg Hok]. split; [|exact Hok]. rewrite <- Eg. f_equal. lia.
Qed.

Lemma unrelocated_none file opt : unrelocated file opt = true -> no_relocations file opt.
Proof.
  unfold unrelocated, no_relocations. destruct (done (opt_rva_count file opt)) as [n|] eqn:En; [|discriminate].
  apply done_Some in En. intros H. exists n. split; [exact En|]. apply orb_true_iff in H as [H|H]; [left; lia|right].
  destruct (done (get32 file (opt + 112 + 8 * 5))) as [va|] eqn:Ev; [|discriminate].
  destruct (done (get32 file (opt + 112 + 8 * 5 + 4))) as [sz|] eqn:Ez; [|discriminate].
  apply done_Some in Ev, Ez. exists va, sz. split; [exact Ev|]. split; [exact Ez|]. lia.
Qed.

(** What a rejected file is called is a string. *)
Lemma probe_message file r : pe_probe file = Done r -> str_ok (default [] (error (snd r))).
Proof.
  assert (Hr : forall x, str_ok (chars x) -> str_ok (default [] (error (snd (reject x))))) by (intros x Hx; exact Hx).
  destruct file as [f|]; cbn [pe_probe]; intros E;
    repeat first [ apply bind_Done_inv in E as (? & _ & E)
                 | match type of E with (if ?b then _ else _) = _ => destruct b end ];
    injection E as <-; first [apply Hr; vm_compute; repeat constructor; discriminate|constructor].
Qed.

(** ** Programs *)

(** Strings have no NUL; NULL is one to the console functions of the terminal. *)
Definition string_arg (x : option (list Z)) : Prop := str_ok (default [] x).

(** The memory that was there stays, and what is printed are strings. *)
Definition polite (exec : processor) : Prop :=
  forall m e, let '(m', calls, _) := exec m e in
    (forall p n, mapped m p n -> mapped m' p n) /\ Forall (call_ok string_arg) calls.

(** The screen of the terminal, with the input line of [t0]. *)
Definition screen_of (t0 t : term_state) : Prop :=
  exists h, shows t h /\ input t = input t0 /\ in_len t = in_len t0.

Definition term_console : console term_state := pe_set_console (Some pe_term_write) (Some pe_term_writeln).

Lemma term_console_serves k t0 : console_serves k term_console string_arg (screen_of t0).
Proof.
  split; intros x t Hx (h & Hs & Hi & Hn); cbn [api_write api_writeln term_console pe_set_console g_write g_writeln].
  - destruct x as [x|]; cbn [pe_term_write]; [|apply returns_Done; exists h; auto].
    eapply returns_mono; [exact (term_print_returns t h x Hs Hx)|]. intros t' [Hs' (E1 & E2 & _)]. eexists. split; [exact Hs'|]. split; congruence.
  - destruct x as [x|]; cbn [pe_term_writeln].
    + eapply returns_mono; [exact (term_println_returns t h x Hs Hx)|]. intros t' [Hs' (E1 & E2 & _)]. eexists. split; [exact Hs'|]. split; congruence.
    + eapply returns_mono; [exact (term_newline_returns t h Hs)|]. intros t' [Hs' (E1 & E2 & _)]. eexists. split; [exact Hs'|]. split; congruence.
Qed.

Section Running.
Context {P : Type} `{PageAllocLaws P} {K : Type} `{BA : BlockAlloc K}.
Context (exec : processor) (Hexec : polite exec).

(** The pages an image of [n] bytes takes, and that there are. *)
Definition image_pages (n : Z) : Z := ALIGN_UP n PAGE_SIZE / PAGE_SIZE.
Definition has_room (ps : P) (file : list Z) : bool :=
  match done (pe_probe (Some file)) with
  | Some (true, info) =>
      match done (pa_alloc_pages ps (image_pages (size_of_image info))) with Some (p, _) => negb (p =? 0) | None => false end
  | _ => true
  end.

(** What the loader and the program leave: the heap as it was, free pages in memory, and a
    screen. *)
Record ran (s s' : @machine_state P K term_state) : Prop := {
  ra_heap : kheap s' = kheap s;
  ra_pages : pa_ok (pages s') /\ pages_mapped (memory s') (pages s');
  ra_screen : screen_of (screen s) (screen s');
}.

Lemma pages_mapped_taken m ps ps' p count :
  pages_mapped m ps -> pages_taken ps ps' p count -> pages_mapped m ps'.
Proof. intros Hm [_ Hfree] q Hq. apply Hm, Hfree, Hq. Qed.

Lemma image_pages_room n : 0 < n < 2 ^ 32 -> 0 < image_pages n < 2 ^ 64 /\ n <= image_pages n * PAGE_SIZE.
Proof.
  intros Hn. unfold image_pages. rewrite ALIGN_UP_page by lia. change PAGE_SIZE with 4096. rewrite Z.div_mul by lia.
  Z.to_euclidean_division_equations; lia.
Qed.

Lemma pe_run_ran (s : @machine_state P K term_state) file h :
  good_image file = true -> has_room (pages s) file = true ->
  pa_ok (pages s) -> pages_mapped (memory s) (pages s) -> con s = term_console -> shows (screen s) h ->
  returns (pe_run (fun _ t => mret t) exec s (Some file)) (fun '(_, s') => ran s s').
Proof.
  intros Hg Hroom Hok Hmap Hcon Hs. unfold good_image, has_room in *.
  destruct (done (pe_probe (Some file))) as [[ok info]|] eqn:Ep; [|discriminate]. apply done_Some in Ep.
  destruct ok; cycle 1.
  { unfold pe_run. rewrite Ep, bind_Done. apply returns_Done. split; [reflexivity|auto|exists h; auto]. }
  destruct (done (e_lfanew file)) as [lf|] eqn:Elf; [|discriminate]. apply done_Some in Elf.
  destruct (done (coff_opt_size file lf)) as [osz|] eqn:Eo; [|discriminate]. apply done_Some in Eo.
  repeat (apply andb_true_iff in Hg as [Hg ?]). apply unrelocated_none in Hg.
  match goal with H : bool_decide _ = true |- _ => apply bool_decide_eq_true in H; destruct H as [l El] end.
  destruct (sections_in_table _ _ _ _ El) as [Hl Htab].
  destruct (image_pages_room (size_of_image info) ltac:(lia)) as [Hc Hfit].
  destruct (pa_alloc_pages_post (pages s) (image_pages (size_of_image info)) Hok ltac:(lia)) as ([p ps'] & Ea & Hok' & Hcase).
  rewrite Ea in Hroom. cbn [done fst snd] in *. destruct Hcase as [[-> _]|(q & Hq & _ & -> & Htaken)]; [discriminate|].
  set (s1 := Pe.mk_machine ps' (kheap s) (memory s) (g_exit_code s) (g_exited s) (con s) (screen s)).
  assert (Halloc : image_alloc s (size_of_image info) = Done (q * PAGE_SIZE, s1)).
  { unfold image_alloc. unfold image_pages in Ea. rewrite Ea, bind_Done. destruct (Z.eqb_spec (q * PAGE_SIZE) 0); [unfold PAGE_SIZE in *; lia|reflexivity]. }
  pose proof (run_mapped _ _ _ _ _ Hmap Htaken) as Hmq.
  destruct (pe_run_returns (fun _ t => mret t) exec s s1 file info lf osz l (q * PAGE_SIZE) string_arg (screen_of (screen s)))
    as (m & Him & Hrun); try assumption; try lia.
  - intros a Ha. apply Hmq. lia.
  - rewrite Hcon. apply term_console_serves.
  - exists h. auto.
  - intros m. pose proof (Hexec m (q * PAGE_SIZE + entry_rva info)) as Hp. destruct (exec m _) as [[m' calls] rc]. exact (proj2 Hp).
  - eapply returns_mono; [exact Hrun|]. intros [r s'] Hx. pose proof (Hexec m (q * PAGE_SIZE + entry_rva info)) as Hp.
    destruct (exec m _) as [[m' calls] rc]. destruct Hx as (_ & Hi & Em & Eg & Hk & _). destruct Hp as [Hpm _].
    split; [exact Hk| |exact Hi]. rewrite Em, Eg. cbn [pages s1]. split; [exact Hok'|]. intros z Hz. apply Hpm.
    destruct Him as (Hout & Himap & _). intros a Ha.
    destruct (decide (q * PAGE_SIZE <= a < q * PAGE_SIZE + size_of_image info)) as [Hin|Hno]; [exact (Himap a Hin)|].
    rewrite (Hout a Hno). exact (pages_mapped_taken _ _ _ _ _ Hmap Htaken z Hz a Ha).
Qed.
End Running.

(** ** The commands *)
Section Commands.
Context {P : Type} `{PL : PageAllocLaws P} {K : Type} `{BL : BlockAllocLaws K} {D : Type} `{IO : PortIO D}.
Context (exec : processor) (Hexec : polite exec) (info : sysinfo).
Implicit Types s : @sys P K D.

(** The path a line runs, if it runs one. *)
Definition program_of (line : list Z) : option (list Z) :=
  match next_arg line with
  | (Some cmd, p) =>
      if named cmd "run" || named cmd "exec" || named cmd "./" then Some (default [] (fst (next_arg p)))
      else if ends_with_exe cmd then Some cmd else None
  | (None, _) => None
  end.

(** There is no such file, or it is one the loader can take and there is room for it. *)
Definition program_ok s (path : list Z) : bool :=
  bool_decide (path = []) ||
  match done (find_program s path) with
  | Some (Some i, _) =>
      match nodes (fs s) !! i with
      | Some n =>
          negb (type n =? VFS_FILE) || ((data n =? 0) || (size n =? 0)) ||
          (good_image (file_bytes (fs s) i) && has_room (pg s) (file_bytes (fs s) i))
      | None => false
      end
  | Some (None, _) => true
  | None => false
  end.

(** Another screen with the same input line, memory and free pages; the files stay. *)
Record executed s s' : Prop := {
  ex_fs : fs s' = fs s;
  ex_screen : screen_of (term s) (term s');
  ex_pages : pa_ok (pg s') /\ pages_mapped (ram s') (pg s');
  ex_ports : ports s' = ports s
}.

Definition pages_there s : Prop := pa_ok (pg s) /\ pages_mapped (ram s) (pg s).

Lemma reprinted_executed s s' : pages_there s -> reprinted s s' -> executed s s'.
Proof. intros Hp (t & h & -> & Hs & Hi). split; [reflexivity|exists h; auto|exact Hp|reflexivity]. Qed.

Lemma executed_reprinted s s1 s2 : executed s s1 -> reprinted s1 s2 -> executed s s2.
Proof.
  intros [H1 H2 H3 H4] (t & h & -> & Hs & Hi & Hn). destruct H2 as (h1 & _ & Hi1 & Hn1).
  split; [exact H1|exists h; cbn [term set_term]; split; [exact Hs|split; congruence]|exact H3|exact H4].
Qed.

Lemma executed_self s s1 : executed s s1 -> reprinted s1 s1.
Proof. intros [_ (h & Hs & _) _ _]. exists (term s1), h. split; [destruct s1; reflexivity|auto]. Qed.

Lemma executed_put s s1 x (k : sys -> outcome sys) :
  str_ok x -> executed s s1 -> (forall s2, executed s s2 -> returns (k s2) (executed s)) ->
  returns (s2 ← put s1 x; k s2) (executed s).
Proof.
  intros Hx H1 Hk. destruct (ex_screen _ _ H1) as (h & Hs & _). apply returns_bind.
  eapply returns_mono; [exact (put_returns s1 h x Hs Hx)|]. intros s2 Hp. apply Hk.
  exact (executed_reprinted s s1 s2 H1 (printed_reprinted _ _ _ Hp)).
Qed.

Lemma executed_say s s1 x : str_ok x -> executed s s1 -> returns (say s1 x) (executed s).
Proof.
  intros Hx H1. eapply returns_mono; [exact (prints_say s1 x Hx s1 (executed_self _ _ H1))|].
  intros s2. exact (executed_reprinted s s1 s2 H1).
Qed.

Lemma executed_say_then s s1 x (k : sys -> outcome sys) :
  str_ok x -> executed s s1 -> (forall s2, executed s s2 -> returns (k s2) (executed s)) ->
  returns (s2 ← say s1 x; k s2) (executed s).
Proof. intros Hx H1 Hk. apply returns_bind. eapply returns_mono; [exact (executed_say s s1 x Hx H1)|exact Hk]. Qed.

Lemma itoa_str_ok v : str_ok (itoa_str v 10).
Proof.
  unfold itoa_str. destruct (_ && _); [constructor; [discriminate|]|]; apply utoa_str_ok.
Qed.

(** The image is run by the loader between two lines. *)
Lemma launch_executed s s1 path file :
  executed s s1 -> pg s1 = pg s -> str_ok path -> good_image file = true -> has_room (pg s) file = true ->
  returns (launch exec s1 path file) (executed s).
Proof.
  intros H1 Epg Hpath Hg Hroom. unfold launch.
  destruct (ex_screen _ _ H1) as (h & Hs & _).
  destruct (put_returns s1 h (chars "run: launching ") Hs ltac:(printable_text)) as (s2 & -> & Hp2). rewrite bind_Done.
  pose proof (executed_reprinted s s1 s2 H1 (printed_reprinted _ _ _ Hp2)) as H2.
  assert (Eg2 : pg s2 = pg s) by (destruct Hp2 as (t & -> & _); exact Epg).
  destruct (ex_screen _ _ H2) as (h2 & Hs2 & _).
  destruct (say_returns s2 h2 path Hs2 Hpath) as (s3 & -> & Hp3). rewrite bind_Done.
  pose proof (executed_reprinted s s2 s3 H2 (printed_reprinted _ _ _ Hp3)) as H3.
  assert (Eg3 : pg s3 = pg s) by (destruct Hp3 as (t & -> & _); exact Eg2).
  destruct (ex_screen _ _ H3) as (h3 & Hs3 & Hin3). destruct (ex_pages _ _ H3) as [Hok Hmap].
  set (s4 := set_hooks _ s3). apply returns_bind.
  eapply returns_mono; [apply (pe_run_ran exec Hexec (machine_of s4) file h3 Hg); cbn; try assumption|].
  { rewrite Eg3. exact Hroom. }
  { reflexivity. }
  intros [rc m] [Hheap Hpages Hscr]. cbv zeta.
  assert (H5 : executed s (of_machine m s4)).
  { split; [|destruct Hscr as (h5 & Hs5 & Hi5 & Hn5); exists h5; cbn; split; [exact Hs5|]; cbn in Hi5, Hn5; destruct Hin3; split; congruence
    |exact Hpages|exact (ex_ports _ _ H3)].
    cbn [fs of_machine]. rewrite Hheap. cbn [machine_of kheap s4 fs set_hooks]. rewrite <- (ex_fs _ _ H3). destruct (fs s3). reflexivity. }
  apply executed_put; [printable_text|exact H5|]. intros s6 H6. apply executed_say; [apply itoa_str_ok|exact H6].
Qed.

(** The bytes of a file that has some. *)
Lemma file_data_returns s i n :
  store (fs s) -> (i < count (fs s))%nat -> nodes (fs s) !! i = Some n -> data n <> 0 ->
  file_data s n = Done (file_bytes (fs s) i).
Proof.
  intros Hst Hi En Hd. destruct (st_data _ Hst i n Hi En Hd) as (_ & b & Eb & Hb). unfold file_data, file_bytes.
  rewrite En, Eb, (proj2 (Z.eqb_neq _ _) Hd). destruct (Z.ltb_spec (Z.of_nat (length b)) (size n)); [lia|reflexivity].
Qed.

Lemma find_program_returns s path :
  living (fs s) -> typed_path path ->
  returns (find_program s path) (fun '(f, path') =>
    str_ok path' /\ match f with Some i => (i < count (fs s))%nat | None => True end).
Proof.
  intros Hv [Hp Hl]. destruct (desk_cwd _ (lv_dirs _ Hv)) as [Hc Hcl]. destruct (rd_tree _ (living_readable _ Hv)) as [kids Ht].
  unfold find_program. apply returns_bind.
  eapply returns_mono; [apply (vfs_resolve_returns (fs s) kids path Ht Hc Hp); lia|]. intros [i|] Hj; [apply returns_Done; auto|]. clear Hj.
  destruct (bool_decide _); [apply returns_Done; auto|].
  assert (Hfull : str_ok (chars "/bin/" ++ path)) by (apply Forall_app; split; [printable_text|exact Hp]).
  assert (Hlen : (length (chars "/bin/" ++ path) <= 132)%nat) by (rewrite length_app; change (length (chars "/bin/")) with 5%nat; lia).
  rewrite buf_str_ok, bind_Done by (unfold VFS_PATH_MAX; lia). apply returns_bind.
  eapply returns_mono; [apply (vfs_resolve_returns (fs s) kids _ Ht Hc Hfull); lia|]. intros [i|] Hj; apply returns_Done; auto.
Qed.

Lemma run_executed s s1 path :
  living (fs s) -> executed s s1 -> pg s1 = pg s -> typed_path (default [] path) -> program_ok s (default [] path) = true ->
  returns (cmd_run exec s1 path) (executed s).
Proof.
  intros Hv H1 Epg Hp Hok. unfold cmd_run, program_ok in *. destruct (bool_decide (default [] path = [])).
  { eapply returns_mono; [apply (prints_all s1); [repeat constructor; printable_text|exact (executed_self _ _ H1)]|].
    intros s2. exact (executed_reprinted s s1 s2 H1). }
  cbn [orb] in Hok. pose proof (ex_fs _ _ H1) as Ef.
  assert (Efind : find_program s1 (default [] path) = find_program s (default [] path)) by (unfold find_program; rewrite Ef; reflexivity).
  destruct (find_program_returns s _ Hv Hp) as ([f q] & E & Hq & Hf). rewrite Efind, E, bind_Done. rewrite E in Hok. cbn [done] in Hok.
  destruct f as [i|]; [|apply executed_say; [printable_text|exact H1]].
  destruct (rd_tree _ (living_readable _ Hv)) as [kids Ht]. destruct (tree_node _ _ _ Ht Hf) as [n En]. rewrite En in Hok.
  rewrite Ef, (node_at_Done _ _ _ En), bind_Done.
  destruct (negb (type n =? VFS_FILE)); [apply executed_say; [printable_text|exact H1]|].
  destruct (Z.eqb_spec (data n) 0) as [Hd|Hd]; [apply executed_say; [printable_text|exact H1]|].
  destruct (Z.eqb_spec (size n) 0) as [Hsz|Hsz]; [apply executed_say; [printable_text|exact H1]|]. cbn [orb] in Hok |- *.
  assert (Efile : file_data s1 n = Done (file_bytes (fs s) i))
    by (rewrite <- (file_data_returns s i n (lv_store _ Hv) Hf En Hd); unfold file_data; rewrite Ef; reflexivity).
  rewrite Efile, bind_Done. apply andb_true_iff in Hok as [Hg Hroom].
  destruct (done (pe_probe (Some (file_bytes (fs s) i)))) as [[ok inf]|] eqn:Ep; [|unfold good_image in Hg; rewrite Ep in Hg; discriminate].
  apply done_Some in Ep. rewrite Ep, bind_Done. destruct ok; cbn [negb].
  - apply launch_executed; assumption.
  - apply executed_put; [printable_text|exact H1|]. intros s2 H2. apply executed_put; [|exact H2|].
    + pose proof (probe_message _ _ Ep) as Hm. cbn [snd] in Hm. destruct (error inf); [exact Hm|printable_text].
    + intros s3 H3. apply executed_say_then; [printable_text|exact H3|]. intros s4 H4. apply executed_say; [printable_text|exact H4].
Qed.

(** *** Lines *)
Lemma exe_not_named cmd x : str_ok cmd -> ends_with_exe cmd = true -> ends_with_exe (chars x) = false -> str_ok (chars x) ->
  named cmd x = false.
Proof.
  intros Hc He Hx Hok. destruct (named cmd x) eqn:E; [|reflexivity]. apply (named_eq cmd x Hc) in E; [|exact Hok]. congruence.
Qed.

Ltac not_named Hc He :=
  repeat match goal with
    | |- context [named ?cmd ?x] =>
        rewrite (exe_not_named cmd x Hc He) by first [reflexivity|vm_compute; repeat constructor; discriminate]
    end.

Lemma run_command_program s line path :
  str_ok line -> program_of line = Some path ->
  exists o, default [] o = path /\ run_command exec info s line = cmd_run exec s o.
Proof.
  intros Hl Hp. unfold program_of in Hp. pose proof (next_arg_parts line Hl) as Ha. destruct (next_arg line) as [[cmd|] p] eqn:En; [|discriminate].
  destruct Ha as [Hc _]. cbn [from_option id] in Hc. unfold run_command. rewrite En.
  destruct (named cmd "run" || named cmd "exec" || named cmd "./") eqn:Er.
  - injection Hp as <-. exists (fst (next_arg p)). split; [reflexivity|].
    apply orb_true_iff in Er as [Er|Er]; [apply orb_true_iff in Er as [Er|Er]|]; this_command Hc Er; reflexivity.
  - destruct (ends_with_exe cmd) eqn:He; [|discriminate]. injection Hp as <-. exists (Some cmd). split; [reflexivity|].
    not_named Hc He. reflexivity.
Qed.

(** A line that fits: it runs a program the loader can take, or none and is [tame]. *)
Definition harmless s (line : list Z) : bool :=
  match program_of line with
  | Some path => program_ok s path
  | None => tame (fs s) line
  end.

Lemma program_of_typed line path :
  str_ok line -> (length line <= 127)%nat -> program_of line = Some path -> typed_path path.
Proof.
  intros Hl Hn Hp. unfold program_of in Hp. destruct (next_arg_typed line Hl Hn) as (Ha & Hr & Hrl).
  destruct (next_arg line) as [[cmd|] p]; [|discriminate]. cbn [fst snd] in *.
  destruct (_ || _); [injection Hp as <-; apply (next_arg_typed p Hr Hrl)|].
  destruct (ends_with_exe cmd); [|discriminate]. injection Hp as <-. exact Ha.
Qed.

Lemma line_serves s h line :
  living (fs s) -> shows (term s) h -> pages_there s -> str_ok line -> (length line <= 127)%nat -> harmless s line = true ->
  returns (run_command exec info s line) (fun s' =>
    living (fs s') /\ screen_of (term s) (term s') /\ pages_there s' /\ ports s' = ports s /\
    (is_Some (program_of line) -> fs s' = fs s)).
Proof.
  intros Hv Hs Hpg Hl Hn Hh. unfold harmless in Hh. destruct (program_of line) as [path|] eqn:Ep.
  - destruct (run_command_program s line path Hl Ep) as (o & Eo & ->).
    assert (Hself : executed s s) by (apply reprinted_executed; [exact Hpg|exists (term s), h; split; [destruct s; reflexivity|auto]]).
    eapply returns_mono; [apply (run_executed s s o Hv Hself eq_refl); rewrite Eo; [exact (program_of_typed _ _ Hl Hn Ep)|exact Hh]|].
    intros s' [E1 E2 E3 E4]. rewrite E1. auto.
  - eapply returns_mono; [exact (tame_serves exec info s h line Hv Hs Hl Hn Hh)|].
    intros s' (v & t & h' & -> & Hv' & Hs' & Hi & Hc). split; [exact Hv'|]. split; [exists h'; auto|]. split; [exact Hpg|].
    split; [reflexivity|]. intros [x Hx]. discriminate.
Qed.
End Commands.

(** C31: A line of up to 127 characters is served: one that runs no program and whose names
    fit ([tame]), and one that runs a file the loader rejects or can take ([program_ok]), on
    a processor that keeps the memory that was there and prints strings ([polite]).
    [run_command] returns, the screen and the file system stay well formed, and the free
    pages stay pages in memory.  Only a line with a command that writes changes files, and a
    program is none; only a program changes the memory and the free pages. *)
Theorem line_served {P} {PA : PageAlloc P} {PL : PageAllocLaws P} {K} `{BL : BlockAllocLaws K} {D} `{IO : PortIO D}
    exec info (s : @sys P K D) h line :
  polite exec -> living (fs s) -> shows (term s) h -> pages_there s ->
  str_ok line -> (length line <= 127)%nat -> harmless s line = true ->
  returns (run_command exec info s line) (fun s' =>
    living (fs s') /\ (exists h', shows (term s') h') /\ pages_there s' /\ ports s' = ports s /\
    (quiet line = true \/ is_Some (program_of line) -> fs s' = fs s) /\
    (program_of line = None -> ram s' = ram s /\ pg s' = pg s)).
Proof.
  intros Hx Hv Hs Hpg Hl Hn Hh. pose proof (line_serves exec Hx info s h line Hv Hs Hpg Hl Hn Hh) as Hall.
  assert (Hother : program_of line = None -> returns (run_command exec info s line) (fun s' =>
    (quiet line = true -> fs s' = fs s) /\ ram s' = ram s /\ pg s' = pg s)).
  { intros Ep. unfold harmless in Hh. rewrite Ep in Hh. destruct (quiet line) eqn:Eq.
    - eapply returns_mono; [apply (quiet_prints exec info s line (living_readable _ Hv) Hl Hn Eq)|].
      + exists (term s), h. split; [destruct s; reflexivity|]. auto.
      + intros s' (t & h' & -> & _). auto.
    - eapply returns_mono; [exact (tame_serves exec info s h line Hv Hs Hl Hn Hh)|].
      intros s' (v & t & h' & -> & _). split; [discriminate|auto]. }
  destruct Hall as (s' & E & Hv' & (h' & Hs' & _) & Hpg' & Hpo & Hfs). exists s'. split; [exact E|].
  split; [exact Hv'|]. split; [exists h'; exact Hs'|]. split; [exact Hpg'|]. split; [exact Hpo|].
  destruct (program_of line) as [path|] eqn:Ep.
  - split; [intros _; apply Hfs; eauto|discriminate].
  - destruct (returns_eq _ _ _ (Hother eq_refl) E) as [Hq Hm]. split; [|intros _; exact Hm].
    intros [H1|[x H1]]; [exact (Hq H1)|discriminate].
Qed.

(** ** Witness: the sample in the place of a text, run from the first free page *)
Definition exe_vfs : @vfs numbered :=
  match vfs_write demo_vfs (Some 1%nat) Services.PeSeed.hello_exe Services.PeSeed.hello_exe_len with Done (_, v) => v | _ => demo_vfs end.

Lemma exe_living : living exe_vfs.
Proof.
  unfold exe_vfs. destruct (vfs_write_living demo_vfs 1 Services.PeSeed.hello_exe Services.PeSeed.hello_exe_len demo_living)
    as ([r v] & -> & Hv & _); [apply Nat.ltb_lt; reflexivity|rewrite Services.PeSeed.hello_exe_length; unfold Services.PeSeed.hello_exe_len; lia|
     unfold Services.PeSeed.hello_exe_len; lia|exact Hv].
Qed.

(** A program that greets and exits. *)
Definition greet : processor := fun m _ => (m, [Writeln (Some (chars "Hello")); Exit 3; Writeln None], 0).

Lemma greet_polite : polite greet.
Proof.
  intros m e. split; [auto|]. repeat constructor; unfold call_ok, string_arg; vm_compute; repeat constructor; discriminate.
Qed.

(** The small system with other files and memory. *)
Definition system_with (v : @vfs numbered) (m : mem) : @sys Z numbered port_log :=
  mk_sys zero_term v 2 m 0 false (mk_console None None) (mk_ports []).
Definition large_memory : mem := mem_of_list 0 (replicate (Z.to_nat (2 ^ 30)) 0).

Lemma large_pages v : pages_there (system_with v large_memory).
Proof.
  split; [cbn; lia|]. intros p Hp. cbn in Hp. apply mem_of_list_mapped; [unfold PAGE_SIZE; lia|].
  rewrite length_replicate, Z2Nat.id by lia. unfold PAGE_SIZE. lia.
Qed.

Lemma sample_harmless m : harmless (system_with exe_vfs m) (chars "run /motd") = true.
Proof. vm_compute. reflexivity. Qed.

Lemma line_served_witness :
  program_of (chars "run /motd") = Some (chars "/motd") /\ file_bytes exe_vfs 1 = Services.PeSeed.hello_exe /\
  returns (run_command greet small_info (system_with exe_vfs large_memory) (chars "run /motd")) (fun s' =>
    fs s' = exe_vfs /\ pages_there s' /\ exists h', shows (term s') h').
Proof.
  split; [vm_compute; reflexivity|]. split; [vm_compute; reflexivity|].
  eapply returns_mono; [apply (line_served greet small_info (system_with exe_vfs large_memory) [[]] (chars "run /motd") greet_polite)|].
  - exact exe_living.
  - exact zero_term_shows.
  - exact (large_pages exe_vfs).
  - vm_compute. repeat constructor; discriminate.
  - apply Nat.leb_le. vm_compute. reflexivity.
  - exact (sample_harmless large_memory).
  - intros s' (_ & Hs & Hp & _ & Hf & _). split; [apply Hf; right; eexists; vm_compute; reflexivity|]. split; [exact Hp|exact Hs].
Defined.
