(* ===== verification/Apps.v ===== *)
(** * The other applications: [applications/calculator], [settings], [filemanager],
      [taskmanager]

    A window's callbacks are numbers; what they stand for is given by [call_draw] and
    [call_key], the dispatch of the window manager's calls.  What the applications show of
    other components is an argument.  A string that does not fit the local buffer the code
    builds it in, or is read where nothing was written, is a [Fault]. *)
From Stdlib Require Import ZArith Lia Bool String.
From stdpp Require Import base tactics option list numbers gmap.
From S2P Require Import Prelude CInt CString PageAlloc BlockAlloc Io Pmm Mem Adaptive Timer Cpu Framebuffer Wm Vfs Pe Terminal Shell.
From S2P Require Heap Sched.
#[local] Close Scope string_scope.
#[local] Open Scope Z_scope.

(** The addresses of the callbacks and of the states: distinct and not NULL. *)
Definition TERM_DRAW : Z := 1.
Definition CALC_DRAW : Z := 2.
Definition SETTINGS_DRAW : Z := 3.
Definition FM_DRAW : Z := 4.
Definition TM_DRAW : Z := 5.
Definition TERM_KEY : Z := 6.
Definition G_TERM : Z := 7.
Definition G_FM : Z := 8.

(** What the task manager reports. *)
Record taskinfo := mk_taskinfo { i_sys : sysinfo; i_heap : Heap.heap_stats; i_task : option Sched.task }.

(** ** Drawing *)
Section Draw.
Context (f : fb).

(** Strings at offsets from the corner of a window: offset, text, colour. *)
Fixpoint draw_texts (m : mem) (v : window) (l : list (Z * Z * list Z * Z)) : outcome mem :=
  match l with
  | [] => mret m
  | (dx, dy, s, c) :: l' =>
      m ← fb_draw_string f m (i32 (wx v + dx)) (i32 (wy v + dy)) s c TRANSPARENT; draw_texts m v l'
  end.

Definition calc_draw (m : mem) (v : window) : outcome mem :=
  draw_texts m v
    [(16, 48, chars "H3OS Calculator", 0xFFE8F4F8); (16, 68, chars "0", 0xFF2EC4B6);
     (16, 96, chars "[ 7 ][ 8 ][ 9 ][ / ]", 0xFF7FA3AD); (16, 112, chars "[ 4 ][ 5 ][ 6 ][ * ]", 0xFF7FA3AD);
     (16, 128, chars "[ 1 ][ 2 ][ 3 ][ - ]", 0xFF7FA3AD); (16, 144, chars "[ 0 ][ . ][ = ][ + ]", 0xFF7FA3AD)].

Definition settings_draw (perf : perf_settings) (m : mem) (v : window) : outcome mem :=
  draw_texts m v
    [(16, 48, chars "H3OS Settings", 0xFF2EC4B6);
     (16, 72, chars "Appearance  |  System  |  Network", 0xFFE8F4F8);
     (16, 100, chars "Performance profile:", 0xFF7FA3AD);
     (16, 116, adaptive_profile_name perf, 0xFFE8F4F8);
     (16, 148, chars "Version " ++ H3OS_VERSION_STRING ++ chars " (" ++ H3OS_CODENAME ++ chars ")", 0xFF7FA3AD)].

(** [while (strlen(line) < k) strcat(line, " ")] *)
Definition pad_to (k : nat) (s : list Z) : list Z := s ++ replicate (k - length s) 32.

(** [strncpy(line, name, 20)] leaves a name of 20 characters or more without a NUL, and
    what follows it in [line] was never written. *)
Definition fm_line (n : node) : outcome (list Z) :=
  let s := cstr (name n) in
  if (20 <=? length s)%nat then Fault
  else
    let s := pad_to 22 s ++ (if type n =? VFS_DIR then chars "dir    " else chars "file   ") in
    mret (if type n =? VFS_FILE then s ++ utoa_str (size n) 10 else s).

Section Files.
Context {K : Type} `{BA : BlockAlloc K}.

(** The first 16 children. *)
Definition fm_rows (fs : @vfs K) (m : mem) (x y : Z) (first : option nat) : outcome mem :=
  loop 17 (fun '(c, row, m) =>
    match c with
    | None => mret (inr m)
    | Some i =>
        if 16 <=? row then mret (inr m)
        else
          n ← node_at fs i;
          l ← fm_line n;
          m ← fb_draw_string f m x (i32 (y + row * 12)) l 0xFFE8F4F8 TRANSPARENT;
          mret (inl (sibling n, i32 (row + 1), m))
    end) (first, 0, m).

(** [path] is the array [g_fm.path]. *)
Definition fm_draw (fs : @vfs K) (path : list Z) (m : mem) (v : window) : outcome mem :=
  let x := i32 (wx v + 12) in
  let y := i32 (wy v + 40) in
  m ← fb_draw_string f m x y (chars "Path:") 0xFF7FA3AD TRANSPARENT;
  p ← arr_str path;
  m ← fb_draw_string f m (i32 (x + 48)) y p 0xFF2EC4B6 TRANSPARENT;
  let y := i32 (y + 20) in
  m ← fb_draw_string f m x y (chars "NAME                  TYPE   SIZE") 0xFF7FA3AD TRANSPARENT;
  let y := i32 (y + 14) in
  dir ← vfs_resolve fs p;
  match dir with
  | None => fb_draw_string f m x y (chars "(invalid directory)") 0xFFE85D4C TRANSPARENT
  | Some d =>
      n ← node_at fs d;
      if negb (type n =? VFS_DIR) then fb_draw_string f m x y (chars "(invalid directory)") 0xFFE85D4C TRANSPARENT
      else
        m ← fm_rows fs m x y (child n);
        match child n with
        | None => fb_draw_string f m x y (chars "(empty)") 0xFF7FA3AD TRANSPARENT
        | Some _ => mret m
        end
  end.
End Files.

Definition state_name (s : Sched.task_state) : list Z :=
  match s with
  | Sched.TASK_READY => chars "ready"
  | Sched.TASK_RUNNING => chars "run"
  | Sched.TASK_BLOCKED => chars "block"
  | Sched.TASK_DEAD => chars "dead"
  end.

Definition task_line (t : Sched.task) : outcome (list Z) :=
  nm ← arr_str (Sched.name t);
  buf_str 96
    (pad_to 22 (pad_to 13 (pad_to 5 (utoa_str (Sched.id t) 10) ++ state_name (Sched.state t)) ++
                utoa_str (Sched.ticks t) 10) ++ nm).

Definition tm_draw (info : taskinfo) (m : mem) (v : window) : outcome mem :=
  let x := i32 (wx v + 12) in
  let y := i32 (wy v + 40) in
  m ← fb_draw_string f m x y (chars "H3OS Task Manager") 0xFF2EC4B6 TRANSPARENT;
  let y := i32 (y + 16) in
  b ← buf_str 96 (chars "Profile: " ++ adaptive_profile_name (i_perf (i_sys info)));
  m ← fb_draw_string f m x y b 0xFFE8F4F8 TRANSPARENT;
  let y := i32 (y + 12) in
  b ← buf_str 96 (chars "Uptime ms: " ++ utoa_str (timer_uptime_ms (i_timer (i_sys info))) 10);
  m ← fb_draw_string f m x y b 0xFF7FA3AD TRANSPARENT;
  let y := i32 (y + 12) in
  b ← buf_str 96 (chars "RAM free MiB: " ++
                  utoa_str (u64 (st_free_pages (i_mem (i_sys info)) * PAGE_SIZE) / (1024 * 1024)) 10);
  m ← fb_draw_string f m x y b 0xFFE8F4F8 TRANSPARENT;
  let y := i32 (y + 12) in
  b ← buf_str 96 (chars "Heap used: " ++ utoa_str (Heap.hs_used (i_heap info)) 10 ++ chars " / " ++
                  utoa_str (Heap.hs_total (i_heap info)) 10);
  m ← fb_draw_string f m x y b 0xFFE8F4F8 TRANSPARENT;
  let y := i32 (y + 18) in
  m ← fb_draw_string f m x y (chars "PID  STATE   TICKS    NAME") 0xFF7FA3AD TRANSPARENT;
  let y := i32 (y + 14) in
  '(m, row) ← (match i_task info with
               | None => mret (m, 0)
               | Some t =>
                   l ← task_line t;
                   m ← fb_draw_string f m x (i32 (y + 0 * 12)) l 0xFFE8F4F8 TRANSPARENT; mret (m, 1)
               end);
  fb_draw_string f m x (i32 (y + row * 12 + 8)) (chars "Services: desktop, wm, terminal") 0xFF7FA3AD TRANSPARENT.
End Draw.

(** ** Opening *)
Section Open.
Context {P : Type} `{PA : PageAlloc P} {K : Type} `{BA : BlockAlloc K} {D : Type} `{IO : PortIO D}.

(** The windows, the terminal with what its commands act on, and [g_fm.path]. *)
Record ui := mk_ui { wmgr : wm; shell : @sys P K D; fm_path : list Z }.

Definition set_wmgr (w : wm) (u : ui) : ui := mk_ui w (shell u) (fm_path u).
Definition set_shell (s : @sys P K D) (u : ui) : ui := mk_ui (wmgr u) s (fm_path u).

(** [w->draw] and [w->user] assigned. *)
Definition with_draw (drawf userp : Z) (v : window) : window :=
  mk_window (active v) (title v) (wx v) (wy v) (ww v) (wh v) (restore_x v) (restore_y v) (restore_w v) (restore_h v)
    (bg v) (accent v) (wstate v) (always_on_top v) (is_focused v) drawf (on_key v) userp.

Context (f : fb) (perf : perf_settings).

Definition open_window (ttl : string) (x y w h drawf userp : Z) (u : ui) : option nat * ui :=
  match wm_create perf (wmgr u) (Some (chars ttl)) x y w h with
  | (None, s) => (None, set_wmgr s u)
  | (Some i, s) => (Some i, set_wmgr (upd_win i (with_draw drawf userp) s) u)
  end.

Definition calculator_open : ui -> option nat * ui := open_window "Calculator" 100 120 280 220 CALC_DRAW 0.
Definition settings_open : ui -> option nat * ui := open_window "Settings" 160 100 420 260 SETTINGS_DRAW 0.
Definition taskmanager_open : ui -> option nat * ui := open_window "Task Manager" 200 90 420 280 TM_DRAW 0.
Definition filemanager_open (u : ui) : option nat * ui :=
  open_window "File Manager" 80 70 480 320 FM_DRAW G_FM
    (mk_ui (wmgr u) (shell u) (strncpy_arr (fm_path u) (vfs_cwd (fs (shell u))) (Z.to_nat (VFS_PATH_MAX - 1)))).
Definition terminal_open_ui (u : ui) : outcome (option nat * ui) :=
  '(r, w, s) ← terminal_open TERM_DRAW TERM_KEY G_TERM f perf (wmgr u) (shell u);
  mret (r, mk_ui w s (fm_path u)).

(** ** The callbacks of the window manager *)
Definition call_draw (info : taskinfo) (u : ui) (d : Z) (i : nat) (s : wm) (m : mem) : outcome mem :=
  if d =? TERM_DRAW then term_draw f m (win s i) (shell u)
  else if d =? CALC_DRAW then calc_draw f m (win s i)
  else if d =? SETTINGS_DRAW then settings_draw f perf m (win s i)
  else if d =? FM_DRAW then fm_draw f (fs (shell u)) (fm_path u) m (win s i)
  else if d =? TM_DRAW then tm_draw f info m (win s i)
  else Fault.
(** ** Opening keeps the windows coherent *)
Lemma open_window_coherent ttl x y w h drawf userp u :
  coherent (wmgr u) -> coherent (wmgr (snd (open_window ttl x y w h drawf userp u))).
Proof.
  intros Hco. unfold open_window. pose proof (create_coherent perf (wmgr u) (Some (chars ttl)) x y w h Hco) as Hc.
  destruct (wm_create _ _ _ _ _ _ _) as [[i|] s]; cbn [snd wmgr set_wmgr] in *; [|exact Hc].
  apply (coherent_upd _ _ _ Hc). repeat split.
Qed.

(** [u'] is [u] with a terminal opened, or with the screen cleared when no window is free. *)
Definition terminal_opened (u u' : ui) : Prop :=
  wmgr u' = terminal_wm TERM_DRAW TERM_KEY G_TERM f perf (wmgr u) /\ fm_path u' = fm_path u /\
  exists t h, shows t h /\ typed t [] /\
    shell u' = set_hooks (pe_set_console (Some pe_term_write) (Some pe_term_writeln)) (set_term t (shell u)).

Lemma terminal_open_ui_returns u : returns (terminal_open_ui u) (fun '(_, u') => terminal_opened u u').
Proof.
  apply returns_bind.
  eapply returns_mono; [exact (terminal_open_returns TERM_DRAW TERM_KEY G_TERM f perf (wmgr u) (shell u))|].
  intros [[r w] s] (Hw & Hs). apply returns_Done. split; [exact Hw|]. split; [reflexivity|exact Hs].
Qed.
End Open.
