(* ===== verification/Desktop.v ===== *)
(** * Desktop shell: [desktop/desktop.c]

    The static variables are a record; a step that powers the machine off does not return
    ([Halt]).  The windows and the applications are those of [Apps.v]. *)
From Stdlib Require Import ZArith Lia Bool String.
From stdpp Require Import base tactics option list numbers gmap.
From S2P Require Import Prelude CInt CString PageAlloc BlockAlloc Io Pmm Mem Adaptive Timer Mouse Cursor Framebuffer Wm Vfs VfsOps Pe Terminal Shell Apps.
From S2P Require Services.
#[local] Close Scope string_scope.
#[local] Open Scope Z_scope.

Definition COL_DESK_TOP : Z := 0xFF0A3D62.
Definition COL_DESK_BOT : Z := 0xFF061820.
Definition COL_TASKBAR : Z := 0xE0121A22.
Definition COL_START_BG : Z := 0xF0141E28.
Definition COL_ACCENT : Z := 0xFF2EC4B6.
Definition COL_TEXT : Z := 0xFFF3F7FA.
Definition COL_MUTED : Z := 0xFF8AA4B0.
Definition COL_HOVER : Z := 0xFF1C2E3A.
Definition COL_LIGHT_TOP : Z := 0xFF4AA3C7.
Definition COL_LIGHT_BOT : Z := 0xFFD6EAF2.
Definition COL_NOTIFY : Z := 0xF0162030.
Definition START_W : Z := 420.
Definition START_H : Z := 520.
Definition ACTION_W : Z := 360.

Inductive theme_mode := THEME_DARK | THEME_LIGHT.
#[export] Instance theme_mode_eq : EqDecision theme_mode.
Proof. solve_decision. Defined.

(** Applications by number, as the code converts indices to them. *)
Definition APP_TERMINAL : Z := 0.
Definition APP_FILES : Z := 1.
Definition APP_SETTINGS : Z := 2.
Definition APP_CALC : Z := 3.
Definition APP_TASKS : Z := 4.
Definition APP_COUNT : Z := 5.

Record desktop := mk_desktop {
  g_theme : theme_mode;
  g_accent : Z;
  g_start : bool; g_search : bool; g_action : bool; g_ctx : bool; g_snap_ui : bool;
  g_click_consumed : bool;
  g_ctx_x : Z; g_ctx_y : Z;
  g_frame : Z;
  g_search_q : list Z;       (* char[48] *)
  g_notify_count : Z;
  th : bool                  (* of the context menu *)
}.

(** [desktop_init]; the counters of notifications and the position of the menu stay. *)
Definition desktop_init (d : desktop) : outcome desktop :=
  q ← arr_set (g_search_q d) 0 0;
  mret (mk_desktop THEME_DARK COL_ACCENT false false false false false (g_click_consumed d)
          (g_ctx_x d) (g_ctx_y d) 0 q (g_notify_count d) (th d)).

(** Assignments to groups of fields. *)
Definition set_look (t : theme_mode) (a : Z) (d : desktop) : desktop :=
  mk_desktop t a (g_start d) (g_search d) (g_action d) (g_ctx d) (g_snap_ui d) (g_click_consumed d)
    (g_ctx_x d) (g_ctx_y d) (g_frame d) (g_search_q d) (g_notify_count d) (th d).
Definition set_popups (st se ac cx : bool) (d : desktop) : desktop :=
  mk_desktop (g_theme d) (g_accent d) st se ac cx (g_snap_ui d) (g_click_consumed d)
    (g_ctx_x d) (g_ctx_y d) (g_frame d) (g_search_q d) (g_notify_count d) (th d).
Definition set_snap_ui (b : bool) (d : desktop) : desktop :=
  mk_desktop (g_theme d) (g_accent d) (g_start d) (g_search d) (g_action d) (g_ctx d) b (g_click_consumed d)
    (g_ctx_x d) (g_ctx_y d) (g_frame d) (g_search_q d) (g_notify_count d) (th d).
Definition set_consumed (b : bool) (d : desktop) : desktop :=
  mk_desktop (g_theme d) (g_accent d) (g_start d) (g_search d) (g_action d) (g_ctx d) (g_snap_ui d) b
    (g_ctx_x d) (g_ctx_y d) (g_frame d) (g_search_q d) (g_notify_count d) (th d).
Definition set_menu_at (x y : Z) (d : desktop) : desktop :=
  mk_desktop (g_theme d) (g_accent d) (g_start d) (g_search d) (g_action d) (g_ctx d) (g_snap_ui d) (g_click_consumed d)
    x y (g_frame d) (g_search_q d) (g_notify_count d) (th d).
Definition set_frame (n : Z) (d : desktop) : desktop :=
  mk_desktop (g_theme d) (g_accent d) (g_start d) (g_search d) (g_action d) (g_ctx d) (g_snap_ui d) (g_click_consumed d)
    (g_ctx_x d) (g_ctx_y d) n (g_search_q d) (g_notify_count d) (th d).
Definition set_notify (n : Z) (d : desktop) : desktop :=
  mk_desktop (g_theme d) (g_accent d) (g_start d) (g_search d) (g_action d) (g_ctx d) (g_snap_ui d) (g_click_consumed d)
    (g_ctx_x d) (g_ctx_y d) (g_frame d) (g_search_q d) n (th d).
Definition set_th (b : bool) (d : desktop) : desktop :=
  mk_desktop (g_theme d) (g_accent d) (g_start d) (g_search d) (g_action d) (g_ctx d) (g_snap_ui d) (g_click_consumed d)
    (g_ctx_x d) (g_ctx_y d) (g_frame d) (g_search_q d) (g_notify_count d) b.

Definition desktop_set_theme (mode : theme_mode) (d : desktop) : desktop := set_look mode (g_accent d) d.
Definition desktop_set_accent (color : Z) (d : desktop) : desktop := set_look (g_theme d) color d.
Definition desktop_toggle_launcher (d : desktop) : desktop :=
  if negb (g_start d) then set_popups true false false false d
  else set_popups false (g_search d) (g_action d) (g_ctx d) d.
Definition desktop_launcher_open (d : desktop) : bool := g_start d.
Definition desktop_mouse_click_consumed (d : desktop) : bool := g_click_consumed d.
Definition desktop_toggle_snap (d : desktop) : desktop := set_snap_ui (negb (g_snap_ui d)) d.
Definition desktop_tick (perf : perf_settings) (d : desktop) : desktop :=
  if animations perf then set_frame (u32 (g_frame d + 1)) d else d.

(** ** Clicks *)
Section Clicks.
Context {P : Type} `{PA : PageAlloc P} {K : Type} `{BA : BlockAlloc K} {D : Type} `{IO : PortIO D}.
Context (f : fb) (perf : perf_settings).

(** The desktop and what it acts on. *)
Definition world : Type := desktop * @ui P K D.

(** A part of the click handler falls through, returns, or halts the machine. *)
Inductive flow := Next (w : world) | Return (w : world) | Halt (d : D).

Definition next_part (m : outcome flow) (k : world -> outcome flow) : outcome flow :=
  r ← m; match r with Next w => k w | _ => mret r end.

Definition on_desk (g : desktop -> desktop) (w : world) : world := (g (fst w), snd w).
Definition on_wm (g : wm -> wm) (w : world) : world := (fst w, set_wmgr (g (wmgr (snd w))) (snd w)).

(** [g_click_consumed = true; return;] *)
Definition consumed (w : world) : outcome flow := mret (Return (on_desk (set_consumed true) w)).

Definition desktop_launch (app : Z) (w : world) : outcome world :=
  let u := snd w in
  u ← (if app =? APP_TERMINAL then '(_, u) ← terminal_open_ui f perf u; mret u
       else if app =? APP_FILES then mret (snd (filemanager_open perf u))
       else if app =? APP_SETTINGS then mret (snd (settings_open perf u))
       else if app =? APP_CALC then mret (snd (calculator_open perf u))
       else if app =? APP_TASKS then mret (snd (taskmanager_open perf u))
       else mret u);
  mret (set_popups false false (g_action (fst w)) false (fst w), u).

Definition launch_and_consume (app : Z) (w : world) : outcome flow :=
  w ← desktop_launch app w; consumed w.

Definition power_off (w : world) : outcome flow :=
  mret (Halt (Services.Power.power_shutdown (ports (shell (snd w))))).

Definition tb_y : Z := i32 (i32 (height f) - TASKBAR_H).
Definition within (lo hi z : Z) : bool := (lo <=? z) && (z <? hi).

(** A loop over the buttons 0 to [n] - 1: the first one that is hit acts, and the handler
    returns. *)
Definition first_button (n : Z) (hit : Z -> bool) (act : Z -> world -> outcome flow) (w : world)
    : outcome (world + flow) :=
  for_ret 0 n (fun i w => if hit i then r ← act i w; mret (inr r) else mret (inl w)) w.

(** The buttons of the first six windows, from 520 on. *)
Definition task_button (i : Z) (w : world) : outcome flow :=
  consumed (on_wm (fun s => wm_restore_or_focus s (wm_get s i)) w).
Definition task_buttons (m : mouse_state) (w : world) : outcome flow :=
  r ← first_button (Z.min (wm_count (wmgr (snd w))) 6)
        (fun i => within (520 + 108 * i) (520 + 108 * i + 100) (x m)) task_button w;
  mret (match r with inl w => Next w | inr r => r end).

Definition taskbar_click (m : mouse_state) (w : world) : outcome flow :=
  let w := on_desk (fun d => set_popups (g_start d) (g_search d) (g_action d) false d) w in
  if within 8 48 (x m) then consumed (on_desk desktop_toggle_launcher w)
  else if within 56 236 (x m) then consumed (on_desk (fun d => set_popups false true false (g_ctx d) d) w)
  else if within 250 (250 + 5 * 52) (x m) then
    let idx := Z.quot (x m - 250) 52 in
    w ← (if (0 <=? idx) && (idx <? 5) then desktop_launch idx w else mret w); consumed w
  else
    next_part (task_buttons m w) (fun w =>
      let tray_x := i32 (i32 (width f) - 210) in
      if within (i32 (tray_x + 78)) (i32 (tray_x + 106)) (x m)
      then consumed (on_desk (fun d => set_popups false (g_search d) (negb (g_action d)) (g_ctx d) d) w)
      else if i32 (i32 (width f) - 90) <=? x m
      then consumed (on_desk (fun d => set_popups (g_start d) (g_search d) (negb (g_action d)) (g_ctx d) d) w)
      else consumed w).

(** The cell [i] of the grid of the start menu, whose corner is [sx], [sy]. *)
Definition grid_x (sx i : Z) : Z := i32 (sx + 24 + Z.rem i 4 * 94).
Definition grid_y (sy i : Z) : Z := i32 (sy + 70 + Z.quot i 4 * 90).

Definition grid_action (i : Z) (w : world) : outcome flow :=
  if i <? APP_COUNT then launch_and_consume i w
  else if (i =? 5) || (i =? 6) then
    '(_, u) ← terminal_open_ui f perf (snd w); consumed (fst w, u)
  else power_off w.

Definition start_click (m : mouse_state) (w : world) : outcome flow :=
  if negb (g_start (fst w)) then mret (Next w)
  else
    let sx := 8 in
    let sy := i32 (tb_y - START_H - 8) in
    if within sx (sx + START_W) (x m) && within sy (i32 (sy + START_H)) (y m) then
      r ← first_button 8 (fun i => within (grid_x sx i) (i32 (grid_x sx i + 84)) (x m) &&
                                   within (grid_y sy i) (i32 (grid_y sy i + 76)) (y m)) grid_action w;
      match r with
      | inr r => mret r
      | inl w =>
          if (sx + START_W - 68 <=? x m) && (i32 (sy + START_H - 42) <=? y m) then power_off w else consumed w
      end
    else mret (Next (on_desk (fun d => set_popups false (g_search d) (g_action d) (g_ctx d) d) w)).

Definition action_click (m : mouse_state) (w : world) : outcome flow :=
  if negb (g_action (fst w)) then mret (Next w)
  else
    let ax := i32 (i32 (width f) - ACTION_W - 12) in
    let ay := i32 (tb_y - 420 - 8) in
    if within ax (i32 (ax + ACTION_W)) (x m) && within ay (i32 (ay + 420)) (y m)
    then consumed (on_desk (set_notify 0) w)
    else mret (Next (on_desk (fun d => set_popups (g_start d) (g_search d) false (g_ctx d) d) w)).

Definition close_flyout : world -> world := on_desk (set_snap_ui false).
Definition layout_button (i : Z) (w : world) : outcome flow :=
  consumed (close_flyout (on_wm (fun s => wm_snap f s (wm_focused s) i) w)).

Definition snap_click (m : mouse_state) (w : world) : outcome flow :=
  if negb (g_snap_ui (fst w)) then mret (Next w)
  else
    let wd := 280 in
    let x0 := Z.quot (i32 (i32 (width f) - wd)) 2 in
    let y0 := 60 in
    if within x0 (i32 (x0 + wd)) (x m) && within y0 (y0 + 120) (y m) then
      r ← first_button 6 (fun i => within (i32 (x0 + 16 + i * 42)) (i32 (x0 + 16 + i * 42 + 36)) (x m)) layout_button w;
      mret (match r with inr r => r | inl w => Next (close_flyout w) end)
    else mret (Next (close_flyout w)).

Definition context_click (m : mouse_state) (w : world) : outcome flow :=
  let d := fst w in
  if negb (g_ctx d) then mret (Next w)
  else
    let close d := set_popups (g_start d) (g_search d) (g_action d) false d in
    if within (g_ctx_x d) (i32 (g_ctx_x d + 200)) (x m) && within (g_ctx_y d) (i32 (g_ctx_y d + 168)) (y m) then
      let item := Z.quot (i32 (y m - g_ctx_y d - 10)) 24 in
      w ← (if item =? 4 then desktop_launch APP_SETTINGS w else mret w);
      let w := if item =? 5 then
                 on_desk (fun d => let b := negb (th d) in
                                   desktop_set_theme (if b then THEME_LIGHT else THEME_DARK) (set_th b d)) w
               else w in
      consumed (on_desk close w)
    else mret (Next (on_desk close w)).

(** Application and corner of every icon. *)
Definition g_icons : list (list Z * Z * Z * Z) :=
  [(chars "This PC", APP_FILES, 28, 40); (chars "Files", APP_FILES, 28, 120);
   (chars "Terminal", APP_TERMINAL, 28, 200); (chars "Settings", APP_SETTINGS, 28, 280);
   (chars "Recycle Bin", APP_FILES, 28, 360)].

Fixpoint icon_click (m : mouse_state) (l : list (list Z * Z * Z * Z)) (w : world) : outcome flow :=
  match l with
  | [] => mret (Next w)
  | (_, app, ix, iy) :: l' =>
      if within ix (ix + 64) (x m) && within iy (iy + 64) (y m) then launch_and_consume app w
      else icon_click m l' w
  end.

(** Above the taskbar: the popups from the start menu on, then the icons. *)
Definition desk_click (m : mouse_state) (w : world) : outcome flow :=
  next_part (start_click m w) (fun w =>
  next_part (action_click m w) (fun w =>
  next_part (snap_click m w) (fun w =>
  next_part (context_click m w) (fun w => icon_click m g_icons w)))).

Definition left_click (m : mouse_state) (w : world) : outcome flow :=
  if tb_y <=? y m then taskbar_click m w else desk_click m w.

Definition desktop_handle_mouse (m : mouse_state) (w : world) : outcome flow :=
  let w := on_desk (set_consumed false) w in
  if right_pressed m && ((y m <? tb_y) && bool_decide (wm_at (wmgr (snd w)) (x m) (y m) = None)) then
    consumed (on_desk (fun d => set_menu_at (x m) (y m) (set_popups false false false true d)) w)
  else if negb (left_pressed m) then mret (Return w)
  else left_click m w.
End Clicks.

(** ** Drawing *)
Definition format_clock (t : timer) : list Z :=
  let ms := timer_uptime_ms t in
  let min := (ms / 60000) mod 60 in
  let hr := (ms / 3600000) mod 24 in
  [u8 (48 + hr / 10); u8 (48 + hr mod 10); 58; u8 (48 + min / 10); u8 (48 + min mod 10)].

(** One call of a drawing function; the coordinates are [i32]. *)
Inductive shape :=
  | Fill (x y w h color : Z)
  | Round (x y w h r color : Z)
  | Frame (x y w h color : Z)
  | Text (x y : Z) (s : list Z) (color : Z).

Section Render.
Context {P : Type} `{PA : PageAlloc P} {K : Type} `{BA : BlockAlloc K} {D : Type} `{IO : PortIO D}.
Context (f : fb) (perf : perf_settings).

Definition draw_shape (m : mem) (p : shape) : outcome mem :=
  match p with
  | Fill x y w h c => fb_fill_rect f m (i32 x) (i32 y) (i32 w) (i32 h) c
  | Round x y w h r c => fb_fill_rounded_rect f m (i32 x) (i32 y) w h r c
  | Frame x y w h c => fb_draw_rect f m (i32 x) (i32 y) w h c
  | Text x y s c => fb_draw_string f m (i32 x) (i32 y) s c TRANSPARENT
  end.
Fixpoint draw_shapes (m : mem) (l : list shape) : outcome mem :=
  match l with [] => mret m | p :: l' => m ← draw_shape m p; draw_shapes m l' end.

(** A loop that numbers the elements of a static array from 0. *)
Fixpoint each {A} (g : Z -> A -> list shape) (i : Z) (l : list A) : list shape :=
  match l with [] => [] | a :: l' => g i a ++ each g (i + 1) l' end.

(** The colour of row [y], between the top and the bottom of the sky. *)
Definition sky_color (theme : theme_mode) (y : Z) : Z :=
  let top := if decide (theme = THEME_DARK) then COL_DESK_TOP else COL_LIGHT_TOP in
  let bot := if decide (theme = THEME_DARK) then COL_DESK_BOT else COL_LIGHT_BOT in
  let t := u32 (y * 255) / (if height f =? 0 then 1 else height f) in
  let mix c0 c1 := u32 (u32 (c0 * u32 (255 - t)) + u32 (c1 * t)) / 255 in
  let r := mix (Z.land (Z.shiftr top 16) 0xFF) (Z.land (Z.shiftr bot 16) 0xFF) in
  let g := mix (Z.land (Z.shiftr top 8) 0xFF) (Z.land (Z.shiftr bot 8) 0xFF) in
  let b := mix (Z.land top 0xFF) (Z.land bot 0xFF) in
  Z.lor (Z.lor (Z.lor 0xFF000000 (u32 (Z.shiftl r 16))) (u32 (Z.shiftl g 8))) b.

Definition bloom_color (theme : theme_mode) : Z := if decide (theme = THEME_DARK) then 0xFF0E4A6A else 0xFFB8DCEC.
Definition bloom (frame x y : Z) : bool := (u32 (x + frame / 3) mod 180 <? 2) && (y mod 3 =? 0).

(** One row; the colour is a variable of the row. *)
Definition wallpaper_row (d : desktop) (y : Z) (m : mem) : outcome mem :=
  '(m, _) ← for_to 0 (width f) (fun x '(m, color) =>
    let color := if bloom (g_frame d) x y then bloom_color (g_theme d) else color in
    m ← fb_put_pixel f m (i32 x) (i32 y) color; mret (m, color)) (m, sky_color (g_theme d) y);
  mret m.
Definition draw_wallpaper (d : desktop) (m : mem) : outcome mem :=
  for_to 0 (u32 (height f - TASKBAR_H)) (wallpaper_row d) m.

Definition icon_shapes (d : desktop) : list shape :=
  each (fun _ '(label, _, x, y) =>
    [Round x y 64 52 6 0x55101820; Round (x + 14) (y + 6) 36 28 4 (g_accent d); Text (x + 4) (y + 40) label COL_TEXT])
    0 g_icons.
Definition draw_desktop_icons (d : desktop) (m : mem) : outcome mem := draw_shapes m (icon_shapes d).

Definition pins : list (list Z) := [chars "Term"; chars "Files"; chars "Set"; chars "Calc"; chars "Task"].
Definition pin_shapes (y : Z) : list shape :=
  each (fun i s => [Round (250 + i * 52) (y + 8) 44 32 6 0xFF1A2832; Text (250 + i * 52 + 6) (y + 18) s COL_TEXT]) 0 pins.

(** The button of a window at [tx]. *)
Definition window_shapes (d : desktop) (y tx : Z) (v : window) : list shape :=
  [Round tx (y + 8) 100 32 6 (if is_focused v then g_accent d else 0xFF1A2832);
   Text (tx + 8) (y + 18) (take 11 (cstr (title v))) (if is_focused v then 0xFF061018 else COL_TEXT)] ++
  (if bool_decide (wstate v = WIN_MINIMIZED) then [] else [Fill (tx + 10) (y + 36) 80 2 (g_accent d)]).
Definition task_list (d : desktop) (s : wm) (y : Z) : list shape :=
  snd (foldl (fun '(tx, l) i =>
         match wm_get s (Z.of_nat i) with
         | None => (tx, l)
         | Some k => (tx + 108, l ++ window_shapes d y tx (win s k))
         end) (520, []) (seq 0 (Z.to_nat (Z.min (wm_count s) 6)))).

Definition tray_shapes (d : desktop) (t : timer) (y : Z) : list shape :=
  let tray_x := i32 (width f) - 210 in
  [Text tray_x (y + 18) (chars "WiFi") COL_MUTED; Text (tray_x + 40) (y + 18) (chars "Vol") COL_MUTED;
   Round (tray_x + 78) (y + 10) 28 28 6 (if g_action d then g_accent d else 0xFF1A2832);
   Text (tray_x + 86) (y + 18) (chars "N") (if g_action d then 0xFF061018 else COL_TEXT)] ++
  (if g_notify_count d =? 0 then [] else [Fill (tray_x + 96) (y + 10) 8 8 0xFFE85D4C]) ++
  [Text (i32 (width f) - 70) (y + 12) (format_clock t) COL_TEXT; Text (i32 (width f) - 78) (y + 26) (chars "Aug 6") COL_MUTED].

Definition draw_taskbar (d : desktop) (s : wm) (t : timer) (m : mem) : outcome mem :=
  let y := i32 (i32 (height f) - TASKBAR_H) in
  q ← (if g_search d then arr_str (g_search_q d) else mret (chars "Search H3OS"));
  draw_shapes m
    ([Fill 0 y (i32 (width f)) TASKBAR_H COL_TASKBAR; Fill 0 y (i32 (width f)) 1 0xFF2A3A45;
      Round 8 (y + 6) 40 36 6 (if g_start d then g_accent d else 0xFF1A2832);
      Text 16 (y + 18) (chars "H3") (if g_start d then 0xFF061018 else g_accent d);
      Round 56 (y + 10) 180 28 8 0xFF1A2832; Text 68 (y + 18) q COL_MUTED] ++
     pin_shapes y ++ task_list d s y ++ tray_shapes d t y).

Definition pinned : list (list Z) :=
  [chars "Terminal"; chars "File Manager"; chars "Settings"; chars "Calculator";
   chars "Task Manager"; chars "Notepad"; chars "Store"; chars "Power"].
Definition grid_shapes (d : desktop) (x y : Z) : list shape :=
  each (fun i s =>
    let ax := x + 24 + Z.rem i 4 * 94 in let ay := y + 70 + Z.quot i 4 * 90 in
    [Round ax ay 84 76 10 COL_HOVER; Round (ax + 22) (ay + 12) 40 32 6 (g_accent d); Text (ax + 8) (ay + 52) s COL_TEXT])
    0 pinned.

Definition draw_start_menu (d : desktop) (m : mem) : outcome mem :=
  if negb (g_start d) then mret m
  else
    let x := 8 in
    let y := i32 (height f) - TASKBAR_H - START_H - 8 in
    draw_shapes m
      ([Round x y START_W START_H 12 COL_START_BG; Frame x y START_W START_H (g_accent d);
        Text (x + 24) (y + 20) H3OS_NAME (g_accent d); Text (x + 80) (y + 20) H3OS_TAGLINE COL_MUTED;
        Text (x + 24) (y + 44) (chars "Pinned") COL_MUTED] ++
       grid_shapes d x y ++
       [Text (x + 24) (y + 270) (chars "Recommended") COL_MUTED; Round (x + 24) (y + 290) 372 40 8 COL_HOVER;
        Text (x + 40) (y + 304) (chars "Welcome to H3OS Horizon") COL_TEXT; Round (x + 24) (y + 340) 372 40 8 COL_HOVER;
        Text (x + 40) (y + 354) (chars "Explore Settings & Themes") COL_TEXT;
        Fill x (y + START_H - 56) START_W 56 0xFF0C141C; Text (x + 24) (y + START_H - 34) (chars "user") COL_TEXT;
        Round (x + START_W - 120) (y + START_H - 42) 44 28 6 0xFF1A2832;
        Text (x + START_W - 108) (y + START_H - 34) (chars "Sleep") COL_MUTED;
        Round (x + START_W - 68) (y + START_H - 42) 52 28 6 0xFFE85D4C;
        Text (x + START_W - 56) (y + START_H - 34) (chars "Off") COL_TEXT]).

Definition tiles : list (list Z) :=
  [chars "Wi-Fi"; chars "BT"; chars "Air"; chars "Night"; chars "Focus"; chars "Cast"; chars "Proj"; chars "Hotspot"].
Definition tile_shapes (d : desktop) (x y : Z) : list shape :=
  each (fun i s =>
    let tx := x + 20 + Z.rem i 4 * 80 in let ty := y + 224 + Z.quot i 4 * 70 in
    [Round tx ty 72 58 8 (if i =? 0 then g_accent d else COL_HOVER);
     Text (tx + 12) (ty + 24) s (if i =? 0 then 0xFF061018 else COL_TEXT)]) 0 tiles.

Definition draw_action_center (d : desktop) (m : mem) : outcome mem :=
  if negb (g_action d) then mret m
  else
    let w := ACTION_W in
    let h := 420 in
    let x := i32 (width f) - w - 12 in
    let y := i32 (height f) - TASKBAR_H - h - 8 in
    draw_shapes m
      ([Round x y w h 12 COL_NOTIFY; Frame x y w h (g_accent d);
        Text (x + 20) (y + 20) (chars "Notification Center") (g_accent d);
        Round (x + 20) (y + 52) (w - 40) 56 8 COL_HOVER; Text (x + 36) (y + 64) (chars "Welcome to H3OS") COL_TEXT;
        Text (x + 36) (y + 80) (chars "The Future Starts Here.") COL_MUTED;
        Round (x + 20) (y + 118) (w - 40) 56 8 COL_HOVER; Text (x + 36) (y + 130) (chars "System update ready") COL_TEXT;
        Text (x + 36) (y + 146) (chars "Horizon desktop improvements") COL_MUTED;
        Text (x + 20) (y + 200) (chars "Quick Settings") COL_MUTED] ++
       tile_shapes d x y ++ [Text (x + 20) (y + 380) (adaptive_profile_name perf) COL_MUTED]).

(** The highlighted part of the preview of layout [i]. *)
Definition preview (d : desktop) (px py i : Z) : list shape :=
  if i =? 0 then [Fill (px + 2) (py + 2) 15 44 (g_accent d)]
  else if i =? 1 then [Fill (px + 19) (py + 2) 15 44 (g_accent d)]
  else if i =? 2 then [Fill (px + 2) (py + 2) 15 20 (g_accent d)]
  else if i =? 3 then [Fill (px + 19) (py + 2) 15 20 (g_accent d)]
  else if i =? 4 then [Fill (px + 2) (py + 26) 15 20 (g_accent d)]
  else [Fill (px + 19) (py + 26) 15 20 (g_accent d)].
Definition draw_snap_flyout (d : desktop) (m : mem) : outcome mem :=
  if negb (g_snap_ui d) then mret m
  else
    let x := Z.quot (i32 (i32 (width f) - 280)) 2 in
    let y := 60 in
    draw_shapes m
      ([Round x y 280 120 10 COL_START_BG; Text (x + 16) (y + 14) (chars "Snap layouts") (g_accent d)] ++
       each (fun i _ => Frame (x + 16 + i * 42) (y + 44) 36 48 COL_MUTED :: preview d (x + 16 + i * 42) (y + 44) i)
         0 (replicate 6 tt)).

Definition menu_items : list (list Z) :=
  [chars "View"; chars "Sort by"; chars "Refresh"; chars "New folder"; chars "Display settings"; chars "Personalize"].
Definition draw_context_menu (d : desktop) (m : mem) : outcome mem :=
  if negb (g_ctx d) then mret m
  else
    let x := g_ctx_x d in
    let y := g_ctx_y d in
    draw_shapes m
      ([Round x y 200 168 8 COL_START_BG; Frame x y 200 168 0xFF2A3A45] ++
       each (fun i s => [Text (x + 16) (y + 14 + i * 24) s COL_TEXT]) 0 menu_items).

Definition draw_brand_watermark (d : desktop) (m : mem) : outcome mem :=
  let x := i32 (width f) - 220 in
  let y := i32 (height f) - TASKBAR_H - 70 in
  draw_shapes m [Text x y H3OS_NAME (g_accent d);
    Text x (y + 16) (H3OS_VERSION_STRING ++ chars "  " ++ H3OS_CODENAME) COL_MUTED].

(** [desktop_render] up to the call of [fb_swap]. *)
Definition draw_scene (info : taskinfo) (ms : mouse) (w : @world P K D) (m : mem) : outcome mem :=
  let d := fst w in
  let s := wmgr (snd w) in
  m ← draw_wallpaper d m;
  m ← draw_desktop_icons d m;
  m ← draw_brand_watermark d m;
  m ← wm_render (call_draw f perf info (snd w)) f perf s m;
  m ← draw_start_menu d m;
  m ← draw_action_center d m;
  m ← draw_snap_flyout d m;
  m ← draw_context_menu d m;
  m ← draw_taskbar d s (i_timer (i_sys info)) m;
  mouse_draw_cursor f ms m.
Definition desktop_render (info : taskinfo) (ms : mouse) (w : @world P K D) (m : mem) : outcome mem :=
  m ← draw_scene info ms w m; fb_swap f m.
End Render.

(** ** What clicks keep

    A contract between the desktop and what it opens and moves: [ok] is kept by opening an
    application and by snapping the focused window, and by a button of the taskbar when
    [free] holds.  Then handling a click keeps [ok]. *)
Section Contract.
Context {P : Type} `{PA : PageAlloc P} {K : Type} `{BA : BlockAlloc K} {D : Type} `{IO : PortIO D}.
Context (f : fb) (perf : perf_settings).
Implicit Types w : @world P K D.
Implicit Types u : @ui P K D.

Record contract (ok free : @ui P K D -> Prop) : Prop := {
  ct_terminal : forall u, ok u -> returns (terminal_open_ui f perf u) (fun '(_, u') => ok u');
  ct_files : forall u, ok u -> ok (snd (filemanager_open perf u));
  ct_settings : forall u, ok u -> ok (snd (settings_open perf u));
  ct_calc : forall u, ok u -> ok (snd (calculator_open perf u));
  ct_tasks : forall u, ok u -> ok (snd (taskmanager_open perf u));
  ct_button : forall u i, ok u -> free u -> ok (set_wmgr (wm_restore_or_focus (wmgr u) (wm_get (wmgr u) i)) u);
  ct_snap : forall u i, ok u -> ok (set_wmgr (wm_snap f (wmgr u) (wm_focused (wmgr u)) i) u)
}.

Context (ok free : @ui P K D -> Prop) (C : contract ok free) (query : list Z).

(** [ok], with the same text in the search field. *)
Definition keeping w : Prop := ok (snd w) /\ g_search_q (fst w) = query.

(** A part of the handler either falls through, or has taken the click. *)
Definition taken (r : @flow P K D) : Prop :=
  match r with Next _ => False | Return w => keeping w /\ g_click_consumed (fst w) = true | Halt _ => True end.
Definition settled (r : @flow P K D) : Prop := match r with Next w => keeping w | _ => taken r end.

Lemma taken_settled r : taken r -> settled r.
Proof. destruct r; [intros []|auto..]. Qed.

(** The parts of the handler in turn. *)
Lemma next_part_settled (m : outcome (@flow P K D)) k :
  returns m settled -> (forall w, keeping w -> returns (k w) settled) -> returns (next_part m k) settled.
Proof.
  intros Hm Hk. apply returns_bind. eapply returns_mono; [exact Hm|].
  intros [w|w|d] Hr; [exact (Hk w Hr)|apply returns_Done; exact Hr..].
Qed.

Lemma consumed_taken w : keeping w -> returns (consumed w) taken.
Proof. intros Hs. apply returns_Done. split; [exact Hs|reflexivity]. Qed.

Lemma toggle_keeping w : keeping w -> keeping (on_desk desktop_toggle_launcher w).
Proof. intros [Hs Hq]. split; [exact Hs|]. cbn. unfold desktop_toggle_launcher. destruct (negb _); exact Hq. Qed.

Lemma launch_keeps app w :
  keeping w -> returns (desktop_launch f perf app w) (fun w' => keeping w' /\
    fst w' = set_popups false false (g_action (fst w)) false (fst w)).
Proof.
  intros [Hs Hq]. unfold desktop_launch. apply returns_bind.
  apply (returns_mono _ ok); [|intros u Hu; apply returns_Done; split; [split; [exact Hu|exact Hq]|reflexivity]].
  destruct (app =? APP_TERMINAL).
  { apply returns_bind. eapply returns_mono; [exact (ct_terminal _ _ C _ Hs)|]. intros [r u] Hu. apply returns_Done. exact Hu. }
  repeat case_match; apply returns_Done;
    [apply (ct_files _ _ C)|apply (ct_settings _ _ C)|apply (ct_calc _ _ C)|apply (ct_tasks _ _ C)|]; exact Hs.
Qed.

Lemma launch_taken app w : keeping w -> returns (launch_and_consume f perf app w) taken.
Proof.
  intros Hs. apply returns_bind. eapply returns_mono; [exact (launch_keeps app w Hs)|].
  intros w' [Hs' _]. exact (consumed_taken w' Hs').
Qed.

(** A loop over buttons: the button that is hit acts, the others fall through. *)
Lemma first_button_returns n hit act w :
  (forall i, 0 <= i < n -> returns (act i w) taken) ->
  returns (first_button n hit act w) (fun r => match r with inl w' => w' = w | inr r => taken r end).
Proof.
  intros Hact. destruct (Z.le_gt_cases 0 n) as [Hn|Hn].
  - apply (for_ret_inv (fun _ w' => w' = w) taken); [exact Hn|reflexivity|].
    intros i w' Hi ->. destruct (hit i); [|apply returns_Done; reflexivity].
    apply returns_bind. eapply returns_mono; [exact (Hact i Hi)|]. intros r Hr. apply returns_Done. exact Hr.
  - unfold first_button. rewrite for_ret_miss by (intros; lia). apply returns_Done. reflexivity.
Qed.

Lemma taskbar_click_taken m w : keeping w -> free (snd w) -> returns (taskbar_click f perf m w) taken.
Proof.
  intros Hs Hd. unfold taskbar_click. set (w0 := on_desk _ w). assert (Hs0 : keeping w0) by exact Hs.
  destruct (within 8 48 (x m)); [apply consumed_taken, toggle_keeping; exact Hs0|].
  destruct (within 56 236 (x m)); [apply consumed_taken; exact Hs0|].
  destruct (within 250 _ (x m)).
  { apply returns_bind. destruct (_ && _).
    - eapply returns_mono; [exact (launch_keeps _ w0 Hs0)|]. intros w' [Hs' _]. exact (consumed_taken w' Hs').
    - apply returns_Done. apply consumed_taken; exact Hs0. }
  unfold next_part, task_buttons. apply returns_bind, returns_bind.
  eapply returns_mono; [apply (first_button_returns _ _ task_button w0)|].
  { intros i _. apply consumed_taken. exact (conj (ct_button _ _ C _ i (proj1 Hs0) Hd) (proj2 Hs0)). }
  intros [w'|r] Hr; apply returns_Done.
  - subst w'. destruct (within _ _ (x m)); [apply consumed_taken; exact Hs0|].
    destruct (_ <=? x m); apply consumed_taken; exact Hs0.
  - destruct r; [destruct Hr|apply returns_Done; exact Hr..].
Qed.

Lemma start_click_settled m w : keeping w -> returns (start_click f perf m w) settled.
Proof.
  intros Hs. unfold start_click. destruct (negb _); [apply returns_Done; exact Hs|].
  destruct (_ && _); [|apply returns_Done; exact Hs]. apply returns_bind.
  eapply returns_mono; [apply (first_button_returns 8 _ (grid_action f perf) w)|].
  - intros i _. unfold grid_action. destruct (i <? APP_COUNT); [exact (launch_taken i w Hs)|].
    destruct (_ || _); [|apply returns_Done; exact I]. apply returns_bind.
    eapply returns_mono; [exact (ct_terminal _ _ C _ (proj1 Hs))|]. intros [r u] Hu. apply consumed_taken. exact (conj Hu (proj2 Hs)).
  - intros [w'|r] Hr; [subst w'|apply returns_Done, taken_settled, Hr].
    destruct (_ && _); [apply returns_Done; exact I|].
    eapply returns_mono; [apply consumed_taken; exact Hs|exact taken_settled].
Qed.

Lemma action_click_settled m w : keeping w -> returns (action_click f m w) settled.
Proof.
  intros Hs. unfold action_click. destruct (negb _); [apply returns_Done; exact Hs|].
  destruct (_ && _); apply returns_Done; [split; [exact Hs|reflexivity]|exact Hs].
Qed.

Lemma snap_click_settled m w : keeping w -> returns (snap_click f m w) settled.
Proof.
  intros Hs. unfold snap_click. destruct (negb _); [apply returns_Done; exact Hs|].
  destruct (_ && _); [|apply returns_Done; exact Hs]. apply returns_bind.
  eapply returns_mono; [apply (first_button_returns 6 _ (layout_button f) w)|].
  - intros i _. apply consumed_taken. exact (conj (ct_snap _ _ C _ i (proj1 Hs)) (proj2 Hs)).
  - intros [w'|r] Hr; apply returns_Done; [subst w'; exact Hs|exact (taken_settled r Hr)].
Qed.

Lemma context_click_settled m w : keeping w -> returns (context_click f perf m w) settled.
Proof.
  intros Hs. unfold context_click. destruct (negb _); [apply returns_Done; exact Hs|].
  destruct (_ && _); [|apply returns_Done; exact Hs]. apply returns_bind.
  apply (returns_mono _ keeping).
  - destruct (_ =? 4); [|apply returns_Done; exact Hs].
    eapply returns_mono; [exact (launch_keeps _ w Hs)|]. intros w' [Hs' _]. exact Hs'.
  - intros w' Hs'. eapply returns_mono; [apply consumed_taken|exact taken_settled].
    destruct (_ =? 5); exact Hs'.
Qed.

Lemma icon_click_settled m l w : keeping w -> returns (icon_click f perf m l w) settled.
Proof.
  intros Hs. induction l as [|[[[lb app] ix] iy] l IH]; cbn [icon_click]; [apply returns_Done; exact Hs|].
  destruct (_ && _); [|exact IH]. eapply returns_mono; [exact (launch_taken app w Hs)|exact taken_settled].
Qed.

Lemma desk_click_settled m w : keeping w -> returns (desk_click f perf m w) settled.
Proof.
  intros Hs. apply next_part_settled; [exact (start_click_settled m w Hs)|]. clear w Hs. intros w Hs.
  apply next_part_settled; [exact (action_click_settled m w Hs)|]. clear w Hs. intros w Hs.
  apply next_part_settled; [exact (snap_click_settled m w Hs)|]. clear w Hs. intros w Hs.
  apply next_part_settled; [exact (context_click_settled m w Hs)|]. clear w Hs. intros w Hs.
  exact (icon_click_settled m g_icons w Hs).
Qed.

(** Handling the mouse always ends, with the machine off or with [ok] kept, whatever the
    popups, the windows and the pointer; no step of it reads or writes out of bounds.  A
    press of the left button on the taskbar is always the desktop's, and a press the handler
    returns early on is. *)
Lemma handle_mouse_keeps m w :
  keeping w -> (left_pressed m = true -> free (snd w)) ->
  returns (desktop_handle_mouse f perf m w) (fun r => match r with
    | Next w' => keeping w' /\ left_pressed m = true /\ y m < tb_y f
    | Return w' => keeping w' /\ (left_pressed m = true -> g_click_consumed (fst w') = true)
    | Halt _ => left_pressed m = true
    end).
Proof.
  intros Hs Hd. unfold desktop_handle_mouse. set (w0 := on_desk _ w). assert (Hs0 : keeping w0) by exact Hs.
  destruct (_ && _); [apply returns_Done; split; [exact Hs0|reflexivity]|].
  destruct (left_pressed m) eqn:El; cbn [negb]; [|apply returns_Done; split; [exact Hs0|discriminate]].
  unfold left_click. destruct (Z.leb_spec (tb_y f) (y m)) as [Hy|Hy].
  - eapply returns_mono; [exact (taskbar_click_taken m w0 Hs0 (Hd eq_refl))|]. intros [w'|w'|d]; [intros []|intros [? ?]; auto|reflexivity].
  - eapply returns_mono; [exact (desk_click_settled m w0 Hs0)|]. intros [w'|w'|d]; [auto|intros [? ?]; auto|reflexivity].
Qed.
End Contract.

(** ** Clicks keep the windows and the terminal well formed *)
Section ClickProofs.
Context {P : Type} `{PA : PageAlloc P} {K : Type} `{BA : BlockAlloc K} {D : Type} `{IO : PortIO D}.
Context (f : fb) (perf : perf_settings).
Implicit Types w : @world P K D.
Implicit Types u : @ui P K D.

(** Coherent windows and a terminal whose screen is the end of what was written to it. *)
Definition sane u : Prop := coherent (wmgr u) /\ exists h, shows (term (shell u)) h.

(** The terminal that was opened. *)
Lemma sane_opened u u' : coherent (wmgr u) -> terminal_opened f perf u u' -> sane u'.
Proof.
  intros Hc (Ew & _ & t & h & Ht & _ & E). split; [rewrite Ew; exact (terminal_wm_coherent _ _ _ _ _ _ Hc)|].
  exists h. rewrite E. exact Ht.
Qed.

Lemma open_window_shell ttl x y wd h drawf userp u :
  shell (snd (open_window perf ttl x y wd h drawf userp u)) = shell u.
Proof. unfold open_window. destruct (wm_create _ _ _ _ _ _ _) as [[i|] s]; reflexivity. Qed.

Lemma open_window_sane ttl x y wd h drawf userp u :
  sane u -> sane (snd (open_window perf ttl x y wd h drawf userp u)).
Proof. intros [Hc Hh]. split; [apply open_window_coherent, Hc|]. rewrite open_window_shell. exact Hh. Qed.

Lemma on_wm_sane (g : wm -> wm) w : sane (snd w) -> coherent (g (wmgr (snd w))) -> sane (snd (on_wm g w)).
Proof. intros [_ Hh] Hc. split; [exact Hc|exact Hh]. Qed.

(** No button of the taskbar is used while a window is being dragged. *)
Lemma sane_contract : contract f perf sane (fun u => drag_target (wmgr u) = None).
Proof.
  split.
  - intros u Hs. eapply returns_mono; [exact (terminal_open_ui_returns f perf u)|].
    intros [r u'] Hu. exact (sane_opened u u' (proj1 Hs) Hu).
  - intros u Hs. apply open_window_sane. exact Hs.
  - intros u Hs. apply open_window_sane, Hs.
  - intros u Hs. apply open_window_sane, Hs.
  - intros u Hs. apply open_window_sane, Hs.
  - intros u i [Hc Hh] Hd. split; [|exact Hh]. cbn [wmgr set_wmgr]. destruct (wm_get _ i) as [k|] eqn:E; [|exact Hc].
    apply restore_coherent; [exact Hc|exact (wm_get_active _ _ _ E)|congruence].
  - intros u i [Hc Hh]. split; [|exact Hh]. cbn [wmgr set_wmgr]. unfold wm_focused.
    destruct (focused (wmgr u)) as [k|] eqn:E; [|exact Hc]. apply snap_coherent; [exact Hc|exact (proj1 (co_focus _ Hc k E))].
Qed.

Lemma coherent_count s : coherent s -> 0 <= wm_count s <= 32.
Proof.
  intros Hco. unfold wm_count. rewrite (co_count _ Hco). pose proof (actives_bounds (windows s)) as Hb.
  pose proof (co_len _ Hco) as Hl. unfold slots in Hl. lia.
Qed.
End ClickProofs.

(** ** What is drawn is what is clicked *)

(** The pointer is over a filled shape. *)
Definition over_shape (m : mouse_state) (p : shape) : bool :=
  match p with
  | Fill x0 y0 w h _ | Round x0 y0 w h _ _ => within x0 (x0 + w) (x m) && within y0 (y0 + h) (y m)
  | _ => false
  end.

Lemma within_true lo hi z : within lo hi z = true <-> lo <= z < hi.
Proof. unfold within. rewrite andb_true_iff, Z.leb_le, Z.ltb_lt. tauto. Qed.

Lemma within_false lo hi z : within lo hi z = false <-> z < lo \/ hi <= z.
Proof. unfold within. rewrite andb_false_iff, Z.leb_gt, Z.ltb_ge. tauto. Qed.

(** [wm_get] finds the windows below the count, and only those. *)
Lemma nth_active_Some k l : forall b n, 0 <= n <= k -> n + actives l < 2 ^ 32 ->
  (is_Some (nth_active b n k l) <-> k < n + actives l).
Proof.
  induction l as [|v l IH]; intros b n Hn Hb; cbn [nth_active actives] in *.
  - split; [intros [? ?]; discriminate|lia].
  - destruct (active v); cbn [negb] in *.
    + pose proof (actives_bounds l) as Ha. destruct (Z.eqb_spec n k) as [->|Hne].
      * split; [lia|intros _; eauto].
      * rewrite u32_small by lia. rewrite IH by lia. lia.
    + rewrite IH by lia. lia.
Qed.

Lemma wm_get_Some s i : coherent s -> 0 <= i -> (is_Some (wm_get s i) <-> i < wm_count s).
Proof.
  intros Hco Hi. unfold wm_get, wm_count. rewrite (co_count _ Hco). pose proof (actives_bounds (windows s)) as Hb.
  pose proof (co_len _ Hco) as Hl. unfold slots in Hl. rewrite (nth_active_Some i (windows s) 0 0) by lia. lia.
Qed.

(** The task list is the buttons of the windows [wm_get] finds, 108 pixels apart. *)
Definition list_step (d : desktop) (s : wm) (y : Z) : Z * list shape -> nat -> Z * list shape :=
  fun '(tx, l) i => match wm_get s (Z.of_nat i) with
                    | None => (tx, l)
                    | Some k => (tx + 108, l ++ window_shapes d y tx (win s k))
                    end.

Lemma task_list_upto d s y n :
  coherent s -> Z.of_nat n <= wm_count s ->
  fst (foldl (list_step d s y) (520, []) (seq 0 n)) = 520 + 108 * Z.of_nat n /\
  forall i k p, (i < n)%nat -> wm_get s (Z.of_nat i) = Some k ->
    p ∈ window_shapes d y (520 + 108 * Z.of_nat i) (win s k) ->
    p ∈ snd (foldl (list_step d s y) (520, []) (seq 0 n)).
Proof.
  intros Hco. induction n as [|n IH]; intros Hn; [split; [reflexivity|intros i k p Hi; lia]|].
  rewrite seq_S, foldl_app. destruct IH as [E1 E2]; [lia|]. destruct (foldl _ _ (seq 0 n)) as [tx l]. cbn [fst snd] in *.
  destruct (proj2 (wm_get_Some s (Z.of_nat n) Hco ltac:(lia)) ltac:(lia)) as [k0 E0].
  cbn [foldl list_step Nat.add]. rewrite E0. cbn [fst snd]. split; [lia|]. intros i k p Hi Ek Hp. apply elem_of_app.
  destruct (Nat.eq_dec i n) as [->|Hne]; [right|left; apply (E2 i k p); [lia|exact Ek|exact Hp]].
  replace tx with (520 + 108 * Z.of_nat n) by lia. congruence.
Qed.

Lemma in_task_list d s y i k p :
  coherent s -> 0 <= i < 6 -> wm_get s i = Some k -> p ∈ window_shapes d y (520 + 108 * i) (win s k) ->
  p ∈ task_list d s y.
Proof.
  intros Hco Hi Ek Hp. pose proof (proj1 (wm_get_Some s i Hco ltac:(lia)) (mk_is_Some _ _ Ek)) as Hc.
  apply (proj2 (task_list_upto d s y (Z.to_nat (Z.min (wm_count s) 6)) Hco ltac:(lia)) (Z.to_nat i) k p);
    rewrite ?Z2Nat.id by lia; [lia|exact Ek|exact Hp].
Qed.

Section Drawn.
Context {P : Type} `{PA : PageAlloc P} {K : Type} `{BA : BlockAlloc K} {D : Type} `{IO : PortIO D}.
Context (f : fb) (perf : perf_settings) (m : mouse_state).
Implicit Types w : @world P K D.

Definition fits_taskbar : Prop := 0 <= width f < 2 ^ 31 /\ TASKBAR_H <= height f < 2 ^ 31.

(** The state as the click finds it, and after the menu of the desktop was closed. *)
Definition cleared w : world := on_desk (set_consumed false) w.
Definition bar w : world := on_desk (fun d => set_popups (g_start d) (g_search d) (g_action d) false d) (cleared w).

Lemma tb_y_value : fits_taskbar -> tb_y f = height f - TASKBAR_H.
Proof.
  intros [_ Hh]. unfold tb_y, TASKBAR_H in *. rewrite (i32_small (height f)) by lia. apply i32_small. lia.
Qed.

Lemma left_press w :
  left_pressed m = true -> right_pressed m = false -> desktop_handle_mouse f perf m w = left_click f perf m (cleared w).
Proof. intros El Er. unfold desktop_handle_mouse. rewrite El, Er. reflexivity. Qed.

Lemma first_button_hit n hit act k w :
  0 <= k < n -> hit k = true -> (forall i, 0 <= i < k -> hit i = false) ->
  first_button n hit act w = (r ← act k w; Done (inr r) : outcome (world + @flow P K D)).
Proof.
  intros Hk Ek Em. apply (for_ret_hit _ (act k w) k); [exact Hk| |].
  - intros i Hi. rewrite Em by exact Hi. reflexivity.
  - rewrite Ek. reflexivity.
Qed.

Lemma pin_click k p w :
  0 <= k < 5 -> pin_shapes (tb_y f) !! Z.to_nat (2 * k) = Some p -> over_shape m p = true ->
  tb_y f <= y m /\ taskbar_click f perf m (cleared w) = (w' ← desktop_launch f perf k (bar w); consumed w').
Proof.
  intros Hk Ep Ho.
  assert (Hx : 250 + k * 52 <= x m < 250 + k * 52 + 44 /\ tb_y f + 8 <= y m).
  { assert (Hc : k = 0 \/ k = 1 \/ k = 2 \/ k = 3 \/ k = 4) by lia.
    destruct Hc as [->|[->|[->|[->| ->]]]]; injection Ep as <-; cbn [over_shape] in Ho;
      apply andb_prop in Ho as [H1 H2]; apply within_true in H1, H2; lia. }
  split; [lia|]. unfold taskbar_click. fold (bar w).
  rewrite (proj2 (within_false 8 48 (x m))), (proj2 (within_false 56 236 (x m))) by lia.
  rewrite (proj2 (within_true 250 _ (x m))) by lia.
  assert (Ei : Z.quot (x m - 250) 52 = k) by (Z.to_euclidean_division_equations; lia). rewrite Ei.
  destruct (Z.leb_spec 0 k), (Z.ltb_spec k 5); try lia. reflexivity.
Qed.

Lemma task_click d i k p w :
  coherent (wmgr (snd w)) -> 0 <= i < 6 -> wm_get (wmgr (snd w)) i = Some k ->
  p ∈ window_shapes d (tb_y f) (520 + 108 * i) (win (wmgr (snd w)) k) -> over_shape m p = true ->
  tb_y f <= y m /\
  taskbar_click f perf m (cleared w) = consumed (on_wm (fun s => wm_restore_or_focus s (Some k)) (bar w)).
Proof.
  intros Hco Hi Ek Hp Ho.
  assert (Hx : 520 + 108 * i <= x m < 520 + 108 * i + 100 /\ tb_y f <= y m).
  { unfold window_shapes in Hp. rewrite elem_of_app, !elem_of_cons in Hp.
    destruct Hp as [[->|[->|Hp]]|Hp]; [|discriminate Ho|destruct (not_elem_of_nil _ Hp)|].
    2: case_bool_decide; [destruct (not_elem_of_nil _ Hp)|apply list_elem_of_singleton in Hp as ->].
    all: cbn [over_shape] in Ho; apply andb_prop in Ho as [H1 H2]; apply within_true in H1, H2; lia. }
  split; [lia|]. unfold taskbar_click. fold (bar w).
  rewrite (proj2 (within_false 8 48 (x m))), (proj2 (within_false 56 236 (x m))),
    (proj2 (within_false 250 _ (x m))) by lia.
  unfold next_part, task_buttons.
  pose proof (proj1 (wm_get_Some _ i Hco ltac:(lia)) (mk_is_Some _ _ Ek)) as Hc.
  rewrite (first_button_hit _ _ _ i).
  - unfold task_button, consumed. cbn [mbind outcome_bind mret outcome_ret].
    unfold on_wm. cbn [fst snd bar cleared on_desk]. rewrite Ek. reflexivity.
  - cbn [bar cleared on_desk snd]. lia.
  - apply within_true. lia.
  - intros j Hj. apply within_false. lia.
Qed.

(** C28: What is drawn on the taskbar is what is clicked: a left press over the drawn button
    of pinned application [k] launches [k], and one over the button drawn for the [i]-th
    window (or the line under it) restores or minimises that window - whatever else is
    open. *)
Theorem taskbar_drawn_buttons_act w :
  coherent (wmgr (snd w)) -> left_pressed m = true -> right_pressed m = false ->
  (forall k p, 0 <= k < 5 -> pin_shapes (tb_y f) !! Z.to_nat (2 * k) = Some p -> over_shape m p = true ->
     desktop_handle_mouse f perf m w = (w' ← desktop_launch f perf k (bar w); consumed w')) /\
  (forall i k p, 0 <= i < 6 -> wm_get (wmgr (snd w)) i = Some k ->
     p ∈ window_shapes (fst w) (tb_y f) (520 + 108 * i) (win (wmgr (snd w)) k) ->
     p ∈ task_list (fst w) (wmgr (snd w)) (tb_y f) /\
     (over_shape m p = true ->
      desktop_handle_mouse f perf m w = consumed (on_wm (fun s => wm_restore_or_focus s (Some k)) (bar w)))).
Proof.
  intros Hco El Er. rewrite (left_press w El Er). split.
  - intros k p Hk Ep Ho. destruct (pin_click k p w Hk Ep Ho) as [Hy E].
    unfold left_click. destruct (Z.leb_spec (tb_y f) (y m)); [exact E|lia].
  - intros i k p Hi Ek Hp. split; [exact (in_task_list _ _ _ i k p Hco Hi Ek Hp)|]. intros Ho.
    destruct (task_click _ i k p w Hco Hi Ek Hp Ho) as [Hy E].
    unfold left_click. destruct (Z.leb_spec (tb_y f) (y m)); [exact E|lia].
Qed.

(** The corner of the start menu, as it is drawn. *)
Definition menu_y : Z := i32 (height f) - TASKBAR_H - START_H - 8.

Lemma menu_corner : fits_taskbar -> i32 (tb_y f - START_H - 8) = menu_y /\ menu_y = tb_y f - START_H - 8.
Proof.
  intros Hf. pose proof (tb_y_value Hf) as E. destruct Hf as [_ Hh]. unfold menu_y, START_H, TASKBAR_H in *.
  rewrite (i32_small (height f)) by lia. rewrite i32_small; lia.
Qed.

(** The tile of cell [k] is as large as the cell the click is tested against, and the
    cells are apart. *)
Lemma cell_hit k p d :
  fits_taskbar -> 0 <= k < 8 -> grid_shapes d 8 menu_y !! Z.to_nat (3 * k) = Some p -> over_shape m p = true ->
  let hit i := within (grid_x 8 i) (i32 (grid_x 8 i + 84)) (x m) &&
               within (grid_y menu_y i) (i32 (grid_y menu_y i + 76)) (y m) in
  (8 <= x m < 8 + START_W /\ menu_y <= y m < menu_y + START_H) /\
  hit k = true /\ (forall i, 0 <= i < k -> hit i = false).
Proof.
  intros Hf Hk Ep Ho hit. pose proof (tb_y_value Hf) as Et. destruct (menu_corner Hf) as [_ Em].
  destruct Hf as [_ Hh]. unfold START_H, START_W, TASKBAR_H in *.
  assert (Hpos : 32 + Z.rem k 4 * 94 <= x m < 32 + Z.rem k 4 * 94 + 84 /\
                 menu_y + 70 + Z.quot k 4 * 90 <= y m < menu_y + 70 + Z.quot k 4 * 90 + 76).
  { assert (Hc : k = 0 \/ k = 1 \/ k = 2 \/ k = 3 \/ k = 4 \/ k = 5 \/ k = 6 \/ k = 7) by lia.
    destruct Hc as [->|[->|[->|[->|[->|[->|[->| ->]]]]]]]; injection Ep as <-; cbn [over_shape] in Ho;
      apply andb_prop in Ho as [H1 H2]; apply within_true in H1, H2; exact (conj H1 H2). }
  assert (Hcell : forall i, 0 <= i < 8 ->
    hit i = within (32 + Z.rem i 4 * 94) (32 + Z.rem i 4 * 94 + 84) (x m) &&
            within (menu_y + 70 + Z.quot i 4 * 90) (menu_y + 70 + Z.quot i 4 * 90 + 76) (y m)).
  { intros i Hi. unfold hit, grid_x, grid_y.
    assert (Hr : 0 <= Z.rem i 4 < 4 /\ 0 <= Z.quot i 4 < 2) by (Z.to_euclidean_division_equations; lia).
    rewrite (i32_small (8 + 24 + _)), (i32_small (menu_y + 70 + _)) by lia.
    rewrite (i32_small (8 + 24 + _ + _)), (i32_small (menu_y + 70 + _ + _)) by lia. reflexivity. }
  split; [Z.to_euclidean_division_equations; lia|]. split.
  - rewrite Hcell by lia. apply andb_true_iff. rewrite !within_true. exact Hpos.
  - intros i Hi. rewrite Hcell by lia. apply andb_false_iff. rewrite !within_false.
    Z.to_euclidean_division_equations. lia.
Qed.

(** What is drawn in the start menu is what is clicked: while the menu is open, a left
    press over the drawn tile [k] does what the tile is for - the application [k], a
    terminal for the next two, and power off for the last. *)
Theorem start_menu_tiles_act w k p :
  fits_taskbar -> left_pressed m = true -> right_pressed m = false -> g_start (fst w) = true ->
  0 <= k < 8 -> grid_shapes (fst w) 8 menu_y !! Z.to_nat (3 * k) = Some p -> over_shape m p = true ->
  desktop_handle_mouse f perf m w =
    if k <? 5 then launch_and_consume f perf k (cleared w)
    else if k <? 7 then '(_, u) ← terminal_open_ui f perf (snd w); consumed (fst (cleared w), u)
    else mret (Halt (Services.Power.power_shutdown (ports (shell (snd w))))).
Proof.
  intros Hf El Er Hst Hk Ep Ho. rewrite (left_press w El Er).
  destruct (cell_hit k p _ Hf Hk Ep Ho) as ([Hx Hy] & Hit & Hmiss).
  pose proof (tb_y_value Hf) as Et. destruct (menu_corner Hf) as [Ec Em].
  assert (Hh := proj2 Hf). unfold START_H, START_W, TASKBAR_H in *.
  unfold left_click. destruct (Z.leb_spec (tb_y f) (y m)); [lia|].
  unfold desk_click, start_click. change (g_start (fst (cleared w))) with (g_start (fst w)). rewrite Hst. cbn [negb].
  unfold START_H, START_W. rewrite Ec. rewrite (proj2 (within_true 8 _ (x m))) by lia.
  rewrite (i32_small (menu_y + 520)), (proj2 (within_true menu_y _ (y m))) by lia. cbn [andb].
  rewrite (first_button_hit _ _ _ k _ Hk Hit Hmiss). unfold grid_action, launch_and_consume, consumed, power_off, APP_COUNT.
  destruct (Z.ltb_spec k 5).
  - destruct (desktop_launch f perf k (cleared w)); reflexivity.
  - destruct (Z.ltb_spec k 7).
    + replace ((k =? 5) || (k =? 6)) with true by (destruct (Z.eqb_spec k 5), (Z.eqb_spec k 6); reflexivity || lia).
      change (snd (cleared w)) with (snd w). destruct (terminal_open_ui f perf (snd w)) as [[r u]| | |]; reflexivity.
    + replace ((k =? 5) || (k =? 6)) with false by (destruct (Z.eqb_spec k 5), (Z.eqb_spec k 6); reflexivity || lia).
      reflexivity.
Qed.

Definition popups_closed w : Prop :=
  g_start (fst w) = false /\ g_action (fst w) = false /\ g_snap_ui (fst w) = false /\ g_ctx (fst w) = false.

Lemma icon_hit w : forall l lb app ix iy,
  (lb, app, ix, iy) ∈ l -> ix <= x m < ix + 64 -> iy <= y m < iy + 64 ->
  (forall lb' app' ix' iy', (lb', app', ix', iy') ∈ l ->
     ix' <= x m < ix' + 64 -> iy' <= y m < iy' + 64 -> app' = app) ->
  icon_click f perf m l w = launch_and_consume f perf app w.
Proof.
  induction l as [|[[[lb0 a0] x0] y0] l IH]; intros lb app ix iy Hin Hx Hy Hu; [destruct (not_elem_of_nil _ Hin)|].
  cbn [icon_click]. destruct (within x0 (x0 + 64) (x m) && within y0 (y0 + 64) (y m)) eqn:E.
  - apply andb_prop in E as [E1 E2]. apply within_true in E1, E2.
    rewrite (Hu lb0 a0 x0 y0); [reflexivity|apply elem_of_cons; auto|lia|lia].
  - apply elem_of_cons in Hin as [[= -> -> -> ->]|Hin].
    + rewrite (proj2 (within_true x0 _ _)), (proj2 (within_true y0 _ _)) in E by lia. discriminate.
    + apply (IH lb app ix iy Hin Hx Hy). intros lb' a' x' y' Hin'. apply (Hu lb'). apply elem_of_cons. auto.
Qed.

(** With every popup closed, a left press within 64 pixels of the corner of an icon
    opens its application and is the desktop's, whatever windows there are: an icon is hit
    through a window that covers it, which then gets no press at all. *)
Theorem icon_press_opens w lb app ix iy :
  (lb, app, ix, iy) ∈ g_icons -> popups_closed w ->
  left_pressed m = true -> right_pressed m = false -> y m < tb_y f ->
  ix <= x m < ix + 64 -> iy <= y m < iy + 64 ->
  desktop_handle_mouse f perf m w = launch_and_consume f perf app (cleared w).
Proof.
  intros Hin (H1 & H2 & H3 & H4) El Er Hy Hx Hyi. rewrite (left_press w El Er). unfold left_click.
  destruct (Z.leb_spec (tb_y f) (y m)); [lia|].
  assert (Hw : icon_click f perf m g_icons (cleared w) = launch_and_consume f perf app (cleared w)).
  { apply (icon_hit (cleared w) g_icons lb app ix iy Hin Hx Hyi). intros lb' a' x' y' Hin' Hx' Hy'.
    unfold g_icons in Hin, Hin'. rewrite !elem_of_cons in Hin, Hin'.
    destruct Hin as [E|[E|[E|[E|[E|E]]]]], Hin' as [E'|[E'|[E'|[E'|[E'|E']]]]];
      try (destruct (not_elem_of_nil _ E)); try (destruct (not_elem_of_nil _ E'));
      injection E as -> -> -> ->; injection E' as -> -> -> ->; try reflexivity; lia. }
  unfold desk_click, start_click. change (g_start (fst (cleared w))) with (g_start (fst w)). rewrite H1.
  cbn [negb next_part mbind outcome_bind mret outcome_ret]. unfold action_click.
  change (g_action (fst (cleared w))) with (g_action (fst w)). rewrite H2.
  cbn [negb next_part mbind outcome_bind mret outcome_ret]. unfold snap_click.
  change (g_snap_ui (fst (cleared w))) with (g_snap_ui (fst w)). rewrite H3.
  cbn [negb next_part mbind outcome_bind mret outcome_ret]. unfold context_click.
  change (g_ctx (fst (cleared w))) with (g_ctx (fst w)). rewrite H4. exact Hw.
Qed.
End Drawn.

(** ** The wallpaper *)
Section Wallpaper.
Context (f : fb) (d : desktop).

(** A bloom pixel at or left of column [a]. *)
Definition glows (a b : Z) : bool := existsb (fun i => bloom (g_frame d) (Z.of_nat i) b) (seq 0 (Z.to_nat (a + 1))).

Definition tone (a b : Z) : Z := if glows a b then bloom_color (g_theme d) else sky_color f (g_theme d) b.

Lemma glows_succ a b : 0 <= a -> glows a b = glows (a - 1) b || bloom (g_frame d) a b.
Proof.
  intros Ha. unfold glows. replace (Z.to_nat (a + 1)) with (Z.to_nat (a - 1 + 1) + 1)%nat by lia.
  rewrite seq_app, existsb_app. cbn [existsb seq]. rewrite orb_false_r. do 2 f_equal. lia.
Qed.

Lemma wallpaper_row_returns y m :
  surf f m -> 0 <= y < height f ->
  returns (wallpaper_row f d y m)
    (fun m' => painted f m m' (fun a b => if b =? y then Some (tone a b) else None)).
Proof.
  intros Hs Hy. destruct (sf_size _ _ Hs) as [Hw Hh]. unfold wallpaper_row. apply returns_bind.
  apply (for_to_inv (fun j '(m1, c) =>
    painted f m m1 (fun a b => if (b =? y) && (a <? j) then Some (tone a b) else None) /\ c = tone (j - 1) y)); [lia|..].
  - split; [|reflexivity]. apply (painted_ext _ _ _ (fun _ _ => None)); [exact (painted_refl f m Hs)|].
    intros a b [Ha _]. destruct (Z.ltb_spec a 0); [lia|]. rewrite andb_false_r. reflexivity.
  - intros j [m1 c] Hj [Hp ->]. cbv zeta. apply returns_bind.
    assert (Et : (if bloom (g_frame d) j y then bloom_color (g_theme d) else tone (j - 1) y) = tone j y).
    { unfold tone. rewrite (glows_succ j y) by lia. destruct (bloom _ j y); [rewrite orb_true_r; reflexivity|].
      rewrite orb_false_r. reflexivity. }
    rewrite Et, !i32_small by lia.
    eapply returns_mono; [apply (fb_put_pixel_returns f m1 j y); [apply Hp|lia|lia]|].
    intros m2 Hp2. apply returns_Done. split; [|rewrite Z.add_simpl_r; reflexivity].
    eapply painted_ext; [exact (painted_trans _ _ _ _ _ _ Hp Hp2)|]. intros a b Hab. unfold over. cbv beta.
    destruct (Z.eqb_spec a j), (Z.eqb_spec b y), (Z.ltb_spec a j), (Z.ltb_spec a (j + 1)); subst; cbn [andb]; try lia; reflexivity.
  - intros [m1 c] [Hp _]. apply returns_Done. apply (painted_ext _ _ _ _ _ Hp). intros a b [Ha _].
    destruct (Z.ltb_spec a (width f)); [rewrite andb_true_r; reflexivity|lia].
Qed.

(** [draw_wallpaper] returns with exactly the pixels above the taskbar painted, each in
    the colour of its row up to the first bloom pixel of the row, and in the bloom colour
    from there to the right edge - the glow is a streak, not a dot, since the colour is not
    set back. *)
Theorem draw_wallpaper_paints m :
  surf f m -> TASKBAR_H <= height f ->
  returns (draw_wallpaper f d m)
    (fun m' => painted f m m' (fun a b => if b <? height f - TASKBAR_H then Some (tone a b) else None)).
Proof.
  intros Hs Hh. pose proof (sf_size _ _ Hs) as Hsz. unfold draw_wallpaper, TASKBAR_H in *. rewrite u32_small by lia.
  eapply returns_mono; [apply (painted_loop f (fun j a b => if b <? j then Some (tone a b) else None)
    (fun j a b => if b =? j then Some (tone a b) else None)); [exact Hs|..]|].
  - intros a b [_ Hb]. destruct (Z.ltb_spec b 0); [lia|reflexivity].
  - intros j m1 Hj Hs1. apply wallpaper_row_returns; [exact Hs1|lia].
  - intros j a b Hj Hab. unfold over. destruct (Z.eqb_spec b j), (Z.ltb_spec b j), (Z.ltb_spec b (j + 1)); try lia; reflexivity.
  - intros m' Hp. rewrite Z.max_r in Hp by lia. exact Hp.
Qed.
End Wallpaper.

(** ** The clock *)

(** Two digits for the hours and two for the minutes of a day. *)
Lemma format_clock_reads t :
  let minutes := (timer_uptime_ms t / 60000) mod 1440 in
  let digits := format_clock t in
  length digits = 5%nat /\ nth 2 digits 0 = 58 /\
  60 * (10 * (nth 0 digits 0 - 48) + (nth 1 digits 0 - 48)) +
    (10 * (nth 3 digits 0 - 48) + (nth 4 digits 0 - 48)) = minutes.
Proof.
  cbv zeta. unfold format_clock. cbn [nth length]. split; [reflexivity|]. split; [reflexivity|].
  set (ms := timer_uptime_ms t).
  assert (H : 0 <= (ms / 3600000) mod 24 < 24 /\ 0 <= (ms / 60000) mod 60 < 60) by (split; apply Z.mod_pos_bound; lia).
  rewrite !u8_small by (Z.to_euclidean_division_equations; lia).
  replace 3600000 with (60000 * 60) by reflexivity. rewrite <- Z.div_div by lia.
  generalize dependent (ms / 60000). intros q _. Z.to_euclidean_division_equations. lia.
Qed.

(** ** A small desktop

    The screen and the two windows of [Wm.v], with a third one over the icons; the system
    of [Shell.v]. *)
Definition small_desktop : desktop :=
  mk_desktop THEME_DARK COL_ACCENT false false false false false false 0 0 0 (replicate 48 0) 2 false.
Definition small_wm : wm := run_event demo_screen demo_wm (Create demo_perf (Some (chars "C")) 20 180 200 200).
Definition small_world : @world Z numbered port_log :=
  (small_desktop, mk_ui small_wm (small_sys demo_vfs) (replicate 256 0)).

Lemma small_sane : sane (snd small_world).
Proof.
  split; [|exists [[]]; exact zero_term_shows]. apply event_coherent; [exact demo_coherent|].
  intros [].
Qed.

Lemma taskbar_drawn_buttons_act_witness :
  over_shape (press 680 690) (Round 628 680 100 32 6 0xFF1A2832) = true /\
  desktop_handle_mouse demo_screen demo_perf (press 680 690) small_world =
    consumed (on_wm (fun s => wm_restore_or_focus s (Some 1%nat)) (bar small_world)).
Proof.
  split; [vm_compute; reflexivity|].
  apply (proj2 (taskbar_drawn_buttons_act demo_screen demo_perf (press 680 690) small_world (proj1 small_sane) eq_refl eq_refl)
    1 1%nat (Round 628 680 100 32 6 0xFF1A2832)); [lia|reflexivity|vm_compute; constructor|reflexivity].
Defined.

(** The pointer is over the tile of the calculator. *)
Lemma start_menu_tiles_act_witness :
  let w : @world Z numbered port_log := on_desk desktop_toggle_launcher small_world in
  desktop_handle_mouse demo_screen demo_perf (press 350 250) w = launch_and_consume demo_screen demo_perf 3 (cleared w).
Proof.
  apply (start_menu_tiles_act demo_screen demo_perf (press 350 250) (on_desk desktop_toggle_launcher small_world) 3
    (Round 314 214 84 76 10 COL_HOVER)); try reflexivity; [unfold fits_taskbar, TASKBAR_H; cbn; lia|lia].
Defined.

(** The window that covers the icon of the terminal does not get the press. *)
Lemma icon_press_opens_witness :
  wm_at small_wm 40 220 = Some 2%nat /\
  desktop_handle_mouse demo_screen demo_perf (press 40 220) small_world =
    launch_and_consume demo_screen demo_perf APP_TERMINAL (cleared small_world).
Proof.
  split; [vm_compute; reflexivity|].
  apply (icon_press_opens demo_screen demo_perf (press 40 220) small_world (chars "Terminal") APP_TERMINAL 28 200);
    try (cbn; lia); try reflexivity; [|repeat split].
  unfold g_icons. rewrite !elem_of_cons. auto.
Defined.

(** A screen of 4 by 50 pixels: the bloom of column 0 colours the whole row 0. *)
Definition tiny_fb : fb := mk_fb 0x1000 4 50 16 32 false 0.
Definition tiny_surface : mem := mem_of_list 0x1000 (replicate 800 0).

Lemma draw_wallpaper_paints_witness :
  returns (draw_wallpaper tiny_fb small_desktop tiny_surface) (fun m' =>
    pixel tiny_fb m' 3 0 = Done 0xFF0E4A6A /\ pixel tiny_fb m' 3 1 <> Done 0xFF0E4A6A /\
    pixel tiny_fb m' 3 2 = pixel tiny_fb tiny_surface 3 2).
Proof.
  assert (Hs : surf tiny_fb tiny_surface).
  { split; [cbn; lia|cbn; lia|]. apply (mem_of_list_mapped 0x1000 (replicate 800 0)); vm_compute; discriminate. }
  destruct (draw_wallpaper_paints tiny_fb small_desktop tiny_surface Hs) as (m' & E & Hp); [unfold TASKBAR_H; cbn; lia|].
  exists m'. split; [exact E|]. rewrite !(pt_pixel _ _ _ _ Hp) by (unfold on_screen; cbn; lia).
  repeat split; try discriminate; reflexivity.
Defined.
