(* ===== verification/Render.v ===== *)
(** * Drawing stays on the surface

    What the theorems of [Framebuffer.v] say of single shapes within range is here lifted
    to every drawing call of the kernel, at any coordinates: windows hang over the edges of
    the screen, and menus open where the pointer is.  Each call returns, and changes no
    byte outside the surface it draws to. *)
From Stdlib Require Import ZArith Lia Bool String.
From stdpp Require Import base tactics option list numbers gmap.
From S2P Require Import Prelude CInt CString PageAlloc BlockAlloc Io Pmm Mem Adaptive Timer Mouse Cursor Framebuffer Wm Vfs VfsOps VfsLive Terminal Shell Apps Desktop.
From S2P Require Heap Sched.
#[local] Close Scope string_scope.
#[local] Open Scope Z_scope.

(** ** Drawing actions *)
Section Confined.
Context (f : fb).

(** Nothing but the surface changed, and nothing was unmapped. *)
Definition confined (m m' : mem) : Prop :=
  same_outside (surface f) (pitch f * height f) m m' /\ forall q n, mapped m q n -> mapped m' q n.

Lemma confined_refl m : confined m m.
Proof. split; [intros a _; reflexivity|auto]. Qed.

Lemma confined_trans m1 m2 m3 : confined m1 m2 -> confined m2 m3 -> confined m1 m3.
Proof.
  intros [O1 M1] [O2 M2]. split; [|auto]. intros a Ha. rewrite O2, O1 by exact Ha. reflexivity.
Qed.

Lemma surf_confined m m' : surf f m -> confined m m' -> surf f m'.
Proof. intros [H1 H2 H3] [_ Hm]. split; [exact H1|exact H2|exact (Hm _ _ H3)]. Qed.

Lemma painted_confined m m' g : surf f m -> painted f m m' g -> confined m m'.
Proof.
  intros Hs Hp. assert (Ho : same_outside (surface f) (pitch f * height f) m m').
  { intros a Ha. apply (pt_rest _ _ _ _ Hp). intros x y Hxy _ Hin. destruct (pixel_range f m x y Hs Hxy). lia. }
  split; [exact Ho|]. intros q n Hq a Ha. destruct (decide (surface f <= a < surface f + pitch f * height f)) as [Hin|Hout].
  - apply (sf_mapped _ _ (pt_surf _ _ _ _ Hp)). exact Hin.
  - rewrite Ho by lia. apply Hq, Ha.
Qed.

(** [g] is a drawing action: on any memory with the surface it returns and is confined. *)
Definition paints (g : mem -> outcome mem) : Prop := forall m, surf f m -> returns (g m) (confined m).

Lemma paints_ret : paints (fun m => mret m).
Proof. intros m _. apply returns_Done, confined_refl. Qed.

Lemma paints_bind g h : paints g -> paints h -> paints (fun m => m1 ← g m; h m1).
Proof.
  intros Hg Hh m Hs. apply returns_bind. eapply returns_mono; [exact (Hg m Hs)|]. intros m1 H1.
  eapply returns_mono; [exact (Hh m1 (surf_confined _ _ Hs H1))|]. intros m2 H2. exact (confined_trans _ _ _ H1 H2).
Qed.

(** A step that computes something else in between. *)
Lemma paints_read {A} (r : outcome A) (a : A) g : r = Done a -> paints (g a) -> paints (fun m => x ← r; g x m).
Proof. intros -> Hg m. rewrite bind_Done. exact (Hg m). Qed.

Lemma paints_if (b : bool) g h : paints g -> paints h -> paints (fun m => if b then g m else h m).
Proof. destruct b; auto. Qed.

Lemma paints_for lo hi body :
  (forall i, lo <= i < hi -> paints (body i)) -> paints (for_to lo hi body).
Proof.
  intros Hb m Hs. apply (for_to_inv_max (fun _ => confined m)); [apply confined_refl| |auto].
  intros i m1 Hi H1. eapply returns_mono; [exact (Hb i Hi m1 (surf_confined _ _ Hs H1))|].
  intros m2 H2. exact (confined_trans _ _ _ H1 H2).
Qed.

Definition in_i32 (z : Z) : Prop := - 2 ^ 31 <= z < 2 ^ 31.

(** ** The primitives, at any coordinates *)
Lemma put_pixel_paints x y c : in_i32 x -> in_i32 y -> paints (fun m => fb_put_pixel f m x y c).
Proof.
  intros Hx Hy m Hs. eapply returns_mono; [exact (fb_put_pixel_returns f m x y c Hs Hx Hy)|].
  intros m' Hp. exact (painted_confined _ _ _ Hs Hp).
Qed.

Lemma fill_rect_paints x y w h c : paints (fun m => fb_fill_rect f m x y w h c).
Proof.
  apply paints_for. intros j _. apply paints_for. intros i _. apply put_pixel_paints; apply i32_range.
Qed.

Lemma rounded_rect_paints x y w h r c : paints (fun m => fb_fill_rounded_rect f m x y w h r c).
Proof.
  unfold fb_fill_rounded_rect. apply paints_if; [apply fill_rect_paints|].
  apply paints_for. intros j _. apply paints_for. intros i _.
  apply paints_if; [apply put_pixel_paints; apply i32_range|apply paints_ret].
Qed.

Lemma draw_rect_paints x y w h c : in_i32 x -> in_i32 y -> paints (fun m => fb_draw_rect f m x y w h c).
Proof.
  intros Hx Hy. apply paints_bind; apply paints_for; intros i _; apply paints_bind; apply put_pixel_paints;
    first [exact Hx|exact Hy|apply i32_range].
Qed.

Lemma char_paints x y c fg bg : paints (fun m => fb_draw_char f m x y c fg bg).
Proof.
  destruct (glyph_of_Done c) as [E Hl]. apply (paints_read _ _ _ E), paints_for. intros row Hrow.
  destruct (arr_get_in (glyph c) row ltac:(lia)) as [bits Eb]. apply (paints_read _ _ _ Eb), paints_for. intros col _.
  cbv zeta. apply paints_if; [apply put_pixel_paints; apply i32_range|apply paints_ret].
Qed.

Lemma string_paints s x y fg bg : paints (fun m => fb_draw_string f m x y s fg bg).
Proof.
  unfold fb_draw_string. generalize x at 2. revert y. induction s as [|c s IH]; intros y cx; cbn [draw_chars]; [apply paints_ret|].
  apply paints_if; [apply IH|]. apply paints_bind; [apply char_paints|apply IH].
Qed.

Lemma shape_paints p : paints (fun m => draw_shape f m p).
Proof.
  destruct p; cbn [draw_shape];
    [apply fill_rect_paints|apply rounded_rect_paints|apply draw_rect_paints; apply i32_range|apply string_paints].
Qed.

Lemma shapes_paint l : paints (fun m => draw_shapes f m l).
Proof. induction l as [|p l IH]; cbn [draw_shapes]; [apply paints_ret|apply paints_bind; [apply shape_paints|exact IH]]. Qed.
End Confined.

Create HintDb paints.
#[export] Hint Resolve paints_ret paints_bind paints_if fill_rect_paints rounded_rect_paints char_paints
  string_paints shape_paints shapes_paint : paints.

(** Takes a drawing action apart, down to calls with a lemma. *)
Ltac paint :=
  repeat lazymatch goal with
    | |- paints _ (fun m => mbind _ _) => apply paints_bind
    | |- paints _ (fun m => if _ then _ else _) => apply paints_if
    | |- paints _ _ => solve [auto with paints nocore]
    end.

(** ** Windows and applications *)
Section Apps.
Context (f : fb).

Lemma caption_btn_paints x y fill g : paints f (fun m => draw_caption_btn f m x y fill g).
Proof. unfold draw_caption_btn. paint. Qed.

(** The corner of a window, and the one it is restored to, are where a pointer can have
    put them. *)
Definition placed (v : window) : Prop :=
  in_i32 (wx v) /\ in_i32 (wy v) /\ in_i32 (restore_x v) /\ in_i32 (restore_y v).

Lemma chrome_paints call perf s i :
  placed (win s i) -> (draw (win s i) <> 0 -> paints f (call (draw (win s i)) i s)) ->
  paints f (fun m => draw_window_chrome call f perf s m i).
Proof.
  intros (Hx & Hy & _) Hd. unfold draw_window_chrome. cbv zeta.
  pose proof (draw_rect_paints f (wx (win s i)) (wy (win s i)) (ww (win s i)) (wh (win s i)) 0xFF2A4552 Hx Hy) as Hb.
  assert (Hc : paints f (fun m => if negb (draw (win s i) =? 0) then call (draw (win s i)) i s m else mret m)).
  { destruct (Z.eqb_spec (draw (win s i)) 0); cbn [negb]; [apply paints_ret|auto]. }
  pose proof caption_btn_paints. repeat (apply paints_bind; [paint|]). exact Hc.
Qed.

Lemma wm_render_paints call perf s :
  (forall i, placed (win s i) /\ (draw (win s i) <> 0 -> paints f (call (draw (win s i)) i s))) ->
  paints f (fun m => wm_render call f perf s m).
Proof.
  intros Hw. unfold wm_render. generalize (render_order s). intros l.
  assert (H : forall l g, paints f g ->
    paints f (fun m => foldl (fun r i => m ← r; draw_window_chrome call f perf s m i) (g m) l)).
  { clear l. induction l as [|i l IH]; intros g Hg; cbn [foldl]; [exact Hg|].
    apply (IH (fun m => m1 ← g m; draw_window_chrome call f perf s m1 i)). apply paints_bind; [exact Hg|].
    destruct (Hw i). apply chrome_paints; assumption. }
  exact (H l (fun m => mret m) (paints_ret f)).
Qed.

Lemma texts_paint v l : paints f (fun m => draw_texts f m v l).
Proof.
  induction l as [|[[[dx dy] s] c] l IH]; cbn [draw_texts]; [apply paints_ret|].
  apply paints_bind; [apply string_paints|exact IH].
Qed.

(** *** The terminal

    The prompt is built in 160 characters. *)
Definition short_prompt (cwd : list Z) : Prop := (length cwd <= 25)%nat.

Lemma term_draw_paints {P K D} v (s : @sys P K D) h i :
  shows (term s) h -> typed (term s) i -> short_prompt (cwd (fs s)) -> paints f (fun m => term_draw f m v s).
Proof.
  intros Hs [Hi _] Hc. unfold term_draw. cbv zeta.
  assert (Ep : exists p, prompt s = Done p).
  { unfold prompt. rewrite (arr_str_holds _ _ _ Hi), bind_Done. pose proof (holds_length _ _ _ Hi) as Hl.
    eexists. apply buf_str_ok. unfold short_prompt, TERM_IN, vfs_cwd in *. literal_lengths. lia. }
  destruct Ep as [p Ep]. apply paints_bind; [|apply (paints_read f _ _ (fun p m => _) Ep), string_paints].
  destruct (sh_rows _ _ Hs) as (g & Hr & _). apply paints_for. intros r Hrow. unfold TERM_ROWS in Hrow.
  destruct (rows_get _ _ (Z.to_nat r) Hr ltac:(lia)) as (a & Ea & Ha). rewrite Z2Nat.id in Ea by lia.
  apply (paints_read f _ _ (fun l m => _) Ea), (paints_read f _ _ (fun l m => _) (arr_str_holds _ _ _ Ha)), string_paints.
Qed.

(** *** The file manager *)
Lemma fm_line_returns {K} (s : @vfs K) i n :
  browsable s -> (i < count s)%nat -> nodes s !! i = Some n -> exists l, fm_line n = Done l.
Proof.
  intros Hb Hi En. pose proof (desk_names _ i Hb Hi) as Hl. rewrite (name_at_Some _ _ _ En) in Hl. unfold fm_line.
  unfold nm in Hl. destruct (Nat.leb_spec 20 (length (cstr (name n)))); [lia|]. eexists. reflexivity.
Qed.

Lemma fm_rows_paints {K} (s : @vfs K) x y p l :
  browsable s -> sibs (nodes s) p l -> (forall i, i ∈ l -> (i < count s)%nat) ->
  paints f (fun m => fm_rows f s m x y p).
Proof.
  intros Hb Hp Hl m Hs. unfold fm_rows.
  apply (loop_total
    (fun '(c, row, m') => confined f m m' /\ 0 <= row <= 16 /\
       exists l, sibs (nodes s) c l /\ forall i, i ∈ l -> (i < count s)%nat)
    (confined f m) (fun '(_, row, _) => Z.to_nat (16 - row))).
  - intros [[c row] m'] (Hm & Hr & l' & Hc & Hl'). destruct c as [i|]; [|apply returns_Done; exact Hm].
    destruct (Z.leb_spec 16 row); [apply returns_Done; exact Hm|].
    destruct l' as [|j l']; [discriminate|]. destruct Hc as ([= <-] & n & En & Hc).
    rewrite (node_at_Done _ _ _ En), bind_Done.
    destruct (fm_line_returns s i n Hb (Hl' i ltac:(left)) En) as [t Et]. rewrite Et, bind_Done. apply returns_bind.
    eapply returns_mono; [apply (string_paints f _ _ _ _ _ m' (surf_confined _ _ _ Hs Hm))|].
    intros m2 H2. apply returns_Done. rewrite i32_small by lia. split; [|lia].
    split; [exact (confined_trans _ _ _ _ Hm H2)|]. split; [lia|]. exists l'. split; [exact Hc|].
    intros k Hk. apply Hl'. right. exact Hk.
  - split; [apply confined_refl|]. split; [lia|]. eauto.
  - cbn. lia.
Qed.

Lemma fm_draw_paints {K} (s : @vfs K) path p v :
  browsable s -> holds 256 path p -> (length p <= 229)%nat -> paints f (fun m => fm_draw f s path m v).
Proof.
  intros Hb Hp Hl. unfold fm_draw. cbv zeta. apply paints_bind; [paint|].
  apply (paints_read f _ _ (fun p m => _) (arr_str_holds _ _ _ Hp)). do 2 (apply paints_bind; [paint|]).
  destruct (br_tree _ Hb) as [kids Ht].
  destruct (desk_cwd _ Hb) as [Hc Hcl].
  destruct (vfs_resolve_returns s kids p Ht Hc) as (r & Er & Hr); [apply Hp|lia|].
  apply (paints_read f _ _ (fun r m => _) Er). destruct r as [d|]; [|paint]. destruct (tree_node _ _ _ Ht Hr) as [n En].
  apply (paints_read f _ _ (fun n m => _) (node_at_Done _ _ _ En)). apply paints_if; [paint|].
  apply paints_bind; [|destruct (child n); paint].
  apply (fm_rows_paints s _ _ (child n) (kids d) Hb (t_kids _ _ Ht d n Hr En)).
  intros i Hi. apply (t_parent _ _ Ht d i Hi).
Qed.

(** *** The task manager *)
Record reportable (info : taskinfo) : Prop := {
  rp_freq : 0 < g_freq (i_timer (i_sys info));
  rp_heap : 0 <= Heap.hs_used (i_heap info) < 2 ^ 64 /\ 0 <= Heap.hs_total (i_heap info) < 2 ^ 64;
  rp_task : forall t, i_task info = Some t ->
    0 <= Sched.id t < 2 ^ 64 /\ 0 <= Sched.ticks t < 2 ^ 64 /\ exists s, holds 32 (Sched.name t) s
}.

Lemma pad_length k s : length (pad_to k s) = Nat.max k (length s).
Proof. unfold pad_to. rewrite length_app, length_replicate. lia. Qed.

Lemma uptime_range t : 0 < g_freq t -> 0 <= timer_uptime_ms t < 2 ^ 64.
Proof.
  intros Hf. unfold timer_uptime_ms. pose proof (u64_range (g_ticks t * 1000)) as Hu. split; [apply Z.div_pos; lia|].
  apply Z.div_lt_upper_bound; nia.
Qed.

Lemma task_line_returns t :
  0 <= Sched.id t < 2 ^ 64 -> 0 <= Sched.ticks t < 2 ^ 64 -> (exists s, holds 32 (Sched.name t) s) ->
  exists l, task_line t = Done l.
Proof.
  intros Hi Ht [s Hs]. unfold task_line. rewrite (arr_str_holds _ _ _ Hs), bind_Done. pose proof (holds_length _ _ _ Hs) as Hl.
  eexists. apply buf_str_ok. pose proof (utoa_str_word _ Hi) as Hu1. pose proof (utoa_str_word _ Ht) as Hu2.
  assert (Hst : (length (state_name (Sched.state t)) <= 5)%nat) by (destruct (Sched.state t); cbn; lia).
  rewrite !length_app, pad_length, !length_app, pad_length, length_app, pad_length. lia.
Qed.

Lemma tm_draw_paints info v : reportable info -> paints f (fun m => tm_draw f info m v).
Proof.
  intros [Hf [Hh1 Hh2] Ht]. pose proof (utoa_str_word _ (uptime_range _ Hf)) as Hup.
  assert (Hmem : (length (utoa_str (u64 (st_free_pages (i_mem (i_sys info)) * PAGE_SIZE) / (1024 * 1024)) 10) <= 20)%nat).
  { apply utoa_str_word. pose proof (u64_range (st_free_pages (i_mem (i_sys info)) * PAGE_SIZE)).
    split; [apply Z.div_pos; lia|apply Z.div_lt_upper_bound; lia]. }
  pose proof (utoa_str_word _ Hh1) as Hu. pose proof (utoa_str_word _ Hh2) as Htot.
  assert (Hpf : (length (adaptive_profile_name (i_perf (i_sys info))) <= 21)%nat)
    by (unfold adaptive_profile_name; destruct (profile _); cbn; lia).
  unfold tm_draw. cbv zeta. apply paints_bind; [paint|].
  do 4 (eapply (paints_read f _ _ (fun b m => _)); [apply buf_str_ok; literal_lengths; lia|apply paints_bind; [paint|]]).
  apply paints_bind; [paint|]. destruct (i_task info) as [t|] eqn:Et.
  - destruct (Ht t eq_refl) as (H1 & H2 & H3). destruct (task_line_returns t H1 H2 H3) as [l El].
    intros m Hs. rewrite El, bind_Done. apply returns_bind, returns_bind.
    eapply returns_mono; [exact (string_paints f _ _ _ _ _ m Hs)|]. intros m1 Hm1. apply returns_Done.
    eapply returns_mono; [exact (string_paints f _ _ _ _ _ m1 (surf_confined _ _ _ Hs Hm1))|].
    intros m2 Hm2. exact (confined_trans _ _ _ _ Hm1 Hm2).
  - intros m. rewrite bind_Done. apply string_paints.
Qed.
End Apps.

(** ** Windows keep what drawing relies on *)

(** A window whose contents some application draws, and whose keys go to the terminal. *)
Record drawable (v : window) : Prop := {
  dw_placed : placed v;
  dw_draw : draw v ∈ [0; TERM_DRAW; CALC_DRAW; SETTINGS_DRAW; FM_DRAW; TM_DRAW];
  dw_key : on_key v = 0 \/ on_key v = TERM_KEY
}.

Definition all_drawable (s : wm) : Prop := Forall drawable (windows s).

Lemma zero_drawable : drawable zero_window.
Proof. split; [unfold placed, in_i32; cbn; lia|left|left; reflexivity]. Qed.

Lemma win_drawable s i : all_drawable s -> drawable (win s i).
Proof.
  intros Ha. unfold win. destruct (windows s !! i) as [v|] eqn:E; [|exact zero_drawable].
  exact (Forall_lookup_1 _ _ _ _ Ha E).
Qed.

Lemma init_drawable s : all_drawable (wm_init s).
Proof. apply Forall_replicate, zero_drawable. Qed.

Lemma upd_drawable s i g : all_drawable s -> (drawable (win s i) -> drawable (g (win s i))) -> all_drawable (upd_win i g s).
Proof.
  intros Ha Hg. apply Forall_alter; [exact Ha|]. intros v Ev Hv. rewrite <- (win_lookup _ _ _ Ev) in *. exact (Hg Hv).
Qed.

Lemma geometry_drawable x y w h v : in_i32 x -> in_i32 y -> drawable v -> drawable (set_geometry x y w h v).
Proof. intros Hx Hy [(_ & _ & Hp) Hd Hk]. split; [split; [exact Hx|split; [exact Hy|exact Hp]]|exact Hd|exact Hk]. Qed.

Lemma flags_drawable a st fo v : drawable v -> drawable (set_flags a st fo v).
Proof. intros [Hp Hd Hk]. split; assumption. Qed.

Lemma save_drawable v : drawable v -> drawable (save_geometry v).
Proof. intros [(Hx & Hy & _) Hd Hk]. split; [split; [exact Hx|split; [exact Hy|split; assumption]]|exact Hd|exact Hk]. Qed.

Lemma change_drawable f st v : drawable v -> drawable (change_state f st v).
Proof.
  intros Hv. unfold change_state. apply flags_drawable. destruct (_ && _); [|destruct (_ && _); [|exact Hv]].
  - apply geometry_drawable; [unfold in_i32; lia..|apply save_drawable, Hv].
  - apply geometry_drawable; [apply Hv..|exact Hv].
Qed.

Lemma focus_drawable s w : all_drawable s -> all_drawable (wm_focus s w).
Proof.
  intros Ha. unfold wm_focus. set (s1 := set_windows _ s). assert (H1 : all_drawable s1).
  { apply Forall_map. eapply Forall_impl; [exact Ha|]. intros v Hv. apply flags_drawable, Hv. }
  destruct w as [i|]; [|exact H1]. cbv zeta.
  assert (H2 : all_drawable (set_focused (Some i) (upd_win i (set_is_focused true) s1)))
    by (apply upd_drawable; [exact H1|apply flags_drawable]).
  case_decide; [|exact H2]. apply upd_drawable; [exact H2|apply flags_drawable].
Qed.

Lemma create_drawable p s ttl x y w h :
  in_i32 x -> in_i32 y -> all_drawable s -> all_drawable (snd (wm_create p s ttl x y w h)).
Proof.
  intros Hx Hy Ha. unfold wm_create. destruct (_ <=? _); [exact Ha|]. destruct (free_slot _ _) as [i|]; [|exact Ha].
  apply focus_drawable. apply (upd_drawable s i (fun _ => new_window ttl x y w h)); [exact Ha|]. intros _.
  split; [split; [exact Hx|split; [exact Hy|split; assumption]]|left|left; reflexivity].
Qed.

Lemma restore_drawable s w : all_drawable s -> all_drawable (wm_restore_or_focus s w).
Proof.
  intros Ha. unfold wm_restore_or_focus. destruct w as [i|]; [|exact Ha]. destruct (_ && _); [|apply focus_drawable, Ha].
  apply (upd_drawable s i); [exact Ha|apply flags_drawable].
Qed.

Lemma set_state_drawable f s w st : all_drawable s -> all_drawable (wm_set_state f s w st).
Proof. intros Ha. destruct w as [i|]; [|exact Ha]. apply upd_drawable; [exact Ha|apply change_drawable]. Qed.

Lemma snap_rect_i32 f l x y w h : snap_rect f l = Some (x, y, w, h) -> in_i32 x /\ in_i32 y.
Proof.
  pose proof (i32_range (width f)). pose proof (i32_range (i32 (height f) - TASKBAR_H)). unfold snap_rect, in_i32.
  repeat case_match; intros [= <- <- <- <-]; Z.to_euclidean_division_equations; lia.
Qed.

Lemma snap_drawable f s w l : all_drawable s -> all_drawable (wm_snap f s w l).
Proof.
  intros Ha. unfold wm_snap. destruct w as [i|]; [|exact Ha]. set (s1 := if _ && _ then _ else s).
  assert (H1 : all_drawable s1) by (unfold s1; destruct (_ && _); [apply upd_drawable; [exact Ha|apply save_drawable]|exact Ha]).
  destruct (l =? 6); [apply set_state_drawable, H1|]. destruct (snap_rect f l) as [[[[x y] w] h]|] eqn:E.
  - destruct (snap_rect_i32 _ _ _ _ _ _ E) as [Hx Hy]. apply upd_drawable; [|apply flags_drawable].
    apply upd_drawable; [exact H1|apply geometry_drawable; assumption].
  - apply upd_drawable; [exact H1|apply flags_drawable].
Qed.

Lemma drag_drawable f s m d : all_drawable s -> all_drawable (wm_drag f s m d).
Proof.
  intros Ha. unfold wm_drag. destruct (left m).
  - apply upd_drawable; [|apply geometry_drawable; apply i32_range].
    case_decide; [exact (set_state_drawable f s (Some d) WIN_NORMAL Ha)|exact Ha].
  - change (all_drawable (if x m <=? 12 then wm_snap f s (Some d) 0 else
      if i32 (i32 (width f) - 12) <=? x m then wm_snap f s (Some d) 1 else
      if y m <=? 8 then wm_snap f s (Some d) 6 else s)).
    repeat case_match; first [apply snap_drawable, Ha|exact Ha].
Qed.

Lemma caption_drawable f s m h : all_drawable s -> all_drawable (caption_press f s m h).
Proof.
  intros Ha. unfold caption_press. cbv zeta. destruct (_ && _); [|exact Ha]. destruct (_ && _).
  { unfold wm_destroy. destruct (negb _); [exact Ha|].
    assert (H1 : all_drawable (upd_win h (set_active false) s)) by (apply upd_drawable; [exact Ha|apply flags_drawable]).
    case_decide; exact H1. }
  destruct (_ && _); [case_decide; apply set_state_drawable, Ha|]. destruct (_ && _); [|exact Ha].
  assert (H1 : all_drawable (upd_win h (set_state WIN_MINIMIZED) s)) by (apply upd_drawable; [exact Ha|apply flags_drawable]).
  case_decide; exact H1.
Qed.

Lemma mouse_drawable f s m : all_drawable s -> all_drawable (wm_handle_mouse f s m).
Proof.
  intros Ha. unfold wm_handle_mouse. destruct (drag_target s); [apply drag_drawable, Ha|]. destruct (negb _); [exact Ha|].
  destruct (wm_at _ _ _); [|exact Ha]. apply caption_drawable, focus_drawable, Ha.
Qed.

(** ** The pointer *)
Section Screen.
Context (f : fb).

(** Coordinates on the screen are small enough for the line loop. *)
Definition small_screen : Prop := width f <= 2 ^ 27 /\ height f <= 2 ^ 27.

Lemma cursor_paints s :
  small_screen -> Mouse.inv (width f) (height f) s -> paints f (fun m => mouse_draw_cursor f s m).
Proof.
  intros [Hw Hh] Hi. destruct (Mouse.inv_x _ _ _ Hi) as [Hx0 Hx1]. destruct (Mouse.inv_y _ _ _ Hi) as [Hy0 Hy1].
  unfold mouse_draw_cursor. cbv zeta. set (x := Mouse.x (g_mouse s)) in *. set (y := Mouse.y (g_mouse s)) in *.
  apply paints_bind.
  - apply paints_for. intros i _. apply paints_bind; [apply put_pixel_paints; [unfold in_i32; lia|apply i32_range]|].
    apply paints_for. intros j _. apply put_pixel_paints; apply i32_range.
  - intros m Hs. rewrite !i32_small by lia.
    eapply returns_mono; [apply (fb_draw_line_returns f m x y (x + 5) (y + 12) _ Hs); lia|].
    intros m' (pts & _ & Hp). exact (painted_confined _ _ _ _ Hs Hp).
Qed.

(** ** The desktop *)
Lemma wallpaper_paints d : paints f (fun m => draw_wallpaper f d m).
Proof.
  apply paints_for. intros y _ m Hs. unfold wallpaper_row. apply returns_bind.
  apply (for_to_inv_max (fun _ '(m1, _) => confined f m m1)); [apply confined_refl| |].
  - intros x [m1 c] _ H1. cbv zeta. apply returns_bind.
    eapply returns_mono; [apply (put_pixel_paints f (i32 x) (i32 y) _ (i32_range _) (i32_range _) m1 (surf_confined _ _ _ Hs H1))|].
    intros m2 H2. apply returns_Done. exact (confined_trans _ _ _ _ H1 H2).
  - intros [m1 c] H1. apply returns_Done. exact H1.
Qed.

Lemma taskbar_paints d s t q : holds 48 (g_search_q d) q -> paints f (fun m => draw_taskbar f d s t m).
Proof.
  intros Hq. unfold draw_taskbar. cbv zeta. destruct (g_search d).
  - apply (paints_read f _ _ (fun q m => _) (arr_str_holds _ _ _ Hq)). paint.
  - apply (paints_read f _ _ (fun q m => _) (eq_refl : mret (chars "Search H3OS") = Done _)). paint.
Qed.

(** The surface that is shown is mapped too. *)
Definition shown_mapped (m : mem) : Prop := mapped m (pixels f) (pitch f * height f).

Lemma swap_returns m :
  surf f m -> shown_mapped m -> returns (fb_swap f m) (fun m' =>
    same_outside (pixels f) (pitch f * height f) m m' /\ forall q n, mapped m q n -> mapped m' q n).
Proof.
  intros [Hsz Hp Hm] Hv. unfold fb_swap. destruct (double_buffered f) eqn:Ed; cbn [negb].
  2: { apply returns_Done. split; [intros a _; reflexivity|auto]. }
  unfold surface in Hm. rewrite Ed in Hm. rewrite u64_small by nia. unfold memcpy.
  assert (Hn : 0 <= pitch f * height f) by nia.
  apply (for_to_inv (fun _ m' => same_outside (pixels f) (pitch f * height f) m m' /\ forall q n, mapped m q n -> mapped m' q n));
    [exact Hn|split; [intros a _; reflexivity|auto]| |auto].
  intros i m1 Hi [Ho Hk]. destruct (Hk _ _ Hm (back f + i)) as [b Eb]; [lia|].
  rewrite (copy_byte_Done _ _ _ b Eb) by (apply (Hk _ _ Hv); lia). apply returns_Done. split.
  - intros a Ha. rewrite lookup_insert_ne by lia. apply Ho, Ha.
  - intros q n Hq. apply mapped_insert, Hk, Hq.
Qed.

Context {P : Type} `{PA : PageAlloc P} {K : Type} `{BA : BlockAllocLaws K} {D : Type} `{IO : PortIO D}.
Context (perf : perf_settings).
Implicit Types u : @ui P K D.

(** What drawing relies on of the windows, the terminal and the file manager. *)
Record renderable u : Prop := {
  rn_windows : all_drawable (wmgr u);
  rn_term : exists h i, shows (term (shell u)) h /\ typed (term (shell u)) i;
  rn_files : browsable (fs (shell u));
  rn_path : exists p, holds 256 (fm_path u) p /\ (length p <= 229)%nat
}.

Lemma call_draw_paints info u s i :
  renderable u -> reportable info -> drawable (win s i) -> draw (win s i) <> 0 ->
  paints f (call_draw f perf info u (draw (win s i)) i s).
Proof.
  intros [_ (h & t & Hs & Ht) Hb (p & Hp & Hl)] Hr [_ Hd _] Hne. unfold call_draw.
  rewrite !elem_of_cons in Hd. destruct Hd as [E|[->|[->|[->|[->|[->|Hd]]]]]];
    [contradiction|..|destruct (not_elem_of_nil _ Hd)]; cbn [Z.eqb TERM_DRAW CALC_DRAW SETTINGS_DRAW FM_DRAW TM_DRAW Pos.eqb].
  - apply (term_draw_paints f _ _ h t Hs Ht), Hb.
  - apply texts_paint.
  - apply texts_paint.
  - exact (fm_draw_paints f _ _ p _ Hb Hp Hl).
  - exact (tm_draw_paints f info _ Hr).
Qed.

Lemma scene_paints info ms (w : @world P K D) q :
  small_screen -> Mouse.inv (width f) (height f) ms -> renderable (snd w) -> reportable info -> holds 48 (g_search_q (fst w)) q ->
  paints f (fun m => draw_scene f perf info ms w m).
Proof.
  intros Hsm Hms Hu Hi Hq.
  assert (Hwin : paints f (fun m => wm_render (call_draw f perf info (snd w)) f perf (wmgr (snd w)) m)).
  { apply wm_render_paints. intros i. pose proof (win_drawable _ i (rn_windows _ Hu)) as Hd. split; [apply Hd|].
    intros Hne. exact (call_draw_paints info _ _ i Hu Hi Hd Hne). }
  unfold draw_scene. cbv zeta. pose proof (wallpaper_paints (fst w)). pose proof (taskbar_paints (fst w) (wmgr (snd w)) (i_timer (i_sys info)) q Hq).
  pose proof (cursor_paints ms Hsm Hms).
  unfold draw_desktop_icons, draw_brand_watermark, draw_start_menu, draw_action_center, draw_snap_flyout, draw_context_menu.
  cbv zeta. paint.
Qed.

Lemma desktop_render_returns info ms (w : @world P K D) q m :
  surf f m -> shown_mapped m -> small_screen -> Mouse.inv (width f) (height f) ms ->
  renderable (snd w) -> reportable info -> holds 48 (g_search_q (fst w)) q ->
  returns (desktop_render f perf info ms w m) (fun m' =>
    surf f m' /\ shown_mapped m' /\
    forall a, ~ (surface f <= a < surface f + pitch f * height f) -> ~ (pixels f <= a < pixels f + pitch f * height f) ->
      m' !! a = m !! a).
Proof.
  intros Hs Hv Hsm Hms Hu Hi Hq. destruct (scene_paints info ms w q Hsm Hms Hu Hi Hq m Hs) as (m1 & E & H1).
  pose proof (surf_confined _ _ _ Hs H1) as Hs1. pose proof (proj2 H1 _ _ Hv) as Hv1.
  destruct (swap_returns m1 Hs1 Hv1) as (m2 & E2 & Ho & Hk). exists m2. split.
  - unfold desktop_render. rewrite E, bind_Done. exact E2.
  - split; [destruct Hs1 as [Ha Hb Hc]; split; [exact Ha|exact Hb|exact (Hk _ _ Hc)]|]. split; [exact (Hk _ _ Hv1)|].
    intros a Ha1 Ha2. rewrite Ho, (proj1 H1) by lia. reflexivity.
Qed.
End Screen.

(** C30: Drawing a whole desktop returns and stays within the two surfaces: with windows at
    any 32-bit position and of any size, also off the screen or wider than a coordinate can
    express, and whatever popup is open, every byte outside the surface drawn to and the
    surface shown keeps its value, and no unmapped byte is touched.  The surface is at most
    [2 ^ 27] pixels wide and high ([small_screen]).

    The terminal shows any text and the file manager any directory of a file system that is
    [browsable] with [desk_room]: every name in it is shorter than 20 characters, the working
    directory has at most 25, and the path the file manager shows at most 229.  The first
    two are needed: [fm_draw] copies a name with a [strncpy] of 20 that does not terminate a longer
    one, and [term_draw] builds the prompt in an array of 160 without a check; for longer
    ones the code reads and writes out of its arrays, and the model stops with [Fault]. *)
Theorem desktop_render_stays_on_surface {P} `{PA : PageAlloc P} {K} `{BA : BlockAllocLaws K} {D} `{IO : PortIO D}
    f perf info ms (w : @world P K D) query m :
  surf f m -> shown_mapped f m -> small_screen f -> Mouse.inv (width f) (height f) ms ->
  renderable (snd w) -> reportable info -> holds 48 (g_search_q (fst w)) query ->
  returns (desktop_render f perf info ms w m) (fun m' => forall a,
    ~ (surface f <= a < surface f + pitch f * height f) -> ~ (pixels f <= a < pixels f + pitch f * height f) ->
    m' !! a = m !! a).
Proof.
  intros Hs Hv Hsm Hms Hu Hi Hq.
  eapply returns_mono; [exact (desktop_render_returns f perf info ms w query m Hs Hv Hsm Hms Hu Hi Hq)|].
  intros m' (_ & _ & H). exact H.
Qed.

(** ** Witness

    A terminal near the right edge of the integers and above the smallest row, over the
    desktop of [Desktop.v] with every popup open, on a screen of 4 by 50 pixels. *)
Definition far_window : window :=
  mk_window true (take 64 (chars "Terminal" ++ replicate 64 0)) (2 ^ 31 - 20) (- 2 ^ 31) 640 400 0 0 0 0
    0xFF121A20 COL_ACCENT WIN_NORMAL false true TERM_DRAW TERM_KEY G_TERM.
Definition far_wm : wm := mk_wm (far_window :: replicate 31 zero_window) (Some 0%nat) 1 None 0 0 false.
Definition crowded_world : @world Z numbered port_log :=
  (mk_desktop THEME_DARK COL_ACCENT true true true true true false (2 ^ 31 - 1) 40 0 (replicate 48 0) 2 false,
   mk_ui far_wm (small_sys demo_vfs) (replicate 256 0)).
Definition corner_pointer : mouse :=
  mk_driver (mk_mouse 3 30 0 0 false false false false false false false) false false 0 [0; 0; 0].

Lemma crowded_renderable : renderable (snd crowded_world).
Proof.
  split.
  - constructor; [|apply Forall_replicate; exact zero_drawable].
    split; [unfold placed, in_i32; cbn; lia|right; left; reflexivity|right; reflexivity].
  - exists [[]], []. split; [exact zero_term_shows|exact zero_term_typed].
  - exact (lv_dirs _ demo_living).
  - exists []. split; [|cbn; lia]. split; [reflexivity|]. split; [constructor|]. exists (replicate 255 0). reflexivity.
Qed.

Lemma desktop_render_stays_on_surface_witness :
  returns (desktop_render tiny_fb demo_perf (mk_taskinfo small_info (Heap.mk_hstats 0 0 0 0) None)
      corner_pointer crowded_world (<[0x2000 := 7]> tiny_surface))
    (fun m' => m' !! 0x2000 = Some 7 /\ m' !! 0x0FFF = None).
Proof.
  assert (Hm : mapped (<[0x2000 := 7]> tiny_surface) 0x1000 800).
  { apply mapped_insert, (mem_of_list_mapped 0x1000 (replicate 800 0)); vm_compute; discriminate. }
  eapply returns_mono; [apply (desktop_render_stays_on_surface tiny_fb demo_perf (mk_taskinfo small_info (Heap.mk_hstats 0 0 0 0) None)
    corner_pointer crowded_world [] (<[0x2000 := 7]> tiny_surface))|].
  - split; [cbn; lia|cbn; lia|exact Hm].
  - exact Hm.
  - split; cbn; lia.
  - split; cbn; lia.
  - exact crowded_renderable.
  - split; [cbn; lia|cbn; lia|discriminate].
  - split; [reflexivity|]. split; [constructor|]. exists (replicate 47 0). reflexivity.
  - intros m' Hm'. split; rewrite Hm' by (cbn; lia); vm_compute; reflexivity.
Defined.
