(* ===== verification/Main.v ===== *)
(** * Kernel entry: [kernel/core/main.c]

    The event loop of [kernel_idle] over the components it drives: keyboard, mouse, timer,
    scheduler, desktop, windows and terminal; and the last three steps of [kernel_main],
    which put up the desktop.  Interrupts arrive while a frame is drawn and while the loop
    waits for the next one; which, is an argument of the frame. *)
From Stdlib Require Import ZArith Lia Bool String.
From stdpp Require Import base tactics option list numbers gmap.
From S2P Require Import Prelude CInt CString PageAlloc BlockAlloc Io Pmm Keyboard Mem Adaptive Timer Mouse Framebuffer Wm Vfs VfsOps Pe Terminal Shell Apps Desktop.
From S2P Require Services Sched.
#[local] Close Scope string_scope.
#[local] Open Scope Z_scope.

Section Main.
Context {P : Type} `{PA : PageAlloc P} {K : Type} `{BA : BlockAlloc K} {D : Type} `{IO : PortIO D}.
Context (f : fb) (perf : perf_settings) (exec : processor).

(** What the applications report of the memory, the clock and the tasks. *)
Context (report : @world P K D -> timer -> Sched.sched -> taskinfo).

Implicit Types w : @world P K D.
Implicit Types u : @ui P K D.

Record machine := mk_machine {
  keys : kbd;
  pointer : mouse;
  tasks : Sched.sched;
  clock : timer;
  here : @world P K D;
  theme_key : bool;          (* the static variable th of kernel_idle *)
  screen_mem : mem
}.

Definition set_keys (k : kbd) (m : machine) : machine :=
  mk_machine k (pointer m) (tasks m) (clock m) (here m) (theme_key m) (screen_mem m).
Definition set_pointer (p : mouse) (m : machine) : machine :=
  mk_machine (keys m) p (tasks m) (clock m) (here m) (theme_key m) (screen_mem m).
Definition set_tasks (s : Sched.sched) (m : machine) : machine :=
  mk_machine (keys m) (pointer m) s (clock m) (here m) (theme_key m) (screen_mem m).
Definition set_clock (t : timer) (m : machine) : machine :=
  mk_machine (keys m) (pointer m) (tasks m) t (here m) (theme_key m) (screen_mem m).
Definition set_here (w : @world P K D) (th : bool) (m : machine) : machine :=
  mk_machine (keys m) (pointer m) (tasks m) (clock m) w th (screen_mem m).
Definition set_screen_mem (s : mem) (m : machine) : machine :=
  mk_machine (keys m) (pointer m) (tasks m) (clock m) (here m) (theme_key m) s.

Definition info_of (m : machine) w : taskinfo := report w (clock m) (tasks m).

(** ** Interrupts *)
Inductive irq := KeyIrq (sc : Z) | MouseIrq (b : Z) | TimerIrq.

Definition deliver (m : machine) (e : irq) : outcome machine :=
  match e with
  | KeyIrq sc => k ← keyboard_irq (keys m) sc; mret (set_keys k m)
  | MouseIrq b => p ← mouse_irq (Some (width f, height f)) (pointer m) b; mret (set_pointer p m)
  | TimerIrq => mret (set_clock (timer_irq (clock m)) m)
  end.
Fixpoint deliver_all (m : machine) (l : list irq) : outcome machine :=
  match l with [] => mret m | e :: l' => m ← deliver m e; deliver_all m l' end.

(** ** Keys *)
Definition call_key (info : taskinfo) (key : Z) (i : nat) (c : Z) u : outcome ui :=
  if key =? TERM_KEY then s ← term_on_key exec (i_sys info) (shell u) c; mret (set_shell s u) else Fault.

(** One turn of the loop over the keys: a control key of the desktop, or a key for the
    focused window. *)
Definition key_pressed (info : @world P K D -> taskinfo) (c : Z) (s : @world P K D * bool) : outcome (@world P K D * bool) :=
  let '(w, th) := s in
  if c =? 20 then w ← desktop_launch f perf APP_TERMINAL w; mret (w, th)
  else if c =? 12 then mret (on_desk desktop_toggle_launcher w, th)
  else if c =? 14 then mret (on_desk desktop_toggle_snap w, th)
  else if c =? 6 then w ← desktop_launch f perf APP_FILES w; mret (w, th)
  else if c =? 19 then w ← desktop_launch f perf APP_SETTINGS w; mret (w, th)
  else if c =? 4 then
    let th := negb th in
    mret (on_desk (desktop_set_theme (if th then THEME_LIGHT else THEME_DARK)) w, th)
  else u ← wm_handle_key (call_key (info w)) (wmgr (snd w)) c (snd w); mret ((fst w, u), th).

(** [while (keyboard_try_read(&c))]; the ring holds at most 255 characters. *)
Definition handle_keys (info : @world P K D -> taskinfo) : kbd * (@world P K D * bool) -> outcome (kbd * (@world P K D * bool)) :=
  loop 257 (fun '(k, s) =>
    '(r, k) ← keyboard_try_read k;
    match r with
    | None => mret (inr (k, s))
    | Some c => s ← key_pressed info c s; mret (inl (k, s))
    end).

(** ** The mouse: the desktop first, then the windows

    Both call [mouse_get]; they are given the same state, so that no packet arrives between
    the two: the interrupts of a frame come while it is drawn and while it waits. *)
Definition mouse_turn (ms : mouse_state) w : outcome (@world P K D + D) :=
  r ← desktop_handle_mouse f perf ms w;
  match r with
  | Halt d => mret (inr d)
  | Next w | Return w =>
      mret (inl (if desktop_mouse_click_consumed (fst w) then w else on_wm (fun s => wm_handle_mouse f s ms) w))
  end.

(** ** One frame *)
Definition frame_ms : Z := if target_fps perf =? 0 then 16 else 1000 / target_fps perf.

(** [while (timer_uptime_ms() - start < frame_ms) cpu_pause();] the interrupts [irqs i]
    arrive in its turn [i]. *)
Definition wait_frame (fuel : nat) (irqs : nat -> list irq) (m : machine) : outcome machine :=
  let start := timer_uptime_ms (clock m) in
  loop fuel (fun '(i, m) =>
    if u64 (timer_uptime_ms (clock m) - start) <? frame_ms
    then m ← deliver_all m (irqs i); mret (inl (S i, m))
    else mret (inr m)) (O, m).

(** [during] arrive between the handling of the mouse and [mouse_poll_frame]. *)
Definition kernel_frame (fuel : nat) (during : list irq) (waiting : nat -> list irq) (m : machine)
    : outcome (machine + D) :=
  '(k, (w, th)) ← handle_keys (info_of m) (keys m, (here m, theme_key m));
  r ← mouse_turn (mouse_get (pointer m)) w;
  match r with
  | inr d => mret (inr d)
  | inl w =>
      let m := set_keys k (set_here (on_desk (desktop_tick perf) w) th m) in
      s ← Sched.sched_tick (tasks m);
      m ← deliver_all (set_tasks s m) during;
      px ← desktop_render f perf (info_of m (here m)) (pointer m) (here m) (screen_mem m);
      let m := set_pointer (mouse_poll_frame (pointer m)) (set_screen_mem px m) in
      m ← wait_frame fuel waiting m;
      mret (inl m)
  end.

(** The frames of [kernel_idle]; [g_running] is never cleared. *)
Fixpoint kernel_idle (fuel : nat) (frames : list (list irq * (nat -> list irq))) (m : machine)
    : outcome (machine + D) :=
  match frames with
  | [] => mret (inl m)
  | (during, waiting) :: l =>
      r ← kernel_frame fuel during waiting m;
      match r with inr d => mret (inr d) | inl m => kernel_idle fuel l m end
  end.

(** The end of [kernel_main]: [wm_init], [desktop_init], [terminal_open]. *)
Definition boot_desktop w : outcome (@world P K D) :=
  let u := set_wmgr (wm_init (wmgr (snd w))) (snd w) in
  d ← desktop_init (fst w);
  '(_, u) ← terminal_open_ui f perf u;
  mret (d, u).
End Main.

(** ** The loop over the keys *)
Section KeyProofs.
Context {P : Type} `{PA : PageAlloc P} {K : Type} `{BA : BlockAlloc K} {D : Type} `{IO : PortIO D}.
Context (f : fb) (perf : perf_settings) (exec : processor) (info : @world P K D -> taskinfo).
Implicit Types w : @world P K D.

(** The keys of a list in turn. *)
Fixpoint press_keys (q : list Z) (s : @world P K D * bool) : outcome (@world P K D * bool) :=
  match q with [] => mret s | c :: q' => s ← key_pressed f perf exec info c s; press_keys q' s end.

Lemma key_loop_drains q : forall fuel k s, ring k q -> (length q < fuel)%nat ->
  exists k', ring k' [] /\
    loop fuel (fun '(k, s) =>
      '(r, k) ← keyboard_try_read k;
      match r with
      | None => mret (inr (k, s))
      | Some c => s ← key_pressed f perf exec info c s; mret (inl (k, s))
      end) (k, s) = (s' ← press_keys q s; Done (k', s')).
Proof.
  induction q as [|c q IH]; intros [|fuel] k s Hr Hf; cbn [length] in Hf; try lia;
    rewrite loop_S; destruct (keyboard_try_read_returns k _ Hr) as ([r k1] & E & Er & Hr1 & _);
    rewrite E, bind_Done; cbn [head tail] in *; subst r.
  - exists k1. split; [exact Hr1|reflexivity].
  - cbn [press_keys]. destruct (key_pressed f perf exec info c s) as [s1| | |].
    + rewrite !bind_Done. exact (IH fuel k1 s1 Hr1 ltac:(lia)).
    + destruct (IH fuel k1 s Hr1 ltac:(lia)) as (k' & Hk & _). exists k'. split; [exact Hk|reflexivity].
    + destruct (IH fuel k1 s Hr1 ltac:(lia)) as (k' & Hk & _). exists k'. split; [exact Hk|reflexivity].
    + destruct (IH fuel k1 s Hr1 ltac:(lia)) as (k' & Hk & _). exists k'. split; [exact Hk|reflexivity].
Qed.

(** C29: The loop over the keys of a frame does exactly what the waiting characters do one
    after the other, oldest first, and leaves the ring empty: it ends for every content of
    the ring, and fails or hangs only where one of the characters does. *)
Theorem handle_keys_drains k q s :
  ring k q ->
  exists k', ring k' [] /\ handle_keys f perf exec info (k, s) = (s' ← press_keys q s; Done (k', s')).
Proof.
  intros Hr. apply key_loop_drains; [exact Hr|]. pose proof (ring_size _ _ Hr). lia.
Qed.

(** The keys of the desktop; every other key is the focused window's. *)
Definition desktop_key (c : Z) : Prop := c ∈ [20; 12; 14; 6; 19; 4].

(** The keys of the desktop and the mouse keep what opening applications, snapping and the
    buttons of the taskbar keep ([contract] of [Desktop.v]), if the windows' own reaction to
    the mouse does. *)
Section Keeping.
Context (ok free : @ui P K D -> Prop) (C : contract f perf ok free) (query : list Z).

Lemma desktop_key_keeps c w th :
  desktop_key c -> keeping ok query w ->
  returns (key_pressed f perf exec info c (w, th)) (fun '(w', _) => keeping ok query w').
Proof.
  intros Hc Hs. unfold desktop_key in Hc. rewrite !elem_of_cons in Hc.
  assert (Hl : forall app, returns (w' ← desktop_launch f perf app w; mret (w', th)) (fun '(w', _) => keeping ok query w')).
  { intros app. apply returns_bind. eapply returns_mono; [exact (launch_keeps f perf ok free C query app w Hs)|].
    intros w' [Hs' _]. apply returns_Done. exact Hs'. }
  destruct Hc as [->|[->|[->|[->|[->|[->|Hc]]]]]]; cbn [key_pressed Z.eqb Pos.eqb];
    try apply Hl; try (apply returns_Done; first [exact Hs|exact (toggle_keeping ok query w Hs)]). destruct (not_elem_of_nil _ Hc).
Qed.

Lemma mouse_turn_keeps ms w :
  (forall u, ok u -> ok (set_wmgr (wm_handle_mouse f (wmgr u) ms) u)) ->
  keeping ok query w -> (left_pressed ms = true -> free (snd w)) ->
  returns (mouse_turn f perf ms w) (fun r => match r with inl w' => keeping ok query w' | inr _ => left_pressed ms = true end).
Proof.
  intros Hwm Hs Hd. apply returns_bind.
  eapply returns_mono; [exact (handle_mouse_keeps f perf ok free C query ms w Hs Hd)|].
  assert (Hw : forall w', keeping ok query w' ->
    keeping ok query (if desktop_mouse_click_consumed (fst w') then w' else on_wm (fun s => wm_handle_mouse f s ms) w')).
  { intros w' [Hs' Hq]. destruct (desktop_mouse_click_consumed _); split; [exact Hs'|exact Hq|apply Hwm, Hs'|exact Hq]. }
  intros [w'|w'|d] Hr; apply returns_Done; [apply Hw, Hr|apply Hw, Hr|exact Hr].
Qed.
End Keeping.

Lemma desktop_key_returns c w th :
  desktop_key c -> sane (snd w) ->
  returns (key_pressed f perf exec info c (w, th)) (fun '(w', _) => sane (snd w')).
Proof.
  intros Hc Hs. eapply returns_mono; [exact (desktop_key_keeps sane _ (sane_contract f perf) _ c w th Hc (conj Hs eq_refl))|].
  intros [w' th'] Hw. apply Hw.
Qed.

(** ** The mouse *)
Lemma mouse_turn_returns ms w :
  sane (snd w) -> (left_pressed ms = true -> drag_target (wmgr (snd w)) = None) ->
  returns (mouse_turn f perf ms w) (fun r => match r with inl w' => sane (snd w') | inr _ => left_pressed ms = true end).
Proof.
  intros Hs Hd. eapply returns_mono; [apply (mouse_turn_keeps sane _ (sane_contract f perf) (g_search_q (fst w)) ms w)|].
  - intros u [Hc Hh]. split; [apply mouse_coherent, Hc|exact Hh].
  - split; [exact Hs|reflexivity].
  - exact Hd.
  - intros [w'|d] Hr; [apply Hr|exact Hr].
Qed.

Lemma boot_desktop_returns w :
  length (g_search_q (fst w)) = 48%nat -> dragging (wmgr (snd w)) = false ->
  returns (boot_desktop f perf w) (fun w' => sane (snd w') /\ popups_closed w' /\
    g_search_q (fst w') = <[0%nat := 0]> (g_search_q (fst w)) /\
    terminal_opened f perf (set_wmgr (wm_init (wmgr (snd w))) (snd w)) (snd w')).
Proof.
  intros Hq Hd. unfold boot_desktop, desktop_init. rewrite arr_set_Done by lia. rewrite !bind_Done. apply returns_bind.
  set (u := set_wmgr (wm_init (wmgr (snd w))) (snd w)).
  eapply returns_mono; [apply (terminal_open_ui_returns f perf u)|].
  intros [r u'] Hu. apply returns_Done. split; [exact (sane_opened f perf u u' (init_coherent _ Hd) Hu)|].
  split; [repeat split|]. split; [reflexivity|exact Hu].
Qed.

(** ** Sessions

    From the boot on, the pointer and the keys of the desktop in any order.  The left
    button is not pressed again while a window is being dragged. *)
Definition allowed_press (ms : mouse_state) w : Prop :=
  left_pressed ms = true -> drag_target (wmgr (snd w)) = None.

Inductive session : @world P K D -> Prop :=
  | session_boot w w' :
      length (g_search_q (fst w)) = 48%nat -> dragging (wmgr (snd w)) = false ->
      boot_desktop f perf w = Done w' -> session w'
  | session_mouse ms w w' :
      session w -> allowed_press ms w -> mouse_turn f perf ms w = Done (inl w') -> session w'
  | session_key c w th w' th' :
      session w -> desktop_key c -> key_pressed f perf exec info c (w, th) = Done (w', th') -> session w'.

Lemma session_well_formed w : session w -> sane (snd w).
Proof.
  induction 1 as [w w' Hq Hd E|ms w w' _ IH Ha E|c w th w' th' _ IH Hc E].
  - exact (proj1 (returns_eq _ _ _ (boot_desktop_returns w Hq Hd) E)).
  - exact (returns_eq _ _ _ (mouse_turn_returns ms w IH Ha) E).
  - exact (returns_eq _ _ _ (desktop_key_returns c w th Hc IH) E).
Qed.

(** In every state a session can reach, the windows are coherent and the screen of the
    terminal is the end of what was written to it; and the next turn of the pointer or key
    of the desktop does return - with such a state again, or, for a press of the left button
    only, with the machine off. *)
Theorem session_stays_sane w :
  session w ->
  sane (snd w) /\
  (forall ms, allowed_press ms w ->
     returns (mouse_turn f perf ms w) (fun r => match r with inl w' => sane (snd w') | inr _ => left_pressed ms = true end)) /\
  (forall c th, desktop_key c ->
     returns (key_pressed f perf exec info c (w, th)) (fun '(w', _) => sane (snd w'))).
Proof.
  intros Hw. pose proof (session_well_formed w Hw) as Hs. split; [exact Hs|]. split.
  - intros ms Ha. exact (mouse_turn_returns ms w Hs Ha).
  - intros c th Hc. exact (desktop_key_returns c w th Hc Hs).
Qed.
End KeyProofs.

(** ** The end of a frame *)
Section Waiting.
Context {P : Type} `{PA : PageAlloc P} {K : Type} `{BA : BlockAlloc K} {D : Type} `{IO : PortIO D}.
Context (f : fb) (perf : perf_settings).

(** What the interrupt handlers rely on: the pointer is on the screen, the ring is a queue. *)
Definition ready (m : @machine P K D) : Prop :=
  inv (width f) (height f) (pointer m) /\ exists q, ring (keys m) q.

(** What comes from the controller is a byte. *)
Definition byte_irq (e : irq) : Prop := match e with KeyIrq sc => 0 <= sc < 256 | _ => True end.

Definition is_tick (e : irq) : bool := match e with TimerIrq => true | _ => false end.
Definition tick_count (l : list irq) : nat := length (List.filter is_tick l).

Lemma timer_irqs_S n t : timer_irqs n (timer_irq t) = timer_irq (timer_irqs n t).
Proof. induction n as [|n IH]; [reflexivity|]. cbn [timer_irqs]. rewrite IH. reflexivity. Qed.

(** Interrupts reach the clock, the ring and the pointer, and nothing else. *)
Lemma deliver_all_returns l : forall m,
  Mouse.screen (width f) (height f) -> ready m -> Forall byte_irq l ->
  returns (deliver_all f m l) (fun m' =>
    ready m' /\ clock m' = timer_irqs (tick_count l) (clock m) /\
    here m' = here m /\ tasks m' = tasks m /\ theme_key m' = theme_key m /\ screen_mem m' = screen_mem m).
Proof.
  induction l as [|e l IH]; intros m Hsc Hr Hl; cbn [deliver_all].
  { apply returns_Done. auto 7. }
  apply Forall_cons_1 in Hl as [He Hl]. apply returns_bind.
  apply (returns_mono _ (fun m1 => ready m1 /\ clock m1 = (if is_tick e then timer_irq (clock m) else clock m) /\
    here m1 = here m /\ tasks m1 = tasks m /\ theme_key m1 = theme_key m /\ screen_mem m1 = screen_mem m)).
  - destruct Hr as [Hi [q Hq]]. destruct e as [sc|b|]; cbn [deliver byte_irq is_tick] in *.
    + apply returns_bind. eapply returns_mono; [exact (keyboard_irq_returns _ q sc Hq ltac:(lia))|].
      intros k [q' Hq']. apply returns_Done. split; [|auto]. split; [exact Hi|exists q'; exact Hq'].
    + apply returns_bind. eapply returns_mono; [exact (mouse_irq_returns _ _ _ b Hsc Hi)|].
      intros p Hp. apply returns_Done. split; [|auto]. split; [exact Hp|exists q; exact Hq].
    + apply returns_Done. split; [|auto]. split; [exact Hi|exists q; exact Hq].
  - intros m1 (Hr1 & Ec & Eh & Et & Eth & Es). eapply returns_mono; [exact (IH m1 Hsc Hr1 Hl)|].
    intros m' (Hr' & Ec' & Eh' & Et' & Eth' & Es'). split; [exact Hr'|]. split; [|repeat split; congruence].
    rewrite Ec', Ec. unfold tick_count. cbn [List.filter]. destruct (is_tick e); [apply timer_irqs_S|reflexivity].
Qed.

Lemma frame_ms_range : 0 < target_fps perf < 2 ^ 32 \/ target_fps perf = 0 -> 0 <= frame_ms perf <= 1000.
Proof.
  intros Hf. unfold frame_ms. destruct (Z.eqb_spec (target_fps perf) 0); [lia|].
  Z.to_euclidean_division_equations. nia.
Qed.

(** The wait, with what else it leaves as it was. *)
Lemma wait_frame_returns fuel irqs burst m :
  Mouse.screen (width f) (height f) -> ready m ->
  0 < target_fps perf < 2 ^ 32 \/ target_fps perf = 0 ->
  0 < g_freq (clock m) <= 1000 -> 0 <= g_ticks (clock m) ->
  (g_ticks (clock m) + 1000 + Z.of_nat burst) * 1000 < 2 ^ 64 ->
  (forall i, Forall byte_irq (irqs i) /\ (0 < tick_count (irqs i) <= burst)%nat) ->
  (Z.to_nat (frame_ms perf) < fuel)%nat ->
  returns (wait_frame f perf fuel irqs m) (fun m' =>
    timer_uptime_ms (clock m) + frame_ms perf <= timer_uptime_ms (clock m') /\
    ready m' /\ here m' = here m /\ tasks m' = tasks m /\ screen_mem m' = screen_mem m /\
    g_ticks (clock m) <= g_ticks (clock m') /\ theme_key m' = theme_key m /\ g_freq (clock m') = g_freq (clock m)).
Proof.
  intros Hsc Hr Hfps Hf Hg Hroom Hirqs Hfuel. pose proof (frame_ms_range Hfps) as Hms.
  destruct (clock m) as [g fr] eqn:Eclock. cbn [g_freq g_ticks] in *.
  assert (Hup : forall k, 0 <= k <= frame_ms perf + Z.of_nat burst ->
    timer_uptime_ms (mk_timer (g + k) fr) = (g + k) * 1000 / fr /\
    g * 1000 / fr + k <= (g + k) * 1000 / fr <= (g + k) * 1000).
  { intros k Hk. rewrite uptime_at by lia. split; [reflexivity|]. split; [apply uptime_advance; lia|].
    apply Z.div_le_upper_bound; nia. }
  unfold wait_frame. rewrite Eclock. destruct (Hup 0 ltac:(lia)) as [E0 _]. rewrite Z.add_0_r in E0. rewrite E0.
  pose proof (Z.div_pos (g * 1000) fr ltac:(lia) ltac:(lia)) as Hpos.
  apply (loop_total
    (fun '(i, m') => exists k, clock m' = mk_timer (g + k) fr /\ 0 <= k <= frame_ms perf + Z.of_nat burst /\
       ready m' /\ here m' = here m /\ tasks m' = tasks m /\ screen_mem m' = screen_mem m /\ theme_key m' = theme_key m)
    _ (fun '(i, m') => Z.to_nat (frame_ms perf - (g_ticks (clock m') - g)))).
  - intros [i m'] (k & Ec & Hk & Hr' & Eh & Et & Es & Eth). destruct (Hup k Hk) as [Eu Hu]. rewrite Ec, Eu.
    rewrite u64_small by lia. destruct (Z.ltb_spec ((g + k) * 1000 / fr - g * 1000 / fr) (frame_ms perf)) as [Hlt|Hge].
    + destruct (Hirqs i) as [Hb Hn]. apply returns_bind.
      eapply returns_mono; [exact (deliver_all_returns (irqs i) m' Hsc Hr' Hb)|].
      intros m2 (Hr2 & Ec2 & Eh2 & Et2 & Eth2 & Es2). rewrite Ec in Ec2.
      rewrite timer_irqs_ticks in Ec2 by (cbn [g_ticks]; lia). cbn [g_ticks g_freq] in Ec2.
      apply returns_Done. rewrite Ec2. cbn [g_ticks]. split; [|lia].
      exists (k + Z.of_nat (tick_count (irqs i))). split; [f_equal; lia|]. split; [lia|].
      split; [exact Hr2|]. repeat split; congruence.
    + apply returns_Done. rewrite Ec, Eu. cbn [g_ticks g_freq]. split; [lia|]. repeat (split; [first [assumption|lia]|]). reflexivity.
  - exists 0. rewrite Z.add_0_r. split; [exact Eclock|]. split; [lia|]. auto.
  - rewrite Eclock. cbn [g_ticks]. lia.
Qed.

End Waiting.

(** ** A small machine

    A screen of 16 by 60 pixels without windows, the pointer over the start button, the
    system of [Shell.v], and a task table that is empty. *)
Definition strip_fb : fb := mk_fb 0x1000 16 60 64 32 false 0.
Definition strip_report (_ : @world Z numbered port_log) (t : timer) (s : Sched.sched) : taskinfo :=
  mk_taskinfo (mk_sysinfo (i_cpu small_info) (i_mem small_info) (i_perf small_info) t) (Heap.mk_hstats 0 0 0 0) None.
Definition bare_world : @world Z numbered port_log :=
  (small_desktop, mk_ui (wm_init no_windows) (small_sys demo_vfs) (replicate 256 0)).
Definition start_pointer : mouse :=
  mk_driver (mk_mouse 10 20 0 0 false false false false false false false) false false 0 [0; 0; 0].
Definition strip_machine : @machine Z numbered port_log :=
  mk_machine demo_kbd start_pointer (Sched.mk_sched [] None None 1 0 0) (mk_timer 0 100) bare_world false (mem_of_list 0x1000 (replicate 3840 0)).

Definition tick_only (_ : nat) : list irq := [TimerIrq].
Definition press_packet : list irq := [MouseIrq 9; MouseIrq 0; MouseIrq 0].
(** A press that arrives before the frame opens the start menu; one that arrives while the
    frame is drawn is thrown away by [mouse_poll_frame] at its end, and the menu stays
    closed in the next frame although the button is down. *)
Example press_before_frame :
  (m ← deliver_all strip_fb strip_machine press_packet;
   r ← mouse_turn strip_fb demo_perf (mouse_get (pointer m)) (here m);
   mret (match r with inl w => g_start (fst w) | inr _ => false end)) = Done true.
Proof. vm_compute. reflexivity. Qed.

Example press_while_drawing :
  (r ← kernel_frame strip_fb demo_perf Services.PeSeed.fetch strip_report 20 press_packet tick_only strip_machine;
   match r with
   | inr _ => Fault
   | inl m =>
       r ← mouse_turn strip_fb demo_perf (mouse_get (pointer m)) (here m);
       mret (left (g_mouse (pointer m)), match r with inl w => g_start (fst w) | inr _ => false end)
   end) = Done (true, false).
Proof. vm_compute. reflexivity. Qed.

(** ** Witnesses *)

(** Control-L, then a letter nobody listens to. *)
Definition keys_waiting : kbd := mk_kbd (<[0%nat := 12]> (<[1%nat := 97]> (replicate 256 0))) 2 0 false false false.

Lemma keys_waiting_ring : ring keys_waiting [12; 97].
Proof.
  split; [reflexivity|cbn; lia|reflexivity|cbn; lia|].
  intros [|[|i]] c; cbn; [intros [= <-]; reflexivity|intros [= <-]; reflexivity|discriminate].
Qed.

Lemma handle_keys_drains_witness :
  exists k', ring k' [] /\
    handle_keys strip_fb demo_perf Services.PeSeed.fetch (info_of strip_report strip_machine) (keys_waiting, (bare_world, false)) =
      Done (k', (on_desk desktop_toggle_launcher bare_world, false)).
Proof.
  exact (handle_keys_drains strip_fb demo_perf Services.PeSeed.fetch (info_of strip_report strip_machine)
    keys_waiting [12; 97] (bare_world, false) keys_waiting_ring).
Defined.

Lemma boot_not_dragging :
  (w ← boot_desktop demo_screen demo_perf bare_world; mret (drag_target (wmgr (snd w)))) = Done None.
Proof. vm_compute. reflexivity. Qed.

(** The desktop after the boot, and a press on the button of the file manager. *)
Lemma session_stays_sane_witness :
  exists w, boot_desktop demo_screen demo_perf bare_world = Done w /\
    returns (mouse_turn demo_screen demo_perf (press 310 700) w)
      (fun r => match r with inl w' => sane (snd w') | inr _ => True end).
Proof.
  destruct (boot_desktop_returns demo_screen demo_perf bare_world eq_refl eq_refl) as (w & E & Hw).
  exists w. split; [exact E|].
  destruct (session_stays_sane demo_screen demo_perf Services.PeSeed.fetch (info_of strip_report strip_machine) w) as (_ & Hm & _).
  - exact (session_boot _ _ _ _ bare_world w eq_refl eq_refl E).
  - eapply returns_mono; [apply (Hm (press 310 700))|intros [w'|d]; auto].
    intros _. pose proof boot_not_dragging as H. rewrite E, bind_Done in H. injection H as H. exact H.
Defined.
