(* ===== verification/Boot.v ===== *)
(** * Boot: [kernel_main] of [kernel/core/main.c]

    The initialisation of every component in the order of the code, over one set of
    devices, with what each of them logs ([Messages.v]), and the state it hands to the event
    loop of [Main.v].  [power_init] and [syscall_init] only log; the table of functions of
    [pe_init] is part of [Pe.v], the root table of [vmm_init] is an argument of [Vmm.v].
    The heap of the file system is the early region of [HeapAlloc.v]. *)
From Stdlib Require Import ZArith Lia Bool String.
From stdpp Require Import base tactics option list numbers gmap.
From S2P Require Import Prelude CInt CString PageAlloc BlockAlloc Io Pmm Sched Keyboard HeapAlloc Mem Adaptive Timer Mouse Framebuffer Wm Vfs VfsOps VfsBoot Pe Terminal Shell Messages Apps Desktop Render Main.
From S2P Require Heap Log Interrupts Rtc Pci Security Cpu Services.
#[local] Close Scope string_scope.
#[local] Open Scope Z_scope.

(** The addresses of the three interrupt handlers: distinct and not NULL. *)
Definition TIMER_IRQ : Z := 1.
Definition KEYBOARD_IRQ : Z := 2.
Definition MOUSE_IRQ : Z := 3.

(** ** The static variables before the boot *)
Definition static_kbd : kbd := mk_kbd (replicate 256 0) 0 0 false false false.
Definition static_mouse : mouse :=
  mk_driver (mk_mouse 0 0 0 0 false false false false false false false) false false 0 [0; 0; 0].
Definition static_wm : wm := no_windows.
Definition static_desktop : desktop :=
  mk_desktop THEME_DARK COL_ACCENT false false false false false false 0 0 0 (replicate 48 0) 2 false.

Section Boot.
Context {D : Type} `{IO : PortIO D}.

(** What the code finds: the end of the kernel image, the arena of the heap, the fallback
    surface, the stubs of the interrupts, the cpuid instruction, the address of the boot
    information and the root page table. *)
Context (kernel_end arena fallback_surface : Z) (stub : Z -> Z) (cpuid_ex : Z -> Z -> Cpu.regs) (mb2_addr cr3 : Z).
(** Bounds: tags of the boot information, polls of the clock and of the serial line. *)
Context (fuel polls : nat).

Record kernel := mk_kernel {
  k_log : @Log.log D;
  k_gdt : list Interrupts.gdt_entry;
  k_cpu : Cpu.cpu_info;
  k_idt : list Interrupts.idt_entry;
  k_handlers : list Z;
  k_timer : timer;
  k_kbd : kbd;
  k_mouse : mouse;
  k_pci : Pci.pci;
  k_fb : fb;
  k_screen : mem;
  k_perf : perf_settings;
  k_security : Security.security;
  k_net : Services.Net.net_iface;
  k_ipc : Services.Ipc.ipc;
  k_tasks : sched;
  k_world : @world pmm Heap.heap D   (* with the file system, the pages and the devices *)
}.

(** The table and the handlers, over the current state of the devices. *)
Definition with_ports (s : Interrupts.intr D) (d : D) : Interrupts.intr D :=
  Interrupts.mk_intr (Interrupts.idt s) (Interrupts.irq_handlers s) d.

(** The log over the current state of the devices. *)
Definition with_serial (d : D) (lg : @Log.log D) : Log.log := Log.mk_log (Log.log_ring lg) (Log.log_pos lg) d.
Definition note (d : D) (lg : Log.log) (l : list message) : outcome Log.log := klogs polls (with_serial d lg) l.

(** The boot information has a memory map, and a surface the kernel can draw on. *)
Definition has_map (info : list Z) : outcome bool :=
  o ← mb2_find fuel info MB2_TAG_MMAP; mret (bool_decide (is_Some o)).
Definition has_surface (info : list Z) : outcome bool :=
  o ← mb2_find fuel info MB2_TAG_FRAMEBUFFER;
  r ← match o with Some o => rgb_tag info o | None => mret None end;
  mret (bool_decide (is_Some r)).

(** [gdt_init], [cpu_init], [pmm_init], [heap_init], [vmm_init]. *)
Definition early_boot (lg : Log.log) (info : list Z)
    : outcome (Log.log * list Interrupts.gdt_entry * Cpu.cpu_info * pmm * Heap.heap) :=
  gdt ← Interrupts.gdt_init;
  lg ← klogs polls lg gdt_messages;
  let cpu := Cpu.cpu_init cpuid_ex in
  lg ← klogs polls lg (cpu_messages cpu);
  pm ← pmm_init fuel kernel_end (Some info);
  found ← has_map info;
  lg ← klogs polls lg (pmm_messages found pm);
  h ← Heap.heap_init arena (Heap.mk_heap ∅ 0 0 0 0);
  lg ← klogs polls lg heap_messages;
  lg ← klogs polls lg (vmm_messages cr3);
  mret (lg, gdt, cpu, pm, h).

(** [idt_init], [timer_init]. *)
Definition boot_timer (lg : Log.log) : outcome (Log.log * Interrupts.intr D * timer) :=
  s ← Interrupts.idt_init stub (Interrupts.mk_intr [] [] (Log.serial lg));
  lg ← note (Interrupts.ports s) lg idt_messages;
  let '(t, d) := timer_init (Log.serial lg) 100 in
  s ← Interrupts.irq_install (with_ports s d) 0 TIMER_IRQ;
  lg ← note (Interrupts.ports s) lg (timer_messages t);
  mret (lg, s, t).

(** Those, then [rtc_init], [keyboard_init], [mouse_init], [pci_init]. *)
Definition boot_devices (lg : Log.log) : outcome (Log.log * Interrupts.intr D * timer * kbd * mouse * Pci.pci) :=
  '(lg, s, t) ← boot_timer lg;
  '(now, d) ← Rtc.rtc_init polls (Log.serial lg);
  lg ← note d lg (rtc_messages now);
  let k := keyboard_init static_kbd in
  s ← Interrupts.irq_install (with_ports s (Log.serial lg)) 1 KEYBOARD_IRQ;
  lg ← note (Interrupts.ports s) lg keyboard_messages;
  '(p, d) ← mouse_init static_mouse (Log.serial lg);
  s ← Interrupts.irq_install (with_ports s d) 12 MOUSE_IRQ;
  lg ← note (Interrupts.ports s) lg mouse_messages;
  '(bus, d) ← Pci.pci_init Pci.no_devices (Log.serial lg);
  lg ← note d lg (pci_messages bus);
  mret (lg, s, t, k, p, bus).

(** [vfs_init], [pe_init], [pe_seed_binaries]. *)
Definition boot_files_of (lg : Log.log) (h : Heap.heap) : outcome (Log.log * @vfs Heap.heap) :=
  s ← vfs_init (mk_vfs [] 0 None [] ∅ h);
  lg ← klogs polls lg (vfs_messages (node_count s));
  lg ← klogs polls lg pe_messages;
  '(hello, s) ← Services.PeSeed.pe_seed_binaries s;
  lg ← klogs polls lg (pe_seed_messages (bool_decide (is_Some hello)));
  mret (lg, s).

(** The devices of the world are those the log was last sent to. *)
Definition world_on (d : D) (w : @world pmm Heap.heap D) : world :=
  (fst w, set_shell (set_ports d (shell (snd w))) (snd w)).

(** [kernel_main] up to [kernel_idle]; [d] are the devices, [m] the memory behind the
    screen and the free pages, [ram] the memory programs are loaded to. *)
Definition kernel_main (d : D) (m ram : mem) (mb2 : option (list Z)) : outcome kernel :=
  let lg := Log.klog_init (Log.mk_log [] 0 d) in
  lg ← klogs polls lg banner;
  match mb2 with
  | None => _ ← Log.kpanic polls lg (chars "Missing Multiboot2 information structure") []; Panicked
  | Some info =>
      total_size ← get32 info 0;
      lg ← klogs polls lg (mb2_messages mb2_addr total_size);
      '(lg, gdt, cpu, pm, h) ← early_boot lg info;
      '(lg, s, t, k, p, bus) ← boot_devices lg;
      '(f, pm, m) ← fb_init fuel fallback_surface (Some info) pm m;
      found ← has_surface info;
      lg ← klogs polls lg (fb_messages found f);
      let total := st_total_bytes (pmm_get_stats pm) in
      let perf := adaptive_init total (Cpu.logical_cpus cpu) (Cpu.has_sse2 cpu) in
      lg ← klogs polls lg (adaptive_messages perf total (Cpu.logical_cpus cpu));
      let sec := Security.security_init in
      lg ← klogs polls lg (security_messages (default Security.zero_user (Security.users sec !! default 0%nat (Security.current sec))));
      '(lg, fs) ← boot_files_of lg h;
      let net := Services.Net.net_init in
      lg ← klogs polls lg net_messages;
      let ports := Services.Ipc.ipc_init in
      lg ← klogs polls lg ipc_messages;
      lg ← klogs polls lg power_messages;
      tasks ← sched_init 64;
      lg ← klogs polls lg sched_messages;
      lg ← klogs polls lg syscall_messages;
      lg ← klogs polls lg wm_messages;
      lg ← klogs polls lg desktop_messages;
      let sys := mk_sys zero_term fs pm ram 0 false (mk_console None None) (Log.serial lg) in
      w ← boot_desktop f perf (static_desktop, mk_ui static_wm sys (replicate 256 0));
      lg ← klogs polls lg ready_messages;
      mret (mk_kernel lg gdt cpu (Interrupts.idt s) (Interrupts.irq_handlers s) t k p bus f m perf sec net ports tasks
              (world_on (Log.serial lg) w))
  end.

(** The time the clock shows when [kernel_main] gets to it: that of [rtc_read] on the devices
    as the messages before have left them. *)
Definition clock_reading (d : D) (info : list Z) : outcome Rtc.rtc_time :=
  lg ← klogs polls (Log.klog_init (Log.mk_log [] 0 d)) banner;
  total_size ← get32 info 0;
  lg ← klogs polls lg (mb2_messages mb2_addr total_size);
  '(lg, _, _, _, _) ← early_boot lg info;
  '(lg, _, _) ← boot_timer lg;
  '(now, _) ← Rtc.rtc_read polls (Log.serial lg);
  mret now.

(** What the applications read of the other components: [cpu_get_info], [pmm_get_stats],
    [adaptive_settings], [timer_uptime_ms], [heap_get_stats], [sched_current]. *)
Definition report_of (cpu : Cpu.cpu_info) (perf : perf_settings) (w : @world pmm Heap.heap D) (t : timer) (s : sched) : taskinfo :=
  let sys := shell (snd w) in
  mk_taskinfo (mk_sysinfo cpu (pmm_get_stats (pg sys)) perf t) (Heap.heap_get_stats (heap (fs sys)))
    (match sched_current s with Some i => Sched.tasks s !! i | None => None end).
Definition kernel_report (k : kernel) : @world pmm Heap.heap D -> timer -> sched -> taskinfo :=
  report_of (k_cpu k) (adaptive_settings (k_perf k)).

(** What [kernel_idle] starts from. *)
Definition machine_of (k : kernel) : @machine pmm Heap.heap D :=
  mk_machine (k_kbd k) (k_mouse k) (k_tasks k) (k_timer k) (k_world k) false (k_screen k).
End Boot.
Arguments kernel D : clear implicits.

(** ** The parts of the boot *)
Lemma hello_fits : fits boot_names boot_paths (chars "/bin") (chars "hello.exe").
Proof. apply fitsb_fits. vm_compute. reflexivity. Qed.

Definition hello_path : list Z := chars "/bin/hello.exe".

Section BootProofs.
Context {D : Type} {IO : PortIO D} {U : Log.Uart D} {UL : Log.UartLaws D}.
Context (kernel_end arena fallback_surface : Z) (stub : Z -> Z) (cpuid_ex : Z -> Z -> Cpu.regs) (mb2_addr cr3 : Z).
Context (fuel polls : nat).

(** *** The log while the kernel starts *)

(** The serial line is always ready. *)
Definition line_ready : Prop := (0 < polls)%nat /\ forall d : D, Log.uart_ready d.

(** The log has exactly the lines of [l]. *)
Definition logged (lg : @Log.log D) (l : list message) : Prop := Log.holds lg (transcript l).

Lemma note_logged d lg l l' :
  line_ready -> logged lg l -> forallb well_formed l' = true ->
  returns (note polls d lg l') (fun lg' => logged lg' (l ++ l')).
Proof.
  intros [Hp Hr] [H1 H2 H3 H4] Hw. unfold note. eapply returns_mono;
    [apply (klogs_append polls Hp l' (with_serial d lg) (transcript l)); [split; [exact H1|exact H2|exact H3|apply Hr]|exact Hw]|].
  intros lg' [Hh _]. unfold logged. rewrite transcript_app. exact Hh.
Qed.

Lemma klogs_logged lg l l' :
  line_ready -> logged lg l -> forallb well_formed l' = true ->
  returns (klogs polls lg l') (fun lg' => logged lg' (l ++ l')).
Proof. intros Hr Hl Hw. replace lg with (with_serial (Log.serial lg) lg) by (destruct lg; reflexivity). apply note_logged; assumption. Qed.

Lemma log_starts d : line_ready -> logged (Log.klog_init (Log.mk_log [] 0 d)) [].
Proof.
  intros [_ Hr]. split; [|reflexivity| |apply Hr].
  - cbn [Log.klog_init Log.log_ring]. rewrite length_replicate. reflexivity.
  - intros i c Hi. change (transcript []) with (@nil Z) in Hi. rewrite lookup_nil in Hi. discriminate.
Qed.

Lemma pci_messages_well_formed bus : forallb well_formed (pci_messages bus) = true.
Proof.
  unfold pci_messages. cbn [forallb]. apply andb_true_iff. split; [reflexivity|].
  generalize (take (Z.to_nat (Z.min (Pci.device_count bus) 8)) (Pci.devices bus)). intros l.
  induction l as [|d l IH]; [reflexivity|]. cbn [map forallb]. rewrite IH. reflexivity.
Qed.

Ltac logs H :=
  apply returns_bind; eapply returns_mono;
  [first [apply (note_logged _ _ _ _ ltac:(eassumption) H)|apply (klogs_logged _ _ _ ltac:(eassumption) H)];
   first [apply pci_messages_well_formed|reflexivity]|];
  clear H; intros ? H; cbv beta in H.

(** The files of the boot and the sample program, each with its text or empty. *)
Definition boot_tree (s : @vfs Heap.heap) : Prop :=
  exists fl, booted s (chars "hello.exe" :: boot_names) boot_paths fl /\
    forall f t, (f, t) ∈ (hello_path, Services.PeSeed.hello_exe) :: boot_files ->
      exists c, (f, c) ∈ fl /\ (c = t \/ c = []).

Lemma boot_tree_file s f t : boot_tree s -> (f, t) ∈ (hello_path, Services.PeSeed.hello_exe) :: boot_files -> has_file s f t.
Proof.
  intros (fl & Hb & Hall) Hft. destruct (Hall f t Hft) as (c & Hc & Hcase).
  destruct (bt_files _ _ _ _ Hb f c Hc) as (_ & i & n & Er & En & Hty & Hbytes). exists i, n.
  rewrite Hbytes. auto.
Qed.

Lemma boot_files_returns lg l h :
  line_ready -> logged lg l -> ba_ok h ->
  returns (boot_files_of polls lg h) (fun '(lg', s) =>
    boot_tree s /\ logged lg' (((l ++ vfs_messages 17) ++ pe_messages) ++ pe_seed_messages true)).
Proof.
  intros Hline Hl Hok. unfold boot_files_of. apply returns_bind.
  eapply returns_mono; [exact (vfs_init_returns (mk_vfs [] 0 None [] ∅ h) Hok)|].
  intros s (fl & Efl & Hb). rewrite (bt_count _ _ _ _ Hb). change (Z.of_nat (length boot_names)) with 17. logs Hl. logs Hl. unfold Services.PeSeed.pe_seed_binaries. apply returns_bind.
  assert (Hbin : properb (chars "bin") = true) by (vm_compute; reflexivity). apply returns_bind.
  eapply returns_mono; [apply (mkdir_existing s _ _ _ [] (chars "bin") 493 Hb)|].
  - apply (bool_decide_unpack (chars "/bin" ∈ boot_paths)). vm_compute. reflexivity.
  - apply (bool_decide_unpack (chars "/" ∈ boot_paths)). vm_compute. reflexivity.
  - left. reflexivity.
  - constructor.
  - unfold properb in Hbin. apply bool_decide_eq_true in Hbin as (H1 & H2 & H3 & H4 & H5 & H6). split; assumption.
  - apply Nat.leb_le. reflexivity.
  - intros [r s1] ->. destruct (boot_add s _ _ _ VFS_FILE 493 (chars "/bin") (chars "hello.exe") Hb hello_fits) as ([i s2] & Ea & -> & _).
    destruct (create_write_returns s _ _ _ (chars "/bin") (chars "hello.exe") 493 Services.PeSeed.hello_exe
      Services.PeSeed.hello_exe_len Hb hello_fits) as (s3 & Ew & p & _ & Hb3).
    { rewrite Services.PeSeed.hello_exe_length. unfold Services.PeSeed.hello_exe_len. lia. }
    { reflexivity. }
    change (chars "/bin/hello.exe") with (join (chars "/bin") (chars "hello.exe")). unfold vfs_create in *.
    rewrite Ea in Ew |- *. cbn [mbind outcome_bind] in Ew. apply bind_Done_inv in Ew as ([z s4] & E4 & E). injection E as ->.
    rewrite bind_Done, E4, bind_Done. apply returns_Done. logs Hl. apply returns_Done. split; [|exact Hl].
    eexists. split; [exact Hb3|]. intros f t Hft. apply elem_of_cons in Hft as [[= -> ->]|Hft].
    + eexists. split; [left|]. rewrite take_ge by (pose proof Services.PeSeed.hello_exe_length; lia).
      unfold stored. destruct (p =? 0); auto.
    + destruct (seeds_In _ _ _ _ Efl f t Hft) as (c & Hc & Hcase). exists c. split; [|exact Hcase].
      right. apply elem_of_app. left. exact (elem_of_rev _ _ Hc).
Qed.

Lemma install_returns (s : Interrupts.intr D) irq h :
  length (Interrupts.irq_handlers s) = 16%nat -> 0 <= irq < 16 ->
  returns (Interrupts.irq_install s irq h) (fun s' =>
    Interrupts.irq_handlers s' = <[Z.to_nat irq := h]> (Interrupts.irq_handlers s) /\ Interrupts.idt s' = Interrupts.idt s).
Proof.
  intros Hl Hi. unfold Interrupts.irq_install. destruct (Z.ltb_spec irq 16); [|lia].
  rewrite arr_set_Done by lia. rewrite bind_Done. apply returns_Done. split; reflexivity.
Qed.

(** The handlers after the boot. *)
Definition boot_handlers : list Z :=
  <[12%nat := MOUSE_IRQ]> (<[1%nat := KEYBOARD_IRQ]> (<[0%nat := TIMER_IRQ]> (replicate 16 0))).

(** The clock's update ends within the polls. *)
Definition clock_settles : Prop := forall d : D, returns (Rtc.rtc_read polls d) (fun _ => True).

Definition device_messages (t : timer) (now : Rtc.rtc_time) (bus : Pci.pci) : list message :=
  idt_messages ++ timer_messages t ++ rtc_messages now ++ keyboard_messages ++ mouse_messages ++ pci_messages bus.

Lemma boot_timer_returns lg l :
  (forall v, 0 <= v < 256 -> 0 <= stub v < 2 ^ 64) -> line_ready -> logged lg l ->
  returns (boot_timer stub polls lg) (fun '(lg', s, t) =>
    Interrupts.irq_handlers s = <[0%nat := TIMER_IRQ]> (replicate 16 0) /\ t = mk_timer 0 100 /\
    logged lg' ((l ++ idt_messages) ++ timer_messages t)).
Proof.
  intros Hstub Hline Hl. apply returns_bind.
  eapply returns_mono; [exact (Interrupts.idt_init_gates stub (Interrupts.mk_intr [] [] (Log.serial lg)) Hstub)|].
  intros s0 (E0 & _). logs Hl. cbn [timer_init]. apply returns_bind.
  eapply returns_mono; [apply (install_returns _ 0 TIMER_IRQ); [cbn; rewrite E0; reflexivity|lia]|].
  intros s1 [E1 _]. cbn [with_ports Interrupts.irq_handlers] in E1. rewrite E0 in E1. logs Hl.
  apply returns_Done. auto.
Qed.

(** The clock is read on the devices [boot_timer] leaves. *)
Lemma boot_devices_returns lg l :
  (forall v, 0 <= v < 256 -> 0 <= stub v < 2 ^ 64) -> clock_settles -> line_ready -> logged lg l ->
  returns (boot_devices stub polls lg) (fun '(lg', s, t, k, p, bus) =>
    Interrupts.irq_handlers s = boot_handlers /\ t = mk_timer 0 100 /\ k = static_kbd /\
    p = mk_driver mouse_blank false false 0 [0; 0; 0] /\ Pci.table_ok bus /\
    exists now, ('(lg1, _, _) ← boot_timer stub polls lg; '(now, _) ← Rtc.rtc_read polls (Log.serial lg1); mret now) = Done now /\
      logged lg' (l ++ device_messages t now bus)).
Proof.
  intros Hstub Hclock Hline Hl. unfold boot_devices.
  destruct (boot_timer_returns lg l Hstub Hline Hl) as ([[lg1 s1] t1] & -> & E1 & -> & Hl1). clear Hl. rename Hl1 into Hl.
  rewrite !bind_Done. unfold Rtc.rtc_init. destruct (Hclock (Log.serial lg1)) as ([now d1] & -> & _). rewrite !bind_Done.
  logs Hl. apply returns_bind.
  eapply returns_mono; [apply (install_returns _ 1 KEYBOARD_IRQ); [cbn; rewrite E1; reflexivity|lia]|].
  intros s2 [E2 _]. cbn [with_ports Interrupts.irq_handlers] in E2. rewrite E1 in E2. logs Hl. apply returns_bind.
  eapply returns_mono; [apply (mouse_init_returns static_mouse)|]. intros [p d2] ->. apply returns_bind.
  eapply returns_mono; [apply (install_returns _ 12 MOUSE_IRQ); [cbn; rewrite E2; reflexivity|lia]|].
  intros s3 [E3 _]. cbn [with_ports Interrupts.irq_handlers] in E3. rewrite E2 in E3. logs Hl. apply returns_bind.
  eapply returns_mono; [apply (Pci.pci_init_returns Pci.no_devices); reflexivity|].
  intros [bus d3] Hbus. logs Hl. apply returns_Done. split; [exact E3|]. repeat (split; [first [reflexivity|apply Hbus]|]).
  exists now. split; [reflexivity|]. unfold device_messages. rewrite <- !app_assoc in Hl. exact Hl.
Qed.

(** What the kernel relies on of the machine and of the boot loader: a memory map, a 32-bit
    RGB surface the pointer's first position lies on, memory behind the surface and the
    available pages, the arena below 4 GiB, a clock that settles, and a serial line that is
    ready. *)
Record bootable (info : list Z) (m : mem) (w h : Z) : Prop := {
  bo_kernel : 0x100000 <= kernel_end /\ kernel_end + 4095 < 2 ^ 64;
  bo_screen : 640 < w < 2 ^ 30 /\ 360 < h < 2 ^ 30;
  bo_map : exists o n esz, mb2_find fuel info MB2_TAG_MMAP = Done (Some o) /\ map_ok info o n esz /\
    forall p, available info o n esz p -> mapped m (p * PAGE_SIZE) PAGE_SIZE;
  bo_surface : exists o addr pi bits, mb2_find fuel info MB2_TAG_FRAMEBUFFER = Done (Some o) /\
    rgb_tag info o = Done (Some (addr, w, h, pi, bits)) /\ tag_ok m addr w h pi;
  bo_arena : 0 < arena /\ arena + Heap.EARLY_HEAP <= 2 ^ 32;
  bo_stubs : forall v, 0 <= v < 256 -> 0 <= stub v < 2 ^ 64;
  bo_clock : clock_settles;
  bo_line : line_ready;
  bo_total : exists total_size, get32 info 0 = Done total_size
}.

(** The idle task, running and queued. *)
Definition idle_tasks : outcome sched := sched_init 64.

Lemma idle_current : returns idle_tasks (fun s => current s = Some 0%nat).
Proof. vm_compute. eexists. split; reflexivity. Qed.

Lemma gdt_init_returns : returns Interrupts.gdt_init (fun g => length g = 5%nat).
Proof. vm_compute. eexists. split; reflexivity. Qed.

(** Everything the boot logs, in order: [total_size] is that of the boot information, [now] the
    time read, [pm] the pages after [pmm_init]; [vfs_init] leaves 17 nodes. *)
Definition boot_messages (total_size : Z) (now : Rtc.rtc_time) (pm : pmm) (k : kernel D) : list message :=
  banner ++ mb2_messages mb2_addr total_size ++ gdt_messages ++ cpu_messages (k_cpu k) ++ pmm_messages true pm ++
  heap_messages ++ vmm_messages cr3 ++ device_messages (k_timer k) now (k_pci k) ++ fb_messages true (k_fb k) ++
  adaptive_messages (k_perf k) (st_total_bytes (pmm_get_stats (pg (shell (snd (k_world k)))))) (Cpu.logical_cpus (k_cpu k)) ++
  security_messages (Security.mk_user 1000 1000 (Security.name_field (chars "user")) true) ++
  vfs_messages 17 ++ pe_messages ++ pe_seed_messages true ++ net_messages ++ ipc_messages ++ power_messages ++
  sched_messages ++ syscall_messages ++ wm_messages ++ desktop_messages ++ ready_messages.

(** What a boot leaves: [sys] is the system the terminal is given, and [fs0] its files. *)
Record started (sys : @sys pmm Heap.heap D) (k : kernel D) (w h : Z) : Prop := {
  sr_surf : surf (k_fb k) (k_screen k) /\ shown_mapped (k_fb k) (k_screen k);
  sr_size : width (k_fb k) = w /\ height (k_fb k) = h;
  sr_perf : exists bytes cpus sse2, k_perf k = adaptive_init bytes cpus sse2;
  sr_input : k_kbd k = static_kbd /\ k_mouse k = mk_driver mouse_blank false false 0 [0; 0; 0];
  sr_timer : k_timer k = mk_timer 0 100;
  sr_handlers : k_handlers k = boot_handlers;
  sr_tasks : idle_tasks = Done (k_tasks k);
  sr_pages : pa_ok (pg sys) /\ forall p, pa_free (pg sys) p -> kernel_end <= p * PAGE_SIZE;
  sr_files : boot_tree (fs sys);
  sr_world : boot_desktop (k_fb k) (k_perf k) (static_desktop, mk_ui static_wm sys (replicate 256 0)) = Done (k_world k)
}.

(** What it logs, with the values found. *)
Definition boot_logged (d : D) (info : list Z) (k : kernel D) : Prop :=
  exists total_size now pm, logged (k_log k) (boot_messages total_size now pm k) /\
    get32 info 0 = Done total_size /\ pmm_init fuel kernel_end (Some info) = Done pm /\
    clock_reading kernel_end arena stub cpuid_ex mb2_addr cr3 fuel polls d info = Done now.

(** The devices do not matter to the start of the desktop. *)
Lemma boot_desktop_ports f perf dk w (s : @sys pmm Heap.heap D) q d :
  boot_desktop f perf (dk, mk_ui w (set_ports d s) q) =
    (x ← boot_desktop f perf (dk, mk_ui w s q); mret (world_on d x)).
Proof.
  assert (Hsay : forall (s' : @sys pmm Heap.heap D) x, say (set_ports d s') x = (r ← say s' x; mret (set_ports d r)))
    by (intros s' x; unfold say; cbn [term set_ports]; destruct (term_println (term s') x); reflexivity).
  unfold boot_desktop, terminal_open_ui, terminal_open. cbn [wmgr set_wmgr shell fst snd fm_path].
  destruct (desktop_init dk) as [dk'| | |]; try reflexivity. rewrite !bind_Done.
  destruct (wm_create _ _ _ _ _ _ _) as [[i|] wm']; [|reflexivity].
  change (set_hooks ?c (set_term ?t (set_ports d s))) with (set_ports d (set_hooks c (set_term t s))).
  rewrite Hsay. destruct (say (set_hooks _ _) _) as [s1| | |]; try reflexivity. cbn [mbind outcome_bind mret outcome_ret].
  rewrite Hsay. destruct (say s1 _) as [s2| | |]; reflexivity.
Qed.

Lemma has_map_found info o : mb2_find fuel info MB2_TAG_MMAP = Done (Some o) -> has_map fuel info = Done true.
Proof. intros E. unfold has_map. rewrite E. reflexivity. Qed.

Lemma has_surface_found info o x :
  mb2_find fuel info MB2_TAG_FRAMEBUFFER = Done (Some o) -> rgb_tag info o = Done (Some x) -> has_surface fuel info = Done true.
Proof. intros E Er. unfold has_surface. rewrite E, bind_Done, Er. reflexivity. Qed.

(** The descriptor tables, the processor, the pages and the heap. *)
Lemma early_boot_returns lg l info o n esz :
  0x100000 <= kernel_end /\ kernel_end + 4095 < 2 ^ 64 -> 0 < arena /\ arena + Heap.EARLY_HEAP <= 2 ^ 32 ->
  mb2_find fuel info MB2_TAG_MMAP = Done (Some o) -> map_ok info o n esz -> line_ready -> logged lg l ->
  returns (early_boot kernel_end arena cpuid_ex cr3 fuel polls lg info) (fun '(lg', gdt, cpu, pm, hp) =>
    cpu = Cpu.cpu_init cpuid_ex /\ pmm_init fuel kernel_end (Some info) = Done pm /\ pa_ok pm /\
    (forall p, free pm p -> 256 <= p /\ kernel_end <= p * PAGE_SIZE /\ available info o n esz p) /\ ba_ok hp /\
    logged lg' (l ++ gdt_messages ++ cpu_messages cpu ++ pmm_messages true pm ++ heap_messages ++ vmm_messages cr3)).
Proof.
  intros [Hk1 Hk2] [Ha1 Ha2] Hfind Hmap Hline Hl. apply returns_bind.
  eapply returns_mono; [exact gdt_init_returns|]. intros gdt _. logs Hl. logs Hl.
  destruct (pmm_init_map fuel kernel_end info o n esz Hfind Hmap Hk1 Hk2) as (pm & Epm & Hinv & Hfree). rewrite Epm, bind_Done.
  rewrite (has_map_found info o Hfind), bind_Done. logs Hl. apply returns_bind.
  eapply returns_mono; [exact (heap_init_returns arena _ Ha1 Ha2)|]. intros hp Hhp. logs Hl. logs Hl. apply returns_Done.
  split; [reflexivity|]. split; [reflexivity|]. split; [split; [exact Hinv|intros H0; specialize (Hfree 0 H0); lia]|].
  split; [exact Hfree|]. split; [eexists; exact Hhp|]. rewrite <- !app_assoc in Hl. exact Hl.
Qed.

Lemma kernel_main_returns d m ram info w h :
  bootable info m w h ->
  returns (kernel_main kernel_end arena fallback_surface stub cpuid_ex mb2_addr cr3 fuel polls d m ram (Some info))
    (fun k => boot_logged d info k /\ exists sys, started sys k w h /\ Shell.ram sys = ram /\ pages_mapped m (pg sys)).
Proof.
  intros [Hkern [Hw Hh] (o & n & esz & Hfind & Hmap & Hram) (o2 & addr & pi & bits & Hfind2 & Htag & Hsurf) Harena
    Hstub Hclock Hline [total Htotal]].
  unfold kernel_main. destruct (klogs_logged _ _ banner Hline (log_starts d Hline) eq_refl) as (lg1 & E1 & Hl1).
  rewrite E1, bind_Done, Htotal, bind_Done.
  destruct (klogs_logged _ _ (mb2_messages mb2_addr total) Hline Hl1 eq_refl) as (lg2 & E2 & Hl2). rewrite E2, bind_Done.
  destruct (early_boot_returns lg2 _ info o n esz Hkern Harena Hfind Hmap Hline Hl2)
    as ([[[[lg3 gdt] cpu] pm] hp] & E3 & -> & Epm & Hok & Hfree & Hhp & Hl). rewrite E3, bind_Done.
  apply returns_bind. eapply returns_mono; [exact (boot_devices_returns _ _ Hstub Hclock Hline Hl)|]. clear Hl.
  intros [[[[[lg s] t] k] p] bus] (Eh & -> & -> & -> & _ & now & Enow & Hl). apply returns_bind.
  eapply returns_mono; [apply (fb_init_returns fuel fallback_surface (Some info) info o2 pm m addr w h pi bits)|].
  - unfold fb_mb2_find. rewrite Hfind2. reflexivity.
  - exact Htag.
  - exact Hsurf.
  - exact Hok.
  - intros q Hq. apply Hram, (Hfree q Hq).
  - intros [[f pm'] m'] (Hs & Ew & Eht & Hok' & Hfree' & Hshown).
    rewrite (has_surface_found info o2 _ Hfind2 Htag), bind_Done.
    apply returns_bind. eapply returns_mono;
      [apply (klogs_logged _ _ (fb_messages true f) Hline Hl); unfold fb_messages; destruct (double_buffered f); reflexivity|].
    clear lg Hl. intros lg Hl. cbv beta in Hl. logs Hl. logs Hl. apply returns_bind.
    eapply returns_mono; [exact (boot_files_returns _ _ hp Hline Hl Hhp)|].
    clear Hl. intros [lg4 fs0] (Hfs & Hl). logs Hl. logs Hl. logs Hl. apply returns_bind. destruct idle_current as (tasks & Etasks & _).
    rewrite (Etasks : sched_init 64 = Done tasks). exists tasks. split; [reflexivity|]. logs Hl. logs Hl. logs Hl. logs Hl.
    set (perf := adaptive_init _ _ _) in *. set (sys := mk_sys zero_term fs0 _ _ _ _ _ _).
    destruct (boot_desktop_returns f perf (static_desktop, mk_ui static_wm sys (replicate 256 0)) eq_refl eq_refl)
      as (wd & Ewd & _ & _ & _ & (_ & _ & tm & hs & _ & _ & Esh)).
    rewrite Ewd, bind_Done. logs Hl. apply returns_Done. match type of Hl with logged ?lgf _ => set (lge := lgf) in * end.
    split.
    { exists total, now, pm. split; [|split; [exact Htotal|split; [exact Epm|]]].
      - rewrite <- !app_assoc in Hl. unfold boot_messages.
        cbn [k_log k_cpu k_timer k_pci k_fb k_perf k_world world_on shell snd set_shell]. rewrite Esh. exact Hl.
      - unfold clock_reading. rewrite E1, bind_Done, Htotal, bind_Done, E2, bind_Done, E3, bind_Done. exact Enow. }
    exists (set_ports (Log.serial lge) sys). split; [|split; [reflexivity|intros q Hq; apply Hram, (Hfree q), Hfree', Hq]].
    split; try reflexivity; try assumption; try (split; assumption).
    + do 3 eexists. reflexivity.
    + split; [reflexivity|]. reflexivity.
    + split; [exact Hok'|]. intros q Hq. apply Hfree, Hfree', Hq.
    + cbn [k_fb k_perf k_world]. rewrite boot_desktop_ports, Ewd. reflexivity.
Qed.

(** Without boot information the banner is all there is before the panic. *)
Lemma kernel_main_panics d m ram : line_ready ->
  kernel_main kernel_end arena fallback_surface stub cpuid_ex mb2_addr cr3 fuel polls d m ram None = Panicked.
Proof.
  intros Hline. unfold kernel_main. destruct (klogs_logged _ _ banner Hline (log_starts d Hline) eq_refl) as (lg & -> & Hl).
  rewrite bind_Done. pose proof (Log.kpanic_returns polls lg _ (map Log.Lit (chars "Missing Multiboot2 information structure")) [] _
    (proj1 Hline) Hl eq_refl) as (lg2 & E & _). change (Log.format_text _) with (chars "Missing Multiboot2 information structure") in E.
  rewrite E. reflexivity.
Qed.

Lemma static_ring : ring static_kbd [].
Proof. split; [reflexivity|cbn; lia|reflexivity|cbn; lia|discriminate]. Qed.

(** C23: [kernel_main], started by a boot loader that left what the kernel relies on, gets
    to its event loop, and finds there what the loop and the applications rely on: a mapped
    surface with the pointer on it, an empty ring of keys, a timer at 100 Hz, the three
    handlers, the idle task, free pages that are available memory, the boot files and the
    sample program at their paths (or empty, for want of memory), and the windows and the
    terminal at the start of a session.  Without boot information it panics. *)
Theorem kernel_main_boots exec info_of_apps d m ram info w h :
  bootable info m w h ->
  kernel_main kernel_end arena fallback_surface stub cpuid_ex mb2_addr cr3 fuel polls d m ram None = Panicked /\
  returns (kernel_main kernel_end arena fallback_surface stub cpuid_ex mb2_addr cr3 fuel polls d m ram (Some info)) (fun k =>
    surf (k_fb k) (k_screen k) /\ width (k_fb k) = w /\ height (k_fb k) = h /\
    ready (k_fb k) (machine_of k) /\ ring (k_kbd k) [] /\ k_timer k = mk_timer 0 100 /\
    k_handlers k = boot_handlers /\ current (k_tasks k) = Some 0%nat /\
    (let s := shell (snd (k_world k)) in
     pa_ok (pg s) /\ (forall p, pa_free (pg s) p -> kernel_end <= p * PAGE_SIZE) /\
     (exists kids, tree (fs s) kids) /\ store (fs s) /\
     forall f t, (f, t) ∈ (hello_path, Services.PeSeed.hello_exe) :: boot_files -> has_file (fs s) f t) /\
    session (k_fb k) (k_perf k) exec info_of_apps (k_world k) /\ popups_closed (k_world k)).
Proof.
  intros Hb. split; [exact (kernel_main_panics d m ram (bo_line _ _ _ _ Hb))|].
  eapply returns_mono; [exact (kernel_main_returns d m ram info w h Hb)|].
  intros k (_ & sys & [[Hs _] [Ew Eh] _ [Ek Em] Et Ehd Etk [Hpa Hfree] Hfs Ewd] & _).
  destruct (bo_screen _ _ _ _ Hb) as [Hw Hh].
  destruct (boot_desktop_returns (k_fb k) (k_perf k) (static_desktop, mk_ui static_wm sys (replicate 256 0)) eq_refl eq_refl)
    as (wd & Ewd' & _ & Hpop & _ & (_ & _ & tm & hs & _ & _ & Esh)).
  rewrite Ewd in Ewd'. injection Ewd' as <-. cbn [shell snd set_wmgr] in Esh.
  split; [exact Hs|]. split; [exact Ew|]. split; [exact Eh|].
  split. { split; [|exists []; unfold machine_of; cbn [keys]; rewrite Ek; exact static_ring].
           unfold machine_of. cbn [pointer]. rewrite Em, Ew, Eh. split; cbn; lia. }
  split; [rewrite Ek; exact static_ring|]. split; [exact Et|]. split; [exact Ehd|].
  split; [destruct idle_current as (ts & Ets & Hc); rewrite Etk in Ets; injection Ets as <-; exact Hc|].
  split; [|split; [exact (session_boot _ _ _ _ (static_desktop, mk_ui static_wm sys (replicate 256 0)) (k_world k) eq_refl eq_refl Ewd)|exact Hpop]].
  cbv zeta. rewrite Esh. cbn [pg fs set_hooks set_term]. split; [exact Hpa|]. split; [exact Hfree|].
  pose proof Hfs as (fl & Hb' & _). split; [apply Hb'|]. split; [apply Hb'|].
  intros f t. exact (boot_tree_file _ f t Hfs).
Qed.

(** C37: What the kernel logs while it starts: the ring buffer ends with the lines of the
    boot, the banner first, then one or more for every component in the order they are
    started - the last 8192 characters of them, each in its place.  They have the values
    found: the size the boot information gives, the memory [pmm_init] makes of its map, the
    time [rtc_read] reads on the devices as they are when the clock's turn comes, the 17
    nodes [vfs_init] leaves, and the processor, the devices of the bus, the surface, the
    profile and the user that the kernel goes on with.  Every format is given the arguments
    it reads. *)
Theorem kernel_log_holds d m ram info w h :
  bootable info m w h ->
  returns (kernel_main kernel_end arena fallback_surface stub cpuid_ex mb2_addr cr3 fuel polls d m ram (Some info)) (fun k =>
    exists total_size now pm,
      Log.holds (k_log k) (transcript (boot_messages total_size now pm k)) /\
      get32 info 0 = Done total_size /\ pmm_init fuel kernel_end (Some info) = Done pm /\
      clock_reading kernel_end arena stub cpuid_ex mb2_addr cr3 fuel polls d info = Done now).
Proof.
  intros Hb. eapply returns_mono; [exact (kernel_main_returns d m ram info w h Hb)|]. intros k (Hlog & _). exact Hlog.
Qed.
End BootProofs.

(** ** A machine that boots

    1 MiB of memory at 1 MiB of which the kernel takes a quarter, a screen of 1024 by 768 at
    256 MiB, and ports that read 0. *)
Definition boot_info : list Z :=
  le32 88 ++ le32 0 ++
  le32 6 ++ le32 40 ++ le32 24 ++ le32 0 ++
  le32 0x100000 ++ le32 0 ++ le32 0x100000 ++ le32 0 ++ le32 1 ++ le32 0 ++
  le32 8 ++ le32 32 ++ le32 0x10000000 ++ le32 0 ++ le32 4096 ++ le32 1024 ++ le32 768 ++ [32; 1; 0; 0] ++
  le32 0 ++ le32 8.

Definition boot_memory : mem := mem_of_list 0 (replicate (Z.to_nat (2 ^ 29)) 0).

Lemma boot_memory_mapped p n : 0 <= p -> p + n <= 2 ^ 29 -> mapped boot_memory p n.
Proof.
  intros Hp Hn a Ha. apply (mem_of_list_mapped 0 (replicate (Z.to_nat (2 ^ 29)) 0) p n); [lia| |exact Ha].
  rewrite length_replicate, Z2Nat.id by lia. lia.
Qed.

(** The line of [port_log] is always ready: what it sent is what was written to its port. *)
#[export] Instance port_log_uart : Log.Uart port_log := {
  Log.uart_ready _ := True;
  Log.uart_sent d := map snd (filter (fun x => fst x = Log.COM1) (port_writes d))
}.
#[export] Instance port_log_uart_laws : Log.UartLaws port_log.
Proof.
  split.
  - intros d _. exists 0x20, d. repeat split. discriminate.
  - intros d c _. split; [exact I|]. cbn [Log.uart_sent port_log_uart port_writes outb port_log_io].
    rewrite filter_app, map_app. reflexivity.
Qed.

Lemma small_bootable :
  bootable 0x140000 0x200000 (fun v => v) 8 2 boot_info boot_memory 1024 768 (D := port_log).
Proof.
  split.
  - lia.
  - lia.
  - exists 8, 1, 24. split; [reflexivity|]. split.
    + split; [reflexivity|]. intros i Hi. assert (i = 0) as -> by lia.
      exists (mk_entry 0x100000 0x100000 1). split; [reflexivity|]. vm_compute. intuition discriminate.
    + intros p (i & e & Hi & He & Hin). assert (i = 0) as -> by lia. vm_compute in He. injection He as <-.
      destruct Hin as (_ & H1 & H2). unfold PAGE_SIZE in *. cbn [e_addr e_len] in H1, H2. apply boot_memory_mapped; lia.
  - exists 48, 0x10000000, 4096, 32. split; [reflexivity|]. split; [reflexivity|].
    split; [lia|lia|]. apply boot_memory_mapped; lia.
  - unfold Heap.EARLY_HEAP. lia.
  - intros v Hv. lia.
  - intros d. eexists. split; [reflexivity|exact I].
  - split; [lia|]. intros d. exact I.
  - exists 88. reflexivity.
Qed.

Lemma kernel_main_boots_witness :
  returns (kernel_main 0x140000 0x200000 0x80000 (fun v => v) (fun _ _ => Cpu.mk_regs 0 0 0 0) 0x9000 0x1000 8 2
             (mk_ports []) boot_memory ∅ (Some boot_info))
    (fun k => surf (k_fb k) (k_screen k) /\ width (k_fb k) = 1024 /\
       has_file (fs (shell (snd (k_world k)))) hello_path Services.PeSeed.hello_exe /\ popups_closed (k_world k)).
Proof.
  destruct (kernel_main_boots 0x140000 0x200000 0x80000 (fun v => v) (fun _ _ => Cpu.mk_regs 0 0 0 0) 0x9000 0x1000 8 2
    Services.PeSeed.fetch (fun w => report_of (i_cpu small_info) demo_perf w (mk_timer 0 100) (mk_sched [] None None 1 0 0)) (mk_ports []) boot_memory ∅ boot_info 1024 768 small_bootable)
    as [_ Hk].
  eapply returns_mono; [exact Hk|]. intros k (Hs & Hw & _ & _ & _ & _ & _ & _ & (_ & _ & _ & _ & Hf) & _ & Hp).
  split; [exact Hs|]. split; [exact Hw|]. split; [|exact Hp]. apply Hf. left.
Defined.

(** The ports read 0: the clock shows the first second of the year 2000, in a month 0. *)
Lemma kernel_log_holds_witness :
  returns (kernel_main 0x140000 0x200000 0x80000 (fun v => v) (fun _ _ => Cpu.mk_regs 0 0 0 0) 0x9000 0x1000 8 2
             (mk_ports []) boot_memory ∅ (Some boot_info))
    (fun k => exists now pm, Rtc.year now = 2000 /\ Rtc.month now = 0 /\
       Log.holds (k_log k) (transcript (boot_messages 0x9000 0x1000 88 now pm k))).
Proof.
  eapply returns_mono;
    [apply (kernel_log_holds 0x140000 0x200000 0x80000 (fun v => v) (fun _ _ => Cpu.mk_regs 0 0 0 0) 0x9000 0x1000 8 2
      (mk_ports []) boot_memory ∅ boot_info 1024 768 small_bootable)|].
  intros k (total & now & pm & Hl & Et & _ & En). injection Et as <-. exists now, pm.
  vm_compute in En. injection En as <-. split; [reflexivity|]. split; [reflexivity|exact Hl].
Defined.
