(* ===== verification/System.v ===== *)
(** * The running system

    The parts together: from a boot on, frame after frame, with whatever the keyboard, the
    mouse and the timer do in between, until a click powers the machine off.  What may be
    typed is limited to lines that are [harmless] ([Programs.v]): paths and new names fit
    the buffers of the terminal and the file manager, and a program that is run is one the
    loader can take, with free pages for it; everything else - files made, copied and removed, windows opened, moved, snapped and closed,
    popups, drawing at any position - is free. *)
From Stdlib Require Import ZArith Lia Bool String.
From stdpp Require Import base tactics option list numbers gmap.
From S2P Require Import Prelude CInt CString PageAlloc BlockAlloc Io Pmm Keyboard HeapAlloc Mem Adaptive Timer Mouse Framebuffer Wm Vfs VfsOps VfsLive VfsBoot Pe Terminal Shell Commands Programs Apps Desktop Render Main Boot.
From S2P Require Heap Log Sched Interrupts Cpu Services.
#[local] Close Scope string_scope.
#[local] Open Scope Z_scope.

(** ** What a frame relies on, and keeps *)
Section Frames.
Context {P : Type} {PA : PageAlloc P} {PL : PageAllocLaws P} {K : Type} `{BA : BlockAllocLaws K} {D : Type} `{IO : PortIO D}.
Context (f : fb) (perf : perf_settings) (exec : processor) (Hexec : polite exec).
Context (report : @world P K D -> timer -> Sched.sched -> taskinfo).
Implicit Types w : @world P K D.
Implicit Types u : @ui P K D.

(** The windows, the terminal, the files, the free pages and the file manager. *)
Record steady u : Prop := {
  st_windows : all_drawable (wmgr u);
  st_term : exists h i, shows (term (shell u)) h /\ typed (term (shell u)) i;
  st_files : living (fs (shell u));
  st_pages : pages_there (shell u);
  st_path : exists p, holds 256 (fm_path u) p /\ (length p <= 229)%nat
}.

(** The task that runs. *)
Definition task_ok (s : Sched.sched) : Prop :=
  exists i t, Sched.current s = Some i /\ Sched.tasks s !! i = Some t /\
    0 <= Sched.id t < 2 ^ 64 /\ 0 <= Sched.ticks t < 2 ^ 64 /\ exists n, holds 32 (Sched.name t) n.

(** What the display and the reports are. *)
Record setting : Prop := {
  se_screen : Mouse.screen (width f) (height f);
  se_small : small_screen f;
  se_fps : 0 < target_fps perf < 2 ^ 32 \/ target_fps perf = 0;
  se_report : forall w t s, steady (snd w) -> 0 < g_freq t -> task_ok s -> reportable (report w t s)
}.

Record healthy (m : @machine P K D) : Prop := {
  he_ready : ready f m;
  he_surf : surf f (screen_mem m) /\ shown_mapped f (screen_mem m);
  he_ui : steady (snd (here m));
  he_query : exists q, holds 48 (g_search_q (fst (here m))) q;
  he_clock : 0 < g_freq (clock m) <= 1000 /\ 0 <= g_ticks (clock m);
  he_task : task_ok (tasks m)
}.

Context (S : setting).

Lemma steady_renderable u : steady u -> renderable u.
Proof. intros [Hw Ht Hf _ Hp]. split; [exact Hw|exact Ht|apply Hf|exact Hp]. Qed.

(** ** Opening, snapping and clicking *)
Lemma open_window_steady ttl x y wd h drawf userp u :
  in_i32 x -> in_i32 y -> drawf ∈ [0; TERM_DRAW; CALC_DRAW; SETTINGS_DRAW; FM_DRAW; TM_DRAW] ->
  steady u -> steady (snd (open_window perf ttl x y wd h drawf userp u)).
Proof.
  intros Hx Hy Hd [Hw Ht Hf Hg Hp]. unfold open_window.
  pose proof (create_drawable perf (wmgr u) (Some (chars ttl)) x y wd h Hx Hy Hw) as Hc.
  destruct (wm_create _ _ _ _ _ _ _) as [[i|] s]; cbn [snd] in *; (split; [|exact Ht|exact Hf|exact Hg|exact Hp]); [|exact Hc].
  cbn [wmgr set_wmgr]. apply upd_drawable; [exact Hc|]. intros [Hpl _ Hk]. split; [exact Hpl|exact Hd|exact Hk].
Qed.

Lemma terminal_steady u u' :
  all_drawable (wmgr u) -> living (fs (shell u)) -> pages_there (shell u) -> (exists p, holds 256 (fm_path u) p /\ (length p <= 229)%nat) ->
  terminal_opened f perf u u' -> steady u'.
Proof.
  intros Hw Hf Hg Hp (Ew & Ep & t & h & Hs & Hty & E). split.
  - rewrite Ew. unfold terminal_wm. pose proof (i32_range (i32 (width f) - 640)) as Hr.
    pose proof (create_drawable perf (wmgr u) (Some (chars "Terminal")) (Z.quot (i32 (i32 (width f) - 640)) 2) 80 640 400) as Hc.
    destruct (wm_create _ _ _ _ _ _ _) as [[i|] s]; cbn [snd] in Hc.
    + apply upd_drawable; [apply Hc; [unfold in_i32; Z.to_euclidean_division_equations; lia|unfold in_i32; lia|exact Hw]|].
      intros [Hpl _ _]. split; [exact Hpl|right; left|right; reflexivity].
    + apply Hc; [unfold in_i32; Z.to_euclidean_division_equations; lia|unfold in_i32; lia|exact Hw].
  - rewrite E. exists h, []. split; [exact Hs|exact Hty].
  - rewrite E. exact Hf.
  - rewrite E. exact Hg.
  - rewrite Ep. exact Hp.
Qed.

(** The working directory copied to [g_fm.path]. *)
Lemma path_copied path c :
  length path = 256%nat -> str_ok c -> (length c <= 229)%nat ->
  exists p, holds 256 (strncpy_arr path c (Z.to_nat (VFS_PATH_MAX - 1))) p /\ (length p <= 229)%nat.
Proof.
  intros Hl Hc Hn. change (Z.to_nat (VFS_PATH_MAX - 1)) with 255%nat. exists c. split; [|exact Hn]. unfold strncpy_arr.
  rewrite take_ge by lia. split; [rewrite !length_app, length_replicate, length_drop; lia|]. split; [exact Hc|].
  replace (255 - length c)%nat with (Datatypes.S (254 - length c)) by lia. cbn [replicate app]. eexists. reflexivity.
Qed.

Lemma steady_contract : contract f perf steady (fun _ => True).
Proof.
  split.
  - intros u Hu. eapply returns_mono; [exact (terminal_open_ui_returns f perf u)|]. intros [r u'] H.
    destruct Hu as [Hw _ Hf Hg Hp]. exact (terminal_steady u u' Hw Hf Hg Hp H).
  - intros u [Hw Ht Hf Hg (p & (Hl & _) & _)]. apply open_window_steady; [unfold in_i32; lia..| |].
    { unfold FM_DRAW. repeat (first [left; reflexivity|right]). }
    destruct (desk_cwd _ (lv_dirs _ Hf)) as [(_ & _ & Hc) Hcl]. split; [exact Hw|exact Ht|exact Hf|exact Hg|]. cbn [fm_path].
    apply path_copied; [exact Hl|exact Hc|unfold vfs_cwd; lia].
  - intros u Hu. apply open_window_steady; [unfold in_i32; lia..| |exact Hu]. unfold SETTINGS_DRAW. repeat (first [left; reflexivity|right]).
  - intros u Hu. apply open_window_steady; [unfold in_i32; lia..| |exact Hu]. unfold CALC_DRAW. repeat (first [left; reflexivity|right]).
  - intros u Hu. apply open_window_steady; [unfold in_i32; lia..| |exact Hu]. unfold TM_DRAW. repeat (first [left; reflexivity|right]).
  - intros u i [Hw Ht Hf Hg Hp] _. split; [apply restore_drawable, Hw|exact Ht|exact Hf|exact Hg|exact Hp].
  - intros u i [Hw Ht Hf Hg Hp]. split; [apply snap_drawable, Hw|exact Ht|exact Hf|exact Hg|exact Hp].
Qed.

(** ** Keys *)

(** The key is no newline, or no window listens to keys, or the line typed is [harmless]. *)
Definition calm_key (c : Z) u : bool :=
  if (c =? 10) || (c =? 13) then
    match focused (wmgr u) with
    | Some i => (on_key (win (wmgr u) i) =? 0) || harmless (shell u) (cstr (input (term (shell u))))
    | None => true
    end
  else true.

(** So are all keys of a list, in turn. *)
Fixpoint calm_keys (info : @world P K D -> taskinfo) (q : list Z) (s : @world P K D * bool) : Prop :=
  match q with
  | [] => True
  | c :: q' => calm_key c (snd (fst s)) = true /\
      forall s', key_pressed f perf exec info c s = Done s' -> calm_keys info q' s'
  end.

Lemma set_shell_steady u t h i :
  steady u -> shows t h -> typed t i -> steady (set_shell (set_term t (shell u)) u).
Proof. intros [Hw _ Hf Hg Hp] Hs Ht. split; [exact Hw|exists h, i; auto|exact Hf|exact Hg|exact Hp]. Qed.

Lemma enter_steady inf u :
  steady u -> harmless (shell u) (cstr (input (term (shell u)))) = true ->
  returns (enter_line exec inf (shell u)) (fun s' => steady (set_shell s' u)).
Proof.
  intros [Hw (h & line & Hs & Ht) Hf Hg Hp] Hq.
  destruct (ty_buf _ _ Ht) as (Hl & Hline & rest & Ein). pose proof (holds_length _ _ _ (ty_buf _ _ Ht)) as Hlen.
  rewrite Ein, cstr_app_nul in Hq by exact Hline. destruct (desk_cwd _ (lv_dirs _ Hf)) as [(_ & _ & Hcwd) _].
  destruct (enter_line_runs exec inf (shell u) h line Hs Ht Hcwd) as (s0 & -> & (t0 & ->) & Hs0 & Ht0). apply returns_bind.
  eapply returns_mono; [apply (line_serves exec Hexec inf (set_term t0 (shell u)) _ line Hf Hs0 Hg Hline ltac:(lia) Hq)|].
  intros s1 (Hv & (h1 & Hs1 & Hi1 & Hn1) & Hg1 & _). apply returns_Done. cbn [term set_term] in *.
  split; [exact Hw| |exact Hv|exact Hg1|exact Hp]. exists h1, []. split; [exact Hs1|]. destruct Ht0 as [Hb Hz].
  split; [change (holds 128 (input (term s1)) []); rewrite Hi1; exact Hb|change (in_len (term s1) = 0); rewrite Hn1; exact Hz].
Qed.

Lemma term_key_steady inf u c :
  steady u -> ((c =? 10) || (c =? 13) = true -> harmless (shell u) (cstr (input (term (shell u)))) = true) ->
  returns (term_on_key exec inf (shell u) c) (fun s' => steady (set_shell s' u)).
Proof.
  intros Hu Hq. unfold term_on_key. destruct (_ || _); [exact (enter_steady inf u Hu (Hq eq_refl))|].
  destruct (st_term _ Hu) as (h & i & Hs & Ht). apply returns_bind.
  eapply returns_mono; [exact (edit_input_returns _ i c Ht)|]. intros t (Ht' & El & Er). apply returns_Done.
  apply (set_shell_steady u t h (edit i c)); [exact Hu| |exact Ht']. destruct Hs as [Hr Hne Hrow].
  split; [rewrite El, Er; exact Hr|exact Hne|rewrite Er; exact Hrow].
Qed.

Lemma key_steady info query c w th :
  keeping steady query w -> calm_key c (snd w) = true ->
  returns (key_pressed f perf exec info c (w, th)) (fun '(w', _) => keeping steady query w').
Proof.
  intros Hw Hc. destruct (decide (desktop_key c)) as [Hd|Hd].
  { exact (desktop_key_keeps f perf exec info steady _ steady_contract query c w th Hd Hw). }
  unfold desktop_key in Hd. rewrite !not_elem_of_cons in Hd. destruct Hd as (H1 & H2 & H3 & H4 & H5 & H6 & _).
  unfold key_pressed. rewrite (proj2 (Z.eqb_neq _ _) H1), (proj2 (Z.eqb_neq _ _) H2), (proj2 (Z.eqb_neq _ _) H3),
    (proj2 (Z.eqb_neq _ _) H4), (proj2 (Z.eqb_neq _ _) H5), (proj2 (Z.eqb_neq _ _) H6). destruct Hw as [Hu Hq].
  apply returns_bind. apply (returns_mono _ steady); [|intros u Hu'; apply returns_Done; split; [exact Hu'|exact Hq]].
  unfold wm_handle_key, calm_key in *. destruct (focused (wmgr (snd w))) as [i|]; [|apply returns_Done; exact Hu].
  destruct (Z.eqb_spec (on_key (win (wmgr (snd w)) i)) 0) as [E|Hne]; cbn [negb]; [apply returns_Done; exact Hu|].
  destruct (dw_key _ (win_drawable _ i (st_windows _ Hu))) as [E|E]; [contradiction|]. rewrite E. unfold call_key.
  cbn [Z.eqb TERM_KEY Pos.eqb]. apply returns_bind.
  eapply returns_mono; [apply (term_key_steady (i_sys (info w)) (snd w) c Hu)|intros s' Hs'; apply returns_Done; exact Hs'].
  intros Hn. rewrite Hn in Hc. exact Hc.
Qed.

Lemma keys_steady info query q : forall w th,
  keeping steady query w -> calm_keys info q (w, th) ->
  returns (press_keys f perf exec info q (w, th)) (fun '(w', _) => keeping steady query w').
Proof.
  induction q as [|c q IH]; intros w th Hw Hc; cbn [press_keys]; [apply returns_Done; exact Hw|].
  destruct Hc as [Hc Hq]. destruct (key_steady info query c w th Hw Hc) as ([w1 th1] & E & H1). rewrite E, bind_Done.
  exact (IH w1 th1 H1 (Hq _ E)).
Qed.

(** ** A frame *)

(** A frame in which no line that writes is entered, the timer ticks in every turn of the
    wait, and the milliseconds since the boot are in the range of their type. *)
Record calm_frame (fuel : nat) (during : list irq) (waiting : nat -> list irq) (m : @machine P K D) : Prop := {
  cf_keys : forall q, ring (keys m) q -> calm_keys (info_of report m) q (here m, theme_key m);
  cf_during : Forall byte_irq during;
  cf_waiting : exists burst, (forall i, Forall byte_irq (waiting i) /\ (0 < tick_count (waiting i) <= burst)%nat) /\
    (g_ticks (clock m) + Z.of_nat (tick_count during) + 1000 + Z.of_nat burst) * 1000 < 2 ^ 64;
  cf_fuel : (1000 < fuel)%nat
}.

Lemma task_ticks s : task_ok s -> returns (Sched.sched_tick s) task_ok.
Proof.
  intros (i & t & Ec & Et & Hid & Ht & Hn). unfold Sched.sched_tick. rewrite Ec. cbn [Sched.upd_opt].
  unfold Sched.upd, Sched.task_at. rewrite Et, bind_Done. apply returns_Done.
  exists i, (Sched.set_ticks (u64 (Sched.ticks t + 1)) t). split; [exact Ec|]. cbn [Sched.tasks Sched.set_tasks].
  split; [apply list_lookup_insert_eq; exact (lookup_lt_Some _ _ _ Et)|]. split; [exact Hid|]. split; [apply u64_range|exact Hn].
Qed.

(** No byte outside the surface drawn to and the one shown changed. *)
Definition untouched (m m' : mem) : Prop :=
  forall a, ~ (surface f <= a < surface f + pitch f * height f) ->
    ~ (pixels f <= a < pixels f + pitch f * height f) -> m' !! a = m !! a.

Lemma frame_healthy fuel during waiting m :
  healthy m -> calm_frame fuel during waiting m ->
  returns (kernel_frame f perf exec report fuel during waiting m) (fun r =>
    match r with
    | inl m' => healthy m' /\ untouched (screen_mem m) (screen_mem m')
    | inr _ => left_pressed (mouse_get (pointer m)) = true
    end).
Proof.
  intros [[Hi (q & Hq)] [Hs Hv] Hu (qs & Hqs) [Hf Hg] Ht] [Hkeys Hdur (burst & Hwait & Htime) Hfuel].
  unfold kernel_frame. set (query := g_search_q (fst (here m))) in *.
  destruct (key_loop_drains f perf exec (info_of report m) q 257 (keys m) (here m, theme_key m) Hq) as (k & Hk & E);
    [pose proof (ring_size _ _ Hq); lia|].
  unfold handle_keys. rewrite E. clear E.
  destruct (keys_steady (info_of report m) query q (here m) (theme_key m) (conj Hu eq_refl) (Hkeys q Hq)) as ([w th] & -> & Hw).
  rewrite !bind_Done. apply returns_bind.
  eapply returns_mono; [apply (mouse_turn_keeps f perf steady _ steady_contract query (mouse_get (pointer m)) w)|].
  { intros u [H1 H2 H3 H4 H5]. split; [apply mouse_drawable, H1|exact H2|exact H3|exact H4|exact H5]. }
  { exact Hw. }
  { intros _. exact I. }
  intros [w2|d] Hr; [|apply returns_Done; exact Hr]. destruct Hr as [Hu2 Hq2]. cbv zeta.
  apply returns_bind. eapply returns_mono; [exact (task_ticks _ Ht)|]. intros s Hts. apply returns_bind.
  set (m1 := set_tasks s _).
  eapply returns_mono; [apply (deliver_all_returns f during m1 (se_screen S)); [|exact Hdur]|].
  { split; [exact Hi|exists []; exact Hk]. }
  intros m2 (Hr2 & Ec2 & Eh2 & Et2 & _ & Es2). apply returns_bind.
  cbn [clock here tasks screen_mem set_tasks set_keys set_here m1] in Ec2, Eh2, Et2, Es2.
  rewrite timer_irqs_ticks in Ec2 by (first [exact Hg|lia]).
  assert (Hf2 : 0 < g_freq (clock m2) <= 1000 /\ 0 <= g_ticks (clock m2) /\
    g_ticks (clock m2) = g_ticks (clock m) + Z.of_nat (tick_count during)) by (rewrite Ec2; cbn; lia).
  assert (Hu3 : steady (snd (here m2))) by (rewrite Eh2; exact Hu2).
  assert (Hq3 : g_search_q (fst (here m2)) = query).
  { rewrite Eh2. cbn. unfold desktop_tick. destruct (animations perf); exact Hq2. }
  assert (Hsm : surf f (screen_mem m2) /\ shown_mapped f (screen_mem m2)) by (rewrite Es2; auto).
  eapply returns_mono; [apply (desktop_render_returns f perf (info_of report m2 (here m2)) (pointer m2) (here m2) qs (screen_mem m2))|].
  { apply Hsm. } { apply Hsm. } { apply S. } { apply Hr2. } { apply steady_renderable, Hu3. }
  { apply (se_report S); [exact Hu3|lia|rewrite Et2; exact Hts]. }
  { rewrite Hq3. exact Hqs. }
  intros px (Hs3 & Hv3 & Hout). set (m3 := set_pointer _ _).
  assert (Hr3 : ready f m3) by (destruct Hr2 as [[H1 H2 H3 H4] H5]; split; [split; assumption|exact H5]).
  apply returns_bind.
  eapply returns_mono; [apply (wait_frame_returns f perf fuel waiting burst m3 (se_screen S) Hr3 (se_fps S))|].
  { apply Hf2. } { apply Hf2. } { cbn. lia. } { exact Hwait. } { pose proof (frame_ms_range perf (se_fps S)). lia. }
  intros m4 (_ & Hr4 & Eh4 & Et4 & Es4 & Ek4 & _ & Ef4). apply returns_Done.
  assert (Hun : untouched (screen_mem m) (screen_mem m4)) by (intros a H1 H2; rewrite Es4, <- Es2; exact (Hout a H1 H2)).
  split; [|exact Hun]. split; [exact Hr4|rewrite Es4; auto|rewrite Eh4; exact Hu3|rewrite Eh4; cbn; rewrite Hq3; eauto| |].
  - rewrite Ef4. split; [apply Hf2|]. etransitivity; [|exact Ek4]. apply Hf2.
  - rewrite Et4. cbn. rewrite Et2. exact Hts.
Qed.

(** The frames since a start. *)
Inductive runs (m0 : @machine P K D) : @machine P K D -> Prop :=
  | runs_start : runs m0 m0
  | runs_frame fuel during waiting m m' :
      runs m0 m -> calm_frame fuel during waiting m ->
      kernel_frame f perf exec report fuel during waiting m = Done (inl m') -> runs m0 m'.

Lemma runs_healthy m0 m : healthy m0 -> runs m0 m -> healthy m /\ untouched (screen_mem m0) (screen_mem m).
Proof.
  intros Hm0. induction 1 as [|fuel during waiting m m' _ [IH Hun] Hc E]; [split; [exact Hm0|intros a _ _; reflexivity]|].
  destruct (returns_eq _ _ _ (frame_healthy fuel during waiting m IH Hc) E) as [Hm' Hun']. split; [exact Hm'|].
  intros a H1 H2. rewrite (Hun' a H1 H2). exact (Hun a H1 H2).
Qed.
End Frames.

(** ** From the boot on *)
Section Started.
Context {D : Type} {IO : PortIO D} {U : Log.Uart D} {UL : Log.UartLaws D}.
Context (kernel_end arena fallback_surface : Z) (stub : Z -> Z) (cpuid_ex : Z -> Z -> Cpu.regs) (mb2_addr cr3 : Z).
Context (fuel polls : nat) (info : list Z).

(** The boot names fit the columns of the file manager. *)
Lemma booted_living (v : @vfs Heap.heap) used dirs fl :
  booted v used dirs fl -> Forall (fun x => (length x < 20)%nat) used -> living v.
Proof.
  intros Hb Hu. split; [split; [apply Hb| |]|apply Hb].
  2: { rewrite (bt_cwd _ _ _ _ Hb). split; [|cbn; lia]. split; [reflexivity|]. split; [cbn; lia|]. repeat constructor. discriminate. }
  intros i Hi.
  destruct (decide (name_at (nodes v) i ∈ used)) as [Hin|Hout].
  - rewrite Forall_forall in Hu. exact (Hu _ Hin).
  - destruct (bt_names _ _ _ _ Hb _ Hout i Hi eq_refl).
Qed.

Lemma boot_names_short : Forall (fun x => (length x < 20)%nat) (chars "hello.exe" :: boot_names).
Proof. apply (bool_decide_unpack (Forall _ _)). vm_compute. reflexivity. Qed.

Lemma heap_words (h : Heap.heap) : ba_ok h -> 0 <= Heap.heap_used h < 2 ^ 64 /\ 0 <= Heap.heap_total h < 2 ^ 64.
Proof. intros [l [r Hr]]. rewrite (Heap.rep_used _ _ _ Hr), (Heap.rep_total _ _ _ Hr). split; apply u64_range. Qed.

Lemma idle_ok : returns idle_tasks task_ok.
Proof.
  eexists. split; [vm_compute; reflexivity|]. exists 0%nat. eexists. split; [reflexivity|]. split; [reflexivity|].
  split; [cbn; lia|]. split; [cbn; lia|]. exists (chars "kernel-idle"). split; [reflexivity|].
  split; [vm_compute; repeat constructor; discriminate|]. exists (replicate 20 0). reflexivity.
Qed.

Context (sys : @sys pmm Heap.heap D) (k : kernel D) (w h : Z) (St : started kernel_end sys k w h).
Context (Hpages : pages_there sys) (Hw : 640 < w <= 2 ^ 27) (Hh : 360 < h <= 2 ^ 27).

Lemma world_opened :
  terminal_opened (k_fb k) (k_perf k) (mk_ui (wm_init static_wm) sys (replicate 256 0)) (snd (k_world k)) /\
  g_search_q (fst (k_world k)) = replicate 48 0.
Proof.
  destruct (boot_desktop_returns (k_fb k) (k_perf k) (static_desktop, mk_ui static_wm sys (replicate 256 0)) eq_refl eq_refl)
    as (wd & E & _ & _ & Hq & Ho). rewrite (sr_world _ _ _ _ _ St) in E. injection E as <-. split; [exact Ho|exact Hq].
Qed.

Lemma kernel_setting : setting (k_fb k) (k_perf k) (kernel_report k).
Proof.
  destruct (sr_size _ _ _ _ _ St) as [Ew Eh]. split; [split; rewrite ?Ew, ?Eh; lia|split; rewrite ?Ew, ?Eh; lia| |].
  - destruct (sr_perf _ _ _ _ _ St) as (b & c & s & ->). left. unfold adaptive_init. repeat case_match; cbn; lia.
  - intros wd t s Hs Hf (i & tk & Ec & Et & Hid & Hti & Hn). split; [exact Hf| |].
    + cbn [kernel_report report_of i_heap Heap.heap_get_stats Heap.hs_used Heap.hs_total].
      exact (heap_words _ (st_ok _ (lv_store _ (st_files _ Hs)))).
    + cbn [kernel_report report_of i_task]. unfold Sched.sched_current. rewrite Ec, Et. intros t' [= <-]. auto.
Qed.

Lemma kernel_healthy : healthy (k_fb k) (machine_of k).
Proof.
  destruct (sr_size _ _ _ _ _ St) as [Ew Eh]. destruct (sr_input _ _ _ _ _ St) as [Ek Em]. destruct world_opened as [Ho Hq].
  split.
  - split; [|exists []; unfold machine_of; cbn [keys]; rewrite Ek; exact static_ring].
    unfold machine_of. cbn [pointer]. rewrite Em, Ew, Eh. split; cbn; lia.
  - exact (sr_surf _ _ _ _ _ St).
  - refine (terminal_steady _ _ (mk_ui (wm_init static_wm) sys (replicate 256 0)) _ (init_drawable static_wm) _ Hpages _ Ho).
    { destruct (sr_files _ _ _ _ _ St) as (fl & Hb & _). exact (booted_living _ _ _ _ Hb boot_names_short). }
    exists []. split; [|cbn; lia]. split; [reflexivity|]. split; [constructor|]. exists (replicate 255 0). reflexivity.
  - exists []. unfold machine_of. cbn [here]. rewrite Hq. split; [reflexivity|]. split; [constructor|]. exists (replicate 47 0). reflexivity.
  - unfold machine_of. cbn [clock]. rewrite (sr_timer _ _ _ _ _ St). cbn. lia.
  - unfold machine_of. cbn [tasks]. exact (returns_eq _ _ _ idle_ok (sr_tasks _ _ _ _ _ St)).
Qed.
End Started.

(** C1: The kernel, started by a boot loader that left what it relies on, reaches its event
    loop, and from there on every frame returns: no frame faults, panics or hangs, whatever
    the keyboard, the mouse and the timer deliver before, while and after it draws, wherever
    windows have been moved and whatever popups are open - it ends with the next frame, or
    with the machine powered off, and that after a left press only.  In every state that is
    reached the windows, the terminal, the file system and the pointer are well formed, and
    no memory outside the two surfaces was drawn to.  The lines that are entered
    are [harmless]: their paths and new names are not too long, and the programs they run are
    images the loader can take, on a processor that keeps the memory that was there and
    prints strings ([polite]); every turn of a wait
    sees a tick, and less than 2 ^ 64 milliseconds have passed. *)
Theorem system_keeps_running {D} {IO : PortIO D} {U : Log.Uart D} {UL : Log.UartLaws D}
    kernel_end arena fallback_surface stub cpuid_ex mb2_addr cr3 fuel polls
    exec (d : D) m ram info w h :
  polite exec -> (forall p n, mapped m p n -> mapped ram p n) ->
  bootable kernel_end arena stub fuel polls info m w h (D := D) -> w <= 2 ^ 27 -> h <= 2 ^ 27 ->
  returns (kernel_main kernel_end arena fallback_surface stub cpuid_ex mb2_addr cr3 fuel polls d m ram (Some info)) (fun k =>
    forall mc, runs (k_fb k) (k_perf k) exec (kernel_report k) (machine_of k) mc ->
      healthy (k_fb k) mc /\ untouched (k_fb k) (k_screen k) (screen_mem mc) /\
      forall turns during waiting, calm_frame (k_fb k) (k_perf k) exec (kernel_report k) turns during waiting mc ->
        returns (kernel_frame (k_fb k) (k_perf k) exec (kernel_report k) turns during waiting mc) (fun r =>
          match r with
          | inl mc' => runs (k_fb k) (k_perf k) exec (kernel_report k) (machine_of k) mc'
          | inr _ => left_pressed (mouse_get (pointer mc)) = true
          end)).
Proof.
  intros Hexec Hram Hb Hw Hh. eapply returns_mono;
    [exact (kernel_main_returns kernel_end arena fallback_surface stub cpuid_ex mb2_addr cr3 fuel polls d m ram info w h Hb)|].
  intros k (_ & sys & St & Er & Hpm).
  assert (Hpages : pages_there sys) by (split; [apply (sr_pages _ _ _ _ _ St)|rewrite Er; intros p Hp; apply Hram, Hpm, Hp]).
  destruct (bo_screen _ _ _ _ _ _ _ _ _ Hb) as [Hbw Hbh].
  pose proof (kernel_setting _ _ _ _ _ St (conj (proj1 Hbw) Hw) (conj (proj1 Hbh) Hh)) as Hset.
  pose proof (kernel_healthy _ _ _ _ _ St Hpages (conj (proj1 Hbw) Hw) (conj (proj1 Hbh) Hh)) as H0.
  intros mc Hr. destruct (runs_healthy _ _ exec Hexec _ Hset _ mc H0 Hr) as [Hm Hun]. split; [exact Hm|]. split; [exact Hun|].
  intros turns during waiting Hc. destruct (frame_healthy _ _ exec Hexec _ Hset turns during waiting mc Hm Hc) as (r & E & Hres).
  exists r. split; [exact E|]. destruct r as [mc'|d']; [|exact Hres]. exact (runs_frame _ _ _ _ _ _ _ _ mc mc' Hr Hc E).
Qed.

(** ** Witness: the machine of [Boot.v], a second of letters typed and moves made *)
Definition typing : list irq := [KeyIrq 0x1E; MouseIrq 8; MouseIrq 5; MouseIrq 5; TimerIrq].

Lemma empty_ring k : ring k [] -> forall q, ring k q -> q = [].
Proof. intros He q Hq. apply (ring_empty k q Hq), (ring_empty k [] He). reflexivity. Qed.

Lemma first_frame_calm (k : kernel port_log) exec :
  k_kbd k = static_kbd -> k_timer k = mk_timer 0 100 ->
  calm_frame (k_fb k) (k_perf k) exec (kernel_report k) 1001 typing tick_only (machine_of k).
Proof.
  intros Ek Et. split.
  - intros q Hq. unfold machine_of in Hq. cbn [keys] in Hq. rewrite Ek in Hq. rewrite (empty_ring _ static_ring q Hq). exact I.
  - repeat constructor; lia.
  - exists 1%nat. split; [intros i; split; [repeat constructor|cbn; lia]|]. unfold machine_of. cbn [clock]. rewrite Et. cbn. lia.
  - lia.
Qed.

Lemma system_keeps_running_witness :
  returns (k ← kernel_main 0x140000 0x200000 0x80000 (fun v => v) (fun _ _ => Cpu.mk_regs 0 0 0 0) 0x9000 0x1000 8 2
             (mk_ports []) boot_memory boot_memory (Some boot_info);
           r ← kernel_frame (k_fb k) (k_perf k) greet (kernel_report k) 1001 typing tick_only (machine_of k);
           mret (k, r))
    (fun '(k, r) => match r with
       | inl mc => healthy (k_fb k) mc
       | inr _ => False
       end).
Proof.
  pose proof (kernel_main_returns 0x140000 0x200000 0x80000 (fun v => v) (fun _ _ => Cpu.mk_regs 0 0 0 0) 0x9000 0x1000 8 2
    (mk_ports []) boot_memory boot_memory boot_info 1024 768 small_bootable) as Hk.
  destruct (system_keeps_running 0x140000 0x200000 0x80000 (fun v => v) (fun _ _ => Cpu.mk_regs 0 0 0 0) 0x9000 0x1000 8 2
    greet (mk_ports []) boot_memory boot_memory boot_info 1024 768 greet_polite (fun _ _ H => H) small_bootable) as (k & E & Hrun); [lia|lia|].
  destruct (returns_eq _ _ _ Hk E) as (_ & sys & [_ _ _ [Ek Em] Et _ _ _ _ _] & _). apply returns_bind. exists k. split; [exact E|].
  destruct (Hrun _ (runs_start _ _ _ _ _)) as (_ & _ & Hframe).
  destruct (Hframe 1001%nat typing tick_only (first_frame_calm k _ Ek Et)) as (r & Er & Hr). rewrite Er, bind_Done.
  apply returns_Done. destruct r as [mc|d].
  - exact (proj1 (Hrun mc Hr)).
  - unfold machine_of in Hr. cbn [pointer] in Hr. rewrite Em in Hr. discriminate.
Defined.
